(** * blottertools: a shallow embedding of the six-stage blotter pipeline

    The development follows the layout of the repository:

    - [Dec]       : the arithmetic of [decimal.Decimal] that the stages use
                    (construction from a string, [+], [-], [/], precision 28);
    - [Float]     : the floats that [read_csv] makes of numerals, and their
                    exact conversion to a decimal;
    - values, rows and [DataFrame] : the part of pandas the stages call
                    ([reset_index], [set_index], [groupby], [agg], [shift],
                    [update], [dropna], [sort_index]);
    - the object store and the monad [M] in which task functions mutate
                    frames that may be aliased by the executor;
    - [blottertools/decorators.py] ([df_task]) and
      [blottertools/adapters.py] ([Executor], [transform], [Pipeline.run]);
    - [functions.py] ([step1_create_pk] ... [step6_agg_daily] and the
      utility functions);
    - the theorems. *)

From Stdlib Require Import List ZArith NArith String Ascii Bool Lia.
From Stdlib Require Import Permutation Sorted.
From Stdlib Require OrdersEx.
From Stdlib Require Import DecimalString DecimalZ DecimalN DecimalPos.
From Stdlib Require Import QArith Qpower Qfield.
Import ListNotations.

Local Open Scope string_scope.
Local Open Scope Z_scope.

Set Implicit Arguments.

(* ================================================================== *)
(** * Exceptions and results *)
(* ================================================================== *)

(** The Python exceptions that the modelled code can raise. *)
Inductive exn : Type :=
| RuntimeError        (* raised by [df_task] *)
| KeyError            (* a column label that is not in the frame *)
| ValueError          (* pandas: duplicate labels, duplicate categories, ... *)
| TypeError           (* an operator applied to operands it does not accept *)
| IndexError          (* [group.index[0]] on an empty index *)
| ParserError         (* [pandas.to_datetime] on a string that is no date *)
| InvalidOperation    (* [decimal.InvalidOperation] *)
| DivisionByZero.     (* [decimal.DivisionByZero] *)

Inductive result (A : Type) : Type :=
| Ok (a : A)
| Raise (e : exn).
Arguments Ok {A} a.
Arguments Raise {A} e.

Definition rbind {A B} (x : result A) (f : A -> result B) : result B :=
  match x with
  | Ok a => f a
  | Raise e => Raise e
  end.

Declare Scope result_scope.
Delimit Scope result_scope with result.
Notation "'let*' x ':=' c1 'in' c2" := (rbind c1 (fun x => c2))
  (at level 61, x pattern, c1 at next level, right associativity) : result_scope.
Local Open Scope result_scope.

(** [[f(x) for x in l]] where [f] may raise: the first exception wins. *)
Fixpoint rmap {A B} (f : A -> result B) (l : list A) : result (list B) :=
  match l with
  | [] => Ok []
  | x :: tl =>
      let* y := f x in
      let* ys := rmap f tl in
      Ok (y :: ys)
  end.

(* ================================================================== *)
(** * decimal.Decimal *)
(* ================================================================== *)

(** Finite decimals as Python stores them: a sign, a coefficient and an
    exponent, standing for [(-1)^sign * coefficient * 10^exponent].  The
    special values (infinities, NaNs) and the exponent limits [Emin],
    [Emax] of the context are outside the model: the constructor below
    accepts finite numerals only. *)
Module Dec.

Record t : Type := mk { sign : bool; coefficient : N; exponent : Z }.

(** [decimal.getcontext().prec = 28] (step 2), rounding ROUND_HALF_EVEN
    and the traps of the default context (InvalidOperation,
    DivisionByZero, Overflow). *)
Definition prec : Z := 28.

(** [len(self._int)] *)
Definition ndigits (c : N) : Z :=
  Z.of_nat (Decimal.nb_digits (N.to_uint c)).

Definition is_zero (d : t) : bool := N.eqb (coefficient d) 0.

Definition eqb (a b : t) : bool :=
  Bool.eqb (sign a) (sign b) && N.eqb (coefficient a) (coefficient b)
  && Z.eqb (exponent a) (exponent b).

(** The signed integer [(-1)^sign * coefficient]. *)
Definition signed (d : t) : Z :=
  if sign d then - Z.of_N (coefficient d) else Z.of_N (coefficient d).

(** The rational the decimal stands for. *)
Definition value (d : t) : Q :=
  (inject_Z (signed d) * Qpower 10 (exponent d))%Q.

(** [Decimal._fix]: round to [prec] significant digits, half to even. *)
Definition fix_ (s : bool) (c : N) (e : Z) : t :=
  let n := ndigits c in
  if n <=? prec then mk s c e
  else
    let k := n - prec in
    let p := 10 ^ k in
    let q := Z.of_N c / p in
    let r := Z.of_N c mod p in
    let q' := if (p <? 2 * r) || ((2 * r =? p) && Z.odd q) then q + 1 else q in
    if prec <? ndigits (Z.to_N q')
    then mk s (Z.to_N (q' / 10)) (e + k + 1)
    else mk s (Z.to_N q') (e + k).

(** [Decimal.__add__] on finite operands: the exact sum at the smaller
    exponent, then [_fix]. An exact zero is positive unless both
    operands are negative. *)
Definition add (a b : t) : t :=
  let e := Z.min (exponent a) (exponent b) in
  let z := signed a * 10 ^ (exponent a - e) + signed b * 10 ^ (exponent b - e) in
  let s := if z =? 0 then sign a && sign b else z <? 0 in
  fix_ s (Z.to_N (Z.abs z)) e.

(** [Decimal.copy_negate] *)
Definition neg (a : t) : t := mk (negb (sign a)) (coefficient a) (exponent a).

(** [Decimal.__sub__]: [self + other.copy_negate()] *)
Definition sub (a b : t) : t := add a (neg b).

(** The loop of [__truediv__] that brings an exact quotient as close to
    the ideal exponent as possible. *)
Fixpoint strip (fuel : nat) (coeff exp ideal : Z) : Z * Z :=
  match fuel with
  | O => (coeff, exp)
  | S fuel' =>
      if (exp <? ideal) && (coeff mod 10 =? 0)
      then strip fuel' (coeff / 10) (exp + 1) ideal
      else (coeff, exp)
  end.

(** [Decimal.__truediv__] on finite operands.  With the default traps,
    [x / 0] raises [DivisionByZero] and [0 / 0] raises
    [InvalidOperation] (DivisionUndefined). *)
Definition div (a b : t) : result t :=
  let s := xorb (sign a) (sign b) in
  if is_zero b then
    if is_zero a then Raise InvalidOperation else Raise DivisionByZero
  else if is_zero a then Ok (fix_ s 0%N (exponent a - exponent b))
  else
    let shift := ndigits (coefficient b) - ndigits (coefficient a) + prec + 1 in
    let exp := exponent a - exponent b - shift in
    let x := Z.of_N (coefficient a) in
    let y := Z.of_N (coefficient b) in
    let '(coeff, remainder) :=
      if 0 <=? shift
      then (x * 10 ^ shift / y, (x * 10 ^ shift) mod y)
      else (x / (y * 10 ^ (- shift)), x mod (y * 10 ^ (- shift))) in
    let '(coeff, exp) :=
      if negb (remainder =? 0)
      then (if coeff mod 5 =? 0 then coeff + 1 else coeff, exp)
      else strip (Z.to_nat (ndigits (Z.to_N coeff))) coeff exp
                 (exponent a - exponent b) in
    Ok (fix_ s (Z.to_N coeff) exp).

(** [Decimal(n)] for a Python int. *)
Definition of_Z (n : Z) : t := mk (n <? 0) (Z.to_N (Z.abs n)) 0.

End Dec.

(* ================================================================== *)
(** * float *)
(* ================================================================== *)

(** A finite binary floating-point number: zero, or
    [(-1)^neg * (2 * half + 1) * 2^exp], an odd integer scaled by a power
    of two.  Every finite number has one such form, so two floats are
    equal when their forms are; the float64 values are among them.  The
    infinities and the signed zero are outside the model, and a NaN is a
    missing value ([VNone] below). *)
Module Float.

Inductive t : Type :=
| Zero
| Num (neg : bool) (half : N) (exp : Z).

(** The odd integer of a float that is not zero, with its sign. *)
Definition mantissa (neg : bool) (half : N) : Z :=
  if neg then - (2 * Z.of_N half + 1) else 2 * Z.of_N half + 1.

(** The rational the float stands for. *)
Definition value (x : t) : Q :=
  match x with
  | Zero => 0%Q
  | Num s h e => (inject_Z (mantissa s h) * Qpower 2 e)%Q
  end.

Definition eqb (x y : t) : bool :=
  match x, y with
  | Zero, Zero => true
  | Num s h e, Num s' h' e' => Bool.eqb s s' && N.eqb h h' && Z.eqb e e'
  | _, _ => false
  end.

(** [x <= y], by value: both are brought to the smaller exponent. *)
Definition scaled (x : t) (e0 : Z) : Z :=
  match x with
  | Zero => 0
  | Num s h e => mantissa s h * 2 ^ (e - e0)
  end.

Definition exp_of (x : t) (default : Z) : Z :=
  match x with Zero => default | Num _ _ e => e end.

Definition leb (x y : t) : bool :=
  let e0 := Z.min (exp_of x (exp_of y 0)) (exp_of y (exp_of x 0)) in
  scaled x e0 <=? scaled y e0.

(** [float.as_integer_ratio] and [Decimal.from_float]: the ratio in
    lowest terms is [n / 2^k], and the decimal is [n * 5^k] with the
    exponent [-k].  The conversion is exact: no rounding, whatever the
    precision of the context. *)
Definition to_Dec (x : t) : Dec.t :=
  match x with
  | Zero => Dec.mk false 0 0
  | Num s h e =>
      let m := 2 * Z.of_N h + 1 in
      if 0 <=? e
      then Dec.mk s (Z.to_N (m * 2 ^ e)) 0
      else Dec.mk s (Z.to_N (m * 5 ^ (- e))) e
  end.

End Float.

(* ================================================================== *)
(** * Cell values, column labels and rows *)
(* ================================================================== *)

(** What a cell of the blotter can hold.  [VNone] stands for every value
    that pandas treats as missing ([None], [NaN], [NaT], and
    [Decimal('NaN')], for which [pandas.isna] is true as well).  A value
    of an ordered categorical column carries its code (its position among
    the categories) next to its label: the order of a categorical is the
    order of the codes, and [rename_categories] changes labels only.
    [VInt] and [VFloat] are what [read_csv] makes of a numeric column when
    it is given no dtype for it. *)
Inductive value : Type :=
| VNone
| VInt (n : Z)
| VStr (s : string)
| VCat (code : nat) (s : string)
| VDec (d : Dec.t)
| VDate (day : Z)           (* a Timestamp at midnight: days since the epoch *)
| VFloat (x : Float.t).

(** [pandas.isna] *)
Definition isna (v : value) : bool :=
  match v with VNone => true | _ => false end.

Definition value_eqb (a b : value) : bool :=
  match a, b with
  | VNone, VNone => true
  | VInt x, VInt y => Z.eqb x y
  | VStr x, VStr y => String.eqb x y
  | VCat i x, VCat j y => Nat.eqb i j && String.eqb x y
  | VDec x, VDec y => Dec.eqb x y
  | VDate x, VDate y => Z.eqb x y
  | VFloat x, VFloat y => Float.eqb x y
  | _, _ => false
  end.

(** [a <= b] for two decimals, by value. *)
Definition dec_leb (a b : Dec.t) : bool :=
  let e := Z.min (Dec.exponent a) (Dec.exponent b) in
  Dec.signed a * 10 ^ (Dec.exponent a - e) <=? Dec.signed b * 10 ^ (Dec.exponent b - e).

(** The order that [Series.min], [groupby(sort=True)] and [sort_index]
    use inside one column: integers, floats and dates by value, strings
    by code point, categoricals by code.  The columns of the blotter are
    homogeneous; on values of two different kinds the model answers
    [false] where Python raises [TypeError]. *)
Definition value_leb (a b : value) : bool :=
  match a, b with
  | VNone, VNone => true
  | VInt x, VInt y => Z.leb x y
  | VStr x, VStr y => String.leb x y
  | VCat i _, VCat j _ => Nat.leb i j
  | VDec x, VDec y => dec_leb x y
  | VDate x, VDate y => Z.leb x y
  | VFloat x, VFloat y => Float.leb x y
  | _, _ => false
  end.

(** The column labels of the blotter.  ["level_0"] is the label that
    [reset_index] falls back to when ["index"] is taken. *)
Inductive column : Type :=
| Index | Level0 | Date | Lkid | Ticker | Analyst | Sector
| Pal | Exposure | OpenLiq | Return.

Definition column_name (c : column) : string :=
  match c with
  | Index => "index" | Level0 => "level_0" | Date => "date" | Lkid => "lkid"
  | Ticker => "ticker" | Analyst => "analyst" | Sector => "sector"
  | Pal => "pal" | Exposure => "exposure" | OpenLiq => "open_liq"
  | Return => "return"
  end.

Definition column_eqb (a b : column) : bool :=
  match a, b with
  | Index, Index | Level0, Level0 | Date, Date | Lkid, Lkid
  | Ticker, Ticker | Analyst, Analyst | Sector, Sector | Pal, Pal
  | Exposure, Exposure | OpenLiq, OpenLiq | Return, Return => true
  | _, _ => false
  end.

(** [c in cols] *)
Definition has_column (c : column) (cols : list column) : bool :=
  existsb (column_eqb c) cols.

(** One row of cells.  A cell whose column is not among the columns of the
    frame holds [VNone]. *)
Record row : Type := mkRow {
  r_index : value; r_level_0 : value; r_date : value; r_lkid : value;
  r_ticker : value; r_analyst : value; r_sector : value; r_pal : value;
  r_exposure : value; r_open_liq : value; r_return : value }.

Definition empty_row : row :=
  mkRow VNone VNone VNone VNone VNone VNone VNone VNone VNone VNone VNone.

(** [row[c]] *)
Definition cell (c : column) (r : row) : value :=
  match c with
  | Index => r_index r | Level0 => r_level_0 r | Date => r_date r
  | Lkid => r_lkid r | Ticker => r_ticker r | Analyst => r_analyst r
  | Sector => r_sector r | Pal => r_pal r | Exposure => r_exposure r
  | OpenLiq => r_open_liq r | Return => r_return r
  end.

(** [row[c] = v] *)
Definition set_cell (c : column) (v : value) (r : row) : row :=
  let '(mkRow a b d e f g h i j k l) := r in
  match c with
  | Index => mkRow v b d e f g h i j k l
  | Level0 => mkRow a v d e f g h i j k l
  | Date => mkRow a b v e f g h i j k l
  | Lkid => mkRow a b d v f g h i j k l
  | Ticker => mkRow a b d e v g h i j k l
  | Analyst => mkRow a b d e f v h i j k l
  | Sector => mkRow a b d e f g v i j k l
  | Pal => mkRow a b d e f g h v j k l
  | Exposure => mkRow a b d e f g h i v k l
  | OpenLiq => mkRow a b d e f g h i j v l
  | Return => mkRow a b d e f g h i j k v
  end.

Arguments cell : simpl never.
Arguments set_cell : simpl never.

(** An index label: one value per level of the index. *)
Definition label : Type := list value.

Fixpoint label_eqb (a b : label) : bool :=
  match a, b with
  | [], [] => true
  | x :: a', y :: b' => value_eqb x y && label_eqb a' b'
  | _, _ => false
  end.

(** Lexicographic order on tuples of values (group keys, MultiIndex
    labels). *)
Fixpoint label_leb (a b : label) : bool :=
  match a, b with
  | [], _ => true
  | _ :: _, [] => false
  | x :: a', y :: b' =>
      if value_eqb x y then label_leb a' b' else value_leb x y
  end.

(* ================================================================== *)
(** * pandas.DataFrame *)
(* ================================================================== *)

(** A frame: the names of the index levels ([[]] for the unnamed default
    index), the column labels in order, and the rows in order, each with
    its index label. *)
Record DataFrame : Type := mkDF {
  index_names : list column;
  columns : list column;
  rows : list (label * row) }.

(** A Series: index labels and values. *)
Definition Series : Type := list (label * value).

(** [df.index] *)
Definition labels (df : DataFrame) : list label := map fst (rows df).

(** [len(df)] *)
Definition nrows (df : DataFrame) : nat := List.length (rows df).

Definition with_rows (df : DataFrame) (rs : list (label * row)) : DataFrame :=
  mkDF (index_names df) (columns df) rs.

(** [RangeIndex(start, start + len(l))] attached to [l]. *)
Fixpoint range_index {A} (start : Z) (l : list A) : list (label * A) :=
  match l with
  | [] => []
  | x :: tl => ([VInt start], x) :: range_index (start + 1) tl
  end.

(** The frame that [pandas.read_csv] builds: the default index
    [0 .. n-1]. *)
Definition frame_of_rows (cols : list column) (rs : list row) : DataFrame :=
  mkDF [] cols (range_index 0 rs).

(** [df[c]]: [KeyError] when the column does not exist. *)
Definition getitem (c : column) (df : DataFrame) : result Series :=
  if has_column c (columns df)
  then Ok (map (fun lr => (fst lr, cell c (snd lr))) (rows df))
  else Raise KeyError.

(** [df[c] = v] for a scalar [v]: a new column goes last. *)
Definition setitem (c : column) (v : value) (df : DataFrame) : DataFrame :=
  mkDF (index_names df)
       (if has_column c (columns df) then columns df else columns df ++ [c])
       (map (fun lr => (fst lr, set_cell c v (snd lr))) (rows df)).

Fixpoint nodup_labels (l : list label) : bool :=
  match l with
  | [] => true
  | x :: tl => negb (existsb (label_eqb x) tl) && nodup_labels tl
  end.

(** The first entry with label [l]. *)
Fixpoint lookup_label {A} (l : label) (s : list (label * A)) : option A :=
  match s with
  | [] => None
  | (l', v) :: tl => if label_eqb l l' then Some v else lookup_label l tl
  end.

(** [df[c] = s] for a Series [s]: [s] is reindexed to the index of the
    frame, a label that [s] does not have gives a missing value.
    Reindexing a Series with duplicate labels raises [ValueError]. *)
Definition setitem_series (c : column) (s : Series) (df : DataFrame)
  : result DataFrame :=
  if nodup_labels (map fst s) then
    Ok (mkDF (index_names df)
          (if has_column c (columns df) then columns df else columns df ++ [c])
          (map (fun lr =>
                  (fst lr,
                   set_cell c (match lookup_label (fst lr) s with
                               | Some v => v
                               | None => VNone
                               end) (snd lr)))
               (rows df)))
  else Raise ValueError.

(** [df[c] = f(row)] computed row by row on the frame itself (a Series
    derived from the frame has the index of the frame: no realignment). *)
Definition assign_rowwise (c : column) (f : row -> result value)
  (df : DataFrame) : result DataFrame :=
  let* rs := rmap (fun lr => let* v := f (snd lr) in
                             Ok (fst lr, set_cell c v (snd lr))) (rows df) in
  Ok (mkDF (index_names df)
        (if has_column c (columns df) then columns df else columns df ++ [c])
        rs).

(** [df[mask] = df[mask].apply(f, axis=1)] *)
Definition apply_rows_where (mask : row -> bool) (f : row -> result row)
  (df : DataFrame) : result DataFrame :=
  let* rs := rmap (fun lr => if mask (snd lr)
                             then let* r := f (snd lr) in Ok (fst lr, r)
                             else Ok lr) (rows df) in
  Ok (with_rows df rs).

(** Removing columns from a frame: the cells are cleared. *)
Definition clear_cells (cs : list column) (r : row) : row :=
  fold_left (fun acc c => set_cell c VNone acc) cs r.

Definition remove_columns (cs : list column) (cols : list column) : list column :=
  filter (fun c => negb (has_column c cs)) cols.

Definition all_columns_in (cs cols : list column) : bool :=
  forallb (fun c => has_column c cols) cs.

(** [df.set_index(keys)] (drop=True): the key columns become the index,
    the previous index is discarded.  [KeyError] when a key is not a
    column. *)
Definition set_index (keys : list column) (df : DataFrame) : result DataFrame :=
  if all_columns_in keys (columns df) then
    Ok (mkDF keys (remove_columns keys (columns df))
          (map (fun lr => (map (fun k => cell k (snd lr)) keys,
                           clear_cells keys (snd lr)))
               (rows df)))
  else Raise KeyError.

Fixpoint nodup_columns (l : list column) : bool :=
  match l with
  | [] => true
  | x :: tl => negb (has_column x tl) && nodup_columns tl
  end.

(** Writing the levels of a label into the cells named [names]. *)
Fixpoint set_cells (names : list column) (l : label) (r : row) : row :=
  match names, l with
  | c :: names', v :: l' => set_cells names' l' (set_cell c v r)
  | _, _ => r
  end.

(** [df.reset_index(drop=False)]: the index levels become the first
    columns and the frame gets the default index.  An unnamed index is
    inserted as ["index"], or as ["level_0"] when ["index"] is a column;
    inserting a label that is already a column raises [ValueError]. *)
Definition reset_index (df : DataFrame) : result DataFrame :=
  let names :=
    match index_names df with
    | [] => [if has_column Index (columns df) then Level0 else Index]
    | ns => ns
    end in
  if existsb (fun c => has_column c (columns df)) names
     || negb (nodup_columns names)
  then Raise ValueError
  else
    Ok (mkDF [] (names ++ columns df)
          (range_index 0
             (map (fun lr => set_cells names (fst lr) (snd lr)) (rows df)))).

(** [df.dropna()]: keeps the rows that have no missing value in any
    column. *)
Definition dropna (df : DataFrame) : DataFrame :=
  with_rows df
    (filter (fun lr => forallb (fun c => negb (isna (cell c (snd lr))))
                               (columns df))
            (rows df)).

(** Stable insertion sort, the order given as a boolean function. *)
Section Sort.
Variable A : Type.
Variable leb : A -> A -> bool.

Fixpoint insert_sorted (x : A) (l : list A) : list A :=
  match l with
  | [] => [x]
  | y :: tl => if leb x y then x :: y :: tl else y :: insert_sorted x tl
  end.

Definition isort (l : list A) : list A := fold_right insert_sorted [] l.
End Sort.

(** [df.sort_index(axis=0)] *)
Definition sort_index (df : DataFrame) : DataFrame :=
  with_rows df
    (isort (fun x y : label * row => label_leb (fst x) (fst y)) (rows df)).

(** ** groupby *)

(** The key of a row: its values in the key columns. *)
Definition key_of (keys : list column) (r : row) : label :=
  map (fun k => cell k r) keys.

Fixpoint dedup (l : list label) : list label :=
  match l with
  | [] => []
  | x :: tl => if existsb (label_eqb x) (dedup tl) then dedup tl else x :: dedup tl
  end.

(** The group keys of [df.groupby(keys)]: the distinct keys, sorted
    ([sort=True]); a key with a missing value names no group
    ([dropna=True]). *)
Definition group_keys (keys : list column) (df : DataFrame) : list label :=
  isort label_leb
    (dedup (filter (fun k => negb (existsb isna k))
                   (map (fun lr => key_of keys (snd lr)) (rows df)))).

(** The rows of the group [k], in the order of the frame and with the
    index labels of the frame. *)
Definition group_rows (keys : list column) (k : label) (df : DataFrame)
  : list (label * row) :=
  filter (fun lr => label_eqb (key_of keys (snd lr)) k) (rows df).

(** [for key, group in df.groupby(keys)]: the groups are split off the
    frame when the iteration starts.  [KeyError] when a key is not a
    column. *)
Definition groupby (keys : list column) (df : DataFrame)
  : result (list (label * DataFrame)) :=
  if all_columns_in keys (columns df) then
    Ok (map (fun k => (k, with_rows df (group_rows keys k df)))
            (group_keys keys df))
  else Raise KeyError.

(** ** Aggregations *)

(** Python's [+] on cell values; [int + Decimal] converts the int, and
    [float + Decimal] raises [TypeError].  The binary rounding of a sum of
    floats is outside the model: in a run stage 2 has made every [pal]
    and [exposure] a Decimal before a stage adds, subtracts or divides. *)
Definition value_add (a b : value) : result value :=
  match a, b with
  | VInt x, VInt y => Ok (VInt (x + y))
  | VDec x, VDec y => Ok (VDec (Dec.add x y))
  | VInt x, VDec y => Ok (VDec (Dec.add (Dec.of_Z x) y))
  | VDec x, VInt y => Ok (VDec (Dec.add x (Dec.of_Z y)))
  | VStr x, VStr y => Ok (VStr (x ++ y))
  | _, _ => Raise TypeError
  end.

(** Python's [-] on cell values. *)
Definition value_sub (a b : value) : result value :=
  match a, b with
  | VInt x, VInt y => Ok (VInt (x - y))
  | VDec x, VDec y => Ok (VDec (Dec.sub x y))
  | VInt x, VDec y => Ok (VDec (Dec.sub (Dec.of_Z x) y))
  | VDec x, VInt y => Ok (VDec (Dec.sub x (Dec.of_Z y)))
  | _, _ => Raise TypeError
  end.

(** [series / total] on one element of an object column: a missing
    element stays missing, a Decimal is divided with [Decimal.__truediv__]
    (which raises on a zero divisor). *)
Definition value_div (a total : value) : result value :=
  match a, total with
  | VNone, _ => Ok VNone
  | VDec x, VDec y => let* q := Dec.div x y in Ok (VDec q)
  | VDec x, VInt y => let* q := Dec.div x (Dec.of_Z y) in Ok (VDec q)
  | VInt x, VDec y => let* q := Dec.div (Dec.of_Z x) y in Ok (VDec q)
  | _, _ => Raise TypeError
  end.

(** The aggregation ["sum"] of a group of an object column: the values
    that are not missing are added in order, starting from the first one;
    a group without values sums to [0]. *)
Fixpoint sum_from (acc : value) (l : list value) : result value :=
  match l with
  | [] => Ok acc
  | v :: tl =>
      if isna v then sum_from acc tl
      else let* acc' := value_add acc v in sum_from acc' tl
  end.

Fixpoint group_sum (l : list value) : result value :=
  match l with
  | [] => Ok (VInt 0)
  | v :: tl => if isna v then group_sum tl else sum_from v tl
  end.

Definition agg_sum (series : Series) : result value :=
  group_sum (map snd series).

(** [series.agg("sum")] on an object column ([nansum]): the missing
    values are replaced by [0], then the elements are added in order. *)
Definition nansum (series : Series) : result value :=
  match map (fun lv => if isna (snd lv) then VInt 0 else snd lv) series with
  | [] => Ok (VInt 0)
  | v :: tl => fold_left (fun acc x => let* a := acc in value_add a x) tl (Ok v)
  end.

(** [series.min()]: the least value that is not missing, a missing value
    when there is none. *)
Definition series_min (series : Series) : value :=
  fold_left (fun acc lv =>
               if isna (snd lv) then acc
               else if isna acc then snd lv
               else if value_leb acc (snd lv) then acc else snd lv)
            series VNone.

(** The cells of one aggregated row: [spec] maps a column to the function
    applied to the Series of that column in the group. *)
Fixpoint agg_row (spec : list (column * (Series -> result value)))
  (g : DataFrame) (acc : row) : result row :=
  match spec with
  | [] => Ok acc
  | (c, f) :: tl =>
      let* s := getitem c g in
      let* v := f s in
      agg_row tl g (set_cell c v acc)
  end.

(** [df.groupby(keys, as_index=as_index).agg(spec)]: one row per group, in
    the order of the group keys.  With [as_index=True] the keys are the
    index of the result; with [as_index=False] they are its first columns
    and the result has the default index. *)
Definition agg (as_index : bool) (keys : list column)
  (spec : list (column * (Series -> result value))) (df : DataFrame)
  : result DataFrame :=
  let* groups := groupby keys df in
  let* rs := rmap (fun kg => let* r := agg_row spec (snd kg) empty_row in
                             Ok (fst kg, r)) groups in
  Ok (if as_index
      then mkDF keys (map fst spec) rs
      else mkDF [] (keys ++ map fst spec)
             (range_index 0 (map (fun kr => set_cells keys (fst kr) (snd kr)) rs))).

(** [series.shift(periods, "D")]: the index moves by [periods] days, the
    values stay; only a DatetimeIndex can be shifted by a frequency. *)
Definition shift_days (periods : Z) (series : Series) : result Series :=
  rmap (fun lv => match fst lv with
                  | [VDate d] => Ok ([VDate (d + periods)], snd lv)
                  | _ => Raise TypeError
                  end) series.

(** ** update *)

(** The cells of [that] that are not missing overwrite those of [this],
    in the columns [cols]. *)
Definition update_row (cols : list column) (that this : row) : row :=
  fold_left (fun acc c => if isna (cell c that) then acc
                          else set_cell c (cell c that) acc) cols this.

(** [self.update(other)]: [other] is reindexed to the index of [self]
    ([ValueError] when its labels are not unique); in every column that
    both frames have, a value of [other] that is not missing replaces the
    value of [self] in the row with the same label.  No row is added or
    removed. *)
Definition update (self other : DataFrame) : result DataFrame :=
  if nodup_labels (labels other) then
    let cols := filter (fun c => has_column c (columns other)) (columns self) in
    Ok (with_rows self
          (map (fun lr => match lookup_label (fst lr) (rows other) with
                          | Some that => (fst lr, update_row cols that (snd lr))
                          | None => lr
                          end) (rows self)))
  else Raise ValueError.

(* ================================================================== *)
(** * decimal.Decimal(str) and str(int) *)
(* ================================================================== *)

(** The value of an ASCII digit. *)
Definition digit_of_ascii (a : ascii) : option N :=
  let n := N_of_ascii a in
  if (48 <=? n)%N && (n <=? 57)%N then Some (n - 48)%N else None.

(** The longest prefix of digits, and what follows it. *)
Fixpoint take_digits (l : list ascii) : list N * list ascii :=
  match l with
  | [] => ([], [])
  | a :: tl =>
      match digit_of_ascii a with
      | Some d => let '(ds, rest) := take_digits tl in (d :: ds, rest)
      | None => ([], l)
      end
  end.

(** [int(digits)]: the number a string of digits denotes (0 for the
    empty string, which the callers exclude where Python would fail). *)
Definition digits_value (ds : list N) : N :=
  fold_left (fun acc d => (acc * 10 + d)%N) ds 0%N.

(** An optional sign: [true] for ["-"]. *)
Definition take_sign (l : list ascii) : bool * list ascii :=
  match l with
  | "-"%char :: tl => (true, tl)
  | "+"%char :: tl => (false, tl)
  | _ => (false, l)
  end.

(** The characters that [str.strip] removes (ASCII). *)
Definition is_space (a : ascii) : bool :=
  let n := N_of_ascii a in
  ((9 <=? n)%N && (n <=? 13)%N) || ((28 <=? n)%N && (n <=? 32)%N).

Fixpoint lstrip (l : list ascii) : list ascii :=
  match l with
  | a :: tl => if is_space a then lstrip tl else l
  | [] => []
  end.

(** [value.strip().replace("_", "")] *)
Definition clean_numeral (s : string) : list ascii :=
  filter (fun a => negb (Ascii.eqb a "_"%char))
         (rev (lstrip (rev (lstrip (list_ascii_of_string s))))).

(** The parts of a finite numeral, after the regular expression of the
    decimal module: an optional sign, an integer part and an optional
    fractional part with at least one digit between them, an optional
    exponent.  The result is the sign, the digits of the integer part,
    the digits of the fractional part and the exponent. *)
Definition scan_numeral (s : string) : option (bool * list N * list N * Z) :=
  let '(sg, l1) := take_sign (clean_numeral s) in
  let '(intpart, l2) := take_digits l1 in
  let '(fracpart, l3) :=
    match l2 with
    | "."%char :: tl => take_digits tl
    | _ => ([], l2)
    end in
  match intpart, fracpart with
  | [], [] => None
  | _, _ =>
      match l3 with
      | [] => Some (sg, intpart, fracpart, 0)
      | e :: tl =>
          if Ascii.eqb e "e"%char || Ascii.eqb e "E"%char then
            let '(esg, l4) := take_sign tl in
            match take_digits l4 with
            | (d :: ds, []) =>
                let n := Z.of_N (digits_value (d :: ds)) in
                Some (sg, intpart, fracpart, if esg then - n else n)
            | _ => None
            end
          else None
      end
  end.

(** [decimal.Decimal(value)] for a string: the coefficient is
    [int(intpart + fracpart)], the exponent [exp - len(fracpart)]; no
    rounding takes place.  A string that is no finite numeral raises
    [InvalidOperation] (ConversionSyntax). *)
Definition Decimal (value : string) : result Dec.t :=
  match scan_numeral value with
  | Some (sg, intpart, fracpart, exp) =>
      Ok (Dec.mk sg (digits_value (intpart ++ fracpart))
                 (exp - Z.of_nat (List.length fracpart)))
  | None => Raise InvalidOperation
  end.

(** [str(n)] for a Python int. *)
Definition str_of_int (n : Z) : string := NilZero.string_of_int (Z.to_int n).

(* ================================================================== *)
(** * The object store *)
(* ================================================================== *)

(** Frames are Python objects: a task function receives a reference and
    mutates the frame behind it, and the executor may hold the same
    reference.  The store maps references to frames.  [trace] is ghost
    state: the names of the task functions entered so far, in order; no
    code reads it. *)
Definition obj : Type := nat.

Record world : Type := mkWorld {
  objects : list DataFrame;
  trace : list string }.

Inductive outcome (A : Type) : Type :=
| Val (a : A)
| Exn (e : exn).
Arguments Val {A} a.
Arguments Exn {A} e.

(** Computations that read and mutate the store and may raise.  A raised
    exception leaves the mutations made so far in place. *)
Definition M (A : Type) : Type := world -> outcome A * world.

Definition ret {A} (a : A) : M A := fun w => (Val a, w).

Definition bind {A B} (m : M A) (f : A -> M B) : M B :=
  fun w => match m w with
           | (Val a, w') => f a w'
           | (Exn e, w') => (Exn e, w')
           end.

Definition raise {A} (e : exn) : M A := fun w => (Exn e, w).

Definition lift {A} (r : result A) : M A :=
  match r with
  | Ok a => ret a
  | Raise e => raise e
  end.

Declare Scope M_scope.
Delimit Scope M_scope with M.
Notation "x <- c1 ;; c2" := (bind c1 (fun x => c2))
  (at level 61, c1 at next level, right associativity) : M_scope.
Notation "c1 ;; c2" := (bind c1 (fun _ => c2))
  (at level 61, right associativity) : M_scope.
Local Open Scope M_scope.

Definition empty_frame : DataFrame := mkDF [] [] [].

Fixpoint replace_nth {A} (n : nat) (x : A) (l : list A) : list A :=
  match l, n with
  | [], _ => []
  | _ :: tl, O => x :: tl
  | y :: tl, S n' => y :: replace_nth n' x tl
  end.

(** The frame behind a reference. *)
Definition deref (w : world) (o : obj) : DataFrame :=
  nth o (objects w) empty_frame.

Definition read (o : obj) : M DataFrame := fun w => (Val (deref w o), w).

Definition write (o : obj) (d : DataFrame) : M unit :=
  fun w => (Val tt, mkWorld (replace_nth o d (objects w)) (trace w)).

(** An in-place method of the frame behind [o]. *)
Definition modify (o : obj) (f : DataFrame -> DataFrame) : M unit :=
  d <- read o ;; write o (f d).

(** An in-place method that may raise (the frame is then unchanged). *)
Definition modifyR (o : obj) (f : DataFrame -> result DataFrame) : M unit :=
  d <- read o ;; d' <- lift (f d) ;; write o d'.

(** [df.copy()]: a new object with the same contents. *)
Definition copy (o : obj) : M obj :=
  fun w => (Val (List.length (objects w)),
            mkWorld (objects w ++ [deref w o]) (trace w)).

Definition log (name : string) : M unit :=
  fun w => (Val tt, mkWorld (objects w) (trace w ++ [name])).

(** [for x in l: body(x)] *)
Fixpoint for_each {A} (l : list A) (body : A -> M unit) : M unit :=
  match l with
  | [] => ret tt
  | x :: tl => body x ;; for_each tl body
  end.

(* ================================================================== *)
(** * blottertools/adapters.py: Executor *)
(* ================================================================== *)

(** [PandasExecutor]: the reference [_df] and the flag [__is_eager]. *)
Record Executor : Type := mkExecutor {
  _df : obj;
  is_eager : bool }.

(** [Executor.df] *)
Definition df (executor : Executor) : obj := _df executor.

(** [PandasExecutor.update_df] *)
Definition update_df (executor : Executor) (d : obj) : Executor :=
  mkExecutor d (is_eager executor).

(** [PandasExecutor._groupby]: [self._df.groupby(keys)], iterated. *)
Definition Executor_groupby (executor : Executor) (keys : list column)
  : M (list (label * DataFrame)) :=
  d <- read (_df executor) ;; lift (groupby keys d).

(** A task function, as [Transformation] declares it:
    [etl_task(df, _executor)]. *)
Definition Transformation : Type := obj -> Executor -> M obj.

(* ================================================================== *)
(** * blottertools/decorators.py *)
(* ================================================================== *)

(** A task function and its [__name__], which [functools.wraps] keeps. *)
Record Task : Type := mkTask {
  task_name : string;
  func : Transformation }.

(** [df_task(func)] is [wrap_context]: the function runs on the frame
    itself when [_eager], on a copy otherwise; when [_eager], a result that
    is not the frame it was passed raises [RuntimeError]. *)
Definition df_task (f : Task) (df : obj) (_executor : Executor)
  (_eager : bool) : M obj :=
  log (task_name f) ;;
  arg <- (if _eager then ret df else copy df) ;;
  result <- func f arg _executor ;;
  if _eager && negb (Nat.eqb result df)
  then raise RuntimeError
  else ret result.

(** A task function declared without the [_executor] parameter. *)
Definition without_executor (f : obj -> M obj) : Transformation :=
  fun df _ => f df.

(* ================================================================== *)
(** * blottertools/adapters.py: transform and Pipeline *)
(* ================================================================== *)

(** [transform(executor, f)] *)
Definition transform (executor : Executor) (f : Task) : M obj :=
  df_task f (df executor) executor (is_eager executor).

(** [Pipeline.run]: the executor is state of the loop. *)
Fixpoint run (steps : list Task) (executor : Executor) : M Executor :=
  match steps with
  | [] => ret executor
  | step :: rest =>
      d <- transform executor step ;;
      if is_eager executor
      then run rest executor
      else run rest (update_df executor d)
  end.

(* ================================================================== *)
(** * functions.py: utility functions *)
(* ================================================================== *)

(** [first_alphabetical(series)]: [series.min()] *)
Definition first_alphabetical (series : Series) : result value :=
  Ok (series_min series).

(** [impute_first_day_open_liq(row)] *)
Definition impute_first_day_open_liq : row -> result row :=
  fun row =>
    let* v := value_sub (cell Exposure row) (cell Pal row) in
    Ok (set_cell OpenLiq v row).

(** [impute_ticker_symbol(_row)]: [f"ticker_{_row["index"]}"].  The
    ["index"] column holds the integers of step 1; the formatting of the
    other kinds of values is not modelled. *)
Definition impute_ticker_symbol (_row : row) : result value :=
  match cell Index _row with
  | VInt n => Ok (VStr ("ticker_" ++ str_of_int n))
  | VStr s => Ok (VStr ("ticker_" ++ s))
  | _ => Raise TypeError
  end.

(** [get_first_index_label(group)]: [group.index[0]] *)
Definition get_first_index_label (group : Series) : result value :=
  match group with
  | [] => Raise IndexError
  | (l, _) :: _ =>
      match l with
      | [v] => Ok v
      | _ => Raise TypeError
      end
  end.

(* ================================================================== *)
(** * functions.py: the task functions *)
(* ================================================================== *)

(** ** Step 1 *)

Definition step1_create_pk (_df : obj) : M obj :=
  modifyR _df reset_index ;;
  ret _df.

(** ** Step 2 *)

(** The labels of a column that are not missing. *)
Definition column_strings (c : column) (d : DataFrame) : list string :=
  flat_map (fun lr => match cell c (snd lr) with
                      | VStr s | VCat _ s => [s]
                      | _ => []
                      end) (rows d).

Fixpoint dedup_strings (l : list string) : list string :=
  match l with
  | [] => []
  | x :: tl =>
      if existsb (String.eqb x) (dedup_strings tl) then dedup_strings tl
      else x :: dedup_strings tl
  end.

(** The position of [s] in [l]. *)
Fixpoint position (s : string) (l : list string) : nat :=
  match l with
  | [] => O
  | x :: tl => if String.eqb s x then O else S (position s tl)
  end.

(** [df[c].astype(pandas.CategoricalDtype(ordered=True))]: the categories
    are the distinct labels of the column in sorted order, every value
    gets the position of its label as its code. *)
Definition astype_ordered_category (c : column) (d : DataFrame)
  : result DataFrame :=
  let categories := isort String.leb (dedup_strings (column_strings c d)) in
  let* _ := getitem c d in
  let* rs := rmap (fun lr =>
                     match cell c (snd lr) with
                     | VNone => Ok lr
                     | VStr s | VCat _ s =>
                         Ok (fst lr, set_cell c (VCat (position s categories) s) (snd lr))
                     | _ => Raise TypeError
                     end) (rows d) in
  Ok (with_rows d rs).

(** The rename table of step 2. *)
Definition rename_sector (s : string) : string :=
  if String.eqb s "Technology" then "Information Technology" else s.

Fixpoint nodup_strings (l : list string) : bool :=
  match l with
  | [] => true
  | x :: tl => negb (existsb (String.eqb x) tl) && nodup_strings tl
  end.

(** [df[c].cat.rename_categories(table)]: the labels change, the codes
    stay; [ValueError] when two categories get the same label. *)
Definition rename_categories (c : column) (table : string -> string)
  (d : DataFrame) : result DataFrame :=
  let* _ := getitem c d in
  if nodup_strings (map table (dedup_strings (column_strings c d))) then
    Ok (with_rows d
          (map (fun lr => match cell c (snd lr) with
                          | VCat i s => (fst lr, set_cell c (VCat i (table s)) (snd lr))
                          | _ => lr
                          end) (rows d)))
  else Raise ValueError.

(** [df[c] = df[c].apply(f)] *)
Definition apply_column (c : column) (f : value -> result value)
  (d : DataFrame) : result DataFrame :=
  let* _ := getitem c d in
  assign_rowwise c (fun r => f (cell c r)) d.

(** [decimal.Decimal] applied to a cell.  A float is converted exactly,
    digit for digit of its binary value ([Decimal.from_float]);
    [Decimal(nan)] is [Decimal('NaN')], which stays a missing value. *)
Definition Decimal_of_value (v : value) : result value :=
  match v with
  | VStr s => let* x := Decimal s in Ok (VDec x)
  | VInt n => Ok (VDec (Dec.of_Z n))
  | VFloat x => Ok (VDec (Float.to_Dec x))
  | VDec x => Ok (VDec x)
  | VNone => Ok VNone
  | _ => Raise TypeError
  end.

Section Step2.

(** [pandas.to_datetime(s, yearfirst=True)] on one string: the day it
    denotes, or [ParserError].  The date parser of pandas is a
    parameter of the development. *)
Variable to_datetime : string -> result Z.

Definition to_datetime_value (v : value) : result value :=
  match v with
  | VStr s => let* d := to_datetime s in Ok (VDate d)
  | VDate d => Ok (VDate d)
  | VNone => Ok VNone
  | _ => Raise TypeError
  end.

Definition step2_sector_pal_date (_df : obj) : M obj :=
  modifyR _df (astype_ordered_category Sector) ;;
  modifyR _df (rename_categories Sector rename_sector) ;;
  modifyR _df (apply_column Pal Decimal_of_value) ;;
  modifyR _df (apply_column Exposure Decimal_of_value) ;;
  modifyR _df (apply_column Date to_datetime_value) ;;
  ret _df.

End Step2.

(** ** Step 3 *)

Definition step3_impute_ticker (_df : obj) : M obj :=
  d <- read _df ;;
  (if negb (has_column Ticker (columns d))
   then modifyR _df (assign_rowwise Ticker impute_ticker_symbol)
   else ret tt) ;;
  ret _df.

(** ** Step 4 *)

(** The body of the loop of step 4.  [step4_collapse]: the rows of one
    (lkid, ticker) group that share a date are reduced to one row, indexed
    by the date. *)
Definition step4_collapse (_lkid_ticker_df : DataFrame) : result DataFrame :=
  agg true [Date]
      [(Index, first_alphabetical); (Analyst, first_alphabetical);
       (Sector, first_alphabetical); (Pal, agg_sum); (Exposure, agg_sum)]
      _lkid_ticker_df.

(** [step4_open_liq]: [open_liq] is the exposure with its index shifted
    back by one day; the rows that this leaves empty are imputed. *)
Definition step4_open_liq (_lkid_ticker_df : DataFrame) : result DataFrame :=
  let* collapsed := step4_collapse _lkid_ticker_df in
  let* exposure := getitem Exposure collapsed in
  let* shifted := shift_days (-1) exposure in
  let* with_open := setitem_series OpenLiq shifted collapsed in
  apply_rows_where (fun r => isna (cell OpenLiq r))
                   impute_first_day_open_liq with_open.

(** [step4_partition]: the frame that is merged back, with ["index"] as
    its index. *)
Definition step4_partition (_lkid_ticker_df : DataFrame) : result DataFrame :=
  let* imputed := step4_open_liq _lkid_ticker_df in
  set_index [Index] imputed.

Definition step4_compute_open_liq (_df : obj) (_executor : Executor) : M obj :=
  modify _df (setitem OpenLiq VNone) ;;
  groups <- Executor_groupby _executor [Lkid; Ticker] ;;
  for_each groups (fun g =>
    _lkid_ticker_df <- lift (step4_partition (snd g)) ;;
    modifyR _df (fun d => update d _lkid_ticker_df)) ;;
  ret _df.

(** ** Step 5 *)

(** The body of the loop of step 5: the frame of one date with its
    ["return"] column. *)
Definition step5_partition (_date_df : DataFrame) : result DataFrame :=
  let* open_liq := getitem OpenLiq _date_df in
  let* total_daily_fund := nansum open_liq in
  let* _ := getitem Pal _date_df in
  assign_rowwise Return (fun r => value_div (cell Pal r) total_daily_fund)
                 _date_df.

Definition step5_compute_fund_value (_df : obj) (_executor : Executor) : M obj :=
  modifyR _df (set_index [Index]) ;;
  modify _df (setitem Return VNone) ;;
  groups <- Executor_groupby _executor [Date] ;;
  for_each groups (fun g =>
    _date_df <- lift (step5_partition (snd g)) ;;
    modifyR _df (fun d => update d _date_df)) ;;
  ret _df.

(** ** Step 6 *)

Definition step6_agg_daily (_df : obj) : M obj :=
  modifyR _df reset_index ;;
  d <- read _df ;;
  another_df <-
    lift (agg false [Date; Lkid]
              [(Analyst, first_alphabetical); (Sector, first_alphabetical);
               (Pal, agg_sum); (Exposure, agg_sum); (Return, agg_sum);
               (Index, get_first_index_label)] d) ;;
  modify _df (setitem Pal VNone) ;;
  modify _df (setitem Exposure VNone) ;;
  modify _df (setitem Return VNone) ;;
  modifyR _df (set_index [Index]) ;;
  modifyR _df (fun d => update d another_df) ;;
  modify _df dropna ;;
  modifyR _df (set_index [Lkid; Date]) ;;
  modify _df sort_index ;;
  modifyR _df reset_index ;;
  ret _df.

(* ================================================================== *)
(** * blottercli.py: the pipeline *)
(* ================================================================== *)

Definition PIPELINE_STEPS (to_datetime : string -> result Z) : list Task :=
  [ mkTask "step1_create_pk" (without_executor step1_create_pk);
    mkTask "step2_sector_pal_date"
           (without_executor (step2_sector_pal_date to_datetime));
    mkTask "step3_impute_ticker" (without_executor step3_impute_ticker);
    mkTask "step4_compute_open_liq" step4_compute_open_liq;
    mkTask "step5_compute_fund_value" step5_compute_fund_value;
    mkTask "step6_agg_daily" (without_executor step6_agg_daily) ].

(** A run of the command line tool on the frame [input]: the store holds
    the frame read from the file, the executor refers to it. *)
Definition initial_world (input : DataFrame) : world := mkWorld [input] [].

Definition blottercli (to_datetime : string -> result Z) (eager : bool)
  (input : DataFrame) : outcome DataFrame * world :=
  match run (PIPELINE_STEPS to_datetime) (mkExecutor O eager)
            (initial_world input) with
  | (Val executor, w) => (Val (deref w (df executor)), w)
  | (Exn e, w) => (Exn e, w)
  end.

(* ================================================================== *)
(** * A date parser for the examples *)
(* ================================================================== *)

(** Days since 1970-01-01 of a civil date (proleptic Gregorian). *)
Definition days_from_civil (y m d : Z) : Z :=
  let y' := if m <=? 2 then y - 1 else y in
  let era := y' / 400 in
  let yoe := y' - era * 400 in
  let mp := (m + 9) mod 12 in
  let doy := (153 * mp + 2) / 5 + d - 1 in
  let doe := yoe * 365 + yoe / 4 - yoe / 100 + doy in
  era * 146097 + doe - 719468.

(** The ISO 8601 calendar dates [YYYY-MM-DD], the year-first format that
    [to_datetime] reads without ambiguity; the examples below use it as
    the date parser. *)
Definition iso_date (s : string) : result Z :=
  let '(y, l1) := take_digits (list_ascii_of_string s) in
  match l1 with
  | "-"%char :: l2 =>
      let '(m, l3) := take_digits l2 in
      match l3 with
      | "-"%char :: l4 =>
          match take_digits l4 with
          | (d, []) =>
              let yv := Z.of_N (digits_value y) in
              let mv := Z.of_N (digits_value m) in
              let dv := Z.of_N (digits_value d) in
              if (List.length y =? 4)%nat && (List.length m =? 2)%nat
                 && (List.length d =? 2)%nat
                 && (1 <=? mv) && (mv <=? 12) && (1 <=? dv) && (dv <=? 31)
              then Ok (days_from_civil yv mv dv)
              else Raise ParserError
          | _ => Raise ParserError
          end
      | _ => Raise ParserError
      end
  | _ => Raise ParserError
  end.


(* ================================================================== *)
(** * Example inputs *)
(* ================================================================== *)

(** A row of the input, every cell a string, as [read_csv] delivers the
    cells of a column that it reads as objects.  [blottercli.py] passes
    no dtype table to [read_csv] ([dtype] is declared without an
    annotation in [PandasReadCSVArgs], so [asdict] leaves it out): a
    column of numerals arrives as ints or floats instead (see
    [blotter_float]), and [Decimal] gives the same decimal for an int as
    for its numeral. *)
Definition csv_row (date lkid ticker analyst sector pal exposure : string) : row :=
  mkRow VNone VNone (VStr date) (VStr lkid) (VStr ticker) (VStr analyst)
        (VStr sector) (VStr pal) (VStr exposure) VNone VNone.

Definition csv_columns : list column :=
  [Date; Lkid; Ticker; Analyst; Sector; Pal; Exposure].

(** The example of the specification: two consecutive days of one
    position. *)
Definition blotter_two_days : DataFrame :=
  frame_of_rows csv_columns
    [ csv_row "2024-01-01" "A" "X" "a" "Technology" "10" "100";
      csv_row "2024-01-02" "A" "X" "a" "Technology" "-5" "80" ].

(** A task function that rebinds the frame, as in
    [df = df.reset_index()]: it returns a new object. *)
Definition rebinding_task : Task :=
  mkTask "rebinding_task" (fun df _ => copy df).

(* ================================================================== *)
(** * The effect of the task functions on the frame *)
(* ================================================================== *)

(** [set_obj w o d]: the store [w] with [d] behind [o]. *)
Definition set_obj (w : world) (o : obj) (d : DataFrame) : world :=
  mkWorld (replace_nth o d (objects w)) (trace w).

(** A reference into the store. *)
Definition valid (w : world) (o : obj) : Prop :=
  (o < List.length (objects w))%nat.

(** How [df_task] calls a task function: on the frame of the executor
    itself (eager), or on a copy of it, the executor keeping the
    original. *)
Definition call_of_df_task (w : world) (o : obj) (executor : Executor) : Prop :=
  valid w o /\ valid w (_df executor) /\
  (_df executor = o \/ deref w (_df executor) = deref w o).

(** The frames that the task functions leave behind the reference they
    are given, as functions of the frame they find there (lemmas
    [step1_run] ... [step6_run]). *)

Definition step1_frame (d : DataFrame) : result DataFrame := reset_index d.

Definition step2_frame (to_datetime : string -> result Z) (d : DataFrame)
  : result DataFrame :=
  let* d1 := astype_ordered_category Sector d in
  let* d2 := rename_categories Sector rename_sector d1 in
  let* d3 := apply_column Pal Decimal_of_value d2 in
  let* d4 := apply_column Exposure Decimal_of_value d3 in
  apply_column Date (to_datetime_value to_datetime) d4.

Definition step3_frame (d : DataFrame) : result DataFrame :=
  if negb (has_column Ticker (columns d))
  then assign_rowwise Ticker impute_ticker_symbol d
  else Ok d.

(** The loops of steps 4 and 5: the frame of every group is computed and
    merged into the frame with [update]. *)
Fixpoint merge_partitions (partition : DataFrame -> result DataFrame)
  (groups : list (label * DataFrame)) (d : DataFrame) : result DataFrame :=
  match groups with
  | [] => Ok d
  | g :: tl =>
      let* p := partition (snd g) in
      let* d' := update d p in
      merge_partitions partition tl d'
  end.

Definition step4_frame (d : DataFrame) : result DataFrame :=
  let d1 := setitem OpenLiq VNone d in
  let* groups := groupby [Lkid; Ticker] d1 in
  merge_partitions step4_partition groups d1.

Definition step5_frame (d : DataFrame) : result DataFrame :=
  let* d1 := set_index [Index] d in
  let d2 := setitem Return VNone d1 in
  let* groups := groupby [Date] d2 in
  merge_partitions step5_partition groups d2.

(** The aggregation of step 6. *)
Definition step6_another_df (d : DataFrame) : result DataFrame :=
  agg false [Date; Lkid]
      [(Analyst, first_alphabetical); (Sector, first_alphabetical);
       (Pal, agg_sum); (Exposure, agg_sum); (Return, agg_sum);
       (Index, get_first_index_label)] d.

Definition step6_frame (d : DataFrame) : result DataFrame :=
  let* d1 := reset_index d in
  let* another_df := step6_another_df d1 in
  let d2 := setitem Return VNone (setitem Exposure VNone (setitem Pal VNone d1)) in
  let* d3 := set_index [Index] d2 in
  let* d4 := update d3 another_df in
  let* d5 := set_index [Lkid; Date] (dropna d4) in
  reset_index (sort_index d5).

(** What it means for a computation [t] to leave the frame [r] behind the
    reference [o] in the store [w]: [t] returns [o], changes nothing else
    in the store, and raises exactly when [r] is an exception. *)
Definition leaves (t : M obj) (o : obj) (w : world)
  (r : result DataFrame) : Prop :=
  match r with
  | Ok d' => t w = (Val o, set_obj w o d')
  | Raise e => exists w', t w = (Exn e, w')
  end.


(** The frame that a completed task leaves in the store; the empty frame
    when the task raised. *)
Definition frame_after (r : outcome obj * world) : DataFrame :=
  match r with
  | (Val o, w) => deref w o
  | (Exn _, _) => empty_frame
  end.

(** The store after step 1 has run on the frame [input]. *)
Definition world_after_step1 (input : DataFrame) : world :=
  snd (step1_create_pk O (initial_world input)).

(* ================================================================== *)
(** * Well-formed frames *)
(* ================================================================== *)

Definition is_dec (v : value) : bool :=
  match v with VDec _ => true | _ => false end.

Definition is_date (v : value) : bool :=
  match v with VDate _ => true | _ => false end.

(** The Series of a column over some rows. *)
Definition series_of (c : column) (rs : list (label * row)) : Series :=
  map (fun lr => (fst lr, cell c (snd lr))) rs.

(** A (lkid, ticker) group as steps 1 to 3 deliver it: the columns that
    step 4 reads exist, the dates are dates, [pal] and [exposure] are
    decimals. *)
Definition typed_partition (g : DataFrame) : Prop :=
  all_columns_in [Index; Date; Analyst; Sector; Pal; Exposure] (columns g) = true /\
  forall lr, In lr (rows g) ->
    is_date (cell Date (snd lr)) = true /\
    is_dec (cell Pal (snd lr)) = true /\
    is_dec (cell Exposure (snd lr)) = true.

(** The rows of a partition dated [x]. *)
Definition rows_dated (x : Z) (g : DataFrame) : list (label * row) :=
  group_rows [Date] [VDate x] g.

(** The dates of the rows of a collapsed partition. *)
Definition dates_of (p : DataFrame) : list Z :=
  flat_map (fun lr => match fst lr with
                      | [VDate x] => [x]
                      | _ => []
                      end) (rows p).

(** The next date after [x] that is present in the partition. *)
Definition next_date (x : Z) (p : DataFrame) : option Z :=
  fold_left (fun acc y =>
               if x <? y
               then match acc with
                    | None => Some y
                    | Some z => Some (Z.min z y)
                    end
               else acc)
            (dates_of p) None.

(** The frame that steps 1 to 3 make of an input (the empty frame when
    one of them raises), with ISO dates. *)
Definition after_steps_1_3 (input : DataFrame) : DataFrame :=
  match (let* d1 := step1_frame input in
         let* d2 := step2_frame iso_date d1 in
         step3_frame d2) with
  | Ok d => d
  | Raise _ => empty_frame
  end.

(** One position observed on 2024-01-01 and on 2024-01-03: a gap of one
    day. *)
Definition blotter_gap : DataFrame :=
  frame_of_rows csv_columns
    [ csv_row "2024-01-01" "A" "X" "a" "S" "10" "100";
      csv_row "2024-01-03" "A" "X" "a" "S" "-5" "80" ].

(** C1 as the specification states it, on the collapsed partition of a
    group [g]: the row of every date but the last has the exposure of the
    next date present as its [open_liq], the row of the last date has
    [exposure - pal]. *)
Definition open_liq_is_next_present_exposure (g : DataFrame) : Prop :=
  forall p, step4_open_liq g = Ok p ->
  forall x r, In ([VDate x], r) (rows p) ->
    match next_date x p with
    | Some y => forall r', In ([VDate y], r') (rows p) ->
                           cell OpenLiq r = cell Exposure r'
    | None => value_sub (cell Exposure r) (cell Pal r) = Ok (cell OpenLiq r)
    end.

(** The single (lkid, ticker) group of the two-day blotter and of the
    blotter with a gap, as step 4 receives them. *)
Definition partition_two_days : DataFrame := after_steps_1_3 blotter_two_days.
Definition partition_gap : DataFrame := after_steps_1_3 blotter_gap.

(** The store after the first [n] stages of the pipeline have run on
    [input] in eager mode, with ISO dates. *)
Definition world_after (n : nat) (input : DataFrame) : world :=
  snd (run (firstn n (PIPELINE_STEPS iso_date)) (mkExecutor O true)
           (initial_world input)).

(** One position whose exposure equals its pal: its open liquidity,
    [exposure - pal], is zero, and so is the fund value of its day. *)
Definition blotter_zero_fund : DataFrame :=
  frame_of_rows csv_columns
    [ csv_row "2024-01-01" "A" "X" "a" "S" "10" "10" ].

(** Two trades of one position on 2024-01-01 and one on 2024-01-02: two
    distinct (date, lkid) pairs enter step 6. *)
Definition blotter_collision : DataFrame :=
  frame_of_rows csv_columns
    [ csv_row "2024-01-01" "A" "X" "a" "S" "1" "10";
      csv_row "2024-01-01" "A" "X" "a" "S" "2" "20";
      csv_row "2024-01-02" "A" "X" "a" "S" "3" "30" ].



(** A row of the frame after the first two statements of step 5:
    ["index"] has become the label and ["return"] is empty. *)
Definition step5_row (lr : label * row) : label * row :=
  ([cell Index (snd lr)], set_cell Return VNone (clear_cells [Index] (snd lr))).

(** The number that a finite numeral denotes in positional notation: an
    integer part [ip], fractional digits [fp] and an exponent [e] stand
    for [(ip + fp / 10^len(fp)) * 10^e], negated under a minus sign. *)
Definition numeral_value (s : string) : option Q :=
  match scan_numeral s with
  | Some (sg, intpart, fracpart, e) =>
      Some ((if sg then - (1) else 1)
            * (inject_Z (Z.of_N (digits_value intpart))
               + inject_Z (Z.of_N (digits_value fracpart))
                 / Qpower 10 (Z.of_nat (List.length fracpart)))
            * Qpower 10 e)%Q
  | None => None
  end.

(** A frame whose rows are those of another frame, changed one by one:
    same labels, rows related by [R]. *)
Definition rowwise (R : row -> row -> Prop) (d d' : DataFrame) : Prop :=
  Forall2 (fun lr lr' => fst lr' = fst lr /\ R (snd lr) (snd lr'))
          (rows d) (rows d').

(** What step 2 does to a row whose cells are the strings of the input:
    the sector ["Technology"] becomes ["Information Technology"], any
    other sector keeps its label; [pal] and [exposure] hold the decimal
    built from their string, which stands for the number that the string
    denotes. *)
Definition step2_row (r r' : row) : Prop :=
  (cell Sector r = VStr "Technology" ->
   exists code, cell Sector r' = VCat code "Information Technology") /\
  (forall s, s <> "Technology" -> cell Sector r = VStr s ->
             exists code, cell Sector r' = VCat code s) /\
  (forall c s, c = Pal \/ c = Exposure -> cell c r = VStr s ->
               exists x q, cell c r' = VDec x /\ Decimal s = Ok x /\
                           numeral_value s = Some q /\ Qeq (Dec.value x) q).

(** The body of the loops of steps 4 and 5. *)
Definition merge_body (partition : DataFrame -> result DataFrame) (o : obj)
  (g : label * DataFrame) : M unit :=
  p <- lift (partition (snd g)) ;;
  modifyR o (fun d => update d p).

(** Every row is labelled with its ["index"] cell. *)
Definition labelled_by_index (d : DataFrame) : Prop :=
  forall lr, In lr (rows d) -> fst lr = [cell Index (snd lr)].

(** Two partition frames (or exceptions) that [update] cannot tell apart
    on a frame with the columns [cols]. *)
Definition update_equiv (cols : list column) (r r' : result DataFrame) : Prop :=
  match r, r' with
  | Ok p, Ok p' => forall cur, columns cur = cols -> update cur p = update cur p'
  | Raise e, Raise e' => e = e'
  | _, _ => False
  end.

(** The columns of the frame after the first two statements of step 5. *)
Definition step5_columns (c : list column) : list column :=
  if has_column Return (remove_columns [Index] c)
  then remove_columns [Index] c
  else remove_columns [Index] c ++ [Return].

(* ================================================================== *)
(** * The pipeline as a composition of frame functions *)
(* ================================================================== *)

(** The task [s] leaves [F d] behind its argument whenever [df_task]
    calls it on a frame [d] that satisfies [P]. *)
Definition implements (P : DataFrame -> Prop) (s : Task)
  (F : DataFrame -> result DataFrame) : Prop :=
  forall w o executor,
    call_of_df_task w o executor -> P (deref w o) ->
    leaves (func s o executor) o w (F (deref w o)).

(** A list of tasks that implement a list of frame functions, each on the
    frames that the previous ones deliver: from frames that satisfy [P] to
    frames that satisfy [Q]. *)
Inductive pipeline_of (P : DataFrame -> Prop)
  : list Task -> list (DataFrame -> result DataFrame)
    -> (DataFrame -> Prop) -> Prop :=
| pipeline_nil : pipeline_of P [] [] P
| pipeline_cons (P' Q : DataFrame -> Prop) s F steps Fs :
    implements P s F ->
    (forall d d', P d -> F d = Ok d' -> P' d') ->
    pipeline_of P' steps Fs Q ->
    pipeline_of P (s :: steps) (F :: Fs) Q.

(** The composition of frame functions. *)
Fixpoint frames (Fs : list (DataFrame -> result DataFrame)) (d : DataFrame)
  : result DataFrame :=
  match Fs with
  | [] => Ok d
  | F :: tl => let* d' := F d in frames tl d'
  end.

(** The frame functions of the six stages. *)
Definition PIPELINE_FRAMES (to_datetime : string -> result Z)
  : list (DataFrame -> result DataFrame) :=
  [ step1_frame; step2_frame to_datetime; step3_frame;
    step4_frame; step5_frame; step6_frame ].

(** The positions [0 .. n-1]. *)
Definition positions (n : nat) : list Z := map Z.of_nat (seq 0 n).

(** The primary key of step 1: the frame has [n] rows, and the row at
    position [i] has the label [i] and holds [i] in ["index"]. *)
Definition pk_ok (n : nat) (d : DataFrame) : Prop :=
  map (fun lr => (fst lr, cell Index (snd lr))) (rows d)
  = map (fun i => ([VInt i], VInt i)) (positions n).

(** After step 5 the primary key is the index of the frame. *)
Definition pk_is_index (n : nat) (d : DataFrame) : Prop :=
  index_names d = [Index] /\
  map fst (rows d) = map (fun i => [VInt i]) (positions n).

(** A frame as [read_csv] delivers it: [n] rows under the default index,
    no column named ["index"]. *)
Definition csv_frame (n : nat) (d : DataFrame) : Prop :=
  exists cols rs, d = frame_of_rows cols rs /\
                  has_column Index cols = false /\ List.length rs = n.


(** What holds of the frame after the first [k] stages of a run on a
    frame of [n] rows. *)
Definition stage_invariant (n k : nat) (d : DataFrame) : Prop :=
  match k with
  | 0%nat => csv_frame n d
  | 1%nat | 2%nat | 3%nat | 4%nat => pk_ok n d
  | 5%nat => pk_is_index n d
  | _ => (nrows d <= n)%nat
  end.

(* ================================================================== *)
(** * Step 6: groups and aggregates *)
(* ================================================================== *)

(** [v] is a least element of [vs] in the order of its column. *)
Definition least (v : value) (vs : list value) : Prop :=
  In v vs /\ forall u, In u vs -> value_leb v u = true.

(** The values of a column over some rows. *)
Definition values_of (c : column) (rs : list (label * row)) : list value :=
  map (fun lr => cell c (snd lr)) rs.


Definition is_str (v : value) : bool :=
  match v with VStr _ => true | _ => false end.

Definition is_cat (v : value) : bool :=
  match v with VCat _ _ => true | _ => false end.

(** What ["sum"] adds up in a column of decimals: decimals and missing
    values. *)
Definition summable (v : value) : bool := is_dec v || isna v.

(** The frame that enters step 6 on a blotter of [n] rows: the primary
    key is the index, the columns that step 6 reads exist, every analyst
    is a string, every sector a category, and [pal], [exposure] and
    [return] hold decimals or missing values. *)
Definition enters_step6 (n : nat) (d : DataFrame) : Prop :=
  pk_is_index n d /\
  has_column Index (columns d) = false /\
  all_columns_in [Date; Lkid; Analyst; Sector; Pal; Exposure; Return]
                 (columns d) = true /\
  forall lr, In lr (rows d) ->
    is_str (cell Analyst (snd lr)) = true /\
    is_cat (cell Sector (snd lr)) = true /\
    summable (cell Pal (snd lr)) = true /\
    summable (cell Exposure (snd lr)) = true /\
    summable (cell Return (snd lr)) = true.

(** The primary key written back into the ["index"] column, as the
    [reset_index] of step 6 does on a frame indexed by it. *)
Definition restore_pk (lr : label * row) : label * row :=
  (fst lr, set_cell Index (hd VNone (fst lr)) (snd lr)).

(* ================================================================== *)
(** * Numerals that [read_csv] has made floats *)
(* ================================================================== *)

(** C9 as the specification states it, for one cell: the cell holds the
    decimal that is equal to the numeral [text] of the input. *)
Definition holds_decimal_of_text (text : string) (v : value) : Prop :=
  exists z q, v = VDec z /\ numeral_value text = Some q /\
              (Dec.value z == q)%Q.

(** The float64 nearest to one tenth: [3602879701896397 * 2^-55]. *)
Definition float_one_tenth : Float.t :=
  Float.Num false 1801439850948198 (-55).

(** The frame that [read_csv], called without a dtype table as
    [BlotterCLI.main] calls it, makes of the line
    [2024-01-01,A,X,a,S,0.1,100]: [pal] is a float64 column, [x] being
    the float that the parser makes of [0.1], and [exposure] an int64
    column. *)
Definition blotter_float (x : Float.t) : DataFrame :=
  frame_of_rows csv_columns
    [ mkRow VNone VNone (VStr "2024-01-01") (VStr "A") (VStr "X") (VStr "a")
            (VStr "S") (VFloat x) (VInt 100) VNone VNone ].

(* ================================================================== *)
(** * An input with a column named ["index"] *)
(* ================================================================== *)

(** C10 as the specification states it, for one input: when both modes
    complete, they end with equal frames. *)
Definition modes_agree (to_datetime : string -> result Z)
  (input : DataFrame) : Prop :=
  forall d w d' w',
    blottercli to_datetime true input = (Val d, w) ->
    blottercli to_datetime false input = (Val d', w') ->
    d = d'.

(** The two-day blotter with a column named ["index"] that holds 1 and
    0, as [read_csv] delivers the lines
    [1,2024-01-01,A,X,a,Technology,10,100] and
    [0,2024-01-02,A,X,a,Technology,-5,80]: step 1 has to call its key
    ["level_0"], and the later stages take the column of the file for the
    key. *)
Definition blotter_indexed : DataFrame :=
  frame_of_rows (Index :: csv_columns)
    [ mkRow (VInt 1) VNone (VStr "2024-01-01") (VStr "A") (VStr "X")
            (VStr "a") (VStr "Technology") (VInt 10) (VInt 100) VNone VNone;
      mkRow (VInt 0) VNone (VStr "2024-01-02") (VStr "A") (VStr "X")
            (VStr "a") (VStr "Technology") (VInt (-5)) (VInt 80) VNone VNone ].

(* ================================================================== *)
(** * The store: what a computation touches *)
(* ================================================================== *)

(** A computation that creates no object and mutates none but [o],
    whether it returns or raises. *)
Definition touches_only {A} (o : obj) (m : M A) : Prop :=
  forall w,
    List.length (objects (snd (m w))) = List.length (objects w) /\
    forall o', o' <> o -> deref (snd (m w)) o' = deref w o'.

(** A task function that touches its argument only. *)
Definition task_touches_argument (s : Task) : Prop :=
  forall (o : obj) (executor : Executor), touches_only o (func s o executor).

(* ================================================================== *)
(** * Further example inputs *)
(* ================================================================== *)

(** A blotter in which both ["Technology"] and ["Information Technology"]
    occur as sectors. *)
Definition blotter_two_sectors : DataFrame :=
  frame_of_rows csv_columns
    [ csv_row "2024-01-01" "A" "X" "a" "Technology" "10" "100";
      csv_row "2024-01-01" "B" "Y" "b" "Information Technology" "5" "50" ].

(** A cell of a column of strings: a string or a missing value. *)
Definition is_str_or_na (v : value) : bool := is_str v || isna v.

(* ================================================================== *)
(** * Merging partitions *)
(* ================================================================== *)

(** What [self.update(p)] does to the row labelled [l] of a frame with the
    columns [cols]. *)
Definition apply_partition (cols : list column) (l : label) (acc : row)
  (p : DataFrame) : row :=
  match lookup_label l (rows p) with
  | Some that =>
      update_row (filter (fun c => has_column c (columns p)) cols) that acc
  | None => acc
  end.

(* ================================================================== *)
(** * Step 6: the rows that are left *)
(* ================================================================== *)

(** The columns that the aggregation of step 6 writes into the frame. *)
Definition step6_aggregated : list column :=
  [Date; Lkid; Analyst; Sector; Pal; Exposure; Return].

(** A row of the frame of step 6 as [update] finds it: labelled with the
    primary key, [pal], [exposure] and [return] emptied. *)
Definition step6_blank (lr : label * row) : label * row :=
  (fst lr,
   clear_cells [Index]
     (set_cell Return VNone
        (set_cell Exposure VNone
           (set_cell Pal VNone (snd (restore_pk lr)))))).

(** The row after [_df.update(another_df)]. *)
Definition step6_merged (another_df : DataFrame) (cols : list column)
  (lr : label * row) : label * row :=
  (fst lr, apply_partition cols (fst lr) (snd (step6_blank lr)) another_df).

(** The rows that [dropna] keeps. *)
Definition complete_row (cols : list column) (lr : label * row) : bool :=
  forallb (fun c => negb (isna (cell c (snd lr)))) cols.

(** A row of the frame that enters step 6 that has no missing value
    outside the aggregated columns. *)
Definition complete_outside (cols : list column) (lr : label * row) : bool :=
  forallb (fun c => has_column c step6_aggregated
                    || negb (isna (cell c (snd lr)))) cols.

(** The frame that step 6 leaves, from the rows after the update. *)
Definition step6_result (cols : list column) (merged : list (label * row))
  : DataFrame :=
  mkDF [] ([Lkid; Date] ++ remove_columns [Lkid; Date] cols)
    (range_index 0
       (map (fun lr => set_cells [Lkid; Date] (fst lr) (snd lr))
          (isort (fun x y : label * row => label_leb (fst x) (fst y))
             (map (fun lr => ([cell Lkid (snd lr); cell Date (snd lr)],
                              clear_cells [Lkid; Date] (snd lr)))
                  (filter (complete_row cols) merged))))).

Definition is_int (v : value) : bool :=
  match v with VInt _ => true | _ => false end.

(** [another_df] is the aggregation that step 6 makes of the frame [d]:
    its columns, its default index, one row per group in the order of
    the group keys, and no missing value in the aggregated columns. *)
Definition aggregates_of (d another_df : DataFrame) : Prop :=
  step6_another_df (mkDF [] (Index :: columns d) (map restore_pk (rows d)))
  = Ok another_df /\
  columns another_df
  = [Date; Lkid; Analyst; Sector; Pal; Exposure; Return; Index] /\
  map fst (rows another_df)
  = map (fun i => [VInt i])
        (map Z.of_nat (seq 0 (List.length (rows another_df)))) /\
  map (fun a => key_of [Date; Lkid] (snd a)) (rows another_df)
  = group_keys [Date; Lkid] d /\
  forall a c, In a (rows another_df) -> In c step6_aggregated ->
              isna (cell c (snd a)) = false.

(* ================================================================== *)
(** * blottercli.py: the columns that are written *)
(* ================================================================== *)

(** The [columns] argument of [to_csv] in [BlotterCLI.main]. *)
Definition OUTPUT_COLUMNS : list column :=
  [Lkid; Date; Analyst; Sector; Pal; Exposure; Return].

(* ================================================================== *)
(** * Step 4: the rows that are written *)
(* ================================================================== *)

(** The rows of a frame that collide with the row [r]: the same lkid,
    ticker and date. *)
Definition collision_group (d : DataFrame) (r : row) : list (label * row) :=
  group_rows [Lkid; Ticker; Date] (key_of [Lkid; Ticker; Date] r) d.

(** The row that stands for its collision group in step 4: its lkid,
    ticker and date are not missing, and its ["index"] is the least of the
    group. *)
Definition is_representative (d : DataFrame) (r : row) : bool :=
  negb (existsb isna (key_of [Lkid; Ticker; Date] r))
  && value_eqb (cell Index r)
               (series_min (series_of Index (collision_group d r))).

(** The columns that step 4 writes. *)
Definition step4_written : list column :=
  [Analyst; Sector; Pal; Exposure; OpenLiq].

(** The rows of a frame with the lkid and the ticker of the row [r],
    dated the day after [z]. *)
Definition next_day_group (d : DataFrame) (r : row) (z : Z)
  : list (label * row) :=
  group_rows [Lkid; Ticker; Date] [cell Lkid r; cell Ticker r; VDate (z + 1)] d.

(** What [update] leaves in a cell: the new value, or the old one when
    the new one is missing. *)
Definition coalesce (new old : value) : value :=
  if isna new then old else new.

(* ================================================================== *)
(** * The frame that steps 1 to 5 deliver *)
(* ================================================================== *)

(** Every row of the input names an analyst and a sector. *)
Definition names_analyst_and_sector (d : DataFrame) : Prop :=
  forall lr, In lr (rows d) ->
    is_str (cell Analyst (snd lr)) = true /\
    is_str (cell Sector (snd lr)) = true.

(** Every row of the input has a [pal] and an [exposure]. *)
Definition has_pal_and_exposure (d : DataFrame) : Prop :=
  forall lr, In lr (rows d) ->
    isna (cell Pal (snd lr)) = false /\
    isna (cell Exposure (snd lr)) = false.

(** A row as steps 2 to 4 keep it: the analyst is a string, the sector a
    category, [pal] and [exposure] are decimals. *)
Definition typed_row (r : row) : Prop :=
  is_str (cell Analyst r) = true /\ is_cat (cell Sector r) = true /\
  is_dec (cell Pal r) = true /\ is_dec (cell Exposure r) = true.
(* ================================================================== *)
(** * Basic facts: equality tests, cells, results *)
(* ================================================================== *)

Unset Implicit Arguments.

Lemma dec_eqb_eq (a b : Dec.t) : Dec.eqb a b = true <-> a = b.
Proof.
  destruct a as [s c e], b as [s' c' e']; unfold Dec.eqb; simpl.
  rewrite !andb_true_iff, Bool.eqb_true_iff, N.eqb_eq, Z.eqb_eq.
  split.
  - intros [[-> ->] ->]; reflexivity.
  - intros H; inversion H; auto.
Qed.

Lemma float_eqb_eq (x y : Float.t) : Float.eqb x y = true <-> x = y.
Proof.
  destruct x as [|s h e], y as [|s' h' e']; cbn [Float.eqb];
    try (split; [discriminate | congruence]); try (split; congruence).
  rewrite !andb_true_iff, Bool.eqb_true_iff, N.eqb_eq, Z.eqb_eq.
  split.
  - intros [[-> ->] ->]; reflexivity.
  - intros H; inversion H; auto.
Qed.

Lemma value_eqb_eq (a b : value) : value_eqb a b = true <-> a = b.
Proof.
  destruct a, b; simpl; try (split; [discriminate | congruence]);
    try (split; congruence).
  - rewrite Z.eqb_eq; split; congruence.
  - rewrite String.eqb_eq; split; congruence.
  - rewrite andb_true_iff, Nat.eqb_eq, String.eqb_eq.
    split; [intros [-> ->]; reflexivity | intros H; inversion H; auto].
  - rewrite dec_eqb_eq; split; congruence.
  - rewrite Z.eqb_eq; split; congruence.
  - rewrite float_eqb_eq; split; congruence.
Qed.

Lemma value_eqb_refl (a : value) : value_eqb a a = true.
Proof. apply value_eqb_eq; reflexivity. Qed.

Lemma label_eqb_eq (a b : label) : label_eqb a b = true <-> a = b.
Proof.
  revert b; induction a as [|x a IH]; intros [|y b]; simpl;
    try (split; [discriminate | congruence]); try (split; congruence).
  rewrite andb_true_iff, value_eqb_eq, IH.
  split; [intros [-> ->]; reflexivity | intros H; inversion H; auto].
Qed.

Lemma label_eqb_refl (a : label) : label_eqb a a = true.
Proof. apply label_eqb_eq; reflexivity. Qed.

Lemma label_eqb_neq (a b : label) : label_eqb a b = false <-> a <> b.
Proof.
  split.
  - intros H E; apply label_eqb_eq in E; congruence.
  - intros H; destruct (label_eqb a b) eqn:E; auto.
    apply label_eqb_eq in E; contradiction.
Qed.

Lemma column_eqb_eq (a b : column) : column_eqb a b = true <-> a = b.
Proof. destruct a, b; simpl; split; congruence. Qed.

Lemma column_eqb_refl (a : column) : column_eqb a a = true.
Proof. destruct a; reflexivity. Qed.

Lemma has_column_In (c : column) (cols : list column) :
  has_column c cols = true <-> In c cols.
Proof.
  unfold has_column; rewrite existsb_exists; split.
  - intros [x [Hin Heq]]; apply column_eqb_eq in Heq; subst; exact Hin.
  - intros Hin; exists c; split; [exact Hin | apply column_eqb_refl].
Qed.

Lemma cell_set_cell_same (c : column) (v : value) (r : row) :
  cell c (set_cell c v r) = v.
Proof. destruct r, c; reflexivity. Qed.

Lemma cell_set_cell_other (c c' : column) (v : value) (r : row) :
  c <> c' -> cell c (set_cell c' v r) = cell c r.
Proof. destruct r, c, c'; intros H; try reflexivity; contradiction. Qed.

Lemma set_cell_cell (c : column) (r : row) : set_cell c (cell c r) r = r.
Proof. destruct r, c; reflexivity. Qed.

Lemma set_cell_twice (c : column) (v v' : value) (r : row) :
  set_cell c v (set_cell c v' r) = set_cell c v r.
Proof. destruct r, c; reflexivity. Qed.

Lemma rmap_length {A B} (f : A -> result B) (l : list A) (l' : list B) :
  rmap f l = Ok l' -> List.length l' = List.length l.
Proof.
  revert l'; induction l as [|x l IH]; simpl; intros l' H.
  - inversion H; reflexivity.
  - destruct (f x); simpl in H; [|discriminate].
    destruct (rmap f l); simpl in H; [|discriminate].
    inversion H; subst; simpl; f_equal; apply IH; reflexivity.
Qed.

Lemma rmap_Forall2 {A B} (f : A -> result B) (l : list A) (l' : list B) :
  rmap f l = Ok l' <-> Forall2 (fun x y => f x = Ok y) l l'.
Proof.
  revert l'; induction l as [|x l IH]; simpl; intros l'.
  - split; intros H; [inversion H; constructor | inversion H; reflexivity].
  - split.
    + destruct (f x) eqn:Hx; simpl; [|discriminate].
      destruct (rmap f l) eqn:Hl; simpl; [|discriminate].
      intros H; inversion H; subst; constructor; [exact Hx | apply IH; reflexivity].
    + intros H; inversion H as [|? y ? ys Hx Hl]; subst.
      rewrite Hx; simpl. apply IH in Hl; rewrite Hl; reflexivity.
Qed.


Lemma rmap_ext {A B} (f g : A -> result B) (l : list A) :
  (forall x, In x l -> f x = g x) -> rmap f l = rmap g l.
Proof.
  induction l as [|x l IH]; simpl; intros H; [reflexivity|].
  rewrite (H x) by auto. rewrite IH by auto. reflexivity.
Qed.


(* ================================================================== *)
(** * The pipeline driver and the decorator *)
(* ================================================================== *)

Lemma run_app (l1 l2 : list Task) (executor : Executor) (w : world) :
  run (l1 ++ l2) executor w =
  match run l1 executor w with
  | (Val e1, w1) => run l2 e1 w1
  | (Exn e, w1) => (Exn e, w1)
  end.
Proof.
  revert executor w; induction l1 as [|s l1 IH]; intros executor w; simpl.
  - reflexivity.
  - unfold bind.
    destruct (transform executor s w) as [[d|e] w'].
    + destruct (is_eager executor); apply IH.
    + reflexivity.
Qed.

(** In eager mode the driver never rebinds the frame of the executor. *)
Lemma run_eager_executor (steps : list Task) (executor e1 : Executor)
  (w w1 : world) :
  is_eager executor = true ->
  run steps executor w = (Val e1, w1) -> e1 = executor.
Proof.
  revert w; induction steps as [|s steps IH]; intros w Heager; simpl.
  - unfold ret; intros H; inversion H; reflexivity.
  - unfold bind. destruct (transform executor s w) as [[d|e] w'].
    + rewrite Heager. apply IH; exact Heager.
    + discriminate.
Qed.

Lemma df_task_eager (f : Task) (d : obj) (executor : Executor) (w : world) :
  df_task f d executor true w =
  match func f d executor (mkWorld (objects w) (trace w ++ [task_name f])) with
  | (Val result, w') =>
      if negb (Nat.eqb result d) then (Exn RuntimeError, w') else (Val result, w')
  | (Exn e, w') => (Exn e, w')
  end.
Proof.
  unfold df_task, bind, log, ret; simpl.
  destruct (func f d executor _) as [[result|e] w']; [|reflexivity].
  destruct (negb (Nat.eqb result d)); reflexivity.
Qed.

(** C4. In in-place (eager) mode: when the stages before [s] have
    completed and the function underlying [s] returns an object other than
    the frame it was passed, the run raises [RuntimeError] at [s], and it
    ends in the very world that this function left, whatever the later
    stages [post] are: none of them is entered.  When the function returns
    the object it was passed, the stage completes with that object. *)
Theorem df_task_eager_contract :
  forall (pre post : list Task) (s : Task) (executor e1 : Executor)
         (w w1 w2 : world) (result : obj),
    is_eager executor = true ->
    run pre executor w = (Val e1, w1) ->
    func s (df e1) e1 (mkWorld (objects w1) (trace w1 ++ [task_name s]))
      = (Val result, w2) ->
    (result <> df e1 ->
       run (pre ++ s :: post) executor w = (Exn RuntimeError, w2))
    /\ (result = df e1 -> transform e1 s w1 = (Val result, w2)).
Proof.
  intros pre post s executor e1 w w1 w2 result Heager Hpre Hfunc.
  assert (He1 : e1 = executor) by (eapply run_eager_executor; eauto).
  subst e1. split.
  - intros Hne. rewrite run_app, Hpre. simpl. unfold bind at 1.
    unfold transform. rewrite Heager, df_task_eager, Hfunc.
    apply Nat.eqb_neq in Hne. rewrite Hne. reflexivity.
  - intros Heq. unfold transform. rewrite Heager, df_task_eager, Hfunc.
    subst result. rewrite Nat.eqb_refl. reflexivity.
Qed.

Lemma df_task_eager_contract_witness :
  run ([mkTask "step1_create_pk" (without_executor step1_create_pk)]
         ++ rebinding_task
         :: [mkTask "step3_impute_ticker" (without_executor step3_impute_ticker)])
      (mkExecutor O true) (initial_world blotter_two_days)
  = (Exn RuntimeError,
     snd (func rebinding_task O (mkExecutor O true)
            (mkWorld
               (objects (snd (run [mkTask "step1_create_pk"
                                     (without_executor step1_create_pk)]
                                  (mkExecutor O true)
                                  (initial_world blotter_two_days))))
               ["step1_create_pk"; "rebinding_task"]))).
Proof.
  refine (proj1 (@df_task_eager_contract
                   [mkTask "step1_create_pk" (without_executor step1_create_pk)]
                   [mkTask "step3_impute_ticker" (without_executor step3_impute_ticker)]
                   rebinding_task (mkExecutor O true) (mkExecutor O true)
                   (initial_world blotter_two_days) _ _ 1%nat
                   eq_refl eq_refl eq_refl) _).
  simpl; discriminate.
Defined.

(* ================================================================== *)
(** * The store *)
(* ================================================================== *)

Lemma replace_nth_length {A} (n : nat) (x : A) (l : list A) :
  List.length (replace_nth n x l) = List.length l.
Proof.
  revert n; induction l as [|y l IH]; intros [|n]; simpl; auto.
Qed.

Lemma nth_replace_nth_same {A} (n : nat) (x dflt : A) (l : list A) :
  (n < List.length l)%nat -> nth n (replace_nth n x l) dflt = x.
Proof.
  revert n; induction l as [|y l IH]; intros [|n]; simpl; intros H;
    try lia; auto.
  apply IH; lia.
Qed.

Lemma nth_replace_nth_other {A} (n m : nat) (x dflt : A) (l : list A) :
  n <> m -> nth m (replace_nth n x l) dflt = nth m l dflt.
Proof.
  revert n m; induction l as [|y l IH]; intros [|n] [|m]; simpl; intros H;
    try reflexivity; try contradiction.
  apply IH; lia.
Qed.

Lemma replace_nth_twice {A} (n : nat) (x y : A) (l : list A) :
  replace_nth n x (replace_nth n y l) = replace_nth n x l.
Proof.
  revert n; induction l as [|z l IH]; intros [|n]; simpl; auto.
  rewrite IH; reflexivity.
Qed.

Lemma valid_set_obj (w : world) (o o' : obj) (d : DataFrame) :
  valid (set_obj w o d) o' <-> valid w o'.
Proof. unfold valid, set_obj; simpl. rewrite replace_nth_length. tauto. Qed.

Lemma deref_set_obj_same (w : world) (o : obj) (d : DataFrame) :
  valid w o -> deref (set_obj w o d) o = d.
Proof. intros H. unfold deref, set_obj; simpl. apply nth_replace_nth_same, H. Qed.

Lemma deref_set_obj_other (w : world) (o o' : obj) (d : DataFrame) :
  o <> o' -> deref (set_obj w o d) o' = deref w o'.
Proof. intros H. unfold deref, set_obj; simpl. apply nth_replace_nth_other, H. Qed.

Lemma set_obj_twice (w : world) (o : obj) (d d' : DataFrame) :
  set_obj (set_obj w o d') o d = set_obj w o d.
Proof. unfold set_obj; simpl. rewrite replace_nth_twice. reflexivity. Qed.

Lemma modify_seq {A} (o : obj) (f : DataFrame -> DataFrame) (m : M A) (w : world) :
  (modify o f ;; m) w = m (set_obj w o (f (deref w o))).
Proof. reflexivity. Qed.

Lemma modifyR_seq {A} (o : obj) (f : DataFrame -> result DataFrame) (m : M A)
  (w : world) :
  (modifyR o f ;; m) w =
  match f (deref w o) with
  | Ok d' => m (set_obj w o d')
  | Raise e => (Exn e, w)
  end.
Proof.
  unfold modifyR, bind, read, lift. destruct (f (deref w o)); reflexivity.
Qed.

Lemma lift_seq {A B} (r : result A) (k : A -> M B) (w : world) :
  (x <- lift r ;; k x) w =
  match r with
  | Ok a => k a w
  | Raise e => (Exn e, w)
  end.
Proof. destruct r; reflexivity. Qed.

Lemma read_seq {A} (o : obj) (k : DataFrame -> M A) (w : world) :
  (d <- read o ;; k d) w = k (deref w o) w.
Proof. reflexivity. Qed.


Lemma replace_nth_nth {A} (n : nat) (dflt : A) (l : list A) :
  (n < List.length l)%nat -> replace_nth n (nth n l dflt) l = l.
Proof.
  revert n; induction l as [|y l IH]; intros [|n]; simpl; intros H;
    try lia; auto.
  rewrite IH by lia; reflexivity.
Qed.

Lemma set_obj_deref (w : world) (o : obj) :
  valid w o -> set_obj w o (deref w o) = w.
Proof.
  intros H. destruct w as [os tr]. unfold set_obj, deref; simpl.
  rewrite replace_nth_nth by exact H. reflexivity.
Qed.

Lemma leaves_ret (o : obj) (w : world) (d : DataFrame) :
  valid w o -> deref w o = d -> leaves (ret o) o w (Ok d).
Proof.
  intros H <-. unfold leaves, ret. rewrite set_obj_deref by exact H. reflexivity.
Qed.

Lemma leaves_modifyR (o : obj) (w : world) (d : DataFrame)
  (f : DataFrame -> result DataFrame) (t : M obj)
  (G : DataFrame -> result DataFrame) :
  valid w o -> deref w o = d ->
  (forall d1, f d = Ok d1 -> leaves t o (set_obj w o d1) (G d1)) ->
  leaves (modifyR o f ;; t) o w (rbind (f d) G).
Proof.
  intros Hv <- H. unfold leaves. rewrite modifyR_seq.
  destruct (f (deref w o)) as [d1|e] eqn:E; simpl.
  - specialize (H d1 eq_refl). unfold leaves in H.
    destruct (G d1) as [d'|e].
    + rewrite H, set_obj_twice. reflexivity.
    + exact H.
  - eexists; reflexivity.
Qed.

Lemma leaves_modifyR_last (o : obj) (w : world) (d : DataFrame)
  (f : DataFrame -> result DataFrame) :
  valid w o -> deref w o = d ->
  leaves (modifyR o f ;; ret o) o w (f d).
Proof.
  intros Hv <-. unfold leaves. rewrite modifyR_seq.
  destruct (f (deref w o)) as [d1|e]; [reflexivity | eexists; reflexivity].
Qed.

Lemma leaves_modify (o : obj) (w : world) (d : DataFrame)
  (f : DataFrame -> DataFrame) (t : M obj) (r : result DataFrame) :
  valid w o -> deref w o = d ->
  leaves t o (set_obj w o (f d)) r ->
  leaves (modify o f ;; t) o w r.
Proof.
  intros Hv <- H. unfold leaves in *. rewrite modify_seq.
  destruct r as [d'|e].
  - rewrite H, set_obj_twice. reflexivity.
  - exact H.
Qed.

Lemma leaves_lift {A} (o : obj) (w : world) (r : result A) (k : A -> M obj)
  (G : A -> result DataFrame) :
  (forall a, r = Ok a -> leaves (k a) o w (G a)) ->
  leaves (x <- lift r ;; k x) o w (rbind r G).
Proof.
  intros H. unfold leaves. rewrite lift_seq. destruct r as [a|e]; simpl.
  - apply H; reflexivity.
  - eexists; reflexivity.
Qed.

Ltac solve_valid :=
  first [assumption | apply valid_set_obj; assumption].
Ltac solve_deref :=
  first [apply deref_set_obj_same; assumption | reflexivity].

(** One step through a chain of in-place methods on the frame behind the
    reference. *)
Ltac leaves_step :=
  first
    [ eapply leaves_modifyR_last; [solve_valid | solve_deref]
    | eapply leaves_modifyR;
      [solve_valid | solve_deref | intros ? ?; rewrite ?set_obj_twice]
    | eapply leaves_modify;
      [solve_valid | solve_deref | rewrite ?set_obj_twice]
    | eapply leaves_ret; [solve_valid | solve_deref] ].

Lemma step1_run (o : obj) (w : world) :
  valid w o ->
  leaves (step1_create_pk o) o w (step1_frame (deref w o)).
Proof.
  intros Hv. unfold step1_create_pk, step1_frame. leaves_step.
Qed.

Lemma step2_run (to_datetime : string -> result Z) (o : obj) (w : world) :
  valid w o ->
  leaves (step2_sector_pal_date to_datetime o) o w
         (step2_frame to_datetime (deref w o)).
Proof.
  intros Hv. unfold step2_sector_pal_date, step2_frame.
  do 5 leaves_step.
Qed.

Lemma step3_run (o : obj) (w : world) :
  valid w o ->
  leaves (step3_impute_ticker o) o w (step3_frame (deref w o)).
Proof.
  intros Hv.
  assert (E : step3_impute_ticker o w =
              (if negb (has_column Ticker (columns (deref w o)))
               then modifyR o (assign_rowwise Ticker impute_ticker_symbol) ;; ret o
               else ret o) w).
  { unfold step3_impute_ticker. rewrite read_seq.
    destruct (negb (has_column Ticker (columns (deref w o)))); reflexivity. }
  unfold step3_frame.
  destruct (negb (has_column Ticker (columns (deref w o)))).
  - pose proof (@leaves_modifyR_last o w (deref w o)
                  (assign_rowwise Ticker impute_ticker_symbol) Hv eq_refl) as L.
    unfold leaves in *. rewrite E. exact L.
  - pose proof (@leaves_ret o w (deref w o) Hv eq_refl) as L.
    unfold leaves in *. rewrite E. exact L.
Qed.

(* ================================================================== *)
(** * Step 3: synthetic tickers *)
(* ================================================================== *)



Lemma Forall2_map_r_self {A B} (P : A -> B -> Prop) (g : A -> B) (l : list A) :
  (forall x, In x l -> P x (g x)) -> Forall2 P l (map g l).
Proof.
  induction l as [|x l IH]; simpl; intros H; constructor; auto.
Qed.


Lemma has_column_setitem_columns (c : column) (cols : list column) :
  has_column c (if has_column c cols then cols else cols ++ [c]) = true.
Proof.
  destruct (has_column c cols) eqn:E; [exact E|].
  apply has_column_In, in_or_app. right; left; reflexivity.
Qed.



(* ================================================================== *)
(** * Labels, group keys and sorting *)
(* ================================================================== *)

Lemma existsb_label_In (x : label) (l : list label) :
  existsb (label_eqb x) l = true <-> In x l.
Proof.
  rewrite existsb_exists. split.
  - intros [y [Hin Heq]]. apply label_eqb_eq in Heq. subst. exact Hin.
  - intros Hin. exists x. split; [exact Hin | apply label_eqb_refl].
Qed.

Lemma nodup_labels_NoDup (l : list label) :
  nodup_labels l = true <-> NoDup l.
Proof.
  induction l as [|x l IH]; simpl.
  - split; [constructor | reflexivity].
  - rewrite andb_true_iff, negb_true_iff, IH. split.
    + intros [Hn Hnd]. constructor; [|exact Hnd].
      intros Hin. apply existsb_label_In in Hin. congruence.
    + intros H. inversion H as [|? ? Hn Hnd]; subst. split; [|exact Hnd].
      destruct (existsb (label_eqb x) l) eqn:E; [|reflexivity].
      apply existsb_label_In in E. contradiction.
Qed.

Lemma lookup_label_In {A} (l : label) (s : list (label * A)) (v : A) :
  lookup_label l s = Some v -> In (l, v) s.
Proof.
  induction s as [|[l' v'] s IH]; simpl; [discriminate|].
  destruct (label_eqb l l') eqn:E.
  - apply label_eqb_eq in E. subst. intros H; inversion H; auto.
  - intros H; right; apply IH; exact H.
Qed.

Lemma lookup_label_None {A} (l : label) (s : list (label * A)) :
  lookup_label l s = None <-> ~ In l (map fst s).
Proof.
  induction s as [|[l' v'] s IH]; simpl.
  - tauto.
  - destruct (label_eqb l l') eqn:E.
    + apply label_eqb_eq in E. subst. split; [discriminate | intros H; exfalso; auto].
    + apply label_eqb_neq in E. rewrite IH. split.
      * intros H [H1 | H1]; [congruence | contradiction].
      * intros H H1; apply H; right; exact H1.
Qed.

Lemma lookup_label_NoDup {A} (l : label) (s : list (label * A)) (v : A) :
  NoDup (map fst s) -> In (l, v) s -> lookup_label l s = Some v.
Proof.
  induction s as [|[l' v'] s IH]; simpl; intros Hnd Hin; [contradiction|].
  inversion Hnd as [|? ? Hn Hnd']; subst.
  destruct Hin as [Heq | Hin].
  - inversion Heq; subst. rewrite label_eqb_refl. reflexivity.
  - destruct (label_eqb l l') eqn:E.
    + apply label_eqb_eq in E. subst. exfalso. apply Hn.
      apply in_map_iff. exists (l', v). auto.
    + apply IH; assumption.
Qed.

Lemma insert_sorted_Permutation {A} (leb : A -> A -> bool) (x : A) (l : list A) :
  Permutation (x :: l) (insert_sorted leb x l).
Proof.
  induction l as [|y l IH]; simpl; [reflexivity|].
  destruct (leb x y); [reflexivity|].
  rewrite perm_swap. constructor. exact IH.
Qed.

Lemma isort_Permutation {A} (leb : A -> A -> bool) (l : list A) :
  Permutation l (isort leb l).
Proof.
  induction l as [|x l IH]; simpl; [reflexivity|].
  rewrite <- insert_sorted_Permutation. constructor. exact IH.
Qed.

Lemma dedup_In (x : label) (l : list label) : In x (dedup l) <-> In x l.
Proof.
  induction l as [|y l IH]; simpl; [tauto|].
  destruct (existsb (label_eqb y) (dedup l)) eqn:E.
  - apply existsb_label_In in E. rewrite IH. split; [auto|].
    intros [-> | H]; [apply IH; exact E | exact H].
  - simpl. rewrite IH. tauto.
Qed.

Lemma dedup_NoDup (l : list label) : NoDup (dedup l).
Proof.
  induction l as [|y l IH]; simpl; [constructor|].
  destruct (existsb (label_eqb y) (dedup l)) eqn:E; [exact IH|].
  constructor; [|exact IH].
  intros Hin. apply existsb_label_In in Hin. congruence.
Qed.

Lemma group_keys_NoDup (keys : list column) (d : DataFrame) :
  NoDup (group_keys keys d).
Proof.
  unfold group_keys.
  eapply Permutation_NoDup; [apply isort_Permutation | apply dedup_NoDup].
Qed.

(** The group keys are the keys of the rows that have no missing value
    in a key column. *)
Lemma group_keys_In (keys : list column) (d : DataFrame) (k : label) :
  In k (group_keys keys d) <->
  existsb isna k = false /\ exists lr, In lr (rows d) /\ key_of keys (snd lr) = k.
Proof.
  unfold group_keys.
  split.
  - intros H. apply (Permutation_in _ (Permutation_sym (isort_Permutation _ _))) in H.
    apply dedup_In, filter_In in H. destruct H as [H1 H2].
    apply negb_true_iff in H2. split; [exact H2|].
    apply in_map_iff in H1. destruct H1 as [lr [E Hin]]. eauto.
  - intros [H1 [lr [Hin E]]].
    apply (Permutation_in _ (isort_Permutation _ _)).
    apply dedup_In, filter_In. split.
    + apply in_map_iff. eauto.
    + apply negb_true_iff. exact H1.
Qed.

Lemma group_rows_In (keys : list column) (k : label) (d : DataFrame)
  (lr : label * row) :
  In lr (group_rows keys k d) <-> In lr (rows d) /\ key_of keys (snd lr) = k.
Proof.
  unfold group_rows. rewrite filter_In, label_eqb_eq. tauto.
Qed.

(* ================================================================== *)
(** * Aggregation *)
(* ================================================================== *)

Lemma value_add_not_na (a b v : value) : value_add a b = Ok v -> isna v = false.
Proof. destruct a, b; simpl; intros H; inversion H; reflexivity. Qed.

Lemma sum_from_not_na (l : list value) (acc v : value) :
  isna acc = false -> sum_from acc l = Ok v -> isna v = false.
Proof.
  revert acc; induction l as [|x l IH]; simpl; intros acc Hacc H.
  - inversion H; subst; exact Hacc.
  - destruct (isna x); [eapply IH; eauto|].
    destruct (value_add acc x) eqn:E; simpl in H; [|discriminate].
    eapply IH; [|exact H]. eapply value_add_not_na; eauto.
Qed.

Lemma group_sum_not_na (l : list value) (v : value) :
  group_sum l = Ok v -> isna v = false.
Proof.
  induction l as [|x l IH]; simpl; intros H.
  - inversion H; reflexivity.
  - destruct (isna x) eqn:E; [apply IH; exact H|].
    eapply sum_from_not_na; eauto.
Qed.

Lemma rmap_fst {A B C} (f : A * B -> result C) (l : list (A * B))
  (l' : list (A * C)) :
  rmap (fun x => let* y := f x in Ok (fst x, y)) l = Ok l' ->
  map fst l' = map fst l.
Proof.
  revert l'; induction l as [|x l IH]; simpl; intros l' H.
  - inversion H; reflexivity.
  - destruct (f x); simpl in H; [|discriminate].
    destruct (rmap _ l) eqn:E; simpl in H; [|discriminate].
    inversion H; subst; simpl. f_equal. apply IH; reflexivity.
Qed.

(** The shape of an aggregated frame ([as_index=True]): one row per group
    key, labelled with the key. *)
Lemma agg_true_rows (keys : list column)
  (spec : list (column * (Series -> result value))) (g c : DataFrame) :
  agg true keys spec g = Ok c ->
  index_names c = keys /\ columns c = map fst spec /\
  Forall2 (fun k lr =>
             fst lr = k /\
             agg_row spec (with_rows g (group_rows keys k g)) empty_row
             = Ok (snd lr))
          (group_keys keys g) (rows c).
Proof.
  unfold agg, groupby.
  destruct (all_columns_in keys (columns g)); simpl; [|discriminate].
  destruct (rmap _ _) as [rs|] eqn:E; simpl; [|discriminate].
  intros H; inversion H; subst; simpl. split; [reflexivity|].
  split; [reflexivity|].
  apply rmap_Forall2 in E. clear H.
  revert rs E. induction (group_keys keys g) as [|k ks IH]; simpl; intros rs E.
  - inversion E; constructor.
  - inversion E as [|? lr ? rs' Hx Hl]; subst. constructor.
    + simpl in Hx.
      destruct (agg_row spec _ empty_row) eqn:Er; simpl in Hx; [|discriminate].
      inversion Hx; subst; simpl. auto.
    + apply IH; exact Hl.
Qed.

Lemma getitem_ok (c : column) (g : DataFrame) :
  has_column c (columns g) = true ->
  getitem c g = Ok (series_of c (rows g)).
Proof. unfold getitem. intros ->. reflexivity. Qed.

Lemma all_columns_in_In (cs cols : list column) (c : column) :
  all_columns_in cs cols = true -> In c cs -> has_column c cols = true.
Proof.
  unfold all_columns_in. rewrite forallb_forall. auto.
Qed.

(** The row that step 4 makes of the rows of one date. *)
Lemma step4_agg_row (g : DataFrame) :
  all_columns_in [Index; Analyst; Sector; Pal; Exposure] (columns g) = true ->
  agg_row [(Index, first_alphabetical); (Analyst, first_alphabetical);
           (Sector, first_alphabetical); (Pal, agg_sum); (Exposure, agg_sum)]
          g empty_row
  = let* vp := agg_sum (series_of Pal (rows g)) in
    let* ve := agg_sum (series_of Exposure (rows g)) in
    Ok (mkRow (series_min (series_of Index (rows g))) VNone VNone VNone VNone
              (series_min (series_of Analyst (rows g)))
              (series_min (series_of Sector (rows g)))
              vp ve VNone VNone).
Proof.
  intros H. cbn [agg_row].
  rewrite !getitem_ok by (eapply all_columns_in_In; [exact H | simpl; tauto]).
  unfold first_alphabetical. cbn [rbind].
  destruct (agg_sum (series_of Pal (rows g))) as [vp|]; cbn [rbind]; [|reflexivity].
  destruct (agg_sum (series_of Exposure (rows g))) as [ve|]; cbn [rbind];
    reflexivity.
Qed.

Lemma all_columns_in_app (a b cols : list column) :
  all_columns_in (a ++ b) cols = all_columns_in a cols && all_columns_in b cols.
Proof. unfold all_columns_in. apply forallb_app. Qed.

Lemma Forall2_In_l {A B} (P : A -> B -> Prop) (l : list A) (l' : list B) (x : A) :
  Forall2 P l l' -> In x l -> exists y, In y l' /\ P x y.
Proof.
  induction 1 as [|a b l l' Hab H IH]; simpl; intros Hin; [contradiction|].
  destruct Hin as [-> | Hin]; [eauto|].
  destruct (IH Hin) as [y [Hy Hp]]; eauto.
Qed.

Lemma Forall2_In_r {A B} (P : A -> B -> Prop) (l : list A) (l' : list B) (y : B) :
  Forall2 P l l' -> In y l' -> exists x, In x l /\ P x y.
Proof.
  induction 1 as [|a b l l' Hab H IH]; simpl; intros Hin; [contradiction|].
  destruct Hin as [-> | Hin]; [eauto|].
  destruct (IH Hin) as [x [Hx Hp]]; eauto.
Qed.

Lemma Forall2_map_fst {A B C} (l : list (A * B)) (l' : list (A * C))
  (P : A * B -> A * C -> Prop) :
  Forall2 P l l' -> (forall x y, P x y -> fst y = fst x) ->
  map fst l' = map fst l.
Proof.
  induction 1 as [|a b l l' Hab H IH]; simpl; intros Hf; [reflexivity|].
  rewrite (Hf _ _ Hab), IH by exact Hf. reflexivity.
Qed.

(** What [step4_open_liq] computes, read off its definition: [c] is the
    collapsed frame, [p] the result. *)
Lemma step4_open_liq_inv (g p : DataFrame) :
  step4_open_liq g = Ok p ->
  exists c sh,
    step4_collapse g = Ok c /\
    shift_days (-1) (series_of Exposure (rows c)) = Ok sh /\
    NoDup (map fst sh) /\
    index_names p = index_names c /\
    Forall2 (fun lr lr' =>
               fst lr' = fst lr /\
               let r0 := set_cell OpenLiq
                           (match lookup_label (fst lr) sh with
                            | Some v => v
                            | None => VNone
                            end) (snd lr) in
               if isna (cell OpenLiq r0)
               then impute_first_day_open_liq r0 = Ok (snd lr')
               else snd lr' = r0)
            (rows c) (rows p).
Proof.
  unfold step4_open_liq. intros H.
  destruct (step4_collapse g) as [c|] eqn:Ec; cbn [rbind] in H; [|discriminate].
  assert (Hcols : columns c = [Index; Analyst; Sector; Pal; Exposure]).
  { apply agg_true_rows in Ec. destruct Ec as [_ [Hc _]]. exact Hc. }
  rewrite getitem_ok in H by (rewrite Hcols; reflexivity). cbn [rbind] in H.
  destruct (shift_days (-1) (series_of Exposure (rows c))) as [sh|] eqn:Es;
    cbn [rbind] in H; [|discriminate].
  unfold setitem_series in H.
  destruct (nodup_labels (map fst sh)) eqn:End; cbn [rbind] in H; [|discriminate].
  unfold apply_rows_where in H. cbn [rows] in H.
  destruct (rmap _ _) as [rs|] eqn:Er; cbn [rbind] in H; [|discriminate].
  inversion H; subst p; clear H. cbn [rows index_names with_rows].
  exists c, sh. split; [reflexivity|]. split; [exact Es|].
  split; [apply nodup_labels_NoDup; exact End|]. split; [reflexivity|].
  apply rmap_Forall2 in Er. clear - Er.
  revert rs Er. induction (rows c) as [|lr l IH]; cbn [map]; intros rs Er.
  - inversion Er; constructor.
  - inversion Er as [|? lr' ? rs' Hx Hl]; subst. constructor; [|apply IH; exact Hl].
    cbn [fst snd] in Hx.
    destruct (isna (cell OpenLiq (set_cell OpenLiq _ (snd lr)))) eqn:En.
    + destruct (impute_first_day_open_liq _) as [r|] eqn:Ei; cbn [rbind] in Hx;
        [|discriminate].
      inversion Hx; subst; cbn [fst snd]. split; reflexivity.
    + inversion Hx; subst; cbn [fst snd]. split; reflexivity.
Qed.

Lemma step4_collapse_rows (g c : DataFrame) :
  all_columns_in [Index; Analyst; Sector; Pal; Exposure] (columns g) = true ->
  step4_collapse g = Ok c ->
  map fst (rows c) = group_keys [Date] g /\
  forall k r, In (k, r) (rows c) ->
    exists vp ve,
      agg_sum (series_of Pal (group_rows [Date] k g)) = Ok vp /\
      agg_sum (series_of Exposure (group_rows [Date] k g)) = Ok ve /\
      r = mkRow (series_min (series_of Index (group_rows [Date] k g)))
                VNone VNone VNone VNone
                (series_min (series_of Analyst (group_rows [Date] k g)))
                (series_min (series_of Sector (group_rows [Date] k g)))
                vp ve VNone VNone.
Proof.
  intros Hcols Hc. unfold step4_collapse in Hc.
  apply agg_true_rows in Hc. destruct Hc as [_ [_ HF]]. split.
  - clear Hcols. induction HF as [|k lr ks rs [Hk _] _ IH]; simpl;
      [reflexivity | rewrite Hk, IH; reflexivity].
  - intros k r Hin.
    destruct (Forall2_In_r _ _ _ _ HF Hin) as [k' [_ [Hk Hr]]].
    cbn [fst snd] in Hk, Hr. subst k'.
    rewrite step4_agg_row in Hr by exact Hcols. cbn [rows with_rows] in Hr.
    destruct (agg_sum (series_of Pal _)) as [vp|]; cbn [rbind] in Hr; [|discriminate].
    destruct (agg_sum (series_of Exposure _)) as [ve|]; cbn [rbind] in Hr;
      [|discriminate].
    inversion Hr. exists vp, ve. auto.
Qed.

Lemma shift_days_inv (periods : Z) (s sh : Series) :
  shift_days periods s = Ok sh ->
  Forall2 (fun lv lv' => exists d, fst lv = [VDate d] /\
                                   lv' = ([VDate (d + periods)], snd lv)) s sh.
Proof.
  unfold shift_days. intros H. apply rmap_Forall2 in H.
  induction H as [|lv lv' s sh Hx _ IH]; constructor; [|exact IH].
  destruct lv as [l v]. cbn [fst snd] in *.
  destruct l as [|[| | | | |d|] [|? ?]]; try discriminate.
  inversion Hx. exists d. auto.
Qed.

Lemma impute_first_day_open_liq_inv (r0 r : row) :
  impute_first_day_open_liq r0 = Ok r ->
  exists v, value_sub (cell Exposure r0) (cell Pal r0) = Ok v /\
            r = set_cell OpenLiq v r0.
Proof.
  unfold impute_first_day_open_liq.
  destruct (value_sub _ _) as [v|]; cbn [rbind]; [|discriminate].
  intros H; inversion H. eauto.
Qed.

(** The rule of step 4 on the collapsed partition, for a frame on which
    [step4_open_liq] completes. *)
Lemma step4_open_liq_rule (g p : DataFrame) :
  all_columns_in [Index; Analyst; Sector; Pal; Exposure] (columns g) = true ->
  step4_open_liq g = Ok p ->
  map fst (rows p) = group_keys [Date] g /\
  (forall l r, In (l, r) (rows p) -> exists x, l = [VDate x]) /\
  (forall l r, In (l, r) (rows p) ->
     agg_sum (series_of Pal (group_rows [Date] l g)) = Ok (cell Pal r) /\
     agg_sum (series_of Exposure (group_rows [Date] l g)) = Ok (cell Exposure r)) /\
  forall x r, In ([VDate x], r) (rows p) ->
    (forall r', In ([VDate (x + 1)], r') (rows p) ->
                cell OpenLiq r = cell Exposure r') /\
    ((forall r', ~ In ([VDate (x + 1)], r') (rows p)) ->
     value_sub (cell Exposure r) (cell Pal r) = Ok (cell OpenLiq r)).
Proof.
  intros Hcols Hp.
  destruct (step4_open_liq_inv _ _ Hp) as [c [sh [Hc [Hsh [Hnd [_ HF]]]]]].
  destruct (step4_collapse_rows _ _ Hcols Hc) as [Hkeys Hrows].
  apply shift_days_inv in Hsh.
  assert (Hlab : map fst (rows p) = map fst (rows c)).
  { eapply Forall2_map_fst; [exact HF|]. intros x y [H _]; exact H. }
  (* every row of [p] comes from a row of [c] with the same label, the
     same pal and the same exposure *)
  assert (Hsame : forall l r, In (l, r) (rows p) ->
            exists rc, In (l, rc) (rows c) /\
                       cell Pal r = cell Pal rc /\
                       cell Exposure r = cell Exposure rc).
  { intros l r Hin. destruct (Forall2_In_r _ _ _ _ HF Hin) as [[l' rc] [Hin' [Hl Hr]]].
    cbn [fst snd] in Hl, Hr. subst l'. exists rc. split; [exact Hin'|].
    destruct (isna (cell OpenLiq (set_cell OpenLiq _ rc))).
    - apply impute_first_day_open_liq_inv in Hr. destruct Hr as [v [_ ->]].
      rewrite !cell_set_cell_other by discriminate. auto.
    - subst r. rewrite !cell_set_cell_other by discriminate. auto. }
  assert (Hdated : forall l rc, In (l, rc) (rows c) -> exists x, l = [VDate x]).
  { intros l rc Hin.
    assert (Hs : In (l, cell Exposure rc) (series_of Exposure (rows c))).
    { unfold series_of. apply in_map_iff. exists (l, rc). auto. }
    destruct (Forall2_In_l _ _ _ _ Hsh Hs) as [lv' [_ [d [Hd _]]]].
    cbn [fst] in Hd. eauto. }
  split; [congruence|]. split.
  { intros l r Hin. destruct (Hsame l r Hin) as [rc [Hin' _]]. eauto. }
  split.
  { intros l r Hin. destruct (Hsame l r Hin) as [rc [Hin' [Hpal Hexp]]].
    destruct (Hrows l rc Hin') as [vp [ve [Hvp [Hve Hrc]]]].
    rewrite Hpal, Hexp, Hvp, Hve, Hrc. auto. }
  intros x r Hin.
  destruct (Forall2_In_r _ _ _ _ HF Hin) as [[l rc] [Hinc [Hl Hr]]].
  cbn [fst snd] in Hl, Hr. subst l.
  (* the shifted series at [x] is the exposure at [x + 1] *)
  assert (Hlook : forall rc', In ([VDate (x + 1)], rc') (rows c) ->
                    lookup_label [VDate x] sh = Some (cell Exposure rc')).
  { intros rc' Hin'. apply lookup_label_NoDup; [exact Hnd|].
    assert (Hs : In ([VDate (x + 1)], cell Exposure rc')
                    (series_of Exposure (rows c))).
    { unfold series_of. apply in_map_iff. exists ([VDate (x + 1)], rc'). auto. }
    destruct (Forall2_In_l _ _ _ _ Hsh Hs) as [lv' [Hin2 [d [Hd Hlv]]]].
    cbn [fst snd] in Hd, Hlv. inversion Hd; subst d. subst lv'.
    replace (x + 1 + -1) with x in Hin2 by lia. exact Hin2. }
  assert (Hnone : (forall rc', ~ In ([VDate (x + 1)], rc') (rows c)) ->
                  lookup_label [VDate x] sh = None).
  { intros Hno. apply lookup_label_None. intros Hin'.
    apply in_map_iff in Hin'. destruct Hin' as [[l v] [Hl Hin']].
    cbn [fst] in Hl. subst l.
    destruct (Forall2_In_r _ _ _ _ Hsh Hin') as [lv [Hin2 [d [Hd Hlv]]]].
    inversion Hlv as [[Hx Hv]].
    unfold series_of in Hin2. apply in_map_iff in Hin2.
    destruct Hin2 as [[l2 r2] [E2 Hin2]]. subst lv. cbn [fst snd] in *.
    apply (Hno r2). replace (x + 1) with d by lia. rewrite <- Hd. exact Hin2. }
  split.
  - intros r' Hin'. destruct (Hsame _ _ Hin') as [rc' [Hinc' [_ Hexp]]].
    rewrite (Hlook rc' Hinc') in Hr.
    destruct (Hrows _ _ Hinc') as [vp [ve [_ [Hve Hrc']]]].
    assert (Hna : isna (cell Exposure rc') = false).
    { rewrite Hrc'. unfold cell; cbn. unfold agg_sum in Hve.
      eapply group_sum_not_na; exact Hve. }
    rewrite cell_set_cell_same, Hna in Hr. subst r.
    rewrite cell_set_cell_same. symmetry; exact Hexp.
  - intros Hno.
    rewrite Hnone in Hr.
    + rewrite cell_set_cell_same in Hr. cbn [isna] in Hr.
      apply impute_first_day_open_liq_inv in Hr. destruct Hr as [v [Hv ->]].
      rewrite !cell_set_cell_other in Hv by discriminate.
      rewrite cell_set_cell_same.
      rewrite !(cell_set_cell_other _ OpenLiq) by discriminate.
      exact Hv.
    + intros rc' Hinc'.
      assert (Hp' : In [VDate (x + 1)] (map fst (rows p))).
      { rewrite Hlab. apply in_map_iff. exists ([VDate (x + 1)], rc'). auto. }
      apply in_map_iff in Hp'. destruct Hp' as [[l r'] [Hl Hin']].
      cbn [fst] in Hl. subst l. exact (Hno r' Hin').
Qed.

Lemma rmap_total {A B} (f : A -> result B) (l : list A) :
  (forall x, In x l -> exists y, f x = Ok y) -> exists l', rmap f l = Ok l'.
Proof.
  induction l as [|x l IH]; simpl; intros H; [eauto|].
  destruct (H x (or_introl eq_refl)) as [y Hy]. rewrite Hy. simpl.
  destruct IH as [l' Hl']; [auto|]. rewrite Hl'. simpl. eauto.
Qed.

Lemma sum_from_dec (l : list value) (acc : value) :
  is_dec acc = true -> Forall (fun v => is_dec v = true) l ->
  exists d, sum_from acc l = Ok (VDec d).
Proof.
  revert acc; induction l as [|x l IH]; simpl; intros acc Hacc Hl.
  - destruct acc; try discriminate. eauto.
  - inversion Hl as [|? ? Hx Hl']; subst.
    destruct x; try discriminate. destruct acc; try discriminate.
    simpl. apply IH; auto.
Qed.

Lemma group_sum_dec (l : list value) :
  l <> [] -> Forall (fun v => is_dec v = true) l ->
  exists d, group_sum l = Ok (VDec d).
Proof.
  destruct l as [|x l]; [congruence|]. intros _ Hl.
  inversion Hl as [|? ? Hx Hl']; subst. destruct x; try discriminate.
  simpl. apply sum_from_dec; auto.
Qed.

Lemma NoDup_map_inj_on {A B} (f : A -> B) (l : list A) :
  (forall x y, In x l -> In y l -> f x = f y -> x = y) ->
  NoDup l -> NoDup (map f l).
Proof.
  induction l as [|x l IH]; simpl; intros Hinj Hnd; [constructor|].
  inversion Hnd as [|? ? Hn Hnd']; subst. constructor.
  - intros Hin. apply in_map_iff in Hin. destruct Hin as [y [Heq Hy]].
    assert (y = x) by (apply Hinj; auto). subst. contradiction.
  - apply IH; auto.
Qed.

(** On a typed partition step 4 computes a frame. *)
Lemma step4_open_liq_total (g : DataFrame) :
  typed_partition g -> exists p, step4_open_liq g = Ok p.
Proof.
  intros [Hcols Hrows].
  assert (Hcols5 : all_columns_in [Index; Analyst; Sector; Pal; Exposure]
                                  (columns g) = true).
  { unfold all_columns_in in *. rewrite forallb_forall in *.
    intros c Hc. apply Hcols. simpl in *. tauto. }
  assert (Hdate : has_column Date (columns g) = true).
  { eapply all_columns_in_In; [exact Hcols | simpl; tauto]. }
  (* the sums of a group *)
  assert (Hsum : forall c k, (c = Pal \/ c = Exposure) ->
            In k (group_keys [Date] g) ->
            exists d, agg_sum (series_of c (group_rows [Date] k g)) = Ok (VDec d)).
  { intros c k Hc Hk. unfold agg_sum. apply group_sum_dec.
    - apply group_keys_In in Hk. destruct Hk as [_ [lr [Hin Hkey]]].
      assert (Hg : In lr (group_rows [Date] k g)) by (apply group_rows_In; auto).
      unfold series_of. rewrite map_map. intros E.
      apply (f_equal (@List.length _)) in E. rewrite length_map in E.
      destruct (group_rows [Date] k g); [contradiction | discriminate].
    - unfold series_of. rewrite map_map. apply Forall_forall.
      intros v Hv. apply in_map_iff in Hv. destruct Hv as [lr [<- Hin]].
      apply group_rows_In in Hin. destruct Hin as [Hin _].
      destruct (Hrows lr Hin) as [_ [Hp He]]. cbn [fst snd].
      destruct Hc as [-> | ->]; assumption. }
  (* the collapsed frame *)
  assert (Hc : exists c, step4_collapse g = Ok c).
  { unfold step4_collapse, agg, groupby. cbn [all_columns_in forallb].
    rewrite Hdate. cbn [andb rbind].
    destruct (rmap_total
                (fun kg : label * DataFrame =>
                   let* r := agg_row
                               [(Index, first_alphabetical);
                                (Analyst, first_alphabetical);
                                (Sector, first_alphabetical);
                                (Pal, agg_sum); (Exposure, agg_sum)]
                               (snd kg) empty_row in
                   Ok (fst kg, r))
                (map (fun k => (k, with_rows g (group_rows [Date] k g)))
                     (group_keys [Date] g))) as [rs Hrs].
    - intros kg Hkg. apply in_map_iff in Hkg. destruct Hkg as [k [<- Hk]].
      cbn [fst snd]. rewrite step4_agg_row by exact Hcols5.
      cbn [rows with_rows].
      destruct (Hsum Pal k (or_introl eq_refl) Hk) as [dp ->].
      destruct (Hsum Exposure k (or_intror eq_refl) Hk) as [de ->].
      cbn [rbind]. eauto.
    - rewrite Hrs. cbn [rbind]. eauto. }
  destruct Hc as [c Hc].
  destruct (step4_collapse_rows _ _ Hcols5 Hc) as [Hkeys Hcrows].
  assert (Hccols : columns c = [Index; Analyst; Sector; Pal; Exposure]).
  { unfold step4_collapse in Hc. apply agg_true_rows in Hc. tauto. }
  (* every label of the collapsed frame is a date *)
  assert (Hlab : forall l, In l (map fst (rows c)) -> exists x, l = [VDate x]).
  { intros l Hl. rewrite Hkeys in Hl. apply group_keys_In in Hl.
    destruct Hl as [_ [lr [Hin <-]]]. destruct (Hrows lr Hin) as [Hd _].
    unfold key_of; cbn [map]. destruct (cell Date (snd lr)); try discriminate.
    eauto. }
  assert (Hsh : exists sh, shift_days (-1) (series_of Exposure (rows c)) = Ok sh).
  { unfold shift_days. apply rmap_total. intros lv Hlv.
    unfold series_of in Hlv. apply in_map_iff in Hlv.
    destruct Hlv as [lr [<- Hin]]. cbn [fst snd].
    destruct (Hlab (fst lr)) as [x ->]; [apply in_map; exact Hin|]. eauto. }
  destruct Hsh as [sh Hsh].
  assert (Hnd : nodup_labels (map fst sh) = true).
  { apply nodup_labels_NoDup.
    pose proof (shift_days_inv _ _ _ Hsh) as HF.
    assert (E : map fst sh
                = map (fun l => match l with
                                | [VDate d] => [VDate (d + -1)]
                                | _ => l
                                end) (map fst (rows c))).
    { clear - HF. unfold series_of in HF. revert sh HF.
      induction (rows c) as [|lr l IH]; cbn [map]; intros sh HF.
      - inversion HF; reflexivity.
      - inversion HF as [|? lv' ? sh' [d [Hd Hlv]] Hl]; subst.
        cbn [fst snd map] in *. rewrite Hd. f_equal. apply IH; exact Hl. }
    rewrite E. apply NoDup_map_inj_on.
    - intros a b Ha Hb. destruct (Hlab a Ha) as [x ->].
      destruct (Hlab b Hb) as [y ->]. intros H; inversion H. f_equal. f_equal. lia.
    - rewrite Hkeys. apply group_keys_NoDup. }
  unfold step4_open_liq. rewrite Hc. cbn [rbind].
  rewrite getitem_ok by (rewrite Hccols; reflexivity). cbn [rbind].
  rewrite Hsh. cbn [rbind]. unfold setitem_series. rewrite Hnd. cbn [rbind].
  unfold apply_rows_where. cbn [rows].
  destruct (rmap_total
              (fun lr : label * row =>
                 if isna (cell OpenLiq (snd lr))
                 then let* r := impute_first_day_open_liq (snd lr) in Ok (fst lr, r)
                 else Ok lr)
              (map (fun lr : label * row =>
                      (fst lr,
                       set_cell OpenLiq
                         match lookup_label (fst lr) sh with
                         | Some v => v
                         | None => VNone
                         end (snd lr))) (rows c))) as [rs Hrs].
  - intros lr Hin. apply in_map_iff in Hin. destruct Hin as [[l rc] [<- Hin]].
    cbn [fst snd].
    destruct (isna (cell OpenLiq _)); [|eauto].
    destruct (Hcrows l rc Hin) as [vp [ve [Hvp [Hve Hrc]]]].
    assert (Hk : In l (group_keys [Date] g)).
    { rewrite <- Hkeys. apply in_map_iff. exists (l, rc). auto. }
    destruct (Hsum Pal l (or_introl eq_refl) Hk) as [dp Hdp].
    destruct (Hsum Exposure l (or_intror eq_refl) Hk) as [de Hde].
    rewrite Hdp in Hvp. rewrite Hde in Hve. inversion Hvp; inversion Hve; subst.
    unfold impute_first_day_open_liq.
    rewrite !cell_set_cell_other by discriminate.
    unfold cell; cbn. eauto.
  - rewrite Hrs. cbn [rbind]. eauto.
Qed.

(* ================================================================== *)
(** * Step 4: open liquidity *)
(* ================================================================== *)

Lemma typed_partition_columns (g : DataFrame) :
  typed_partition g ->
  all_columns_in [Index; Analyst; Sector; Pal; Exposure] (columns g) = true.
Proof.
  intros [Hcols _]. unfold all_columns_in in *. rewrite forallb_forall in *.
  intros c Hc. apply Hcols. simpl in *. tauto.
Qed.

(** C2. On every (lkid, ticker) partition that steps 1 to 3 deliver,
    step 4 computes a collapsed frame [p] with one row per date of the
    partition, holding the sums of [pal] and [exposure] of that date; for
    the row dated [x]: when [p] has a row dated [x + 1], [open_liq] is
    the exposure of that row; when it has none, [open_liq] is
    [exposure - pal] of the row itself. *)
Theorem step4_open_liq_next_day :
  forall g : DataFrame,
    typed_partition g ->
    exists p,
      step4_open_liq g = Ok p /\
      NoDup (map fst (rows p)) /\
      (forall x, (exists r, In ([VDate x], r) (rows p)) <->
                 (exists lr, In lr (rows g) /\ cell Date (snd lr) = VDate x)) /\
      forall x r, In ([VDate x], r) (rows p) ->
        agg_sum (series_of Pal (rows_dated x g)) = Ok (cell Pal r) /\
        agg_sum (series_of Exposure (rows_dated x g)) = Ok (cell Exposure r) /\
        (forall r', In ([VDate (x + 1)], r') (rows p) ->
                    cell OpenLiq r = cell Exposure r') /\
        ((forall r', ~ In ([VDate (x + 1)], r') (rows p)) ->
         value_sub (cell Exposure r) (cell Pal r) = Ok (cell OpenLiq r)).
Proof.
  intros g Ht.
  destruct (step4_open_liq_total g Ht) as [p Hp]. exists p.
  split; [exact Hp|].
  destruct (step4_open_liq_rule g p (typed_partition_columns g Ht) Hp)
    as [Hkeys [Hdated [Hsums Hrule]]].
  split; [rewrite Hkeys; apply group_keys_NoDup|]. split.
  - intros x. split.
    + intros [r Hin].
      assert (Hk : In [VDate x] (group_keys [Date] g)).
      { rewrite <- Hkeys. apply in_map_iff. exists ([VDate x], r). auto. }
      apply group_keys_In in Hk. destruct Hk as [_ [lr [Hin' Hkey]]].
      exists lr. split; [exact Hin'|]. unfold key_of in Hkey; cbn [map] in Hkey.
      inversion Hkey; reflexivity.
    + intros [lr [Hin Hd]].
      assert (Hk : In [VDate x] (group_keys [Date] g)).
      { apply group_keys_In. split; [reflexivity|]. exists lr.
        split; [exact Hin|]. unfold key_of; cbn [map]. rewrite Hd. reflexivity. }
      rewrite <- Hkeys in Hk. apply in_map_iff in Hk.
      destruct Hk as [[l r] [Hl Hin']]. cbn [fst] in Hl. subst l. eauto.
  - intros x r Hin. destruct (Hsums _ _ Hin) as [Hpal Hexp].
    destruct (Hrule x r Hin) as [H1 H2]. unfold rows_dated. auto.
Qed.

Lemma step4_open_liq_next_day_witness :
  exists p,
    step4_open_liq partition_two_days = Ok p /\
    NoDup (map fst (rows p)) /\
    (forall x, (exists r, In ([VDate x], r) (rows p)) <->
               (exists lr, In lr (rows partition_two_days) /\
                           cell Date (snd lr) = VDate x)) /\
    forall x r, In ([VDate x], r) (rows p) ->
      agg_sum (series_of Pal (rows_dated x partition_two_days)) = Ok (cell Pal r) /\
      agg_sum (series_of Exposure (rows_dated x partition_two_days))
        = Ok (cell Exposure r) /\
      (forall r', In ([VDate (x + 1)], r') (rows p) ->
                  cell OpenLiq r = cell Exposure r') /\
      ((forall r', ~ In ([VDate (x + 1)], r') (rows p)) ->
       value_sub (cell Exposure r) (cell Pal r) = Ok (cell OpenLiq r)).
Proof.
  apply (step4_open_liq_next_day partition_two_days).
  split; [reflexivity|].
  intros lr Hin. vm_compute in Hin.
  destruct Hin as [<- | [<- | []]]; repeat split; reflexivity.
Defined.

(** On the two-day blotter: 80 on the first day (the exposure of the
    second day), 85 = 80 - (-5) on the second. *)
Example step4_open_liq_two_days :
  option_map (fun p => map (fun lr => (fst lr, cell OpenLiq (snd lr))) (rows p))
             (match step4_open_liq partition_two_days with
              | Ok p => Some p
              | Raise _ => None
              end)
  = Some [([VDate 19723], VDec (Dec.mk false 80 0));
          ([VDate 19724], VDec (Dec.mk false 85 0))].
Proof. vm_compute. reflexivity. Qed.

Lemma dates_of_In (p : DataFrame) (y : Z) :
  In y (dates_of p) <-> exists r, In ([VDate y], r) (rows p).
Proof.
  unfold dates_of. rewrite in_flat_map. split.
  - intros [[l r] [Hin Hy]]. cbn [fst] in Hy.
    destruct l as [|[| | | | |d|] [|? ?]]; try contradiction.
    destruct Hy as [-> | []]. eauto.
  - intros [r Hin]. exists ([VDate y], r). split; [exact Hin | left; reflexivity].
Qed.

Lemma next_date_fold (x : Z) (l : list Z) (acc : option Z) :
  match acc with Some z => x < z | None => True end ->
  match fold_left (fun acc y =>
                     if x <? y
                     then match acc with
                          | None => Some y
                          | Some z => Some (Z.min z y)
                          end
                     else acc) l acc with
  | None => acc = None /\ forall y, In y l -> y <= x
  | Some m =>
      x < m /\ (acc = Some m \/ In m l) /\
      (forall y, In y l -> x < y -> m <= y) /\
      (forall z, acc = Some z -> m <= z)
  end.
Proof.
  revert acc; induction l as [|a l IH]; intros acc Hacc; cbn [fold_left].
  - destruct acc as [z|].
    + split; [exact Hacc|]. split; [left; reflexivity|].
      split; [intros y []|]. intros z' E; inversion E; lia.
    + split; [reflexivity | intros y []].
  - destruct (x <? a) eqn:Exa.
    + apply Z.ltb_lt in Exa.
      specialize (IH (match acc with None => Some a | Some z => Some (Z.min z a) end)).
      destruct acc as [z|].
      * specialize (IH ltac:(lia)).
        destruct (fold_left _ l (Some (Z.min z a))) as [m|].
        -- destruct IH as [H1 [H2 [H3 H4]]]. split; [exact H1|]. split.
           ++ destruct H2 as [H2 | H2].
              ** inversion H2 as [H2']. destruct (Z.min_spec z a) as [[_ E] | [_ E]].
                 --- left. congruence.
                 --- right; left. congruence.
              ** right; right; exact H2.
           ++ split.
              ** intros y [-> | Hy] Hxy; [|auto].
                 specialize (H4 _ eq_refl). lia.
              ** intros z' E; inversion E; subst. specialize (H4 _ eq_refl). lia.
        -- destruct IH as [IH _]. discriminate.
      * specialize (IH Exa).
        destruct (fold_left _ l (Some a)) as [m|].
        -- destruct IH as [H1 [H2 [H3 H4]]]. split; [exact H1|]. split.
           ++ destruct H2 as [H2 | H2]; [inversion H2; right; left; reflexivity|].
              right; right; exact H2.
           ++ split; [|intros z' E; discriminate].
              intros y [-> | Hy] Hxy; [apply H4; reflexivity | auto].
        -- destruct IH as [IH _]. discriminate.
    + apply Z.ltb_ge in Exa. specialize (IH acc Hacc).
      destruct (fold_left _ l acc) as [m|].
      * destruct IH as [H1 [H2 [H3 H4]]]. split; [exact H1|]. split.
        -- destruct H2; [left | right; right]; assumption.
        -- split; [|exact H4]. intros y [-> | Hy] Hxy; [lia | auto].
      * destruct IH as [H1 H2]. split; [exact H1|].
        intros y [-> | Hy]; [exact Exa | auto].
Qed.

(** [next_date x p] is the least date of [p] after [x]. *)
Lemma next_date_spec (x : Z) (p : DataFrame) :
  match next_date x p with
  | None => forall y, In y (dates_of p) -> y <= x
  | Some m => x < m /\ In m (dates_of p) /\
              forall y, In y (dates_of p) -> x < y -> m <= y
  end.
Proof.
  unfold next_date. pose proof (next_date_fold x (dates_of p) None I) as H.
  destruct (fold_left _ (dates_of p) None) as [m|].
  - destruct H as [H1 [[H2 | H2] [H3 _]]]; [discriminate | auto].
  - destruct H; assumption.
Qed.

(** C1 as stated fails on a partition with a gap: the position is
    observed on 2024-01-01 (exposure 100, pal 10) and on 2024-01-03
    (exposure 80); the row of 2024-01-01 gets [open_liq = 100 - 10 = 90],
    not the exposure 80 of the next date present. *)
Lemma open_liq_gap_counterexample :
  ~ open_liq_is_next_present_exposure partition_gap.
Proof.
  intros H. unfold open_liq_is_next_present_exposure in H.
  pose (p := match step4_open_liq partition_gap with
             | Ok p => p
             | Raise _ => empty_frame
             end).
  assert (E : step4_open_liq partition_gap = Ok p) by (vm_compute; reflexivity).
  specialize (H p E 19723 (snd (nth 0 (rows p) ([], empty_row)))).
  assert (Hin : In ([VDate 19723], snd (nth 0 (rows p) ([], empty_row))) (rows p))
    by (vm_compute; left; reflexivity).
  specialize (H Hin).
  assert (En : next_date 19723 p = Some 19725) by (vm_compute; reflexivity).
  rewrite En in H.
  specialize (H (snd (nth 1 (rows p) ([], empty_row)))).
  assert (Hin' : In ([VDate 19725], snd (nth 1 (rows p) ([], empty_row))) (rows p))
    by (vm_compute; right; left; reflexivity).
  specialize (H Hin'). vm_compute in H. discriminate H.
Qed.

(** C1, amended. On every (lkid, ticker) partition that steps 1 to 3
    deliver, for the row dated [x] of the collapsed frame: when the next
    date present is [x + 1], [open_liq] is the exposure of the row of
    that date; when the next date present is later, or when [x] is the
    last date, [open_liq] is [exposure - pal] of the row itself. *)
Theorem step4_open_liq_next_present :
  forall g : DataFrame,
    typed_partition g ->
    exists p,
      step4_open_liq g = Ok p /\
      forall x r, In ([VDate x], r) (rows p) ->
        match next_date x p with
        | Some y =>
            if y =? x + 1
            then forall r', In ([VDate y], r') (rows p) ->
                            cell OpenLiq r = cell Exposure r'
            else value_sub (cell Exposure r) (cell Pal r) = Ok (cell OpenLiq r)
        | None => value_sub (cell Exposure r) (cell Pal r) = Ok (cell OpenLiq r)
        end.
Proof.
  intros g Ht.
  destruct (step4_open_liq_total g Ht) as [p Hp]. exists p.
  split; [exact Hp|].
  destruct (step4_open_liq_rule g p (typed_partition_columns g Ht) Hp)
    as [_ [_ [_ Hrule]]].
  intros x r Hin. destruct (Hrule x r Hin) as [H1 H2].
  pose proof (next_date_spec x p) as Hn.
  destruct (next_date x p) as [y|].
  - destruct Hn as [Hxy [Hy Hmin]].
    destruct (y =? x + 1) eqn:Ey.
    + apply Z.eqb_eq in Ey. subst y. exact H1.
    + apply Z.eqb_neq in Ey. apply H2. intros r' Hin'.
      assert (Hd : In (x + 1) (dates_of p)) by (apply dates_of_In; eauto).
      specialize (Hmin _ Hd). lia.
  - apply H2. intros r' Hin'.
    assert (Hd : In (x + 1) (dates_of p)) by (apply dates_of_In; eauto).
    specialize (Hn _ Hd). lia.
Qed.

Lemma step4_open_liq_next_present_witness :
  exists p,
    step4_open_liq partition_gap = Ok p /\
    forall x r, In ([VDate x], r) (rows p) ->
      match next_date x p with
      | Some y =>
          if y =? x + 1
          then forall r', In ([VDate y], r') (rows p) ->
                          cell OpenLiq r = cell Exposure r'
          else value_sub (cell Exposure r) (cell Pal r) = Ok (cell OpenLiq r)
      | None => value_sub (cell Exposure r) (cell Pal r) = Ok (cell OpenLiq r)
      end.
Proof.
  apply (step4_open_liq_next_present partition_gap).
  split; [reflexivity|].
  intros lr Hin. vm_compute in Hin.
  destruct Hin as [<- | [<- | []]]; repeat split; reflexivity.
Defined.

(* ================================================================== *)
(** * Frames whose rows are the image of the rows of another frame *)
(* ================================================================== *)

Lemma filter_map_commute {A B} (f : A -> B) (p : B -> bool) (l : list A) :
  filter p (map f l) = map f (filter (fun x => p (f x)) l).
Proof.
  induction l as [|x l IH]; simpl; [reflexivity|].
  destruct (p (f x)); simpl; rewrite IH; reflexivity.
Qed.

Lemma filter_ext_in_eq {A} (p q : A -> bool) (l : list A) :
  (forall x, In x l -> p x = q x) -> filter p l = filter q l.
Proof.
  induction l as [|x l IH]; simpl; intros H; [reflexivity|].
  rewrite (H x) by auto. rewrite IH by auto. reflexivity.
Qed.

Section MappedFrame.
Variable keys : list column.
Variable T : label * row -> label * row.
Hypothesis T_keys : forall lr, key_of keys (snd (T lr)) = key_of keys (snd lr).

Lemma group_rows_mapped (k : label) (i i' : list column) (c c' : list column)
  (rs : list (label * row)) :
  group_rows keys k (mkDF i' c' (map T rs))
  = map T (group_rows keys k (mkDF i c rs)).
Proof.
  unfold group_rows; cbn [rows]. rewrite filter_map_commute.
  f_equal. apply filter_ext_in_eq. intros lr _. rewrite T_keys. reflexivity.
Qed.

Lemma group_keys_mapped (i i' : list column) (c c' : list column)
  (rs : list (label * row)) :
  group_keys keys (mkDF i' c' (map T rs)) = group_keys keys (mkDF i c rs).
Proof.
  unfold group_keys; cbn [rows]. rewrite map_map.
  do 3 f_equal. apply map_ext. intros lr. apply T_keys.
Qed.
End MappedFrame.

Lemma key_of_set_cell (keys : list column) (c : column) (v : value) (r : row) :
  has_column c keys = false -> key_of keys (set_cell c v r) = key_of keys r.
Proof.
  intros H. unfold key_of. apply map_ext_in. intros k Hk.
  apply cell_set_cell_other. intros ->.
  apply has_column_In in Hk. congruence.
Qed.

Lemma clear_cells_other (cs : list column) (c : column) (r : row) :
  has_column c cs = false -> cell c (clear_cells cs r) = cell c r.
Proof.
  unfold clear_cells. revert r. induction cs as [|x cs IH]; intros r H;
    cbn [fold_left]; [reflexivity|].
  unfold has_column in H. cbn [existsb] in H. apply orb_false_iff in H.
  destruct H as [Hx Hcs]. rewrite IH by exact Hcs.
  apply cell_set_cell_other. intros ->. rewrite column_eqb_refl in Hx.
  discriminate.
Qed.

Lemma key_of_clear_cells (keys cs : list column) (r : row) :
  (forall k, In k keys -> has_column k cs = false) ->
  key_of keys (clear_cells cs r) = key_of keys r.
Proof.
  intros H. unfold key_of. apply map_ext_in. intros k Hk.
  apply clear_cells_other. auto.
Qed.

(* ================================================================== *)
(** * Step 5: a zero fund value *)
(* ================================================================== *)


Lemma nansum_values (s s' : Series) :
  map snd s = map snd s' -> nansum s = nansum s'.
Proof.
  intros H. unfold nansum.
  assert (E : map (fun lv : label * value => if isna (snd lv) then VInt 0 else snd lv) s
              = map (fun lv : label * value => if isna (snd lv) then VInt 0 else snd lv) s').
  { rewrite <- (map_map snd (fun v => if isna v then VInt 0 else v) s).
    rewrite <- (map_map snd (fun v => if isna v then VInt 0 else v) s').
    rewrite H. reflexivity. }
  rewrite E. reflexivity.
Qed.




Lemma step5_prefix_rows (d d1 : DataFrame) :
  set_index [Index] d = Ok d1 ->
  has_column Index (columns d) = true /\
  setitem Return VNone d1
  = mkDF [Index]
         (if has_column Return (remove_columns [Index] (columns d))
          then remove_columns [Index] (columns d)
          else remove_columns [Index] (columns d) ++ [Return])
         (map step5_row (rows d)).
Proof.
  unfold set_index. cbn [all_columns_in forallb].
  destruct (has_column Index (columns d)); cbn [andb]; [|discriminate].
  intros H; inversion H; subst d1; clear H. split; [reflexivity|].
  unfold setitem. cbn [index_names columns rows]. rewrite map_map.
  reflexivity.
Qed.

Lemma step5_row_cell (c : column) (lr : label * row) :
  c <> Index -> c <> Return ->
  cell c (snd (step5_row lr)) = cell c (snd lr).
Proof.
  intros H1 H2. unfold step5_row; cbn [snd].
  rewrite cell_set_cell_other by exact H2.
  apply clear_cells_other. unfold has_column; cbn [existsb].
  destruct (column_eqb c Index) eqn:E; [|reflexivity].
  apply column_eqb_eq in E. contradiction.
Qed.

Lemma step5_row_key (lr : label * row) :
  key_of [Date] (snd (step5_row lr)) = key_of [Date] (snd lr).
Proof.
  unfold key_of; cbn [map]. rewrite step5_row_cell by discriminate. reflexivity.
Qed.

Lemma Executor_groupby_seq {A} (executor : Executor) (keys : list column)
  (k : list (label * DataFrame) -> M A) (w : world) :
  (groups <- Executor_groupby executor keys ;; k groups) w =
  match groupby keys (deref w (_df executor)) with
  | Ok groups => k groups w
  | Raise e => (Exn e, w)
  end.
Proof.
  unfold Executor_groupby, bind, read, lift.
  destruct (groupby keys (deref w (_df executor))); reflexivity.
Qed.




Example step5_zero_fund_value_DivisionByZero :
  fst (step5_compute_fund_value O (mkExecutor O true)
         (world_after 4 blotter_zero_fund)) = Exn DivisionByZero.
Proof. vm_compute. reflexivity. Qed.



(* ================================================================== *)
(** * Step 2: decimals and sectors *)
(* ================================================================== *)

Lemma digits_value_fold (ds : list N) (acc : N) :
  fold_left (fun a d => (a * 10 + d)%N) ds acc
  = (acc * 10 ^ N.of_nat (List.length ds) + digits_value ds)%N.
Proof.
  unfold digits_value. revert acc.
  induction ds as [|d ds IH]; intros acc.
  - cbn. lia.
  - cbn [fold_left List.length]. rewrite IH. rewrite (IH (0 * 10 + d)%N).
    rewrite Nat2N.inj_succ, N.pow_succ_r'. lia.
Qed.

(** [int(a + b)] for two strings of digits. *)
Lemma digits_value_app (a b : list N) :
  digits_value (a ++ b)
  = (digits_value a * 10 ^ N.of_nat (List.length b) + digits_value b)%N.
Proof.
  unfold digits_value at 1. rewrite fold_left_app.
  rewrite digits_value_fold. reflexivity.
Qed.

Lemma Qpower_10_not_0 (n : Z) : ~ (Qpower 10 n == 0)%Q.
Proof.
  intros H.
  assert (H0 : (0 < Qpower 10 n)%Q) by (apply Qpower_0_lt; reflexivity).
  rewrite H in H0. discriminate H0.
Qed.

(** The constructor loses nothing: the decimal it builds stands for the
    number that the numeral denotes. *)
Lemma Decimal_exact (s : string) (x : Dec.t) :
  Decimal s = Ok x ->
  exists q, numeral_value s = Some q /\ (Dec.value x == q)%Q.
Proof.
  unfold Decimal, numeral_value.
  destruct (scan_numeral s) as [[[[sg ip] fp] e]|]; [|discriminate].
  intros H; inversion H; subst x; clear H. eexists. split; [reflexivity|].
  unfold Dec.value, Dec.signed. cbn [Dec.sign Dec.coefficient Dec.exponent].
  rewrite digits_value_app.
  set (n := List.length fp).
  assert (E10 : (inject_Z (Z.of_N (10 ^ N.of_nat n)) == Qpower 10 (Z.of_nat n))%Q).
  { rewrite N2Z.inj_pow. rewrite nat_N_Z.
    rewrite Zpower_Qpower by lia. reflexivity. }
  assert (Ee : (Qpower 10 (e - Z.of_nat n)
                == Qpower 10 e / Qpower 10 (Z.of_nat n))%Q).
  { unfold Z.sub. rewrite Qpower_plus by (intros H; discriminate H).
    rewrite Qpower_opp. reflexivity. }
  rewrite Ee.
  pose proof (Qpower_10_not_0 (Z.of_nat n)) as Hn0.
  destruct sg.
  - rewrite inject_Z_opp, N2Z.inj_add, N2Z.inj_mul, inject_Z_plus, inject_Z_mult.
    rewrite E10. field. exact Hn0.
  - rewrite N2Z.inj_add, N2Z.inj_mul, inject_Z_plus, inject_Z_mult.
    rewrite E10. field. exact Hn0.
Qed.

Lemma rowwise_trans (R1 R2 : row -> row -> Prop) (d d1 d2 : DataFrame) :
  rowwise R1 d d1 -> rowwise R2 d1 d2 ->
  rowwise (fun r r2 => exists r1, R1 r r1 /\ R2 r1 r2) d d2.
Proof.
  unfold rowwise. generalize (rows d) (rows d1) (rows d2).
  intros l l1 l2 H1. revert l2.
  induction H1 as [|x y l l1 [Hf Hr] _ IH]; intros l2 H2.
  - inversion H2; constructor.
  - inversion H2 as [|? z ? l2' [Hf' Hr'] H2']; subst. constructor.
    + split; [congruence | eauto].
    + apply IH; exact H2'.
Qed.

Lemma rowwise_weaken (R R' : row -> row -> Prop) (d d' : DataFrame) :
  (forall r r', R r r' -> R' r r') -> rowwise R d d' -> rowwise R' d d'.
Proof.
  unfold rowwise. intros H HF.
  induction HF as [|x y l l' [Hf Hr] _ IH]; constructor; auto.
Qed.

Lemma assign_rowwise_rowwise (c : column) (f : row -> result value)
  (d d' : DataFrame) :
  assign_rowwise c f d = Ok d' ->
  rowwise (fun r r' => exists v, f r = Ok v /\ r' = set_cell c v r) d d'.
Proof.
  unfold assign_rowwise, rowwise.
  destruct (rmap _ (rows d)) as [rs|] eqn:E; cbn [rbind]; [|discriminate].
  intros H; inversion H; subst d'; clear H. cbn [rows].
  apply rmap_Forall2 in E.
  induction E as [|x y l l' Hx _ IH]; constructor; [|exact IH].
  destruct (f (snd x)) as [v|] eqn:Ef; cbn [rbind] in Hx; [|discriminate].
  inversion Hx; subst y; cbn [fst snd]. eauto.
Qed.

Lemma apply_column_rowwise (c : column) (f : value -> result value)
  (d d' : DataFrame) :
  apply_column c f d = Ok d' ->
  rowwise (fun r r' => exists v, f (cell c r) = Ok v /\ r' = set_cell c v r) d d'.
Proof.
  unfold apply_column. destruct (getitem c d); cbn [rbind]; [|discriminate].
  apply assign_rowwise_rowwise.
Qed.

Lemma astype_ordered_category_rowwise (c : column) (d d' : DataFrame) :
  astype_ordered_category c d = Ok d' ->
  rowwise (fun r r' =>
             match cell c r with
             | VNone => r' = r
             | VStr s | VCat _ s => exists i, r' = set_cell c (VCat i s) r
             | _ => False
             end) d d'.
Proof.
  unfold astype_ordered_category, rowwise.
  destruct (getitem c d); cbn [rbind]; [|discriminate].
  destruct (rmap _ (rows d)) as [rs|] eqn:E; cbn [rbind]; [|discriminate].
  intros H; inversion H; subst d'; clear H. cbn [rows with_rows].
  apply rmap_Forall2 in E.
  induction E as [|x y l l' Hx _ IH]; constructor; [|exact IH].
  destruct (cell c (snd x)); try discriminate;
    inversion Hx; subst y; cbn [fst snd]; eauto.
Qed.

Lemma rename_categories_rowwise (c : column) (table : string -> string)
  (d d' : DataFrame) :
  rename_categories c table d = Ok d' ->
  rowwise (fun r r' =>
             match cell c r with
             | VCat i s => r' = set_cell c (VCat i (table s)) r
             | _ => r' = r
             end) d d'.
Proof.
  unfold rename_categories, rowwise.
  destruct (getitem c d); cbn [rbind]; [|discriminate].
  destruct (nodup_strings _); [|discriminate].
  intros H; inversion H; subst d'; clear H. cbn [rows with_rows].
  induction (rows d) as [|x l IH]; cbn [map]; constructor; [|exact IH].
  destruct (cell c (snd x)) eqn:E; cbn [fst snd]; auto.
Qed.

Lemma Decimal_of_value_str (s : string) (v : value) :
  Decimal_of_value (VStr s) = Ok v ->
  exists x, v = VDec x /\ Decimal s = Ok x.
Proof.
  cbn [Decimal_of_value]. destruct (Decimal s) as [x|]; cbn [rbind];
    [|discriminate].
  intros H; inversion H. eauto.
Qed.

(** The frame of step 2, row by row. *)
Lemma step2_frame_rowwise (to_datetime : string -> result Z) (d d' : DataFrame) :
  step2_frame to_datetime d = Ok d' -> rowwise step2_row d d'.
Proof.
  unfold step2_frame. intros H.
  destruct (astype_ordered_category Sector d) as [d1|] eqn:E1; cbn [rbind] in H;
    [|discriminate].
  destruct (rename_categories Sector rename_sector d1) as [d2|] eqn:E2;
    cbn [rbind] in H; [|discriminate].
  destruct (apply_column Pal Decimal_of_value d2) as [d3|] eqn:E3;
    cbn [rbind] in H; [|discriminate].
  destruct (apply_column Exposure Decimal_of_value d3) as [d4|] eqn:E4;
    cbn [rbind] in H; [|discriminate].
  apply astype_ordered_category_rowwise in E1.
  apply rename_categories_rowwise in E2.
  apply apply_column_rowwise in E3, E4, H.
  pose proof (rowwise_trans _ _ _ _ _
                (rowwise_trans _ _ _ _ _
                   (rowwise_trans _ _ _ _ _
                      (rowwise_trans _ _ _ _ _ E1 E2) E3) E4) H) as HR.
  revert HR. apply rowwise_weaken.
  intros r r' [r4 [[r3 [[r2 [[r1 [H1 H2]] H3]] H4]] H5]].
  destruct H3 as [vp [Hvp ->]]. destruct H4 as [ve [Hve ->]].
  destruct H5 as [vd [Hvd ->]].
  (* the sector after the cast and the renaming *)
  assert (Hsec : forall s, cell Sector r = VStr s ->
            exists i, r2 = set_cell Sector (VCat i (rename_sector s)) r1 /\
                      r1 = set_cell Sector (VCat i s) r).
  { intros s Hs. rewrite Hs in H1. destruct H1 as [i ->].
    rewrite cell_set_cell_same in H2. eauto. }
  (* pal and exposure are untouched by the sector statements *)
  assert (Hkeep : forall c, c <> Sector -> cell c r2 = cell c r).
  { intros c Hc.
    assert (E21 : cell c r2 = cell c r1).
    { destruct (cell Sector r1); subst r2;
        try reflexivity. apply cell_set_cell_other; exact Hc. }
    rewrite E21.
    destruct (cell Sector r); try contradiction;
      [ subst r1; reflexivity
      | destruct H1 as [i ->]; apply cell_set_cell_other; exact Hc
      | destruct H1 as [i ->]; apply cell_set_cell_other; exact Hc ]. }
  assert (Hsector : forall s, cell Sector r = VStr s ->
            exists code,
              cell Sector (set_cell Date vd (set_cell Exposure ve
                             (set_cell Pal vp r2)))
              = VCat code (rename_sector s)).
  { intros s Hs. destruct (Hsec s Hs) as [i [-> _]]. exists i.
    rewrite !cell_set_cell_other by discriminate.
    apply cell_set_cell_same. }
  split; [|split].
  - intros Hs. destruct (Hsector _ Hs) as [code Hc]. exists code. exact Hc.
  - intros s Hne Hs. destruct (Hsector _ Hs) as [code Hc]. exists code.
    rewrite Hc. unfold rename_sector.
    destruct (String.eqb s "Technology") eqn:E; [|reflexivity].
    apply String.eqb_eq in E. contradiction.
  - intros c s [-> | ->] Hs.
    + rewrite (cell_set_cell_other Exposure Pal) in Hve by discriminate.
      rewrite Hkeep in Hvp by discriminate. rewrite Hs in Hvp.
      destruct (Decimal_of_value_str _ _ Hvp) as [x [-> Hx]].
      destruct (Decimal_exact _ _ Hx) as [q [Hq Hv]].
      exists x, q. rewrite !cell_set_cell_other by discriminate.
      rewrite cell_set_cell_same. auto.
    + rewrite (cell_set_cell_other Exposure Pal) in Hve by discriminate.
      rewrite Hkeep in Hve by discriminate. rewrite Hs in Hve.
      destruct (Decimal_of_value_str _ _ Hve) as [x [-> Hx]].
      destruct (Decimal_exact _ _ Hx) as [q [Hq Hv]].
      exists x, q. rewrite !cell_set_cell_other by discriminate.
      rewrite cell_set_cell_same. auto.
Qed.

(** Step 2 on cells that hold strings.  When step 2 completes, the frame
    it leaves has the rows of the frame it found, in the same order and
    with the same labels, and in every row: a sector that was the string
    ["Technology"] is ["Information Technology"], any other sector string
    keeps its label, and a [pal] or an [exposure] that was a string holds
    the decimal built from that string without rounding, which stands for
    exactly the number that the string denotes. *)
Theorem step2_normalizes :
  forall (to_datetime : string -> result Z) (w w' : world) (o : obj),
    valid w o ->
    step2_sector_pal_date to_datetime o w = (Val o, w') ->
    rowwise step2_row (deref w o) (deref w' o).
Proof.
  intros to_datetime w w' o Hv Hrun.
  pose proof (step2_run to_datetime o w Hv) as L. unfold leaves in L.
  destruct (step2_frame to_datetime (deref w o)) as [d'|e] eqn:E.
  - rewrite L in Hrun. inversion Hrun; subst w'.
    rewrite deref_set_obj_same by exact Hv.
    eapply step2_frame_rowwise; exact E.
  - destruct L as [w1 L]. rewrite L in Hrun. discriminate.
Qed.

Lemma step2_normalizes_witness :
  rowwise step2_row
    (deref (world_after 1 blotter_two_days) O)
    (deref (snd (step2_sector_pal_date iso_date O
                   (world_after 1 blotter_two_days))) O).
Proof.
  apply (step2_normalizes iso_date (world_after 1 blotter_two_days)
           (snd (step2_sector_pal_date iso_date O
                   (world_after 1 blotter_two_days))) O).
  - unfold valid. vm_compute. lia.
  - vm_compute. reflexivity.
Defined.

(** On the two-day blotter: the sector is renamed, 10 and 100 are the
    decimals 10 and 100. *)
Example step2_two_days :
  map (fun lr => (cell Sector (snd lr), cell Pal (snd lr), cell Exposure (snd lr)))
      (rows (deref (snd (step2_sector_pal_date iso_date O
                           (world_after 1 blotter_two_days))) O))
  = [ (VCat 0 "Information Technology",
       VDec (Dec.mk false 10 0), VDec (Dec.mk false 100 0));
      (VCat 0 "Information Technology",
       VDec (Dec.mk true 5 0), VDec (Dec.mk false 80 0)) ].
Proof. vm_compute. reflexivity. Qed.

(* ================================================================== *)
(** * Step 2 on numbers that [read_csv] has made floats *)
(* ================================================================== *)

Lemma pow2_mod5 (k : Z) : 0 <= k -> (2 ^ k) mod 5 <> 0.
Proof.
  intros Hk. pattern k. apply natlike_ind; [| |exact Hk].
  - vm_compute. discriminate.
  - intros x Hx IH. rewrite Z.pow_succ_r by exact Hx.
    intros H. apply IH. clear IH. generalize dependent (2 ^ x). intros p H.
    Z.to_euclidean_division_equations. lia.
Qed.

Lemma Qpower_2_pos (k : Z) : 0 <= k -> (Qpower 2 k == inject_Z (2 ^ k))%Q.
Proof.
  intros Hk. change 2%Q with (inject_Z 2). symmetry.
  apply Zpower_Qpower. exact Hk.
Qed.

(** No float is one tenth. *)
Lemma float_value_not_one_tenth (x : Float.t) : ~ (Float.value x == 1 # 10)%Q.
Proof.
  destruct x as [|s h e]; cbn [Float.value]; [intros H; discriminate H|].
  set (M := Float.mantissa s h). intros H.
  destruct (Z_le_gt_dec 0 e) as [He|He].
  - rewrite (Qpower_2_pos e He), <- inject_Z_mult in H.
    unfold Qeq in H. cbn [Qnum Qden inject_Z] in H.
    generalize dependent (M * 2 ^ e)%Z. intros p H. lia.
  - assert (Ee : e = (- (- e))%Z) by lia. rewrite Ee, Qpower_opp in H.
    rewrite (Qpower_2_pos (- e)) in H by lia.
    assert (Hpos : (0 < 2 ^ (- e))%Z) by (apply Z.pow_pos_nonneg; lia).
    pose proof (pow2_mod5 (- e) ltac:(lia)) as H5.
    set (P := (2 ^ (- e))%Z) in *.
    assert (HP : ~ (inject_Z P == 0)%Q).
    { unfold Qeq. cbn [Qnum Qden inject_Z]. lia. }
    assert (E : (inject_Z M == (1 # 10) * inject_Z P)%Q).
    { rewrite <- H. field. exact HP. }
    unfold Qeq in E. cbn [Qnum Qden inject_Z Qmult] in E.
    apply H5. Z.to_euclidean_division_equations. lia.
Qed.

(** [Decimal.from_float] is exact. *)
Lemma float_to_Dec_exact (x : Float.t) :
  (Dec.value (Float.to_Dec x) == Float.value x)%Q.
Proof.
  destruct x as [|s h e]; [reflexivity|].
  unfold Float.to_Dec, Float.value, Float.mantissa.
  set (m := (2 * Z.of_N h + 1)%Z).
  assert (Hm : (0 < m)%Z) by (unfold m; lia).
  destruct (0 <=? e)%Z eqn:He.
  - apply Z.leb_le in He.
    unfold Dec.value, Dec.signed. cbn [Dec.sign Dec.coefficient Dec.exponent].
    rewrite Z2N.id by (apply Z.mul_nonneg_nonneg; [lia | apply Z.pow_nonneg; lia]).
    rewrite (Qpower_2_pos e He). cbn [Qpower].
    rewrite Qmult_1_r, <- inject_Z_mult.
    destruct s; [rewrite Z.mul_opp_l|]; reflexivity.
  - apply Z.leb_gt in He.
    unfold Dec.value, Dec.signed. cbn [Dec.sign Dec.coefficient Dec.exponent].
    assert (H5 : (0 < 5 ^ (- e))%Z) by (apply Z.pow_pos_nonneg; lia).
    rewrite Z2N.id by (apply Z.mul_nonneg_nonneg; lia).
    assert (E10 : (Qpower 10 e == Qpower 2 e * Qpower 5 e)%Q).
    { rewrite <- Qmult_power. reflexivity. }
    assert (E5 : (inject_Z (5 ^ (- e)) * Qpower 5 e == 1)%Q).
    { change 5%Q with (inject_Z 5). rewrite Zpower_Qpower by lia.
      rewrite <- Qpower_plus by (intros H; discriminate H).
      replace (- e + e)%Z with 0%Z by lia. reflexivity. }
    rewrite E10.
    destruct s.
    + rewrite <- Z.mul_opp_l, inject_Z_mult.
      transitivity (inject_Z (- m) * Qpower 2 e
                    * (inject_Z (5 ^ (- e)) * Qpower 5 e))%Q; [ring|].
      rewrite E5. ring.
    + rewrite inject_Z_mult.
      transitivity (inject_Z m * Qpower 2 e
                    * (inject_Z (5 ^ (- e)) * Qpower 5 e))%Q; [ring|].
      rewrite E5. ring.
Qed.

(** C9. The decimals of step 2 are not the decimals of the input
    numerals.  [BlotterCLI.main] calls [read_csv] without a dtype table,
    so the numeral [0.1] of a [pal] column arrives as a float.  Whatever
    float [x] that is, the first two stages complete and leave in [pal]
    the decimal that stands for exactly [x], digit for digit of its binary
    value, and that is not the decimal equal to the numeral [0.1]: no
    float is one tenth. *)
Theorem step2_float_pal_inexact :
  forall x : Float.t,
    exists r z,
      map snd (rows (deref (world_after 2 (blotter_float x)) O)) = [r] /\
      cell Pal r = VDec z /\
      (Dec.value z == Float.value x)%Q /\
      ~ holds_decimal_of_text "0.1" (cell Pal r).
Proof.
  intros x. eexists. exists (Float.to_Dec x).
  split; [vm_compute; reflexivity|].
  split; [reflexivity|]. split; [apply float_to_Dec_exact|].
  intros [z [q [E [Hq Hv]]]]. cbn [cell r_pal] in E. injection E as <-.
  vm_compute in Hq. injection Hq as <-.
  apply (float_value_not_one_tenth x).
  eapply Qeq_trans; [apply Qeq_sym; apply float_to_Dec_exact | exact Hv].
Qed.

(** With the float64 nearest to one tenth, what step 2 leaves is
    0.1000000000000000055511151231257827021181583404541015625, where the
    decimal of the numeral is 0.1. *)
Example step2_one_tenth :
  map (fun lr => cell Pal (snd lr))
      (rows (deref (world_after 2 (blotter_float float_one_tenth)) O))
  = [VDec (Dec.mk false
             1000000000000000055511151231257827021181583404541015625 (-55))]
  /\ Decimal "0.1" = Ok (Dec.mk false 1 (-1)).
Proof. split; vm_compute; reflexivity. Qed.


(* ================================================================== *)
(** * The loops of steps 4 and 5 on the store *)
(* ================================================================== *)

Lemma leaves_read (o : obj) (w : world) (d : DataFrame)
  (k : DataFrame -> M obj) (r : result DataFrame) :
  deref w o = d -> leaves (k d) o w r ->
  leaves (x <- read o ;; k x) o w r.
Proof.
  intros <- H. unfold leaves in *. rewrite read_seq. exact H.
Qed.

Lemma merge_body_run (partition : DataFrame -> result DataFrame) (o : obj)
  (g : label * DataFrame) (w : world) :
  merge_body partition o g w =
  match partition (snd g) with
  | Ok p => match update (deref w o) p with
            | Ok d' => (Val tt, set_obj w o d')
            | Raise e => (Exn e, w)
            end
  | Raise e => (Exn e, w)
  end.
Proof.
  unfold merge_body. rewrite lift_seq.
  destruct (partition (snd g)) as [p|e]; [|reflexivity].
  unfold modifyR, bind, read, lift, write, ret, raise.
  destruct (update (deref w o) p); reflexivity.
Qed.

Lemma for_each_cons_seq {A B} (body : A -> M unit) (x : A) (l : list A)
  (k : M B) (w : world) :
  ((body x ;; for_each l body) ;; k) w =
  match body x w with
  | (Val _, w1) => (for_each l body ;; k) w1
  | (Exn e, w1) => (Exn e, w1)
  end.
Proof.
  unfold bind. destruct (body x w) as [[u|e] w1]; reflexivity.
Qed.

Lemma leaves_for_each_merge (partition : DataFrame -> result DataFrame)
  (o : obj) (groups : list (label * DataFrame)) :
  forall (w : world) (d : DataFrame),
    valid w o -> deref w o = d ->
    leaves (for_each groups (merge_body partition o) ;; ret o) o w
           (merge_partitions partition groups d).
Proof.
  induction groups as [|g groups IH]; intros w d Hv Hd.
  - cbn [for_each merge_partitions]. subst d. unfold leaves, bind, ret.
    rewrite set_obj_deref by exact Hv. reflexivity.
  - cbn [for_each merge_partitions].
    assert (E : ((merge_body partition o g ;;
                  for_each groups (merge_body partition o)) ;; ret o) w
                = match partition (snd g) with
                  | Ok p => match update d p with
                            | Ok d' => (for_each groups (merge_body partition o)
                                        ;; ret o) (set_obj w o d')
                            | Raise e => (Exn e, w)
                            end
                  | Raise e => (Exn e, w)
                  end).
    { rewrite for_each_cons_seq, merge_body_run, Hd.
      destruct (partition (snd g)) as [p|e]; [|reflexivity].
      destruct (update d p); reflexivity. }
    unfold leaves. rewrite E. clear E.
    destruct (partition (snd g)) as [p|e]; cbn [rbind]; [|eauto].
    destruct (update d p) as [d'|e]; cbn [rbind]; [|eauto].
    assert (Hv' : valid (set_obj w o d') o) by (apply valid_set_obj; exact Hv).
    specialize (IH (set_obj w o d') d' Hv' (deref_set_obj_same _ _ _ Hv)).
    unfold leaves in IH.
    destruct (merge_partitions partition groups d') as [d''|e].
    + rewrite IH, set_obj_twice. reflexivity.
    + exact IH.
Qed.

Lemma merge_partitions_ext (P P' : DataFrame -> result DataFrame)
  (gs gs' : list (label * DataFrame)) (d : DataFrame) :
  Forall2 (fun g g' => P (snd g) = P' (snd g')) gs gs' ->
  merge_partitions P gs d = merge_partitions P' gs' d.
Proof.
  intros H. revert d.
  induction H as [|g g' gs gs' Hg _ IH]; intros d; cbn [merge_partitions];
    [reflexivity|].
  rewrite Hg. destruct (P' (snd g')) as [p|]; cbn [rbind]; [|reflexivity].
  destruct (update d p) as [d'|]; cbn [rbind]; [|reflexivity]. apply IH.
Qed.

(* ================================================================== *)
(** * A column added to the frame does not change the groups *)
(* ================================================================== *)

Lemma has_column_app (c : column) (a b : list column) :
  has_column c (a ++ b) = has_column c a || has_column c b.
Proof. unfold has_column. apply existsb_app. Qed.

Lemma has_column_setitem_other (c c' : column) (cols : list column) :
  c' <> c ->
  has_column c' (if has_column c cols then cols else cols ++ [c])
  = has_column c' cols.
Proof.
  intros H. destruct (has_column c cols); [reflexivity|].
  rewrite has_column_app. unfold has_column at 2. cbn [existsb].
  destruct (column_eqb c' c) eqn:E.
  - apply column_eqb_eq in E. contradiction.
  - rewrite !orb_false_r. reflexivity.
Qed.

Lemma all_columns_in_setitem (keys : list column) (c : column)
  (cols : list column) :
  has_column c keys = false ->
  all_columns_in keys (if has_column c cols then cols else cols ++ [c])
  = all_columns_in keys cols.
Proof.
  intros H. unfold all_columns_in.
  induction keys as [|k keys IH]; cbn [forallb]; [reflexivity|].
  unfold has_column in H. cbn [existsb] in H. apply orb_false_iff in H.
  destruct H as [Hk Hkeys]. rewrite IH by exact Hkeys.
  rewrite has_column_setitem_other; [reflexivity|].
  intros ->. rewrite column_eqb_refl in Hk. discriminate.
Qed.

Lemma setitem_key (keys : list column) (c : column) (v : value) :
  has_column c keys = false ->
  forall lr : label * row,
    key_of keys (snd (fst lr, set_cell c v (snd lr))) = key_of keys (snd lr).
Proof. intros H lr. cbn [snd]. apply key_of_set_cell. exact H. Qed.

Lemma groupby_setitem (keys : list column) (c : column) (v : value)
  (d : DataFrame) :
  has_column c keys = false ->
  groupby keys (setitem c v d)
  = match groupby keys d with
    | Ok gs => Ok (map (fun kg => (fst kg, setitem c v (snd kg))) gs)
    | Raise e => Raise e
    end.
Proof.
  intros H. destruct d as [i cs rs]. unfold groupby.
  change (setitem c v (mkDF i cs rs))
    with (mkDF i (if has_column c cs then cs else cs ++ [c])
               (map (fun lr : label * row => (fst lr, set_cell c v (snd lr))) rs)).
  cbn [columns].
  rewrite all_columns_in_setitem by exact H.
  destruct (all_columns_in keys cs); [|reflexivity].
  f_equal.
  rewrite (group_keys_mapped keys _ (setitem_key keys c v H) i i cs
             (if has_column c cs then cs else cs ++ [c]) rs).
  rewrite map_map. apply map_ext. intros k. cbn [fst snd]. f_equal.
  rewrite (group_rows_mapped keys _ (setitem_key keys c v H) k i i cs
             (if has_column c cs then cs else cs ++ [c]) rs).
  reflexivity.
Qed.

Lemma getitem_setitem_other (c c' : column) (v : value) (d : DataFrame) :
  c' <> c ->
  getitem c' (setitem c v d)
  = match getitem c' d with
    | Ok s => Ok s
    | Raise e => Raise e
    end.
Proof.
  intros H. unfold getitem, setitem. cbn [columns rows].
  rewrite has_column_setitem_other by exact H.
  destruct (has_column c' (columns d)); [|reflexivity].
  f_equal. rewrite map_map. apply map_ext. intros lr. cbn [fst snd].
  rewrite cell_set_cell_other by exact H. reflexivity.
Qed.

Lemma agg_row_setitem (spec : list (column * (Series -> result value)))
  (c : column) (v : value) (g : DataFrame) (acc : row) :
  has_column c (map fst spec) = false ->
  agg_row spec (setitem c v g) acc = agg_row spec g acc.
Proof.
  revert acc. induction spec as [|[c' f] spec IH]; intros acc H;
    cbn [agg_row]; [reflexivity|].
  unfold has_column in H. cbn [map fst existsb] in H.
  apply orb_false_iff in H. destruct H as [Hc Hs].
  rewrite getitem_setitem_other.
  - destruct (getitem c' g) as [s|]; cbn [rbind]; [|reflexivity].
    destruct (f s); cbn [rbind]; [|reflexivity]. apply IH. exact Hs.
  - intros ->. rewrite column_eqb_refl in Hc. discriminate.
Qed.

Lemma rmap_map {A B C} (f : B -> result C) (h : A -> B) (l : list A) :
  rmap f (map h l) = rmap (fun x => f (h x)) l.
Proof.
  induction l as [|x l IH]; cbn [map rmap]; [reflexivity|].
  rewrite IH. reflexivity.
Qed.

(** An aggregation does not see a column that is neither a key nor
    aggregated. *)
Lemma agg_setitem (as_index : bool) (keys : list column)
  (spec : list (column * (Series -> result value))) (c : column) (v : value)
  (d : DataFrame) :
  has_column c keys = false -> has_column c (map fst spec) = false ->
  agg as_index keys spec (setitem c v d) = agg as_index keys spec d.
Proof.
  intros Hk Hs. unfold agg. rewrite groupby_setitem by exact Hk.
  destruct (groupby keys d) as [gs|]; cbn [rbind]; [|reflexivity].
  rewrite rmap_map.
  rewrite (rmap_ext _ (fun kg : label * DataFrame =>
                         let* r := agg_row spec (snd kg) empty_row in
                         Ok (fst kg, r))); [reflexivity|].
  intros kg _. cbn [fst snd]. rewrite agg_row_setitem by exact Hs. reflexivity.
Qed.

Lemma step4_partition_setitem (v : value) (g : DataFrame) :
  step4_partition (setitem OpenLiq v g) = step4_partition g.
Proof.
  unfold step4_partition, step4_open_liq, step4_collapse.
  rewrite agg_setitem by reflexivity. reflexivity.
Qed.

Lemma Forall2_map_l_self {A B} (P : B -> A -> Prop) (g : A -> B) (l : list A) :
  (forall x, In x l -> P (g x) x) -> Forall2 P (map g l) l.
Proof.
  induction l as [|x l IH]; simpl; intros H; constructor; auto.
Qed.

(** Step 4 leaves [step4_frame] behind its argument, in both modes. *)
Lemma step4_run (o : obj) (executor : Executor) (w : world) :
  call_of_df_task w o executor ->
  leaves (step4_compute_open_liq o executor) o w (step4_frame (deref w o)).
Proof.
  intros [Hvo [Hve Halias]].
  unfold step4_compute_open_liq, step4_frame. cbv zeta.
  eapply leaves_modify; [exact Hvo | reflexivity |].
  set (d := deref w o) in *. set (d1 := setitem OpenLiq VNone d).
  set (w1 := set_obj w o d1).
  assert (Hv1 : valid w1 o) by (apply valid_set_obj; exact Hvo).
  assert (Hd1 : deref w1 o = d1) by (apply deref_set_obj_same; exact Hvo).
  (* the groups that the executor delivers *)
  assert (Hg : match groupby [Lkid; Ticker] (deref w1 (_df executor)) with
               | Ok gs => exists gs1, groupby [Lkid; Ticker] d1 = Ok gs1 /\
                            Forall2 (fun g g1 => step4_partition (snd g)
                                                 = step4_partition (snd g1)) gs gs1
               | Raise e => groupby [Lkid; Ticker] d1 = Raise e
               end).
  { destruct (Nat.eq_dec (_df executor) o) as [E | N].
    - rewrite E, Hd1. destruct (groupby [Lkid; Ticker] d1) as [gs|]; [|reflexivity].
      exists gs. split; [reflexivity|].
      clear. induction gs; constructor; auto.
    - unfold w1. rewrite deref_set_obj_other by (intros E; apply N; symmetry; exact E).
      destruct Halias as [E | E]; [contradiction|]. rewrite E. fold d.
      unfold d1. rewrite groupby_setitem by reflexivity.
      destruct (groupby [Lkid; Ticker] d) as [gs|]; [|reflexivity].
      eexists. split; [reflexivity|].
      apply Forall2_map_r_self. intros kg _. cbn [snd].
      symmetry. apply step4_partition_setitem. }
  unfold leaves.
  rewrite Executor_groupby_seq.
  destruct (groupby [Lkid; Ticker] (deref w1 (_df executor))) as [gs|e].
  - destruct Hg as [gs1 [Hgs1 HF]]. rewrite Hgs1. cbn [rbind].
    rewrite <- (merge_partitions_ext _ _ _ _ d1 HF).
    pose proof (leaves_for_each_merge step4_partition o gs w1 d1 Hv1 Hd1) as L.
    unfold leaves in L.
    destruct (merge_partitions step4_partition gs d1) as [d'|e'];
      exact L.
  - rewrite Hg. cbn [rbind]. eauto.
Qed.

(** Step 6 leaves [step6_frame] behind its argument. *)
Lemma step6_run (o : obj) (w : world) :
  valid w o ->
  leaves (step6_agg_daily o) o w (step6_frame (deref w o)).
Proof.
  intros Hv. unfold step6_agg_daily, step6_frame. cbv zeta.
  leaves_step. cbv beta.
  eapply leaves_read; [solve_deref|].
  eapply leaves_lift. intros another_df Ha.
  do 3 leaves_step.
  leaves_step. cbv beta.
  eapply (leaves_modifyR o _ _ (fun d => update d another_df));
    [solve_valid | solve_deref | intros ? ?; rewrite ?set_obj_twice].
  cbv beta.
  leaves_step.
  leaves_step. cbv beta.
  leaves_step.
  leaves_step.
Qed.

(* ================================================================== *)
(** * update: what it keeps and what it depends on *)
(* ================================================================== *)

Lemma update_columns (self other d' : DataFrame) :
  update self other = Ok d' ->
  columns d' = columns self /\ index_names d' = index_names self /\
  map fst (rows d') = map fst (rows self).
Proof.
  unfold update. destruct (nodup_labels (labels other)); [|discriminate].
  intros H; inversion H; subst d'; clear H. cbn [columns index_names rows with_rows].
  split; [reflexivity|]. split; [reflexivity|].
  rewrite map_map. apply map_ext. intros lr.
  destruct (lookup_label (fst lr) (rows other)); reflexivity.
Qed.

Lemma update_row_other (cols : list column) (that this : row) (c : column) :
  has_column c cols = false -> cell c (update_row cols that this) = cell c this.
Proof.
  unfold update_row. revert this.
  induction cols as [|x cols IH]; intros this H; cbn [fold_left]; [reflexivity|].
  unfold has_column in H. cbn [existsb] in H. apply orb_false_iff in H.
  destruct H as [Hx Hc]. rewrite IH by exact Hc.
  destruct (isna (cell x that)); [reflexivity|].
  apply cell_set_cell_other. intros ->. rewrite column_eqb_refl in Hx.
  discriminate.
Qed.

Lemma update_row_ext (cols : list column) (that that' this : row) :
  (forall c, In c cols -> cell c that = cell c that') ->
  update_row cols that this = update_row cols that' this.
Proof.
  unfold update_row. revert this.
  induction cols as [|x cols IH]; intros this H; cbn [fold_left]; [reflexivity|].
  rewrite (H x) by (left; reflexivity). apply IH. intros c Hc. apply H.
  right; exact Hc.
Qed.

Lemma lookup_label_Forall2 {A B} (R : A -> B -> Prop) (l : label)
  (s : list (label * A)) (s' : list (label * B)) :
  Forall2 (fun x y => fst x = fst y /\ R (snd x) (snd y)) s s' ->
  match lookup_label l s, lookup_label l s' with
  | Some a, Some b => R a b
  | None, None => True
  | _, _ => False
  end.
Proof.
  induction 1 as [|[l1 a] [l2 b] s s' [Hf Hr] _ IH]; cbn [lookup_label];
    [exact I|].
  cbn [fst snd] in Hf, Hr. subst l2.
  destruct (label_eqb l l1); [exact Hr | exact IH].
Qed.

Lemma filter_all_true {A} (p : A -> bool) (l : list A) :
  (forall x, In x l -> p x = true) -> filter p l = l.
Proof.
  induction l as [|x l IH]; simpl; intros H; [reflexivity|].
  rewrite (H x) by auto. rewrite IH by auto. reflexivity.
Qed.

(** [update] sees of [other] its labels and, in the columns it shares
    with [self], its cells. *)
Lemma update_ext (self p p' : DataFrame) :
  filter (fun c => has_column c (columns p)) (columns self)
  = filter (fun c => has_column c (columns p')) (columns self) ->
  Forall2 (fun x y =>
             fst x = fst y /\
             forall c, In c (filter (fun c => has_column c (columns p))
                                    (columns self)) ->
                       cell c (snd x) = cell c (snd y))
          (rows p) (rows p') ->
  update self p = update self p'.
Proof.
  intros Hcols HF. unfold update.
  assert (Hlab : labels p = labels p').
  { unfold labels. clear Hcols.
    induction HF as [|x y l l' [Hf _] _ IH]; cbn [map]; [reflexivity|].
    rewrite Hf, IH. reflexivity. }
  rewrite Hlab. destruct (nodup_labels (labels p')); [|reflexivity].
  f_equal. f_equal. rewrite <- Hcols. apply map_ext. intros lr.
  pose proof (lookup_label_Forall2
                (fun a b : row =>
                   forall c, In c (filter (fun c => has_column c (columns p))
                                          (columns self)) ->
                             cell c a = cell c b)
                (fst lr) _ _ HF) as HL.
  cbv beta in HL.
  destruct (lookup_label (fst lr) (rows p)) as [a|],
           (lookup_label (fst lr) (rows p')) as [b|]; try contradiction;
    [|reflexivity].
  f_equal. apply update_row_ext. exact HL.
Qed.

Lemma merge_partitions_equiv (P : DataFrame -> result DataFrame)
  (gs gs' : list (label * DataFrame)) :
  forall d,
    Forall2 (fun g g' => update_equiv (columns d) (P (snd g)) (P (snd g')))
            gs gs' ->
    merge_partitions P gs d = merge_partitions P gs' d.
Proof.
  intros d H. remember (columns d) as cols eqn:Hc. revert d Hc.
  induction H as [|g g' gs gs' Hg _ IH]; intros d Hc; cbn [merge_partitions];
    [reflexivity|].
  unfold update_equiv in Hg.
  destruct (P (snd g)) as [p|e], (P (snd g')) as [p'|e']; try contradiction;
    cbn [rbind]; [|congruence].
  rewrite <- (Hg d (eq_sym Hc)).
  destruct (update d p) as [d'|] eqn:Eu; cbn [rbind]; [|reflexivity].
  apply IH. destruct (update_columns _ _ _ Eu) as [E _]. congruence.
Qed.

Lemma rmap_rel {A B C} (R : B -> C -> Prop) (f : A -> result B)
  (g : A -> result C) (l : list A) :
  (forall x, In x l ->
     match f x, g x with
     | Ok a, Ok b => R a b
     | Raise e, Raise e' => e = e'
     | _, _ => False
     end) ->
  match rmap f l, rmap g l with
  | Ok la, Ok lb => Forall2 R la lb
  | Raise e, Raise e' => e = e'
  | _, _ => False
  end.
Proof.
  induction l as [|x l IH]; cbn [rmap]; intros H; [constructor|].
  pose proof (H x (or_introl eq_refl)) as Hx.
  destruct (f x) as [a|e], (g x) as [b|e']; try contradiction; cbn [rbind];
    [|exact Hx].
  specialize (IH (fun y Hy => H y (or_intror Hy))).
  destruct (rmap f l) as [la|e], (rmap g l) as [lb|e']; try contradiction;
    cbn [rbind]; [constructor; assumption | exact IH].
Qed.

(* ================================================================== *)
(** * Step 5 in both modes *)
(* ================================================================== *)

Lemma has_column_remove_columns (x : column) (cs cols : list column) :
  has_column x (remove_columns cs cols)
  = has_column x cols && negb (has_column x cs).
Proof.
  apply Bool.eq_iff_eq_true.
  rewrite andb_true_iff, !has_column_In. unfold remove_columns.
  rewrite filter_In. tauto.
Qed.

Lemma has_column_step5_columns (x : column) (c : list column) :
  has_column x (step5_columns c)
  = (has_column x c && negb (column_eqb x Index)) || column_eqb x Return.
Proof.
  unfold step5_columns.
  assert (H1 : forall y, has_column x [y] = column_eqb x y).
  { intros y. unfold has_column. cbn [existsb]. apply orb_false_r. }
  destruct (has_column Return (remove_columns [Index] c)) eqn:E.
  - rewrite has_column_remove_columns, H1.
    destruct (column_eqb x Return) eqn:Ex.
    + apply column_eqb_eq in Ex. subst x.
      rewrite has_column_remove_columns in E.
      apply andb_true_iff in E. destruct E as [E1 _]. rewrite E1.
      reflexivity.
    + rewrite orb_false_r. reflexivity.
  - rewrite has_column_app, has_column_remove_columns, !H1. reflexivity.
Qed.

Lemma step5_prefix_frame (d d1 : DataFrame) :
  set_index [Index] d = Ok d1 ->
  has_column Index (columns d) = true /\
  setitem Return VNone d1
  = mkDF [Index] (step5_columns (columns d)) (map step5_row (rows d)).
Proof. apply step5_prefix_rows. Qed.

(** The frame of a date as the two modes see it: made of the frame
    before step 5 (copy mode) or of the frame with ["index"] as its index
    and an empty ["return"] (eager mode).  [update] cannot tell the two
    results apart. *)
Lemma step5_partition_equiv (i c : list column) (rs : list (label * row)) :
  (forall lr, In lr rs -> fst lr = [cell Index (snd lr)]) ->
  update_equiv (step5_columns c)
    (step5_partition (mkDF i c rs))
    (step5_partition (mkDF [Index] (step5_columns c) (map step5_row rs))).
Proof.
  intros Hlab. unfold step5_partition, getitem. cbn [columns rows].
  rewrite !has_column_step5_columns. cbn [column_eqb negb].
  rewrite !andb_true_r, !orb_false_r.
  destruct (has_column OpenLiq c); cbn [rbind]; [|reflexivity].
  rewrite (nansum_values
             (map (fun lr => (fst lr, cell OpenLiq (snd lr))) (map step5_row rs))
             (map (fun lr => (fst lr, cell OpenLiq (snd lr))) rs)).
  2:{ rewrite !map_map. apply map_ext. intros lr. cbn [snd].
      apply step5_row_cell; discriminate. }
  destruct (nansum _) as [t|e]; cbn [rbind]; [|reflexivity].
  destruct (has_column Pal c); cbn [rbind]; [|reflexivity].
  unfold assign_rowwise. cbn [rows columns index_names].
  rewrite rmap_map.
  pose proof (rmap_rel
                (fun x y : label * row =>
                   fst x = fst y /\
                   forall c', c' <> Index -> cell c' (snd x) = cell c' (snd y))
                (fun lr : label * row =>
                   let* v := value_div (cell Pal (snd lr)) t in
                   Ok (fst lr, set_cell Return v (snd lr)))
                (fun lr : label * row =>
                   let* v := value_div (cell Pal (snd (step5_row lr))) t in
                   Ok (fst (step5_row lr),
                       set_cell Return v (snd (step5_row lr))))
                rs) as HR.
  match type of HR with ?A -> _ => assert (HA : A) end.
  { intros lr Hin. rewrite step5_row_cell by discriminate.
    destruct (value_div (cell Pal (snd lr)) t) as [v|e]; cbn [rbind];
      [|reflexivity].
    cbn [fst snd]. split; [rewrite (Hlab lr Hin); reflexivity|].
    intros c' Hc'.
    destruct (column_eqb c' Return) eqn:E.
    - apply column_eqb_eq in E. subst c'. rewrite !cell_set_cell_same.
      reflexivity.
    - assert (c' <> Return) by (intros ->; discriminate E).
      rewrite !cell_set_cell_other by assumption.
      symmetry. apply step5_row_cell; assumption. }
  specialize (HR HA). clear HA.
  destruct (rmap _ rs) as [rs1|e1]; destruct (rmap _ rs) as [rs2|e2];
    try contradiction; cbn [rbind update_equiv]; [|exact HR].
  intros cur Hcur. apply update_ext; cbn [columns rows]; rewrite Hcur.
  - rewrite !filter_all_true; [reflexivity | |].
    + intros x Hx. apply has_column_In in Hx.
      rewrite has_column_step5_columns in Hx.
      destruct (column_eqb x Return) eqn:E.
      * apply column_eqb_eq in E. subst x. apply has_column_setitem_columns.
      * rewrite orb_false_r in Hx.
        rewrite has_column_setitem_other
          by (intros ->; discriminate E).
        rewrite has_column_step5_columns, E, orb_false_r. exact Hx.
    + intros x Hx. apply has_column_In in Hx.
      rewrite has_column_step5_columns in Hx.
      destruct (column_eqb x Return) eqn:E.
      * apply column_eqb_eq in E. subst x. apply has_column_setitem_columns.
      * rewrite orb_false_r in Hx. apply andb_true_iff in Hx.
        rewrite has_column_setitem_other
          by (intros ->; discriminate E).
        tauto.
  - revert HR. generalize rs1 rs2. clear.
    induction 1 as [|x y l l' [Hf Hc] _ IH]; constructor; [|exact IH].
    split; [exact Hf|]. intros c' Hin. apply Hc.
    apply filter_In in Hin. destruct Hin as [Hin _].
    apply has_column_In in Hin. rewrite has_column_step5_columns in Hin.
    intros ->. cbn in Hin. rewrite andb_false_r in Hin. discriminate.
Qed.

Lemma Forall2_map_both {A B C} (P : B -> C -> Prop) (f : A -> B) (g : A -> C)
  (l : list A) :
  (forall x, In x l -> P (f x) (g x)) -> Forall2 P (map f l) (map g l).
Proof.
  induction l as [|x l IH]; simpl; intros H; constructor; auto.
Qed.

(** Step 5 leaves [step5_frame] behind its argument, in both modes, when
    the rows of the frame are labelled with their ["index"]. *)
Lemma step5_run (o : obj) (executor : Executor) (w : world) :
  call_of_df_task w o executor ->
  labelled_by_index (deref w o) ->
  leaves (step5_compute_fund_value o executor) o w (step5_frame (deref w o)).
Proof.
  intros [Hvo [Hve Halias]] Hlab.
  unfold step5_compute_fund_value, step5_frame. cbv zeta.
  eapply leaves_modifyR; [exact Hvo | reflexivity|].
  intros d1 Hd1. cbv beta.
  eapply leaves_modify; [solve_valid | solve_deref|].
  rewrite set_obj_twice.
  destruct (step5_prefix_frame _ _ Hd1) as [Hidx Hd2].
  set (d := deref w o) in *. set (d2 := setitem Return VNone d1) in *.
  set (w2 := set_obj w o d2).
  assert (Hv2 : valid w2 o) by (apply valid_set_obj; exact Hvo).
  assert (Hderef2 : deref w2 o = d2) by (apply deref_set_obj_same; exact Hvo).
  assert (Hg : match groupby [Date] (deref w2 (_df executor)) with
               | Ok gs => exists gs2, groupby [Date] d2 = Ok gs2 /\
                            merge_partitions step5_partition gs d2
                            = merge_partitions step5_partition gs2 d2
               | Raise e => groupby [Date] d2 = Raise e
               end).
  { destruct (Nat.eq_dec (_df executor) o) as [E | N].
    - rewrite E, Hderef2. destruct (groupby [Date] d2) as [gs|]; [|reflexivity].
      exists gs. split; reflexivity.
    - unfold w2. rewrite deref_set_obj_other by (intros E; apply N; symmetry; exact E).
      destruct Halias as [E | E]; [contradiction|]. rewrite E. fold d.
      rewrite Hd2. unfold groupby. cbn [columns].
      assert (Hdate : all_columns_in [Date] (step5_columns (columns d))
                      = all_columns_in [Date] (columns d)).
      { unfold all_columns_in. cbn [forallb].
        rewrite has_column_step5_columns. cbn [column_eqb negb].
        rewrite andb_true_r, orb_false_r. reflexivity. }
      rewrite Hdate. destruct (all_columns_in [Date] (columns d)); [|reflexivity].
      eexists. split; [reflexivity|].
      unfold labelled_by_index in Hlab. fold d in Hlab.
      destruct d as [i c rs]. cbn [columns rows index_names] in *.
      rewrite (group_keys_mapped [Date] step5_row step5_row_key i [Index] c
                 (step5_columns c) rs).
      apply merge_partitions_equiv. cbn [columns].
      apply Forall2_map_both. intros k _. cbn [snd].
      rewrite (group_rows_mapped [Date] step5_row step5_row_key k i [Index] c
                 (step5_columns c) rs).
      unfold with_rows. cbn [index_names columns].
      apply step5_partition_equiv.
      intros lr Hin. apply Hlab. apply group_rows_In in Hin.
      cbn [rows] in Hin. tauto. }
  unfold leaves. rewrite Executor_groupby_seq. fold w2.
  destruct (groupby [Date] (deref w2 (_df executor))) as [gs|e].
  - destruct Hg as [gs2 [Hgs2 HM]]. rewrite Hgs2. cbn [rbind].
    rewrite <- HM.
    pose proof (leaves_for_each_merge step5_partition o gs w2 d2 Hv2 Hderef2) as L.
    unfold leaves in L.
    destruct (merge_partitions step5_partition gs d2) as [d'|e'];
      exact L.
  - rewrite Hg. cbn [rbind]. eauto.
Qed.

(* ================================================================== *)
(** * The driver on a pipeline of frame functions *)
(* ================================================================== *)

Lemma df_task_copy (f : Task) (d : obj) (executor : Executor) (w : world) :
  df_task f d executor false w =
  func f (List.length (objects w)) executor
       (mkWorld (objects w ++ [deref w d]) (trace w ++ [task_name f])).
Proof.
  unfold df_task, bind, log, copy, ret; cbn [andb objects trace].
  unfold deref. cbn [objects].
  destruct (func f _ executor _) as [[result|e] w']; reflexivity.
Qed.

Lemma run_cons (s : Task) (steps : list Task) (executor : Executor) (w : world) :
  run (s :: steps) executor w =
  match transform executor s w with
  | (Val d, w') =>
      run steps (if is_eager executor then executor else update_df executor d) w'
  | (Exn e, w') => (Exn e, w')
  end.
Proof.
  cbn [run]. unfold bind.
  destruct (transform executor s w) as [[d|e] w']; [|reflexivity].
  destruct (is_eager executor); reflexivity.
Qed.

(** A run of the driver, in either mode, computes the composition of the
    frame functions on the frame of the executor. *)
Lemma run_frames (P Q : DataFrame -> Prop) (steps : list Task)
  (Fs : list (DataFrame -> result DataFrame)) :
  pipeline_of P steps Fs Q ->
  forall (executor : Executor) (w : world),
    valid w (df executor) -> P (deref w (df executor)) ->
    match frames Fs (deref w (df executor)) with
    | Ok d' =>
        exists e' w',
          run steps executor w = (Val e', w') /\
          valid w' (df e') /\ deref w' (df e') = d' /\
          is_eager e' = is_eager executor /\ Q d'
    | Raise e => exists w', run steps executor w = (Exn e, w')
    end.
Proof.
  induction 1 as [P | P P' Q s F steps Fs Himpl Hpost Hrest IH];
    intros executor w Hv HP.
  - cbn [frames run]. exists executor, w. unfold ret. auto.
  - cbn [frames]. rewrite run_cons. unfold transform.
    destruct executor as [o eager]. cbn [df _df is_eager] in *.
    destruct eager.
    + (* eager: the function runs on the frame of the executor *)
      rewrite df_task_eager.
      set (w0 := mkWorld (objects w) (trace w ++ [task_name s])).
      assert (Hd0 : deref w0 o = deref w o) by reflexivity.
      assert (Hcall : call_of_df_task w0 o (mkExecutor o true)).
      { unfold call_of_df_task, valid. cbn [_df objects w0]. auto. }
      pose proof (Himpl w0 o (mkExecutor o true) Hcall) as L.
      rewrite Hd0 in L. specialize (L HP). unfold leaves in L.
      destruct (F (deref w o)) as [d1|e] eqn:EF; cbn [rbind].
      * rewrite L. rewrite Nat.eqb_refl. cbn [negb].
        assert (Hv1 : valid (set_obj w0 o d1) o) by (apply valid_set_obj; exact Hv).
        specialize (IH (mkExecutor o true) (set_obj w0 o d1) Hv1).
        cbn [df _df] in IH. rewrite deref_set_obj_same in IH by exact Hv.
        specialize (IH (Hpost _ _ HP EF)). exact IH.
      * destruct L as [w' L]. rewrite L. eauto.
    + (* copy: the function runs on a new object *)
      rewrite df_task_copy.
      set (n := List.length (objects w)).
      set (w1 := mkWorld (objects w ++ [deref w o]) (trace w ++ [task_name s])).
      assert (Hdn : deref w1 n = deref w o).
      { unfold deref, w1, n. cbn [objects]. apply nth_middle. }
      assert (Hdo : deref w1 o = deref w o).
      { unfold deref, w1. cbn [objects]. apply app_nth1. exact Hv. }
      assert (Hcall : call_of_df_task w1 n (mkExecutor o false)).
      { unfold call_of_df_task, valid. cbn [_df objects w1].
        rewrite length_app. cbn [List.length]. fold n.
        unfold valid in Hv. split; [lia|]. split; [lia|].
        right. rewrite Hdn. exact Hdo. }
      pose proof (Himpl w1 n (mkExecutor o false) Hcall) as L.
      rewrite Hdn in L. specialize (L HP). unfold leaves in L.
      destruct (F (deref w o)) as [d1|e] eqn:EF; cbn [rbind].
      * rewrite L. unfold update_df. cbn [is_eager].
        assert (Hvn : valid w1 n).
        { unfold valid, w1, n. cbn [objects]. rewrite length_app.
          cbn [List.length]. lia. }
        assert (Hv1 : valid (set_obj w1 n d1) n) by (apply valid_set_obj; exact Hvn).
        specialize (IH (mkExecutor n false) (set_obj w1 n d1) Hv1).
        cbn [df _df] in IH. rewrite deref_set_obj_same in IH by exact Hvn.
        specialize (IH (Hpost _ _ HP EF)). exact IH.
      * destruct L as [w' L]. rewrite L. eauto.
Qed.

(* ================================================================== *)
(** * The primary key through the stages *)
(* ================================================================== *)

Lemma range_index_length {A} (s : Z) (l : list A) :
  List.length (range_index s l) = List.length l.
Proof.
  revert s; induction l as [|x l IH]; intros s; cbn [range_index List.length];
    [reflexivity | rewrite IH; reflexivity].
Qed.

Lemma range_index_map {A B} (f : A -> B) (s : Z) (l : list A) :
  range_index s (map f l)
  = map (fun lx => (fst lx, f (snd lx))) (range_index s l).
Proof.
  revert s; induction l as [|x l IH]; intros s; cbn [range_index map];
    [reflexivity | rewrite IH; reflexivity].
Qed.

Lemma range_index_labels {A} (a : nat) (l : list A) :
  map fst (range_index (Z.of_nat a) l)
  = map (fun i => [VInt i]) (map Z.of_nat (seq a (List.length l))).
Proof.
  revert a; induction l as [|x l IH]; intros a; cbn [range_index map seq List.length];
    [reflexivity|].
  f_equal. replace (Z.of_nat a + 1) with (Z.of_nat (S a)) by lia. apply IH.
Qed.


Lemma pk_ok_labelled (n : nat) (d : DataFrame) :
  pk_ok n d -> labelled_by_index d.
Proof.
  unfold pk_ok, labelled_by_index. generalize (positions n) (rows d).
  intros ps rs. revert ps. induction rs as [|x rs IH]; intros ps H lr Hin;
    [contradiction|].
  destruct ps as [|p ps]; [discriminate|]. cbn [map] in H.
  inversion H as [[H1 H2 H3]]. destruct Hin as [<- | Hin].
  - rewrite H1, H2. reflexivity.
  - eapply IH; eauto.
Qed.

(** Step 1 on the frame of [read_csv]. *)
Lemma step1_frame_pk (n : nat) (d d' : DataFrame) :
  csv_frame n d -> step1_frame d = Ok d' -> pk_ok n d'.
Proof.
  intros [cols [rs [-> [Hcol <-]]]]. unfold step1_frame, reset_index, frame_of_rows.
  cbn [index_names columns rows]. rewrite Hcol. cbn [existsb nodup_columns].
  rewrite Hcol. cbn [orb negb has_column existsb andb].
  intros H; inversion H; subst d'; clear H. unfold pk_ok. cbn [rows].
  rewrite range_index_map, map_map. cbn [fst snd].
  unfold positions.
  change 0 with (Z.of_nat 0).
  generalize 0%nat. induction rs as [|r rs IH]; intros a;
    cbn [range_index map seq List.length]; [reflexivity|].
  cbn [fst snd set_cells]. rewrite cell_set_cell_same. f_equal.
  replace (Z.of_nat a + 1) with (Z.of_nat (S a)) by lia. apply IH.
Qed.

Lemma pk_ok_rowwise (R : row -> row -> Prop) (n : nat) (d d' : DataFrame) :
  rowwise R d d' ->
  (forall r r', R r r' -> cell Index r' = cell Index r) ->
  pk_ok n d -> pk_ok n d'.
Proof.
  unfold rowwise, pk_ok. intros HF HR <-.
  induction HF as [|x y l l' [Hf Hr] _ IH]; cbn [map]; [reflexivity|].
  rewrite Hf, (HR _ _ Hr), IH. reflexivity.
Qed.

Lemma step2_frame_pk (to_datetime : string -> result Z) (n : nat)
  (d d' : DataFrame) :
  pk_ok n d -> step2_frame to_datetime d = Ok d' -> pk_ok n d'.
Proof.
  unfold step2_frame. intros Hpk H.
  destruct (astype_ordered_category Sector d) as [d1|] eqn:E1; cbn [rbind] in H;
    [|discriminate].
  destruct (rename_categories Sector rename_sector d1) as [d2|] eqn:E2;
    cbn [rbind] in H; [|discriminate].
  destruct (apply_column Pal Decimal_of_value d2) as [d3|] eqn:E3;
    cbn [rbind] in H; [|discriminate].
  destruct (apply_column Exposure Decimal_of_value d3) as [d4|] eqn:E4;
    cbn [rbind] in H; [|discriminate].
  apply astype_ordered_category_rowwise in E1.
  apply rename_categories_rowwise in E2.
  apply apply_column_rowwise in E3, E4, H.
  eapply pk_ok_rowwise; [exact H | |].
  { intros r r' [v [_ ->]]. apply cell_set_cell_other; discriminate. }
  eapply pk_ok_rowwise; [exact E4 | |].
  { intros r r' [v [_ ->]]. apply cell_set_cell_other; discriminate. }
  eapply pk_ok_rowwise; [exact E3 | |].
  { intros r r' [v [_ ->]]. apply cell_set_cell_other; discriminate. }
  eapply pk_ok_rowwise; [exact E2 | |].
  { intros r r' Hr. cbv beta in Hr.
    destruct (cell Sector r); subst r'; try reflexivity.
    apply cell_set_cell_other; discriminate. }
  eapply pk_ok_rowwise; [exact E1 | | exact Hpk].
  intros r r' Hr. cbv beta in Hr.
  destruct (cell Sector r); try contradiction;
    [ subst r'; reflexivity
    | destruct Hr as [i ->]; apply cell_set_cell_other; discriminate
    | destruct Hr as [i ->]; apply cell_set_cell_other; discriminate ].
Qed.

Lemma step3_frame_pk (n : nat) (d d' : DataFrame) :
  pk_ok n d -> step3_frame d = Ok d' -> pk_ok n d'.
Proof.
  unfold step3_frame. intros Hpk H.
  destruct (negb (has_column Ticker (columns d))).
  - apply assign_rowwise_rowwise in H.
    eapply pk_ok_rowwise; [exact H | | exact Hpk].
    intros r r' [v [_ ->]]. apply cell_set_cell_other; discriminate.
  - inversion H; subst; exact Hpk.
Qed.

(** [update] keeps the labels, and the cells of the columns that the other
    frame does not have. *)
Lemma update_keeps (self other d' : DataFrame) (c : column) :
  update self other = Ok d' ->
  has_column c (columns other) = false ->
  map (fun lr => (fst lr, cell c (snd lr))) (rows d')
  = map (fun lr => (fst lr, cell c (snd lr))) (rows self).
Proof.
  unfold update. destruct (nodup_labels (labels other)); [|discriminate].
  intros H Hc; inversion H; subst d'; clear H. cbn [rows with_rows].
  rewrite map_map. apply map_ext. intros lr.
  destruct (lookup_label (fst lr) (rows other)) as [that|]; [|reflexivity].
  cbn [fst snd]. f_equal. apply update_row_other.
  apply Bool.not_true_iff_false. intros Hin. apply has_column_In in Hin.
  apply filter_In in Hin. destruct Hin as [_ Hin]. congruence.
Qed.

Lemma merge_partitions_keeps (P : DataFrame -> result DataFrame) (c : column)
  (gs : list (label * DataFrame)) :
  (forall g p, P g = Ok p -> has_column c (columns p) = false) ->
  forall d d',
    merge_partitions P gs d = Ok d' ->
    map (fun lr => (fst lr, cell c (snd lr))) (rows d')
    = map (fun lr => (fst lr, cell c (snd lr))) (rows d).
Proof.
  intros HP. induction gs as [|g gs IH]; intros d d' H; cbn [merge_partitions] in H.
  - inversion H; reflexivity.
  - destruct (P (snd g)) as [p|] eqn:Ep; cbn [rbind] in H; [|discriminate].
    destruct (update d p) as [d1|] eqn:Eu; cbn [rbind] in H; [|discriminate].
    rewrite (IH _ _ H). eapply update_keeps; eauto.
Qed.

Lemma merge_partitions_shape (P : DataFrame -> result DataFrame)
  (gs : list (label * DataFrame)) :
  forall d d',
    merge_partitions P gs d = Ok d' ->
    columns d' = columns d /\ index_names d' = index_names d /\
    map fst (rows d') = map fst (rows d).
Proof.
  induction gs as [|g gs IH]; intros d d' H; cbn [merge_partitions] in H.
  - inversion H; auto.
  - destruct (P (snd g)) as [p|] eqn:Ep; cbn [rbind] in H; [|discriminate].
    destruct (update d p) as [d1|] eqn:Eu; cbn [rbind] in H; [|discriminate].
    destruct (IH _ _ H) as [H1 [H2 H3]].
    destruct (update_columns _ _ _ Eu) as [H4 [H5 H6]].
    repeat split; congruence.
Qed.

Lemma set_index_columns (keys : list column) (d d' : DataFrame) :
  set_index keys d = Ok d' ->
  columns d' = remove_columns keys (columns d) /\ index_names d' = keys /\
  rows d' = map (fun lr => (map (fun k => cell k (snd lr)) keys,
                            clear_cells keys (snd lr))) (rows d).
Proof.
  unfold set_index. destruct (all_columns_in keys (columns d)); [|discriminate].
  intros H; inversion H; auto.
Qed.

Lemma step4_partition_columns (g p : DataFrame) :
  step4_partition g = Ok p -> has_column Index (columns p) = false.
Proof.
  unfold step4_partition.
  destruct (step4_open_liq g) as [imputed|]; cbn [rbind]; [|discriminate].
  intros H. apply set_index_columns in H. destruct H as [-> _].
  rewrite has_column_remove_columns. cbn. apply andb_false_r.
Qed.

Lemma step4_frame_pk (n : nat) (d d' : DataFrame) :
  pk_ok n d -> step4_frame d = Ok d' -> pk_ok n d'.
Proof.
  unfold step4_frame. cbv zeta. intros Hpk H.
  destruct (groupby [Lkid; Ticker] (setitem OpenLiq VNone d)) as [gs|];
    cbn [rbind] in H; [|discriminate].
  unfold pk_ok.
  rewrite (merge_partitions_keeps step4_partition Index gs
             step4_partition_columns _ _ H).
  unfold setitem. cbn [rows]. rewrite map_map. rewrite <- Hpk.
  apply map_ext. intros lr. cbn [fst snd].
  rewrite cell_set_cell_other by discriminate. reflexivity.
Qed.

Lemma step5_frame_pk (n : nat) (d d' : DataFrame) :
  pk_ok n d -> step5_frame d = Ok d' -> pk_is_index n d'.
Proof.
  unfold step5_frame. cbv zeta. intros Hpk H.
  destruct (set_index [Index] d) as [d1|] eqn:E1; cbn [rbind] in H;
    [|discriminate].
  destruct (step5_prefix_frame _ _ E1) as [_ Hd2]. rewrite Hd2 in H.
  destruct (groupby [Date] _) as [gs|]; cbn [rbind] in H; [|discriminate].
  destruct (merge_partitions_shape _ _ _ _ H) as [_ [Hi Hl]].
  cbn [index_names rows] in Hi, Hl. split; [exact Hi|].
  rewrite Hl, map_map. unfold step5_row. cbn [fst].
  unfold pk_ok in Hpk.
  apply (f_equal (map (fun lv : label * value => [snd lv]))) in Hpk.
  rewrite !map_map in Hpk. cbn [snd] in Hpk. exact Hpk.
Qed.

Lemma reset_index_nrows (d d' : DataFrame) :
  reset_index d = Ok d' -> nrows d' = nrows d.
Proof.
  unfold reset_index.
  destruct (existsb _ _ || negb _); [discriminate|].
  intros H; inversion H; subst d'. unfold nrows. cbn [rows].
  rewrite range_index_length, length_map. reflexivity.
Qed.

Lemma set_index_nrows (keys : list column) (d d' : DataFrame) :
  set_index keys d = Ok d' -> nrows d' = nrows d.
Proof.
  intros H. apply set_index_columns in H. destruct H as [_ [_ H]].
  unfold nrows. rewrite H, length_map. reflexivity.
Qed.

Lemma update_nrows (self other d' : DataFrame) :
  update self other = Ok d' -> nrows d' = nrows self.
Proof.
  intros H. apply update_columns in H. destruct H as [_ [_ H]].
  unfold nrows. apply (f_equal (@List.length _)) in H.
  rewrite !length_map in H. exact H.
Qed.

Lemma setitem_nrows (c : column) (v : value) (d : DataFrame) :
  nrows (setitem c v d) = nrows d.
Proof. unfold nrows, setitem. cbn [rows]. apply length_map. Qed.

Lemma dropna_nrows (d : DataFrame) : (nrows (dropna d) <= nrows d)%nat.
Proof. unfold nrows, dropna. cbn [rows with_rows]. apply filter_length_le. Qed.

Lemma sort_index_nrows (d : DataFrame) : nrows (sort_index d) = nrows d.
Proof.
  unfold nrows, sort_index. cbn [rows with_rows].
  symmetry. apply Permutation_length, isort_Permutation.
Qed.

(** Step 6 adds no row. *)
Lemma step6_frame_nrows (d d' : DataFrame) :
  step6_frame d = Ok d' -> (nrows d' <= nrows d)%nat.
Proof.
  unfold step6_frame. cbv zeta. intros H.
  destruct (reset_index d) as [d1|] eqn:E1; cbn [rbind] in H; [|discriminate].
  destruct (step6_another_df d1) as [a|]; cbn [rbind] in H; [|discriminate].
  destruct (set_index [Index] _) as [d3|] eqn:E3; cbn [rbind] in H; [|discriminate].
  destruct (update d3 a) as [d4|] eqn:E4; cbn [rbind] in H; [|discriminate].
  destruct (set_index [Lkid; Date] (dropna d4)) as [d5|] eqn:E5; cbn [rbind] in H;
    [|discriminate].
  apply reset_index_nrows in H, E1. apply set_index_nrows in E3, E5.
  apply update_nrows in E4. rewrite sort_index_nrows in H.
  rewrite !setitem_nrows in E3. pose proof (dropna_nrows d4). lia.
Qed.

Lemma call_valid (w : world) (o : obj) (executor : Executor) :
  call_of_df_task w o executor -> valid w o.
Proof. intros [H _]; exact H. Qed.

Lemma implements_step1 (P : DataFrame -> Prop) :
  implements P (mkTask "step1_create_pk" (without_executor step1_create_pk))
             step1_frame.
Proof.
  intros w o executor Hc _. apply step1_run. eapply call_valid; eauto.
Qed.

Lemma implements_step2 (P : DataFrame -> Prop) (to_datetime : string -> result Z) :
  implements P
    (mkTask "step2_sector_pal_date"
            (without_executor (step2_sector_pal_date to_datetime)))
    (step2_frame to_datetime).
Proof.
  intros w o executor Hc _.
  apply (step2_run to_datetime). eapply call_valid; eauto.
Qed.

Lemma implements_step3 (P : DataFrame -> Prop) :
  implements P (mkTask "step3_impute_ticker" (without_executor step3_impute_ticker))
             step3_frame.
Proof.
  intros w o executor Hc _. apply step3_run. eapply call_valid; eauto.
Qed.

Lemma implements_step4 (P : DataFrame -> Prop) :
  implements P (mkTask "step4_compute_open_liq" step4_compute_open_liq)
             step4_frame.
Proof. intros w o executor Hc _. apply step4_run. exact Hc. Qed.

Lemma implements_step5 (n : nat) :
  implements (pk_ok n) (mkTask "step5_compute_fund_value" step5_compute_fund_value)
             step5_frame.
Proof.
  intros w o executor Hc Hpk. apply step5_run; [exact Hc|].
  eapply pk_ok_labelled; eauto.
Qed.

Lemma implements_step6 (P : DataFrame -> Prop) :
  implements P (mkTask "step6_agg_daily" (without_executor step6_agg_daily))
             step6_frame.
Proof.
  intros w o executor Hc _. apply step6_run. eapply call_valid; eauto.
Qed.

Lemma pk_is_index_nrows (n : nat) (d : DataFrame) :
  pk_is_index n d -> nrows d = n.
Proof.
  intros [_ H]. unfold nrows, positions in *.
  apply (f_equal (@List.length _)) in H.
  rewrite !length_map, length_seq in H. exact H.
Qed.

(** The first [k] stages implement the first [k] frame functions, and
    deliver frames that satisfy the invariant of stage [k]. *)
Lemma pipeline_prefix (to_datetime : string -> result Z) (n k : nat) :
  (k <= 6)%nat ->
  pipeline_of (csv_frame n)
    (firstn k (PIPELINE_STEPS to_datetime))
    (firstn k (PIPELINE_FRAMES to_datetime))
    (stage_invariant n k).
Proof.
  intros Hk.
  assert (H1 : forall d d', csv_frame n d -> step1_frame d = Ok d' -> pk_ok n d')
    by (intros; eapply step1_frame_pk; eauto).
  assert (H2 : forall d d', pk_ok n d -> step2_frame to_datetime d = Ok d' ->
                            pk_ok n d')
    by (intros; eapply step2_frame_pk; eauto).
  assert (H3 : forall d d', pk_ok n d -> step3_frame d = Ok d' -> pk_ok n d')
    by (intros; eapply step3_frame_pk; eauto).
  assert (H4 : forall d d', pk_ok n d -> step4_frame d = Ok d' -> pk_ok n d')
    by (intros; eapply step4_frame_pk; eauto).
  assert (H5 : forall d d', pk_ok n d -> step5_frame d = Ok d' -> pk_is_index n d')
    by (intros; eapply step5_frame_pk; eauto).
  assert (H6 : forall d d', pk_is_index n d -> step6_frame d = Ok d' ->
                            (nrows d' <= n)%nat).
  { intros d d' Hd H. apply step6_frame_nrows in H.
    rewrite (pk_is_index_nrows _ _ Hd) in H. exact H. }
  destruct k as [|[|[|[|[|[|[|k]]]]]]]; try lia;
    cbn [firstn PIPELINE_STEPS PIPELINE_FRAMES stage_invariant];
    repeat first
      [ apply pipeline_nil
      | eapply pipeline_cons;
        [ first [ apply implements_step1 | apply implements_step2
                | apply implements_step3 | apply implements_step4
                | apply implements_step5 | apply implements_step6 ]
        | first [ exact H1 | exact H2 | exact H3 | exact H4 | exact H5 | exact H6 ]
        | ] ].
Qed.

Lemma run_prefix_frame (to_datetime : string -> result Z) (eager : bool)
  (n k : nat) (input : DataFrame) :
  (k <= 6)%nat -> csv_frame n input ->
  match frames (firstn k (PIPELINE_FRAMES to_datetime)) input with
  | Ok d' =>
      exists e' w',
        run (firstn k (PIPELINE_STEPS to_datetime)) (mkExecutor O eager)
            (initial_world input) = (Val e', w') /\
        deref w' (df e') = d' /\ stage_invariant n k d'
  | Raise e =>
      exists w',
        run (firstn k (PIPELINE_STEPS to_datetime)) (mkExecutor O eager)
            (initial_world input) = (Exn e, w')
  end.
Proof.
  intros Hk Hin.
  pose proof (run_frames _ _ _ _ (pipeline_prefix to_datetime n k Hk)
                (mkExecutor O eager) (initial_world input)) as H.
  cbn [df _df] in H.
  assert (Hv : valid (initial_world input) O).
  { unfold valid, initial_world. cbn. lia. }
  specialize (H Hv Hin).
  change (deref (initial_world input) O) with input in H.
  destruct (frames (firstn k (PIPELINE_FRAMES to_datetime)) input) as [d'|e].
  - destruct H as [e' [w' [Hrun [_ [Hd [_ HQ]]]]]]. exists e', w'. auto.
  - exact H.
Qed.






(** C10 as stated fails: on the two-day blotter with a column named
    ["index"] that holds 1 and 0, both modes complete and end with
    different frames.  Step 1 calls its key ["level_0"], and steps 4 to 6
    take the ["index"] of the file for the key; in copy mode step 5 merges
    the groups of the executor's frame, labelled by position, into a frame
    labelled by that column, so the rows receive each other's values. *)
Lemma modes_differ_counterexample : ~ modes_agree iso_date blotter_indexed.
Proof.
  intros H.
  destruct (blottercli iso_date true blotter_indexed) as [[d|e] w] eqn:E1;
    [|vm_compute in E1; discriminate E1].
  destruct (blottercli iso_date false blotter_indexed) as [[d'|e] w'] eqn:E2;
    [|vm_compute in E2; discriminate E2].
  specialize (H d w d' w' E1 E2). subst d'.
  vm_compute in E1, E2. injection E1 as Ed _. injection E2 as Ed' _.
  rewrite <- Ed in Ed'. discriminate Ed'.
Qed.

(** C10, amended. On every frame as [read_csv] delivers it that has no
    column named ["index"], the run in in-place
    (eager) mode and the run in copy mode end alike: either both complete,
    with equal final frames (the same index, columns, rows and values), or
    both raise the same exception. *)
Theorem eager_and_copy_agree :
  forall (to_datetime : string -> result Z) (n : nat) (input : DataFrame),
    csv_frame n input ->
    fst (blottercli to_datetime true input)
    = fst (blottercli to_datetime false input).
Proof.
  intros to_datetime n input Hin. unfold blottercli.
  pose proof (run_prefix_frame to_datetime true n 6 input ltac:(lia) Hin) as H1.
  pose proof (run_prefix_frame to_datetime false n 6 input ltac:(lia) Hin) as H2.
  change (firstn 6 (PIPELINE_STEPS to_datetime))
    with (PIPELINE_STEPS to_datetime) in H1, H2.
  destruct (frames (firstn 6 (PIPELINE_FRAMES to_datetime)) input) as [d'|e].
  - destruct H1 as [e1 [w1 [-> [Hd1 _]]]]. destruct H2 as [e2 [w2 [-> [Hd2 _]]]].
    cbn [fst]. congruence.
  - destruct H1 as [w1 ->]. destruct H2 as [w2 ->]. reflexivity.
Qed.

Lemma eager_and_copy_agree_witness :
  fst (blottercli iso_date true blotter_two_days)
  = fst (blottercli iso_date false blotter_two_days).
Proof.
  apply (eager_and_copy_agree iso_date 2 blotter_two_days).
  unfold csv_frame, blotter_two_days. do 2 eexists.
  split; [reflexivity|]. split; reflexivity.
Defined.

(** The run on the two-day blotter completes in copy mode (and so in
    eager mode), with the returns 10/80 and -5/85 of the example of the
    specification. *)
Example blottercli_two_days :
  match fst (blottercli iso_date false blotter_two_days) with
  | Val d => map (fun lr => (cell Date (snd lr), cell Return (snd lr))) (rows d)
  | Exn _ => []
  end
  = [ (VDate 19723, VDec (Dec.mk false 125 (-3)));
      (VDate 19724, VDec (Dec.mk true 5882352941176470588235294118 (-29))) ].
Proof. vm_compute. reflexivity. Qed.

(* ================================================================== *)
(** * Step 6 *)
(* ================================================================== *)

(** C5 fails on the blotter with two trades of one position on the first
    day: two distinct (date, lkid) pairs enter step 6, and step 6
    completes with a single row.  [another_df] keeps its default index, so
    [update] gives the aggregates of the group number [i] to the row with
    the primary key [i]; the second trade of the first day (primary key 1)
    has no [open_liq] since step 4 and is dropped together with the
    aggregates of the second day. *)
Theorem step6_loses_group :
  List.length (group_keys [Date; Lkid] (deref (world_after 5 blotter_collision) O))
  = 2%nat /\
  exists w',
    step6_agg_daily O (world_after 5 blotter_collision) = (Val O, w') /\
    map (fun lr => (cell Date (snd lr), cell Lkid (snd lr))) (rows (deref w' O))
    = [ (VDate 19723, VStr "A") ].
Proof.
  split; [vm_compute; reflexivity|].
  eexists. split; [vm_compute; reflexivity|].
  vm_compute. reflexivity.
Qed.

(** ** The order of the values of one column *)

Lemma String_compare_OT (a b : string) :
  String.compare a b = OrdersEx.String_as_OT.compare a b.
Proof.
  revert b. induction a as [|x a IH]; intros [|y b]; simpl; reflexivity.
Qed.

Lemma String_leb_trans (a b c : string) :
  String.leb a b = true -> String.leb b c = true -> String.leb a c = true.
Proof.
  unfold String.leb. intros H1 H2.
  destruct (String.compare a b) eqn:Eab; [| |discriminate].
  - apply String.compare_eq_iff in Eab. subst b. exact H2.
  - destruct (String.compare b c) eqn:Ebc; [| |discriminate].
    + apply String.compare_eq_iff in Ebc. subst c. rewrite Eab. reflexivity.
    + rewrite String_compare_OT in Eab, Ebc.
      rewrite String_compare_OT.
      rewrite (StrictOrder_Transitive (R := OrdersEx.String_as_OT.lt) a b c Eab Ebc).
      reflexivity.
Qed.

Lemma value_leb_str_total (a b : value) :
  is_str a = true -> is_str b = true ->
  value_leb a b = true \/ value_leb b a = true.
Proof.
  destruct a, b; try discriminate. intros _ _. apply String.leb_total.
Qed.

Lemma value_leb_str_trans (a b c : value) :
  is_str a = true -> is_str b = true -> is_str c = true ->
  value_leb a b = true -> value_leb b c = true -> value_leb a c = true.
Proof.
  destruct a, b, c; try discriminate. intros _ _ _. apply String_leb_trans.
Qed.

Lemma value_leb_cat_total (a b : value) :
  is_cat a = true -> is_cat b = true ->
  value_leb a b = true \/ value_leb b a = true.
Proof.
  destruct a, b; try discriminate. intros _ _. simpl.
  rewrite !Nat.leb_le. lia.
Qed.

Lemma value_leb_cat_trans (a b c : value) :
  is_cat a = true -> is_cat b = true -> is_cat c = true ->
  value_leb a b = true -> value_leb b c = true -> value_leb a c = true.
Proof.
  destruct a, b, c; try discriminate. intros _ _ _. simpl.
  rewrite !Nat.leb_le. lia.
Qed.

(** [Series.min] on a column whose values are of one kind [P], totally
    ordered by [value_leb]. *)
Section Least.
Variable P : value -> bool.
Hypothesis P_not_na : forall v, P v = true -> isna v = false.
Hypothesis P_total : forall a b,
  P a = true -> P b = true -> value_leb a b = true \/ value_leb b a = true.
Hypothesis P_trans : forall a b c,
  P a = true -> P b = true -> P c = true ->
  value_leb a b = true -> value_leb b c = true -> value_leb a c = true.

Lemma series_min_fold (s : Series) :
  (forall lv, In lv s -> P (snd lv) = true) ->
  forall acc, P acc = true ->
  let m := fold_left (fun acc lv =>
                        if isna (snd lv) then acc
                        else if isna acc then snd lv
                        else if value_leb acc (snd lv) then acc else snd lv)
                     s acc in
  P m = true /\ (m = acc \/ In m (map snd s)) /\
  value_leb m acc = true /\
  forall u, In u (map snd s) -> value_leb m u = true.
Proof.
  induction s as [|[l v] s IH]; intros Hs acc Hacc; cbn [fold_left map snd].
  - split; [exact Hacc|]. split; [left; reflexivity|].
    split; [destruct (P_total acc acc Hacc Hacc); assumption | intros u []].
  - assert (Hv : P v = true) by (apply (Hs (l, v)); left; reflexivity).
    rewrite (P_not_na v Hv), (P_not_na acc Hacc).
    assert (Hs' : forall lv, In lv s -> P (snd lv) = true)
      by (intros lv Hin; apply Hs; right; exact Hin).
    destruct (value_leb acc v) eqn:E.
    + destruct (IH Hs' acc Hacc) as [Pm [Hin [Hle Hall]]].
      cbv zeta in *. split; [exact Pm|]. split; [|split; [exact Hle|]].
      * destruct Hin as [->|Hin]; [left; reflexivity | right; right; exact Hin].
      * intros u [<-|Hu]; [|apply Hall; exact Hu].
        apply (P_trans _ acc _ Pm Hacc Hv Hle E).
    + assert (E' : value_leb v acc = true)
        by (destruct (P_total acc v Hacc Hv) as [H|H]; [congruence | exact H]).
      destruct (IH Hs' v Hv) as [Pm [Hin [Hle Hall]]].
      cbv zeta in *. split; [exact Pm|]. split; [|split].
      * destruct Hin as [->|Hin]; [right; left; reflexivity | right; right; exact Hin].
      * apply (P_trans _ v _ Pm Hv Hacc Hle E').
      * intros u [<-|Hu]; [exact Hle | apply Hall; exact Hu].
Qed.

Lemma series_min_least (s : Series) :
  s <> [] -> (forall lv, In lv s -> P (snd lv) = true) ->
  P (series_min s) = true /\ least (series_min s) (map snd s).
Proof.
  destruct s as [|[l v] s]; [congruence|]. intros _ Hs.
  assert (Hv : P v = true) by (apply (Hs (l, v)); left; reflexivity).
  unfold series_min. cbn [fold_left snd isna]. rewrite (P_not_na v Hv).
  destruct (series_min_fold s (fun lv Hin => Hs lv (or_intror Hin)) v Hv)
    as [Pm [Hin [Hle Hall]]].
  cbv zeta in *. split; [exact Pm|]. split.
  - cbn [map snd]. destruct Hin as [->|Hin]; [left; reflexivity | right; exact Hin].
  - cbn [map snd]. intros u [<-|Hu]; [exact Hle | apply Hall; exact Hu].
Qed.
End Least.

(** ** The frames of step 6 *)

Lemma range_index_In {A} (s : Z) (l : list A) (x : label * A) :
  In x (range_index s l) -> In (snd x) l.
Proof.
  revert s. induction l as [|y l IH]; simpl; intros s H; [exact H|].
  destruct H as [<-|H]; [left; reflexivity | right; eapply IH; exact H].
Qed.

Lemma range_index_snd {A} (s : Z) (l : list A) : map snd (range_index s l) = l.
Proof.
  revert s. induction l as [|y l IH]; simpl; intros s; [reflexivity|].
  rewrite IH. reflexivity.
Qed.

Lemma range_index_NoDup {A} (l : list A) :
  NoDup (map fst (range_index 0 l)).
Proof.
  change 0 with (Z.of_nat 0).
  rewrite (range_index_labels 0 l), map_map.
  apply NoDup_map_inj_on; [|apply seq_NoDup].
  intros x y _ _ H. injection H. lia.
Qed.

Lemma range_index_relabel {A B} (f : label * A -> B) (rs : list (label * A))
  (a : nat) :
  map fst rs = map (fun i => [VInt i]) (map Z.of_nat (seq a (List.length rs))) ->
  range_index (Z.of_nat a) (map f rs) = map (fun lr => (fst lr, f lr)) rs.
Proof.
  revert a. induction rs as [|[l r] rs IH]; intros a H; simpl in *.
  - reflexivity.
  - injection H as Hl Ht. subst l. f_equal.
    replace (Z.of_nat a + 1) with (Z.of_nat (S a)) by lia. apply IH. exact Ht.
Qed.

Lemma pk_label (n : nat) (d : DataFrame) (lr : label * row) :
  pk_is_index n d -> In lr (rows d) -> exists i, fst lr = [VInt i].
Proof.
  intros [_ Hl] Hin.
  assert (H : In (fst lr) (map fst (rows d))) by (apply in_map; exact Hin).
  rewrite Hl in H. apply in_map_iff in H. destruct H as [i [<- _]].
  exists i. reflexivity.
Qed.

(** The first statement of step 6: the primary key goes back into the
    ["index"] column, and the default index that the frame gets equals the
    primary key. *)
Lemma reset_index_pk (n : nat) (d : DataFrame) :
  pk_is_index n d -> has_column Index (columns d) = false ->
  reset_index d = Ok (mkDF [] (Index :: columns d) (map restore_pk (rows d))).
Proof.
  intros Hpk Hc. pose proof Hpk as [Hi Hl]. unfold reset_index. rewrite Hi.
  cbn [existsb nodup_columns has_column negb orb andb]. rewrite Hc.
  cbn [orb app]. f_equal. f_equal.
  change 0 with (Z.of_nat 0).
  rewrite range_index_relabel.
  - apply map_ext_in. intros lr Hin. unfold restore_pk. f_equal.
    destruct (pk_label n d lr Hpk Hin) as [i ->]. reflexivity.
  - rewrite Hl. unfold positions.
    replace (List.length (rows d)) with n; [reflexivity|].
    symmetry. apply (pk_is_index_nrows n d Hpk).
Qed.

Lemma restore_pk_key (lr : label * row) :
  key_of [Date; Lkid] (snd (restore_pk lr)) = key_of [Date; Lkid] (snd lr).
Proof. unfold restore_pk. cbn [snd]. apply key_of_set_cell. reflexivity. Qed.

Lemma series_of_restore_pk (c : column) (rs : list (label * row)) :
  c <> Index -> series_of c (map restore_pk rs) = series_of c rs.
Proof.
  intros Hc. unfold series_of. rewrite map_map. apply map_ext. intros lr.
  unfold restore_pk. cbn [fst snd]. rewrite cell_set_cell_other by exact Hc.
  reflexivity.
Qed.

Lemma sum_from_summable (l : list value) (acc : value) :
  is_dec acc = true -> Forall (fun v => summable v = true) l ->
  exists x, sum_from acc l = Ok (VDec x).
Proof.
  intros Hacc Hl. revert acc Hacc.
  induction Hl as [|v l Hv Hl IH]; intros acc Hacc; cbn [sum_from].
  - destruct acc; try discriminate. eexists; reflexivity.
  - destruct v; try discriminate; cbn [isna].
    + apply IH. exact Hacc.
    + destruct acc; try discriminate. cbn [value_add rbind]. apply IH. reflexivity.
Qed.

Lemma group_sum_summable (l : list value) :
  Forall (fun v => summable v = true) l -> exists v, group_sum l = Ok v.
Proof.
  induction 1 as [|v l Hv Hl IH]; cbn [group_sum].
  - eexists; reflexivity.
  - destruct v; try discriminate; cbn [isna].
    + exact IH.
    + destruct (sum_from_summable l (VDec d) eq_refl Hl) as [x Hx].
      eexists; exact Hx.
Qed.

Lemma agg_sum_summable (c : column) (rs : list (label * row)) :
  (forall lr, In lr rs -> summable (cell c (snd lr)) = true) ->
  exists v, agg_sum (series_of c rs) = Ok v.
Proof.
  intros H. unfold agg_sum. apply group_sum_summable.
  unfold series_of. rewrite map_map. cbn [snd].
  apply Forall_forall. intros v Hv. apply in_map_iff in Hv.
  destruct Hv as [lr [<- Hin]]. apply H. exact Hin.
Qed.

(** The row that step 6 makes of the rows of one (date, lkid) group. *)
Lemma step6_agg_row (g : DataFrame) :
  all_columns_in [Analyst; Sector; Pal; Exposure; Return; Index] (columns g) = true ->
  agg_row [(Analyst, first_alphabetical); (Sector, first_alphabetical);
           (Pal, agg_sum); (Exposure, agg_sum); (Return, agg_sum);
           (Index, get_first_index_label)] g empty_row
  = let* vp := agg_sum (series_of Pal (rows g)) in
    let* ve := agg_sum (series_of Exposure (rows g)) in
    let* vr := agg_sum (series_of Return (rows g)) in
    let* vi := get_first_index_label (series_of Index (rows g)) in
    Ok (mkRow vi VNone VNone VNone VNone
              (series_min (series_of Analyst (rows g)))
              (series_min (series_of Sector (rows g)))
              vp ve VNone vr).
Proof.
  intros H. cbn [agg_row].
  rewrite !getitem_ok by (eapply all_columns_in_In; [exact H | simpl; tauto]).
  unfold first_alphabetical. cbn [rbind].
  destruct (agg_sum (series_of Pal (rows g))) as [vp|]; cbn [rbind]; [|reflexivity].
  destruct (agg_sum (series_of Exposure (rows g))) as [ve|]; cbn [rbind];
    [|reflexivity].
  destruct (agg_sum (series_of Return (rows g))) as [vr|]; cbn [rbind];
    [|reflexivity].
  destruct (get_first_index_label (series_of Index (rows g))) as [vi|];
    cbn [rbind]; reflexivity.
Qed.

Lemma all_columns_in_cons (keys : list column) (c : column) (cols : list column) :
  all_columns_in keys cols = true -> all_columns_in keys (c :: cols) = true.
Proof.
  unfold all_columns_in. rewrite !forallb_forall. intros H x Hx.
  apply has_column_In. right. apply has_column_In. apply H. exact Hx.
Qed.

Lemma all_columns_in_sub (keys keys' cols : list column) :
  all_columns_in keys cols = true -> (forall c, In c keys' -> In c keys) ->
  all_columns_in keys' cols = true.
Proof.
  unfold all_columns_in. rewrite !forallb_forall. intros H Hs x Hx.
  apply H, Hs, Hx.
Qed.

(** The aggregates of the group [k] of a frame that enters step 6, read
    on the rows of the group before the reset. *)
Lemma step6_group_row (n : nat) (d : DataFrame) (k : label) :
  enters_step6 n d -> In k (group_keys [Date; Lkid] d) ->
  let d1 := mkDF [] (Index :: columns d) (map restore_pk (rows d)) in
  let G := group_rows [Date; Lkid] k d in
  exists vp ve vr g0 rest,
    agg_sum (series_of Pal G) = Ok vp /\
    agg_sum (series_of Exposure G) = Ok ve /\
    agg_sum (series_of Return G) = Ok vr /\
    G = g0 :: rest /\
    agg_row [(Analyst, first_alphabetical); (Sector, first_alphabetical);
             (Pal, agg_sum); (Exposure, agg_sum); (Return, agg_sum);
             (Index, get_first_index_label)]
            (with_rows d1 (group_rows [Date; Lkid] k d1)) empty_row
    = Ok (mkRow (hd VNone (fst g0)) VNone VNone VNone VNone
                (series_min (series_of Analyst G))
                (series_min (series_of Sector G))
                vp ve VNone vr).
Proof.
  intros [Hpk [Hidx [Hcols Hty]]] Hk d1 G. subst G.
  remember (group_rows [Date; Lkid] k d) as G eqn:EG.
  assert (HG : forall lr, In lr G -> In lr (rows d))
    by (intros lr Hin; rewrite EG in Hin; apply group_rows_In in Hin; tauto).
  destruct (agg_sum_summable Pal G) as [vp Hp];
    [intros lr Hin; apply (Hty lr (HG lr Hin))|].
  destruct (agg_sum_summable Exposure G) as [ve He];
    [intros lr Hin; apply (Hty lr (HG lr Hin))|].
  destruct (agg_sum_summable Return G) as [vr Hr];
    [intros lr Hin; apply (Hty lr (HG lr Hin))|].
  destruct G as [|g0 rest].
  { exfalso. apply group_keys_In in Hk. destruct Hk as [_ [lr [Hin Hkey]]].
    assert (H : In lr (group_rows [Date; Lkid] k d))
      by (apply group_rows_In; split; assumption).
    rewrite <- EG in H. exact H. }
  exists vp, ve, vr, g0, rest.
  split; [exact Hp|]. split; [exact He|]. split; [exact Hr|].
  split; [reflexivity|].
  assert (E1 : group_rows [Date; Lkid] k d1 = map restore_pk (g0 :: rest)).
  { rewrite EG. unfold d1. destruct d as [i c rs]. cbn [rows columns].
    apply (group_rows_mapped [Date; Lkid] restore_pk restore_pk_key). }
  rewrite step6_agg_row.
  - unfold with_rows. cbn [rows]. rewrite E1.
    rewrite !series_of_restore_pk by discriminate.
    rewrite Hp, He, Hr. cbn [rbind].
    assert (Hf : get_first_index_label (series_of Index (map restore_pk (g0 :: rest)))
                 = Ok (hd VNone (fst g0))).
    { destruct (pk_label n d g0 Hpk (HG g0 (or_introl eq_refl))) as [i Hi].
      unfold series_of. cbn [map get_first_index_label restore_pk fst].
      rewrite Hi. reflexivity. }
    rewrite Hf. cbn [rbind].
    rewrite !series_of_restore_pk by discriminate. reflexivity.
  - unfold with_rows, d1. cbn [columns]. apply (all_columns_in_cons _ Index) in Hcols.
    unfold all_columns_in in *. cbn [forallb] in *.
    rewrite !andb_true_iff in Hcols. rewrite !andb_true_iff.
    cbn [has_column existsb column_eqb orb]. tauto.
Qed.

Lemma group_key_pair (d : DataFrame) (k : label) :
  In k (group_keys [Date; Lkid] d) ->
  exists a b, k = [a; b] /\ isna a = false /\ isna b = false.
Proof.
  intros H. apply group_keys_In in H. destruct H as [Hna [lr [_ <-]]].
  cbn [key_of map] in *. cbn [existsb] in Hna.
  rewrite !orb_false_iff in Hna. destruct Hna as [Ha [Hb _]].
  do 2 eexists. split; [reflexivity|]. split; assumption.
Qed.

Lemma set_cells_key_other (a b : value) (r : row) (c : column) :
  c <> Date -> c <> Lkid ->
  cell c (set_cells [Date; Lkid] [a; b] r) = cell c r.
Proof.
  intros H1 H2. cbn [set_cells].
  rewrite !cell_set_cell_other by assumption. reflexivity.
Qed.

Lemma key_of_set_cells (a b : value) (r : row) :
  key_of [Date; Lkid] (set_cells [Date; Lkid] [a; b] r) = [a; b].
Proof.
  cbn [set_cells key_of map].
  rewrite cell_set_cell_other by discriminate.
  rewrite !cell_set_cell_same. reflexivity.
Qed.

Lemma Forall2_map_eq {A B C} (P : A -> B -> Prop) (f : A -> C) (g : B -> C)
  (l : list A) (l' : list B) :
  Forall2 P l l' ->
  (forall x y, In x l -> P x y -> g y = f x) ->
  map g l' = map f l.
Proof.
  induction 1 as [|x y l l' Hxy Hl IH]; intros H; cbn [map]; [reflexivity|].
  f_equal.
  - apply H; [left; reflexivity | exact Hxy].
  - apply IH. intros x' y' Hin. apply H. right. exact Hin.
Qed.

(** One entry of the aggregation of step 6: the key of a group and the
    row made of its rows. *)
Lemma step6_group_entry (n : nat) (d : DataFrame)
  (kg : label * DataFrame) (kr : label * row) :
  enters_step6 n d ->
  let d1 := mkDF [] (Index :: columns d) (map restore_pk (rows d)) in
  In kg (map (fun k => (k, with_rows d1 (group_rows [Date; Lkid] k d1)))
             (group_keys [Date; Lkid] d)) ->
  (let* r := agg_row [(Analyst, first_alphabetical); (Sector, first_alphabetical);
                      (Pal, agg_sum); (Exposure, agg_sum); (Return, agg_sum);
                      (Index, get_first_index_label)] (snd kg) empty_row in
   Ok (fst kg, r)) = Ok kr ->
  exists a b vp ve vr g0 rest,
    fst kg = [a; b] /\ isna a = false /\ isna b = false /\
    group_rows [Date; Lkid] [a; b] d = g0 :: rest /\
    agg_sum (series_of Pal (g0 :: rest)) = Ok vp /\
    agg_sum (series_of Exposure (g0 :: rest)) = Ok ve /\
    agg_sum (series_of Return (g0 :: rest)) = Ok vr /\
    kr = ([a; b],
          mkRow (hd VNone (fst g0)) VNone VNone VNone VNone
                (series_min (series_of Analyst (g0 :: rest)))
                (series_min (series_of Sector (g0 :: rest)))
                vp ve VNone vr).
Proof.
  intros Hd d1 Hin HF. apply in_map_iff in Hin. destruct Hin as [k [<- Hk]].
  cbn [fst snd] in *.
  destruct (group_key_pair d k Hk) as [a [b [-> [Ha Hb]]]].
  destruct (step6_group_row n d [a; b] Hd Hk)
    as [vp [ve [vr [g0 [rest [Hp [He [Hr [HG Hrow]]]]]]]]].
  rewrite HG in Hp, He, Hr, Hrow.
  fold d1 in Hrow. rewrite Hrow in HF. cbn [rbind] in HF.
  injection HF as <-.
  exists a, b, vp, ve, vr, g0, rest.
  repeat (split; [assumption || reflexivity|]). reflexivity.
Qed.

(** The aggregation of step 6 on a frame that enters it: it completes
    under the default index, with one row for every (date, lkid) group
    in the order of the group keys; the row of a group holds the key, the
    least analyst and sector and the sums over the group, and as its
    ["index"] the label of the first row of the group. *)
Lemma step6_another_df_spec (n : nat) (d : DataFrame) :
  enters_step6 n d ->
  exists another_df,
    step6_another_df (mkDF [] (Index :: columns d) (map restore_pk (rows d)))
    = Ok another_df /\
    columns another_df
    = [Date; Lkid; Analyst; Sector; Pal; Exposure; Return; Index] /\
    NoDup (map fst (rows another_df)) /\
    map (fun a => key_of [Date; Lkid] (snd a)) (rows another_df)
    = group_keys [Date; Lkid] d /\
    forall a, In a (rows another_df) ->
      exists g0 rest,
        group_rows [Date; Lkid] (key_of [Date; Lkid] (snd a)) d = g0 :: rest /\
        existsb isna (key_of [Date; Lkid] (snd a)) = false /\
        cell Index (snd a) = hd VNone (fst g0) /\
        cell Analyst (snd a) = series_min (series_of Analyst (g0 :: rest)) /\
        cell Sector (snd a) = series_min (series_of Sector (g0 :: rest)) /\
        agg_sum (series_of Pal (g0 :: rest)) = Ok (cell Pal (snd a)) /\
        agg_sum (series_of Exposure (g0 :: rest)) = Ok (cell Exposure (snd a)) /\
        agg_sum (series_of Return (g0 :: rest)) = Ok (cell Return (snd a)).
Proof.
  intros Hd. pose proof Hd as [Hpk [Hidx [Hcols Hty]]].
  set (d1 := mkDF [] (Index :: columns d) (map restore_pk (rows d))).
  unfold step6_another_df, agg, groupby.
  assert (Hk : all_columns_in [Date; Lkid] (columns d1) = true).
  { unfold d1. cbn [columns]. apply all_columns_in_cons.
    apply (all_columns_in_sub _ _ _ Hcols). simpl. tauto. }
  rewrite Hk. cbn [rbind].
  assert (Hkeys : group_keys [Date; Lkid] d1 = group_keys [Date; Lkid] d).
  { unfold d1. destruct d as [i c rs]. cbn [rows columns].
    apply (group_keys_mapped [Date; Lkid] restore_pk restore_pk_key). }
  rewrite Hkeys.
  set (spec := [(Analyst, first_alphabetical); (Sector, first_alphabetical);
                (Pal, agg_sum); (Exposure, agg_sum); (Return, agg_sum);
                (Index, get_first_index_label)]).
  set (groups := map (fun k => (k, with_rows d1 (group_rows [Date; Lkid] k d1)))
                     (group_keys [Date; Lkid] d)).
  set (F := fun kg : label * DataFrame =>
              let* r := agg_row spec (snd kg) empty_row in Ok (fst kg, r)).
  destruct (rmap_total F groups) as [rs Hrs].
  { intros kg Hin. pose proof Hin as Hin'.
    apply in_map_iff in Hin'. destruct Hin' as [k [<- Hin']].
    destruct (step6_group_row n d k Hd Hin')
      as [vp [ve [vr [g0 [rest [_ [_ [_ [_ Hrow]]]]]]]]].
    unfold F. cbn [fst snd]. fold d1 in Hrow. unfold spec. rewrite Hrow.
    eexists; reflexivity. }
  rewrite Hrs. cbn [rbind]. eexists. split; [reflexivity|].
  cbn [columns rows]. split; [reflexivity|].
  split; [apply range_index_NoDup|].
  apply rmap_Forall2 in Hrs.
  split.
  - rewrite <- (map_map snd (key_of [Date; Lkid])), range_index_snd, map_map.
    replace (group_keys [Date; Lkid] d) with (map fst groups)
      by (unfold groups; rewrite map_map; apply map_id).
    apply (Forall2_map_eq _ _ _ _ _ Hrs).
    intros kg kr Hin HF.
    destruct (step6_group_entry n d kg kr Hd Hin HF)
      as [a [b [vp [ve [vr [g0 [rest [Hfst [_ [_ [_ [_ [_ [_ ->]]]]]]]]]]]]]].
    cbn [fst snd]. rewrite key_of_set_cells. symmetry. exact Hfst.
  - intros a Ha. apply range_index_In in Ha. apply in_map_iff in Ha.
    destruct Ha as [kr [Ea Hkr]].
    destruct (Forall2_In_r _ _ _ _ Hrs Hkr) as [kg [Hin HF]].
    destruct (step6_group_entry n d kg kr Hd Hin HF)
      as [x [y [vp [ve [vr [g0 [rest [Hfst [Hx [Hy [HG [Hp [He [Hr ->]]]]]]]]]]]]]].
    cbn [fst snd] in Ea. rewrite <- Ea. rewrite key_of_set_cells.
    exists g0, rest. split; [exact HG|].
    split; [cbn [existsb]; rewrite Hx, Hy; reflexivity|].
    rewrite !set_cells_key_other by discriminate.
    repeat split; assumption.
Qed.



Lemma update_row_same (cols : list column) (that this : row) (c : column) :
  has_column c cols = true -> isna (cell c that) = false ->
  cell c (update_row cols that this) = cell c that.
Proof.
  intros Hc Hna. revert this Hc.
  induction cols as [|x cols IH]; intros this Hc; [discriminate|].
  change (update_row (x :: cols) that this)
    with (update_row cols that
            (if isna (cell x that) then this
             else set_cell x (cell x that) this)).
  destruct (has_column c cols) eqn:E; [apply IH; reflexivity|].
  rewrite update_row_other by exact E.
  unfold has_column in Hc, E. cbn [existsb] in Hc. rewrite E in Hc.
  rewrite orb_false_r in Hc. apply column_eqb_eq in Hc. subst x.
  rewrite Hna. apply cell_set_cell_same.
Qed.

Lemma restore_cleared_key (r : row) :
  set_cells [Lkid; Date] [cell Lkid r; cell Date r] (clear_cells [Lkid; Date] r)
  = r.
Proof. destruct r; reflexivity. Qed.

Lemma map_snd_series_of (c : column) (rs : list (label * row)) :
  map snd (series_of c rs) = values_of c rs.
Proof. unfold series_of, values_of. rewrite map_map. reflexivity. Qed.


Lemma setitem_present (c : column) (v : value) (d : DataFrame) :
  has_column c (columns d) = true ->
  setitem c v d
  = mkDF (index_names d) (columns d)
         (map (fun lr => (fst lr, set_cell c v (snd lr))) (rows d)).
Proof. unfold setitem. intros ->. reflexivity. Qed.

Lemma has_column_filter (c : column) (p : column -> bool) (cols : list column) :
  has_column c (filter p cols) = has_column c cols && p c.
Proof.
  apply Bool.eq_iff_eq_true.
  rewrite andb_true_iff, !has_column_In, filter_In. tauto.
Qed.

Lemma is_str_not_na (v : value) : is_str v = true -> isna v = false.
Proof. destruct v; try discriminate; reflexivity. Qed.

Lemma is_cat_not_na (v : value) : is_cat v = true -> isna v = false.
Proof. destruct v; try discriminate; reflexivity. Qed.




(** The aggregation of step 6 on the blotter with two trades on the first
    day.  The group of the first day has the representative row index 0
    and the sums 3 + 2 and 30 + 20 of the values that enter step 6 (step 4
    has written the sums 1 + 2 and 10 + 20 of the day into the row of
    the first trade); the group of the second day has the representative
    row index 2. *)
Example step6_another_df_collision :
  option_map
    (fun a => map (fun lr => (fst lr, cell Index (snd lr), cell Date (snd lr),
                              cell Pal (snd lr), cell Exposure (snd lr)))
                  (rows a))
    (match (let* d1 := reset_index (deref (world_after 5 blotter_collision) O) in
            step6_another_df d1) with
     | Ok a => Some a
     | Raise _ => None
     end)
  = Some [ ([VInt 0], VInt 0, VDate 19723,
            VDec (Dec.mk false 5 0), VDec (Dec.mk false 50 0));
           ([VInt 1], VInt 2, VDate 19724,
            VDec (Dec.mk false 3 0), VDec (Dec.mk false 30 0)) ].
Proof. vm_compute. reflexivity. Qed.

(* ================================================================== *)
(** * The store: what the stages touch *)
(* ================================================================== *)

Lemma touches_only_ret {A} (o : obj) (a : A) : touches_only o (ret a).
Proof. intros w. split; [reflexivity | intros; reflexivity]. Qed.

Lemma touches_only_raise {A} (o : obj) (e : exn) : touches_only o (@raise A e).
Proof. intros w. split; [reflexivity | intros; reflexivity]. Qed.

Lemma touches_only_lift {A} (o : obj) (r : result A) : touches_only o (lift r).
Proof.
  destruct r; [apply touches_only_ret | apply touches_only_raise].
Qed.

Lemma touches_only_read (o o1 : obj) : touches_only o (read o1).
Proof. intros w. split; [reflexivity | intros; reflexivity]. Qed.

Lemma touches_only_write (o : obj) (d : DataFrame) : touches_only o (write o d).
Proof.
  intros w. unfold write. cbn [snd objects]. split.
  - apply replace_nth_length.
  - intros o' Ho. unfold deref. cbn [objects].
    apply nth_replace_nth_other. congruence.
Qed.

Lemma touches_only_bind {A B} (o : obj) (m : M A) (f : A -> M B) :
  touches_only o m -> (forall a, touches_only o (f a)) ->
  touches_only o (bind m f).
Proof.
  intros Hm Hf w. unfold bind. specialize (Hm w).
  destruct (m w) as [[a|e] w1]; cbn [snd] in *.
  - destruct (Hf a w1) as [Hl Hd]. destruct Hm as [Hl1 Hd1]. split.
    + congruence.
    + intros o' Ho. rewrite (Hd o' Ho). apply Hd1. exact Ho.
  - exact Hm.
Qed.

Lemma touches_only_modify (o : obj) (f : DataFrame -> DataFrame) :
  touches_only o (modify o f).
Proof.
  unfold modify. apply touches_only_bind; [apply touches_only_read|].
  intros d. apply touches_only_write.
Qed.

Lemma touches_only_modifyR (o : obj) (f : DataFrame -> result DataFrame) :
  touches_only o (modifyR o f).
Proof.
  unfold modifyR. apply touches_only_bind; [apply touches_only_read|].
  intros d. apply touches_only_bind; [apply touches_only_lift|].
  intros d'. apply touches_only_write.
Qed.

Lemma touches_only_for_each {A} (o : obj) (body : A -> M unit) (l : list A) :
  (forall x, touches_only o (body x)) -> touches_only o (for_each l body).
Proof.
  intros H. induction l as [|x l IH]; cbn [for_each].
  - apply touches_only_ret.
  - apply touches_only_bind; [apply H | intros _; exact IH].
Qed.

Lemma touches_only_Executor_groupby (o : obj) (executor : Executor)
  (keys : list column) :
  touches_only o (Executor_groupby executor keys).
Proof.
  unfold Executor_groupby. apply touches_only_bind; [apply touches_only_read|].
  intros d. apply touches_only_lift.
Qed.

Ltac touches :=
  repeat first
    [ apply touches_only_ret
    | apply touches_only_raise
    | apply touches_only_lift
    | apply touches_only_read
    | apply touches_only_modify
    | apply touches_only_modifyR
    | apply touches_only_Executor_groupby
    | apply touches_only_for_each; intros ?
    | apply touches_only_bind; [|intros ?]
    | match goal with |- touches_only _ (if ?b then _ else _) => destruct b end ].

Lemma pipeline_steps_touch (to_datetime : string -> result Z) :
  Forall task_touches_argument (PIPELINE_STEPS to_datetime).
Proof.
  unfold PIPELINE_STEPS.
  repeat (apply Forall_cons; [intros o executor; cbn [func without_executor]|]);
    [ | | | | | | apply Forall_nil].
  - unfold step1_create_pk. touches.
  - unfold step2_sector_pal_date. touches.
  - unfold step3_impute_ticker. touches.
  - unfold step4_compute_open_liq. touches.
  - unfold step5_compute_fund_value. touches.
  - unfold step6_agg_daily. touches.
Qed.

Lemma df_task_copy_keeps (f : Task) (d : obj) (executor : Executor) (w : world) :
  task_touches_argument f ->
  List.length (objects (snd (df_task f d executor false w)))
  = S (List.length (objects w)) /\
  forall o', (o' < List.length (objects w))%nat ->
             deref (snd (df_task f d executor false w)) o' = deref w o'.
Proof.
  intros Hf. rewrite df_task_copy.
  destruct (Hf (List.length (objects w)) executor
               (mkWorld (objects w ++ [deref w d]) (trace w ++ [task_name f])))
    as [Hl Hd].
  cbn [objects] in Hl. rewrite length_app in Hl. cbn [List.length] in Hl.
  split; [lia|].
  intros o' Ho. rewrite Hd by lia. unfold deref. cbn [objects].
  apply app_nth1. exact Ho.
Qed.

Lemma df_task_eager_keeps (f : Task) (d : obj) (executor : Executor) (w : world) :
  task_touches_argument f ->
  List.length (objects (snd (df_task f d executor true w)))
  = List.length (objects w) /\
  forall o', o' <> d -> deref (snd (df_task f d executor true w)) o' = deref w o'.
Proof.
  intros Hf. rewrite df_task_eager.
  destruct (Hf d executor (mkWorld (objects w) (trace w ++ [task_name f])))
    as [Hl Hd].
  destruct (func f d executor _) as [[r|e] w1]; cbn [snd] in *.
  - destruct (negb (Nat.eqb r d)); cbn [snd]; split; assumption.
  - split; assumption.
Qed.

Lemma run_copy_keeps (steps : list Task) :
  Forall task_touches_argument steps ->
  forall (executor : Executor) (w : world),
    is_eager executor = false ->
    (List.length (objects w) <= List.length (objects (snd (run steps executor w))))%nat /\
    forall o', (o' < List.length (objects w))%nat ->
               deref (snd (run steps executor w)) o' = deref w o'.
Proof.
  induction 1 as [|s steps Hs Hsteps IH]; intros executor w He.
  - cbn [run ret snd]. split; [lia | reflexivity].
  - rewrite run_cons. unfold transform. rewrite He.
    destruct (df_task_copy_keeps s (df executor) executor w Hs) as [Hl Hd].
    destruct (df_task s (df executor) executor false w) as [[d|e] w1];
      cbn [snd] in *.
    + destruct (IH (update_df executor d) w1 He) as [Hl2 Hd2]. split; [lia|].
      intros o' Ho. rewrite Hd2 by lia. apply Hd. exact Ho.
    + split; [lia | exact Hd].
Qed.

Lemma run_eager_keeps (steps : list Task) :
  Forall task_touches_argument steps ->
  forall (executor : Executor) (w : world),
    is_eager executor = true ->
    List.length (objects (snd (run steps executor w))) = List.length (objects w) /\
    forall o', o' <> df executor ->
               deref (snd (run steps executor w)) o' = deref w o'.
Proof.
  induction 1 as [|s steps Hs Hsteps IH]; intros executor w He.
  - cbn [run ret snd]. split; reflexivity.
  - rewrite run_cons. unfold transform. rewrite He.
    destruct (df_task_eager_keeps s (df executor) executor w Hs) as [Hl Hd].
    destruct (df_task s (df executor) executor true w) as [[d|e] w1];
      cbn [snd] in *.
    + destruct (IH executor w1 He) as [Hl2 Hd2]. split; [congruence|].
      intros o' Ho. rewrite Hd2 by exact Ho. apply Hd. exact Ho.
    + split; assumption.
Qed.

(** X1. In copy mode the run of the six stages never modifies a frame
    that exists when it starts, whether it completes or raises: every
    stage works on a copy, and the stages touch their argument only. *)
Theorem copy_mode_keeps_frames :
  forall (to_datetime : string -> result Z) (executor : Executor) (w : world)
         (o' : obj),
    is_eager executor = false ->
    (o' < List.length (objects w))%nat ->
    deref (snd (run (PIPELINE_STEPS to_datetime) executor w)) o' = deref w o'.
Proof.
  intros to_datetime executor w o' He Ho.
  apply (run_copy_keeps _ (pipeline_steps_touch to_datetime) executor w He).
  exact Ho.
Qed.

Lemma copy_mode_keeps_frames_witness :
  deref (snd (run (PIPELINE_STEPS iso_date) (mkExecutor O false)
                  (initial_world blotter_two_days))) O
  = deref (initial_world blotter_two_days) O.
Proof.
  apply (copy_mode_keeps_frames iso_date (mkExecutor O false)
           (initial_world blotter_two_days) O).
  - reflexivity.
  - simpl. lia.
Defined.

(** X2. In in-place (eager) mode the run of the six stages creates no
    frame and modifies no frame but the one of the executor, whether it
    completes or raises; when it completes, the executor still refers to
    the frame it started with. *)
Theorem eager_mode_in_place :
  forall (to_datetime : string -> result Z) (executor : Executor) (w : world),
    is_eager executor = true ->
    List.length (objects (snd (run (PIPELINE_STEPS to_datetime) executor w)))
    = List.length (objects w) /\
    (forall o', o' <> df executor ->
       deref (snd (run (PIPELINE_STEPS to_datetime) executor w)) o' = deref w o') /\
    (forall e1, fst (run (PIPELINE_STEPS to_datetime) executor w) = Val e1 ->
                e1 = executor).
Proof.
  intros to_datetime executor w He.
  destruct (run_eager_keeps _ (pipeline_steps_touch to_datetime) executor w He)
    as [Hl Hd].
  split; [exact Hl|]. split; [exact Hd|].
  intros e1 H1.
  destruct (run (PIPELINE_STEPS to_datetime) executor w) as [r w1] eqn:E.
  cbn [fst] in H1. subst r.
  apply (run_eager_executor _ _ _ _ _ He E).
Qed.

Lemma eager_mode_in_place_witness :
  List.length (objects (snd (run (PIPELINE_STEPS iso_date) (mkExecutor O true)
                                 (initial_world blotter_two_days))))
  = List.length (objects (initial_world blotter_two_days)) /\
  (forall o', o' <> df (mkExecutor O true) ->
     deref (snd (run (PIPELINE_STEPS iso_date) (mkExecutor O true)
                     (initial_world blotter_two_days))) o'
     = deref (initial_world blotter_two_days) o') /\
  (forall e1, fst (run (PIPELINE_STEPS iso_date) (mkExecutor O true)
                       (initial_world blotter_two_days)) = Val e1 ->
              e1 = mkExecutor O true).
Proof.
  apply (eager_mode_in_place iso_date (mkExecutor O true)
           (initial_world blotter_two_days)).
  reflexivity.
Defined.

(** X3. [Pipeline.run] is fail-fast in both modes: when a stage raises,
    the run ends with that exception and with the store as the stage left
    it (nothing is rolled back), whatever stages follow. *)
Theorem run_fail_fast :
  forall (pre post : list Task) (s : Task) (executor e1 : Executor)
         (w w1 w2 : world) (e : exn),
    run pre executor w = (Val e1, w1) ->
    transform e1 s w1 = (Exn e, w2) ->
    run (pre ++ s :: post) executor w = (Exn e, w2).
Proof.
  intros pre post s executor e1 w w1 w2 e Hpre Hs.
  rewrite run_app, Hpre, run_cons, Hs. reflexivity.
Qed.

Lemma run_fail_fast_witness :
  run (firstn 4 (PIPELINE_STEPS iso_date)
         ++ mkTask "step5_compute_fund_value" step5_compute_fund_value
         :: [mkTask "step6_agg_daily" (without_executor step6_agg_daily)])
      (mkExecutor O true) (initial_world blotter_zero_fund)
  = (Exn DivisionByZero,
     snd (transform (mkExecutor O true)
            (mkTask "step5_compute_fund_value" step5_compute_fund_value)
            (world_after 4 blotter_zero_fund))).
Proof.
  apply (run_fail_fast (firstn 4 (PIPELINE_STEPS iso_date))
           [mkTask "step6_agg_daily" (without_executor step6_agg_daily)]
           (mkTask "step5_compute_fund_value" step5_compute_fund_value)
           (mkExecutor O true) (mkExecutor O true)
           (initial_world blotter_zero_fund)
           (world_after 4 blotter_zero_fund)).
  - vm_compute. reflexivity.
  - vm_compute. reflexivity.
Defined.

(* ================================================================== *)
(** * Step 2: the rename of the categories *)
(* ================================================================== *)

Lemma dedup_strings_In (x : string) (l : list string) :
  In x (dedup_strings l) <-> In x l.
Proof.
  induction l as [|y l IH]; cbn [dedup_strings]; [tauto|].
  destruct (existsb (String.eqb y) (dedup_strings l)) eqn:E.
  - rewrite IH. split; [right; assumption|].
    intros [<-|H]; [|exact H].
    apply existsb_exists in E. destruct E as [z [Hz Ez]].
    apply String.eqb_eq in Ez. subst z. apply IH. exact Hz.
  - cbn [In]. rewrite IH. tauto.
Qed.

Lemma nodup_strings_collision (f : string -> string) (a b : string)
  (l : list string) :
  In a l -> In b l -> a <> b -> f a = f b ->
  nodup_strings (map f l) = false.
Proof.
  intros Ha Hb Hab Hf. induction l as [|x l IH]; [destruct Ha|].
  cbn [map nodup_strings].
  destruct (existsb (String.eqb (f x)) (map f l)) eqn:E; [reflexivity|].
  cbn [negb andb].
  assert (Hx : forall y, In y l -> f y <> f x).
  { intros y Hy Hyx.
    assert (H : existsb (String.eqb (f x)) (map f l) = true).
    { apply existsb_exists. exists (f y). split; [apply in_map; exact Hy|].
      apply String.eqb_eq. symmetry. exact Hyx. }
    congruence. }
  destruct Ha as [<-|Ha], Hb as [<-|Hb].
  - congruence.
  - exfalso. apply (Hx b Hb). symmetry. exact Hf.
  - exfalso. apply (Hx a Ha). exact Hf.
  - apply IH; assumption.
Qed.

Lemma astype_ordered_category_strings (c : column) (d : DataFrame) :
  has_column c (columns d) = true ->
  (forall lr, In lr (rows d) -> is_str_or_na (cell c (snd lr)) = true) ->
  exists d1,
    astype_ordered_category c d = Ok d1 /\
    columns d1 = columns d /\
    column_strings c d1 = column_strings c d.
Proof.
  intros Hc Hty.
  destruct (astype_ordered_category c d) as [d1|e] eqn:E.
  - exists d1. split; [reflexivity|].
    pose proof (astype_ordered_category_rowwise c d d1 E) as R.
    unfold astype_ordered_category in E. rewrite (getitem_ok c d Hc) in E.
    cbn [rbind] in E.
    destruct (rmap _ (rows d)) as [rs|]; cbn [rbind] in E; [|discriminate].
    injection E as <-. split; [reflexivity|].
    unfold column_strings, rowwise in *. cbn [rows with_rows] in *.
    induction R as [|x y l l' [_ Hxy] _ IH]; [reflexivity|].
    cbn [flat_map]. rewrite IH by (intros lr Hin; apply Hty; right; exact Hin).
    f_equal. destruct (cell c (snd x)) eqn:Ex; try contradiction.
    + rewrite Hxy, Ex. reflexivity.
    + destruct Hxy as [i ->]. rewrite cell_set_cell_same. reflexivity.
    + destruct Hxy as [i ->]. rewrite cell_set_cell_same. reflexivity.
  - exfalso. unfold astype_ordered_category in E.
    rewrite (getitem_ok c d Hc) in E. cbn [rbind] in E.
    destruct (rmap_total
                (fun lr : label * row =>
                   match cell c (snd lr) with
                   | VNone => Ok lr
                   | VStr s | VCat _ s =>
                       Ok (fst lr,
                           set_cell c
                             (VCat (position s
                                      (isort String.leb
                                         (dedup_strings (column_strings c d)))) s)
                             (snd lr))
                   | _ => Raise TypeError
                   end) (rows d)) as [rs Hrs].
    + intros lr Hin. specialize (Hty lr Hin).
      destruct (cell c (snd lr)); try discriminate; eexists; reflexivity.
    + rewrite Hrs in E. discriminate.
Qed.

(** X4. When the sector column holds strings and both ["Technology"] and
    ["Information Technology"] occur in it, step 2 raises [ValueError]:
    the rename would give two categories the same label. *)
Theorem step2_rename_collision :
  forall (to_datetime : string -> result Z) (w : world) (o : obj),
    valid w o ->
    has_column Sector (columns (deref w o)) = true ->
    (forall lr, In lr (rows (deref w o)) ->
                is_str_or_na (cell Sector (snd lr)) = true) ->
    (exists lr, In lr (rows (deref w o)) /\
                cell Sector (snd lr) = VStr "Technology") ->
    (exists lr, In lr (rows (deref w o)) /\
                cell Sector (snd lr) = VStr "Information Technology") ->
    exists w', step2_sector_pal_date to_datetime o w = (Exn ValueError, w').
Proof.
  intros to_datetime w o Hv Hc Hty [lr1 [Hin1 H1]] [lr2 [Hin2 H2]].
  pose proof (step2_run to_datetime o w Hv) as L.
  assert (E : step2_frame to_datetime (deref w o) = Raise ValueError).
  { unfold step2_frame.
    destruct (astype_ordered_category_strings Sector (deref w o) Hc Hty)
      as [d1 [E1 [Hc1 Hs1]]].
    rewrite E1. cbn [rbind]. unfold rename_categories.
    rewrite (getitem_ok Sector d1) by (rewrite Hc1; exact Hc).
    cbn [rbind]. rewrite Hs1.
    rewrite (nodup_strings_collision rename_sector
               "Technology" "Information Technology").
    - reflexivity.
    - apply dedup_strings_In. unfold column_strings. apply in_flat_map.
      exists lr1. split; [exact Hin1|]. rewrite H1. left; reflexivity.
    - apply dedup_strings_In. unfold column_strings. apply in_flat_map.
      exists lr2. split; [exact Hin2|]. rewrite H2. left; reflexivity.
    - discriminate.
    - reflexivity. }
  rewrite E in L. exact L.
Qed.

Lemma step2_rename_collision_witness :
  exists w',
    step2_sector_pal_date iso_date O (initial_world blotter_two_sectors)
    = (Exn ValueError, w').
Proof.
  apply (step2_rename_collision iso_date (initial_world blotter_two_sectors) O).
  - unfold valid. simpl. lia.
  - reflexivity.
  - simpl. intros lr [<-|[<-|[]]]; reflexivity.
  - eexists. split; [left; reflexivity | reflexivity].
  - eexists. split; [right; left; reflexivity | reflexivity].
Defined.

(* ================================================================== *)
(** * Step 3: existing tickers *)
(* ================================================================== *)

(** X5. Step 3 leaves a frame that has a ["ticker"] column as it is, and
    it is idempotent: on the frame that a completed step 3 leaves, a
    second step 3 changes nothing. *)
Theorem step3_keeps_tickers :
  forall (w : world) (o : obj),
    valid w o ->
    (has_column Ticker (columns (deref w o)) = true ->
     step3_impute_ticker o w = (Val o, w)) /\
    (forall w1, step3_impute_ticker o w = (Val o, w1) ->
                step3_impute_ticker o w1 = (Val o, w1)).
Proof.
  intros w o Hv.
  assert (Hnoop : forall w0, valid w0 o ->
            has_column Ticker (columns (deref w0 o)) = true ->
            step3_impute_ticker o w0 = (Val o, w0)).
  { intros w0 Hv0 Hc. pose proof (step3_run o w0 Hv0) as L.
    unfold step3_frame in L. rewrite Hc in L. cbn [negb] in L.
    unfold leaves in L. rewrite (set_obj_deref w0 o Hv0) in L. exact L. }
  split; [apply Hnoop; exact Hv|].
  intros w1 H1. pose proof (step3_run o w Hv) as L.
  destruct (step3_frame (deref w o)) as [d'|e] eqn:E; unfold leaves in L.
  - rewrite L in H1. injection H1 as <-.
    apply Hnoop; [apply valid_set_obj; exact Hv|].
    rewrite (deref_set_obj_same w o d' Hv).
    unfold step3_frame in E.
    destruct (has_column Ticker (columns (deref w o))) eqn:Hc; cbn [negb] in E.
    + injection E as <-. exact Hc.
    + unfold assign_rowwise in E.
      destruct (rmap _ (rows (deref w o))); cbn [rbind] in E; [|discriminate].
      injection E as <-. cbn [columns]. rewrite Hc.
      apply has_column_In, in_or_app. right; left; reflexivity.
  - destruct L as [w' L]. rewrite L in H1. discriminate.
Qed.

Lemma step3_keeps_tickers_witness :
  (has_column Ticker (columns (deref (world_after_step1 blotter_two_days) O)) = true ->
   step3_impute_ticker O (world_after_step1 blotter_two_days)
   = (Val O, world_after_step1 blotter_two_days)) /\
  (forall w1,
      step3_impute_ticker O (world_after_step1 blotter_two_days) = (Val O, w1) ->
      step3_impute_ticker O w1 = (Val O, w1)).
Proof.
  apply (step3_keeps_tickers (world_after_step1 blotter_two_days) O).
  unfold valid. simpl. lia.
Defined.

(* ================================================================== *)
(** * Merging the partitions of steps 4 and 5 *)
(* ================================================================== *)

Lemma update_row_cell (cols : list column) (that this : row) (c : column) :
  cell c (update_row cols that this)
  = if has_column c cols && negb (isna (cell c that))
    then cell c that else cell c this.
Proof.
  destruct (has_column c cols) eqn:Hc; cbn [andb].
  - destruct (isna (cell c that)) eqn:Hna; cbn [negb].
    + revert this. unfold update_row.
      induction cols as [|x cols IH]; intros this; [reflexivity|].
      cbn [fold_left].
      destruct (has_column c cols) eqn:Hc'.
      * rewrite (IH eq_refl).
        destruct (isna (cell x that)) eqn:Hx; [reflexivity|].
        apply cell_set_cell_other. intros ->. congruence.
      * pose proof (update_row_other cols that
                      (if isna (cell x that) then this
                       else set_cell x (cell x that) this) c Hc') as H.
        unfold update_row in H. rewrite H.
        unfold has_column in Hc, Hc'. cbn [existsb] in Hc. rewrite Hc' in Hc.
        rewrite orb_false_r in Hc. apply column_eqb_eq in Hc. subst x.
        rewrite Hna. reflexivity.
    + apply update_row_same; assumption.
  - apply update_row_other. exact Hc.
Qed.

Lemma update_rows (self other d' : DataFrame) :
  update self other = Ok d' ->
  NoDup (labels other) /\
  columns d' = columns self /\ index_names d' = index_names self /\
  rows d' = map (fun lr => (fst lr,
                            apply_partition (columns self) (fst lr) (snd lr) other))
                (rows self).
Proof.
  unfold update. destruct (nodup_labels (labels other)) eqn:E; [|discriminate].
  intros H. injection H as <-. split; [apply nodup_labels_NoDup; exact E|].
  split; [reflexivity|]. split; [reflexivity|].
  cbn [rows with_rows]. apply map_ext. intros [l r]. cbn [fst snd].
  unfold apply_partition. destruct (lookup_label l (rows other)); reflexivity.
Qed.

Lemma merge_partitions_rows (P : DataFrame -> result DataFrame)
  (gs : list (label * DataFrame)) :
  forall d d',
    merge_partitions P gs d = Ok d' ->
    exists ps,
      Forall2 (fun g p => P (snd g) = Ok p) gs ps /\
      Forall (fun p => NoDup (labels p)) ps /\
      columns d' = columns d /\ index_names d' = index_names d /\
      rows d' = map (fun lr => (fst lr,
                                fold_left (apply_partition (columns d) (fst lr))
                                          ps (snd lr)))
                    (rows d).
Proof.
  induction gs as [|g gs IH]; intros d d' H; cbn [merge_partitions] in H.
  - injection H as <-. exists []. split; [constructor|]. split; [constructor|].
    split; [reflexivity|]. split; [reflexivity|].
    cbn [fold_left]. symmetry. rewrite <- (map_id (rows d)) at 2.
    apply map_ext. intros [l r]; reflexivity.
  - destruct (P (snd g)) as [p|] eqn:Ep; cbn [rbind] in H; [|discriminate].
    destruct (update d p) as [d1|] eqn:Eu; cbn [rbind] in H; [|discriminate].
    destruct (update_rows _ _ _ Eu) as [Hnd [Hc1 [Hi1 Hr1]]].
    destruct (IH _ _ H) as [ps [HF [Hnds [Hc [Hi Hr]]]]].
    exists (p :: ps). split; [constructor; assumption|].
    split; [constructor; assumption|].
    split; [congruence|]. split; [congruence|].
    rewrite Hr, Hr1, map_map. apply map_ext. intros [l r]. cbn [fst snd fold_left].
    rewrite Hc1. reflexivity.
Qed.

Lemma fold_apply_partition_none (cols : list column) (l : label)
  (ps : list DataFrame) (r : row) :
  (forall p, In p ps -> lookup_label l (rows p) = None) ->
  fold_left (apply_partition cols l) ps r = r.
Proof.
  revert r. induction ps as [|p ps IH]; intros r H; [reflexivity|].
  cbn [fold_left]. unfold apply_partition at 2.
  rewrite (H p (or_introl eq_refl)). apply IH. intros q Hq. apply H.
  right; exact Hq.
Qed.

Lemma fold_apply_partition_one (cols : list column) (l : label)
  (ps1 ps2 : list DataFrame) (p : DataFrame) (r : row) :
  (forall q, In q ps1 -> lookup_label l (rows q) = None) ->
  (forall q, In q ps2 -> lookup_label l (rows q) = None) ->
  fold_left (apply_partition cols l) (ps1 ++ p :: ps2) r
  = apply_partition cols l r p.
Proof.
  intros H1 H2. rewrite fold_left_app. cbn [fold_left].
  rewrite (fold_apply_partition_none cols l ps1 r H1).
  apply fold_apply_partition_none. exact H2.
Qed.

Lemma Forall2_app_inv_l_map {A B C} (R : B -> C -> Prop) (f : A -> B)
  (l1 l2 : list A) (x : A) (ps : list C) :
  Forall2 R (map f (l1 ++ x :: l2)) ps ->
  exists ps1 p ps2,
    ps = (ps1 ++ p :: ps2)%list /\
    Forall2 R (map f l1) ps1 /\ R (f x) p /\ Forall2 R (map f l2) ps2.
Proof.
  rewrite map_app. cbn [map]. intros H.
  apply Forall2_app_inv_l in H. destruct H as [ps1 [ps' [H1 [H2 ->]]]].
  inversion H2 as [|? p ? ps2 Hx H3]; subst.
  exists ps1, p, ps2. auto.
Qed.

(** The partitions of the groups of a frame with unique labels, each
    labelled with labels of its own group: the row of a frame is met by
    the partition of its own group only, and by none when its key has a
    missing value. *)
Lemma fold_apply_partition_groups (keys : list column)
  (P : DataFrame -> result DataFrame) (D : DataFrame) (ps : list DataFrame)
  (cols : list column) :
  NoDup (map fst (rows D)) ->
  (forall k p, In k (group_keys keys D) ->
               P (with_rows D (group_rows keys k D)) = Ok p ->
               incl (labels p) (map fst (group_rows keys k D))) ->
  Forall2 (fun g p => P (snd g) = Ok p)
          (map (fun k => (k, with_rows D (group_rows keys k D)))
               (group_keys keys D)) ps ->
  forall l r acc, In (l, r) (rows D) ->
    (existsb isna (key_of keys r) = true ->
     fold_left (apply_partition cols l) ps acc = acc) /\
    (existsb isna (key_of keys r) = false ->
     exists p, In p ps /\
               P (with_rows D (group_rows keys (key_of keys r) D)) = Ok p /\
               fold_left (apply_partition cols l) ps acc
               = apply_partition cols l acc p).
Proof.
  intros Hnd Hsub HF l r acc Hin.
  assert (Hother : forall k q,
            In k (group_keys keys D) -> k <> key_of keys r ->
            P (with_rows D (group_rows keys k D)) = Ok q ->
            lookup_label l (rows q) = None).
  { intros k q Hk Hne Hq. apply lookup_label_None. intros Hl.
    apply (Hsub k q Hk Hq) in Hl. apply in_map_iff in Hl.
    destruct Hl as [[l' r'] [El Hin']]. cbn [fst] in El. subst l'.
    apply group_rows_In in Hin'. destruct Hin' as [Hin' Hkey]. cbn [snd] in Hkey.
    assert (r' = r).
    { clear - Hnd Hin Hin'. induction (rows D) as [|[l0 r0] rs IH];
        [destruct Hin|].
      cbn [map fst] in Hnd. inversion Hnd as [|? ? Hni Hnd']; subst.
      destruct Hin as [E|Hin], Hin' as [E'|Hin'].
      - congruence.
      - exfalso. apply Hni. injection E as -> ->.
        apply in_map_iff. exists (l, r'). auto.
      - exfalso. apply Hni. injection E' as -> ->.
        apply in_map_iff. exists (l, r). auto.
      - apply IH; assumption. }
    subst r'. congruence. }
  assert (Hnone : forall ks qs,
            (forall k, In k ks -> In k (group_keys keys D) /\ k <> key_of keys r) ->
            Forall2 (fun g p => P (snd g) = Ok p)
                    (map (fun k => (k, with_rows D (group_rows keys k D))) ks) qs ->
            forall q, In q qs -> lookup_label l (rows q) = None).
  { intros ks qs Hks HF' q Hq.
    destruct (Forall2_In_r _ _ _ _ HF' Hq) as [g [Hg HP]].
    apply in_map_iff in Hg. destruct Hg as [k [<- Hk]]. cbn [snd] in HP.
    destruct (Hks k Hk) as [Hk1 Hk2]. apply (Hother k q Hk1 Hk2 HP). }
  split.
  - intros Hna. apply fold_apply_partition_none.
    apply (Hnone (group_keys keys D) ps); [|exact HF].
    intros k Hk. split; [exact Hk|]. intros ->.
    apply group_keys_In in Hk. destruct Hk as [Hk _]. congruence.
  - intros Hna.
    assert (Hk : In (key_of keys r) (group_keys keys D)).
    { apply group_keys_In. split; [exact Hna|]. exists (l, r). auto. }
    pose proof (group_keys_NoDup keys D) as Hkn.
    destruct (in_split _ _ Hk) as [ks1 [ks2 Eks]]. rewrite Eks in HF, Hkn.
    destruct (Forall2_app_inv_l_map _ _ _ _ _ _ HF)
      as [ps1 [p [ps2 [-> [HF1 [Hp HF2]]]]]].
    cbn [snd] in Hp. exists p.
    split; [apply in_or_app; right; left; reflexivity|]. split; [exact Hp|].
    apply NoDup_remove_2 in Hkn.
    apply fold_apply_partition_one.
    + apply (Hnone ks1 ps1); [|exact HF1]. intros k Hk1. split.
      * rewrite Eks. apply in_or_app. left; exact Hk1.
      * intros ->. apply Hkn. apply in_or_app. left; exact Hk1.
    + apply (Hnone ks2 ps2); [|exact HF2]. intros k Hk2. split.
      * rewrite Eks. apply in_or_app. right; right; exact Hk2.
      * intros ->. apply Hkn. apply in_or_app. right; exact Hk2.
Qed.

(* ================================================================== *)
(** * Step 5 on the whole frame *)
(* ================================================================== *)

Lemma step5_partition_rows (g p : DataFrame) :
  step5_partition g = Ok p ->
  has_column Return (columns p) = true /\
  exists t,
    nansum (series_of OpenLiq (rows g)) = Ok t /\
    Forall2 (fun lr lr' =>
               fst lr' = fst lr /\
               exists v, value_div (cell Pal (snd lr)) t = Ok v /\
                         snd lr' = set_cell Return v (snd lr))
            (rows g) (rows p).
Proof.
  unfold step5_partition, getitem.
  destruct (has_column OpenLiq (columns g)); cbn [rbind]; [|discriminate].
  fold (series_of OpenLiq (rows g)).
  destruct (nansum (series_of OpenLiq (rows g))) as [t|] eqn:Et;
    cbn [rbind]; [|discriminate].
  destruct (has_column Pal (columns g)); cbn [rbind]; [|discriminate].
  intros H. split.
  - unfold assign_rowwise in H.
    destruct (rmap _ (rows g)); cbn [rbind] in H; [|discriminate].
    injection H as <-. cbn [columns]. apply has_column_setitem_columns.
  - exists t. split; [reflexivity|].
    apply assign_rowwise_rowwise in H. exact H.
Qed.

Lemma pk_ok_index_NoDup (n : nat) (d : DataFrame) :
  pk_ok n d -> NoDup (map (fun lr => [cell Index (snd lr)]) (rows d)).
Proof.
  intros H. unfold pk_ok in H.
  apply (f_equal (map (fun lv : label * value => [snd lv]))) in H.
  rewrite !map_map in H. cbn [snd] in H. rewrite H.
  unfold positions. rewrite map_map.
  apply NoDup_map_inj_on; [|apply seq_NoDup].
  intros x y _ _ E. injection E. lia.
Qed.

(** Step 5 as a function of frames, row by row. *)
Lemma step5_frame_rows (n : nat) (d d' : DataFrame) :
  pk_ok n d -> step5_frame d = Ok d' ->
  Forall2 (fun lr lr' =>
             fst lr' = [cell Index (snd lr)] /\
             (forall c, c <> Return -> c <> Index ->
                        cell c (snd lr') = cell c (snd lr)) /\
             if isna (cell Date (snd lr))
             then cell Return (snd lr') = VNone
             else exists t,
                 nansum (series_of OpenLiq
                           (group_rows [Date] [cell Date (snd lr)] d)) = Ok t /\
                 value_div (cell Pal (snd lr)) t = Ok (cell Return (snd lr')))
          (rows d) (rows d').
Proof.
  intros Hpk H. unfold step5_frame in H. cbv zeta in H.
  destruct (set_index [Index] d) as [d1|] eqn:E1; cbn [rbind] in H;
    [|discriminate].
  destruct (step5_prefix_frame _ _ E1) as [_ Hd2]. rewrite Hd2 in H.
  set (D := mkDF [Index] (step5_columns (columns d)) (map step5_row (rows d))) in *.
  unfold groupby in H.
  destruct (all_columns_in [Date] (columns D)); cbn [rbind] in H; [|discriminate].
  destruct (merge_partitions_rows _ _ _ _ H) as [ps [HF [Hnds [_ [_ Hr]]]]].
  rewrite Hr. unfold D at 2. cbn [rows]. rewrite map_map.
  apply Forall2_map_r_self. intros lr Hin. cbn [fst snd].
  assert (HinD : In (step5_row lr) (rows D))
    by (unfold D; cbn [rows]; apply in_map; exact Hin).
  assert (HndD : NoDup (map fst (rows D))).
  { unfold D. cbn [rows]. rewrite map_map. unfold step5_row. cbn [fst].
    apply (pk_ok_index_NoDup n d Hpk). }
  assert (Hsub : forall k p, In k (group_keys [Date] D) ->
            step5_partition (with_rows D (group_rows [Date] k D)) = Ok p ->
            incl (labels p) (map fst (group_rows [Date] k D))).
  { intros k p _ Hp. destruct (step5_partition_rows _ _ Hp) as [_ [t [_ HR]]].
    cbn [rows with_rows] in HR. unfold labels.
    rewrite (Forall2_map_fst _ _ _ HR) by (intros x y [E _]; exact E).
    apply incl_refl. }
  assert (HinD' : In (fst (step5_row lr), snd (step5_row lr)) (rows D))
    by (rewrite <- surjective_pairing; exact HinD).
  destruct (fold_apply_partition_groups [Date] step5_partition D ps
              (columns D) HndD Hsub HF (fst (step5_row lr)) (snd (step5_row lr))
              (snd (step5_row lr)) HinD')
    as [Hna Hgrp].
  rewrite step5_row_key in Hna, Hgrp. cbn [key_of map existsb] in Hna, Hgrp.
  rewrite orb_false_r in Hna, Hgrp.
  unfold step5_row at 1. cbn [fst]. split; [reflexivity|].
  destruct (isna (cell Date (snd lr))) eqn:Ena.
  - rewrite (Hna eq_refl). split.
    + intros c Hc1 Hc2. apply step5_row_cell; assumption.
    + unfold step5_row. cbn [snd]. apply cell_set_cell_same.
  - destruct (Hgrp eq_refl) as [p [Hp [HP ->]]].
    destruct (step5_partition_rows _ _ HP) as [Hcp [t [Ht HR]]].
    cbn [rows with_rows] in Ht, HR.
    assert (HinG : In (step5_row lr) (group_rows [Date] [cell Date (snd lr)] D)).
    { apply group_rows_In. split; [exact HinD|].
      rewrite step5_row_key. reflexivity. }
    destruct (Forall2_In_l _ _ _ _ HR HinG) as [lr' [Hin' [Hf [v [Hv Hs]]]]].
    assert (Hlook : lookup_label (fst (step5_row lr)) (rows p) = Some (snd lr')).
    { apply lookup_label_NoDup.
      - rewrite Forall_forall in Hnds. apply (Hnds p Hp).
      - rewrite <- Hf. destruct lr'; exact Hin'. }
    unfold apply_partition. rewrite Hlook, Hs.
    assert (HcR : has_column Return
                    (filter (fun c => has_column c (columns p)) (columns D))
                  = true).
    { rewrite has_column_filter, Hcp. unfold D. cbn [columns].
      rewrite has_column_step5_columns. cbn [column_eqb].
      rewrite orb_true_r. reflexivity. }
    split.
    + intros c Hc1 Hc2. rewrite update_row_cell.
      rewrite cell_set_cell_other by exact Hc1.
      rewrite <- (step5_row_cell c lr Hc2 Hc1).
      destruct (_ && _); reflexivity.
    + exists t. split.
      * rewrite <- Ht. apply nansum_values.
        assert (EG : group_rows [Date] [cell Date (snd lr)] D
                     = map step5_row (group_rows [Date] [cell Date (snd lr)] d)).
        { unfold D. destruct d as [i c rs]. cbn [rows columns].
          apply (group_rows_mapped [Date] step5_row step5_row_key). }
        rewrite EG. unfold series_of. rewrite !map_map. apply map_ext.
        intros x. cbn [snd]. symmetry. apply step5_row_cell; discriminate.
      * rewrite update_row_cell, HcR, cell_set_cell_same. cbn [andb].
        rewrite step5_row_cell in Hv by discriminate. rewrite Hv. f_equal.
        destruct (isna v) eqn:Ev; cbn [negb]; [|reflexivity].
        unfold step5_row. cbn [snd]. rewrite cell_set_cell_same.
        destruct v; try discriminate. reflexivity.
Qed.

(** X6. Step 5 on the whole frame, in either mode: when it completes on
    a frame that carries the primary key of step 1, every row has become
    the row labelled with its primary key; its cells other than
    ["return"] are unchanged; its ["return"] is its [pal] divided by the
    total of [open_liq] over the rows of its date (missing values counted
    as 0), and stays empty when the row has no date. *)
Theorem step5_returns :
  forall (n : nat) (w w' : world) (o : obj) (executor : Executor),
    call_of_df_task w o executor ->
    pk_ok n (deref w o) ->
    step5_compute_fund_value o executor w = (Val o, w') ->
    Forall2 (fun lr lr' =>
               fst lr' = [cell Index (snd lr)] /\
               (forall c, c <> Return -> c <> Index ->
                          cell c (snd lr') = cell c (snd lr)) /\
               if isna (cell Date (snd lr))
               then cell Return (snd lr') = VNone
               else exists t,
                   nansum (series_of OpenLiq
                             (group_rows [Date] [cell Date (snd lr)]
                                         (deref w o))) = Ok t /\
                   value_div (cell Pal (snd lr)) t = Ok (cell Return (snd lr')))
            (rows (deref w o)) (rows (deref w' o)).
Proof.
  intros n w w' o executor Hcall Hpk H.
  pose proof (step5_run o executor w Hcall (pk_ok_labelled n _ Hpk)) as L.
  destruct (step5_frame (deref w o)) as [d'|e] eqn:E; unfold leaves in L.
  - rewrite L in H. injection H as <-.
    rewrite (deref_set_obj_same w o d' (call_valid w o executor Hcall)).
    apply (step5_frame_rows n _ _ Hpk E).
  - destruct L as [w1 L]. rewrite L in H. discriminate.
Qed.

Lemma step5_returns_witness :
  Forall2 (fun lr lr' =>
             fst lr' = [cell Index (snd lr)] /\
             (forall c, c <> Return -> c <> Index ->
                        cell c (snd lr') = cell c (snd lr)) /\
             if isna (cell Date (snd lr))
             then cell Return (snd lr') = VNone
             else exists t,
                 nansum (series_of OpenLiq
                           (group_rows [Date] [cell Date (snd lr)]
                                       (deref (world_after 4 blotter_two_days) O)))
                 = Ok t /\
                 value_div (cell Pal (snd lr)) t = Ok (cell Return (snd lr')))
          (rows (deref (world_after 4 blotter_two_days) O))
          (rows (deref (snd (step5_compute_fund_value O (mkExecutor O true)
                               (world_after 4 blotter_two_days))) O)).
Proof.
  apply (step5_returns 2 (world_after 4 blotter_two_days)
           (snd (step5_compute_fund_value O (mkExecutor O true)
                   (world_after 4 blotter_two_days)))
           O (mkExecutor O true)).
  - unfold call_of_df_task, valid. cbn [_df].
    split; [vm_compute; lia|]. split; [vm_compute; lia|]. left; reflexivity.
  - vm_compute. reflexivity.
  - vm_compute. reflexivity.
Defined.

(* ================================================================== *)
(** * Step 6: the rows that are left *)
(* ================================================================== *)

Lemma remove_columns_absent (c : column) (cols : list column) :
  has_column c cols = false -> remove_columns [c] (c :: cols) = cols.
Proof.
  intros H. unfold remove_columns. cbn [filter has_column existsb].
  rewrite column_eqb_refl. cbn [orb negb]. apply filter_all_true.
  intros x Hx. apply negb_true_iff. rewrite orb_false_r.
  destruct (column_eqb x c) eqn:E; [|reflexivity].
  apply column_eqb_eq in E. subst x. apply has_column_In in Hx. congruence.
Qed.

(** Step 6 on a frame that enters it, written out. *)
Lemma step6_frame_explicit (n : nat) (d : DataFrame) :
  enters_step6 n d ->
  exists another_df,
    step6_another_df (mkDF [] (Index :: columns d) (map restore_pk (rows d)))
    = Ok another_df /\
    columns another_df
    = [Date; Lkid; Analyst; Sector; Pal; Exposure; Return; Index] /\
    step6_frame d
    = Ok (step6_result (columns d)
            (map (step6_merged another_df (columns d)) (rows d))).
Proof.
  intros Hd. pose proof Hd as [Hpk [Hidx [Hcols Hty]]].
  destruct (step6_another_df_spec n d Hd)
    as [another_df [Ha [Hac [Hand [Hak Harows]]]]].
  exists another_df. split; [exact Ha|]. split; [exact Hac|].
  set (d1 := mkDF [] (Index :: columns d) (map restore_pk (rows d))) in *.
  assert (H7 : forall c, In c step6_aggregated ->
                         has_column c (Index :: columns d) = true).
  { intros c Hc. apply has_column_In. right. apply has_column_In.
    apply (all_columns_in_In _ _ _ Hcols Hc). }
  set (d3 := mkDF [Index] (columns d) (map step6_blank (rows d))).
  assert (E3 : set_index [Index]
                 (setitem Return VNone
                    (setitem Exposure VNone (setitem Pal VNone d1)))
               = Ok d3).
  { unfold d1.
    rewrite (setitem_present Pal) by (apply H7; simpl; tauto).
    cbn [index_names columns rows].
    rewrite (setitem_present Exposure) by (apply H7; simpl; tauto).
    cbn [index_names columns rows].
    rewrite (setitem_present Return) by (apply H7; simpl; tauto).
    cbn [index_names columns rows].
    unfold set_index. cbn [columns rows].
    replace (all_columns_in [Index] (Index :: columns d)) with true
      by reflexivity.
    unfold d3. rewrite (remove_columns_absent Index _ Hidx).
    rewrite !map_map. do 2 f_equal. apply map_ext_in. intros lr Hin.
    unfold step6_blank. cbn [fst snd map]. f_equal.
    destruct (pk_label n d lr Hpk Hin) as [i Hi].
    rewrite !clear_cells_other || idtac.
    unfold restore_pk. cbn [snd].
    rewrite !cell_set_cell_other by discriminate.
    rewrite cell_set_cell_same, Hi. reflexivity. }
  unfold step6_frame. rewrite (reset_index_pk n d Hpk Hidx). cbn [rbind].
  fold d1. rewrite Ha. cbn [rbind]. rewrite E3. cbn [rbind].
  unfold update, labels. rewrite (proj2 (nodup_labels_NoDup _) Hand).
  cbn [rbind].
  unfold set_index, dropna, with_rows, d3. cbn [columns rows index_names].
  replace (all_columns_in [Lkid; Date] (columns d)) with true.
  2:{ symmetry. apply (all_columns_in_sub _ _ _ Hcols). simpl. tauto. }
  cbn [rbind].
  unfold reset_index, sort_index, with_rows. cbn [columns rows index_names].
  cbn [existsb nodup_columns]. rewrite !has_column_remove_columns.
  cbn [has_column existsb column_eqb orb negb andb]. rewrite !andb_false_r.
  cbn [orb negb]. unfold step6_result, complete_row. cbn [map].
  rewrite map_map. do 7 f_equal.
  apply map_ext. intros lr. unfold step6_merged, apply_partition.
  cbn [fst step6_blank].
  destruct (lookup_label (fst lr) (rows another_df)); reflexivity.
Qed.

Lemma step6_result_rows (cols : list column) (merged : list (label * row)) :
  Permutation (map snd (rows (step6_result cols merged)))
              (map snd (filter (complete_row cols) merged)).
Proof.
  unfold step6_result. cbn [rows]. rewrite range_index_snd.
  eapply Permutation_trans.
  - apply Permutation_map. apply Permutation_sym. apply isort_Permutation.
  - rewrite map_map. cbn [fst snd].
    erewrite map_ext; [apply Permutation_refl|].
    intros lr. apply restore_cleared_key.
Qed.

Lemma agg_false_labels (keys : list column)
  (spec : list (column * (Series -> result value))) (d c : DataFrame) :
  agg false keys spec d = Ok c ->
  map fst (rows c)
  = map (fun i => [VInt i]) (map Z.of_nat (seq 0 (List.length (rows c)))).
Proof.
  unfold agg. destruct (groupby keys d); cbn [rbind]; [|discriminate].
  destruct (rmap _ _) as [rs|]; cbn [rbind]; [|discriminate].
  intros H. injection H as <-. cbn [rows].
  rewrite range_index_length. change 0 with (Z.of_nat 0).
  rewrite range_index_labels. reflexivity.
Qed.

(** Looking up a position in a list labelled with the positions from
    [a] on. *)
Lemma lookup_label_positions {A} (s : list (label * A)) :
  forall a : nat,
    map fst s = map (fun i => [VInt i]) (map Z.of_nat (seq a (List.length s))) ->
    forall j : nat, (a <= j)%nat ->
      lookup_label [VInt (Z.of_nat j)] s = nth_error (map snd s) (j - a).
Proof.
  induction s as [|[l v] s IH]; intros a Hl j Hj.
  - cbn [lookup_label map]. destruct (j - a)%nat; reflexivity.
  - cbn [map List.length seq fst] in Hl. injection Hl as -> Ht.
    cbn [lookup_label label_eqb value_eqb map snd].
    destruct (Z.of_nat j =? Z.of_nat a) eqn:E; cbn [andb].
    + apply Z.eqb_eq in E. replace (j - a)%nat with O by lia. reflexivity.
    + apply Z.eqb_neq in E. rewrite (IH (S a) Ht j) by lia.
      replace (j - a)%nat with (S (j - S a)) by lia. reflexivity.
Qed.

Lemma nth_error_positions {A} (s : list (label * A)) :
  forall a : nat,
    map fst s = map (fun i => [VInt i]) (map Z.of_nat (seq a (List.length s))) ->
    forall (x : label * A) (j : nat),
      In x s -> fst x = [VInt (Z.of_nat j)] ->
      (a <= j)%nat /\ nth_error s (j - a) = Some x.
Proof.
  induction s as [|[l v] s IH]; intros a Hl x j Hin Hx; [destruct Hin|].
  cbn [map List.length seq fst] in Hl. injection Hl as -> Ht.
  destruct Hin as [<-|Hin].
  - cbn [fst] in Hx. injection Hx as Hx. apply Nat2Z.inj in Hx. subst j.
    split; [lia|]. replace (a - a)%nat with O by lia. reflexivity.
  - destruct (IH (S a) Ht x j Hin Hx) as [Hle Hn]. split; [lia|].
    replace (j - a)%nat with (S (j - S a)) by lia. exact Hn.
Qed.

Lemma pk_labels_positions (n : nat) (d : DataFrame) :
  pk_is_index n d ->
  map fst (rows d)
  = map (fun i => [VInt i]) (map Z.of_nat (seq 0 (List.length (rows d)))).
Proof.
  intros Hpk. pose proof Hpk as [_ Hl]. rewrite Hl. unfold positions.
  rewrite (pk_is_index_nrows n d Hpk : List.length (rows d) = n). reflexivity.
Qed.

Lemma pk_label_nat (n : nat) (d : DataFrame) (lr : label * row) :
  pk_is_index n d -> In lr (rows d) ->
  exists j : nat, fst lr = [VInt (Z.of_nat j)].
Proof.
  intros Hpk Hin.
  assert (H : In (fst lr) (map fst (rows d))) by (apply in_map; exact Hin).
  rewrite (pk_labels_positions n d Hpk), map_map in H.
  apply in_map_iff in H. destruct H as [j [<- _]]. exists j. reflexivity.
Qed.

(** The cells that the aggregation of step 6 writes are never missing. *)
Lemma step6_another_df_not_na (n : nat) (d another_df : DataFrame) :
  enters_step6 n d ->
  (forall a, In a (rows another_df) ->
     exists g0 rest,
       group_rows [Date; Lkid] (key_of [Date; Lkid] (snd a)) d = g0 :: rest /\
       existsb isna (key_of [Date; Lkid] (snd a)) = false /\
       cell Index (snd a) = hd VNone (fst g0) /\
       cell Analyst (snd a) = series_min (series_of Analyst (g0 :: rest)) /\
       cell Sector (snd a) = series_min (series_of Sector (g0 :: rest)) /\
       agg_sum (series_of Pal (g0 :: rest)) = Ok (cell Pal (snd a)) /\
       agg_sum (series_of Exposure (g0 :: rest)) = Ok (cell Exposure (snd a)) /\
       agg_sum (series_of Return (g0 :: rest)) = Ok (cell Return (snd a))) ->
  forall a c, In a (rows another_df) -> In c step6_aggregated ->
              isna (cell c (snd a)) = false.
Proof.
  intros [Hpk [Hidx [Hcols Hty]]] Harows a c Ha Hc.
  destruct (Harows a Ha) as [g0 [rest [HG [Hkna [_ [HA [HS [Hp [He Hr]]]]]]]]].
  assert (HGin : forall lr, In lr (g0 :: rest) -> In lr (rows d)).
  { intros lr Hin. rewrite <- HG in Hin. apply group_rows_In in Hin. tauto. }
  cbn [key_of map existsb] in Hkna. rewrite !orb_false_iff in Hkna.
  destruct Hkna as [HkD [HkL _]].
  unfold step6_aggregated in Hc. simpl in Hc.
  destruct Hc as [<-|[<-|[<-|[<-|[<-|[<-|[<-|[]]]]]]]].
  - exact HkD.
  - exact HkL.
  - rewrite HA. apply is_str_not_na.
    apply (series_min_least is_str is_str_not_na value_leb_str_total
             value_leb_str_trans (series_of Analyst (g0 :: rest))).
    + discriminate.
    + intros lv Hin. apply in_map_iff in Hin. destruct Hin as [lr [<- Hin]].
      cbn [snd]. apply (Hty lr (HGin lr Hin)).
  - rewrite HS. apply is_cat_not_na.
    apply (series_min_least is_cat is_cat_not_na value_leb_cat_total
             value_leb_cat_trans (series_of Sector (g0 :: rest))).
    + discriminate.
    + intros lv Hin. apply in_map_iff in Hin. destruct Hin as [lr [<- Hin]].
      cbn [snd]. apply (Hty lr (HGin lr Hin)).
  - apply (group_sum_not_na _ _ Hp).
  - apply (group_sum_not_na _ _ He).
  - apply (group_sum_not_na _ _ Hr).
Qed.

Lemma forallb_ext_on {A} (f g : A -> bool) (l : list A) :
  (forall x, In x l -> f x = g x) -> forallb f l = forallb g l.
Proof.
  induction l as [|x l IH]; intros H; [reflexivity|]. cbn [forallb].
  rewrite (H x (or_introl eq_refl)), IH; [reflexivity|].
  intros y Hy. apply H. right; exact Hy.
Qed.

Lemma forallb_false_at {A} (f : A -> bool) (l : list A) (x : A) :
  In x l -> f x = false -> forallb f l = false.
Proof.
  intros Hin Hf. destruct (forallb f l) eqn:E; [|reflexivity].
  rewrite forallb_forall in E. rewrite (E x Hin) in Hf. discriminate.
Qed.

Lemma step6_blank_cell (c : column) (lr : label * row) :
  c <> Index -> c <> Pal -> c <> Exposure -> c <> Return ->
  cell c (snd (step6_blank lr)) = cell c (snd lr).
Proof.
  intros H1 H2 H3 H4. unfold step6_blank, restore_pk. cbn [snd].
  rewrite clear_cells_other.
  - rewrite !cell_set_cell_other by assumption. reflexivity.
  - cbn. destruct c; try reflexivity. congruence.
Qed.

(** What the update of step 6 makes of the row with the primary key [j]:
    it receives the aggregates of the group number [j], when there is
    one. *)
Lemma step6_merged_row (n : nat) (d another_df : DataFrame) :
  enters_step6 n d ->
  columns another_df
  = [Date; Lkid; Analyst; Sector; Pal; Exposure; Return; Index] ->
  map fst (rows another_df)
  = map (fun i => [VInt i])
        (map Z.of_nat (seq 0 (List.length (rows another_df)))) ->
  (forall a c, In a (rows another_df) -> In c step6_aggregated ->
               isna (cell c (snd a)) = false) ->
  forall (lr : label * row) (j : nat),
    In lr (rows d) -> fst lr = [VInt (Z.of_nat j)] ->
    match nth_error (rows another_df) j with
    | None =>
        complete_row (columns d) (step6_merged another_df (columns d) lr) = false
    | Some a =>
        (forall c, In c step6_aggregated ->
           cell c (snd (step6_merged another_df (columns d) lr)) = cell c (snd a)) /\
        (forall c, has_column c step6_aggregated = false -> c <> Index ->
           cell c (snd (step6_merged another_df (columns d) lr)) = cell c (snd lr)) /\
        complete_row (columns d) (step6_merged another_df (columns d) lr)
        = complete_outside (columns d) lr
    end.
Proof.
  intros [Hpk [Hidx [Hcols Hty]]] Hac Hlab Hna lr j Hin Hj.
  unfold step6_merged, apply_partition. cbn [fst snd]. rewrite Hj.
  rewrite (lookup_label_positions (rows another_df) 0 Hlab j) by lia.
  rewrite Nat.sub_0_r, nth_error_map.
  destruct (nth_error (rows another_df) j) as [a|] eqn:En; cbn [option_map].
  - assert (Ha : In a (rows another_df)) by (eapply nth_error_In; exact En).
    set (cols' := filter (fun c => has_column c (columns another_df)) (columns d)).
    assert (Hin7 : forall c, In c step6_aggregated -> has_column c cols' = true).
    { intros c Hc. unfold cols'. rewrite has_column_filter, Hac.
      rewrite (all_columns_in_In _ _ _ Hcols Hc).
      unfold step6_aggregated in Hc. simpl in Hc.
      destruct Hc as [<-|[<-|[<-|[<-|[<-|[<-|[<-|[]]]]]]]]; reflexivity. }
    assert (Hout : forall c, has_column c step6_aggregated = false -> c <> Index ->
                             has_column c cols' = false).
    { intros c Hc Hi. unfold cols'. rewrite has_column_filter, Hac.
      apply andb_false_iff. right.
      destruct c; try reflexivity; try discriminate Hc. congruence. }
    assert (H1 : forall c, In c step6_aggregated ->
                   cell c (update_row cols' (snd a) (snd (step6_blank lr)))
                   = cell c (snd a)).
    { intros c Hc. apply update_row_same; [apply Hin7, Hc | apply Hna; assumption]. }
    assert (H2 : forall c, has_column c step6_aggregated = false -> c <> Index ->
                   cell c (update_row cols' (snd a) (snd (step6_blank lr)))
                   = cell c (snd lr)).
    { intros c Hc Hi. rewrite update_row_other by (apply Hout; assumption).
      apply step6_blank_cell; try exact Hi; intros ->; discriminate Hc. }
    split; [exact H1|]. split; [exact H2|].
    unfold complete_row, complete_outside. cbn [snd].
    apply forallb_ext_on. intros c Hc.
    assert (Hi : c <> Index).
    { intros ->. apply has_column_In in Hc. congruence. }
    destruct (has_column c step6_aggregated) eqn:E7; cbn [orb].
    + rewrite H1 by (apply has_column_In; exact E7).
      rewrite Hna; [reflexivity | exact Ha | apply has_column_In; exact E7].
    + rewrite H2 by assumption. reflexivity.
  - unfold complete_row. cbn [snd].
    apply (forallb_false_at _ _ Pal).
    + apply has_column_In. apply (all_columns_in_In _ _ _ Hcols). simpl. tauto.
    + unfold step6_blank. cbn [snd].
      rewrite clear_cells_other by reflexivity.
      rewrite !cell_set_cell_other by discriminate.
      rewrite cell_set_cell_same. reflexivity.
Qed.

Lemma step6_survivor_count (n : nat) (d another_df : DataFrame) :
  enters_step6 n d ->
  columns another_df
  = [Date; Lkid; Analyst; Sector; Pal; Exposure; Return; Index] ->
  map fst (rows another_df)
  = map (fun i => [VInt i])
        (map Z.of_nat (seq 0 (List.length (rows another_df)))) ->
  (forall a c, In a (rows another_df) -> In c step6_aggregated ->
               isna (cell c (snd a)) = false) ->
  forall (rs : list (label * row)) (a : nat),
    (forall lr, In lr rs -> In lr (rows d)) ->
    map fst rs = map (fun i => [VInt i]) (map Z.of_nat (seq a (List.length rs))) ->
    List.length (filter (complete_row (columns d))
                        (map (step6_merged another_df (columns d)) rs))
    = List.length (filter (complete_outside (columns d))
                          (firstn (List.length (rows another_df) - a) rs)).
Proof.
  intros Hd Hac Hlab Hna.
  induction rs as [|x rs IH]; intros a Hsub Hl.
  - rewrite firstn_nil. reflexivity.
  - cbn [map List.length seq] in Hl. injection Hl as Hx Ht.
    pose proof (step6_merged_row n d another_df Hd Hac Hlab Hna x a
                  (Hsub x (or_introl eq_refl)) Hx) as Hrow.
    specialize (IH (S a) (fun lr H => Hsub lr (or_intror H)) Ht).
    cbn [map filter].
    destruct (nth_error (rows another_df) a) as [a0|] eqn:En.
    + assert (Hlt : (a < List.length (rows another_df))%nat).
      { apply nth_error_Some. congruence. }
      destruct Hrow as [_ [_ Hc]]. rewrite Hc.
      replace (List.length (rows another_df) - a)%nat
        with (S (List.length (rows another_df) - S a)) by lia.
      cbn [firstn filter].
      destruct (complete_outside (columns d) x); cbn [List.length];
        rewrite IH; reflexivity.
    + apply nth_error_None in En. rewrite Hrow, IH.
      replace (List.length (rows another_df) - S a)%nat with O by lia.
      replace (List.length (rows another_df) - a)%nat with O by lia.
      reflexivity.
Qed.

Lemma same_label_same_row {A} (s : list (label * A)) (x y : label * A) :
  NoDup (map fst s) -> In x s -> In y s -> fst x = fst y -> x = y.
Proof.
  induction s as [|z s IH]; intros Hnd Hx Hy E; [destruct Hx|].
  cbn [map] in Hnd. inversion Hnd as [|? ? Hni Hnd']; subst.
  destruct Hx as [<-|Hx], Hy as [<-|Hy].
  - reflexivity.
  - exfalso. apply Hni. rewrite E. apply in_map. exact Hy.
  - exfalso. apply Hni. rewrite <- E. apply in_map. exact Hx.
  - apply IH; assumption.
Qed.

Lemma pk_labels_NoDup (n : nat) (d : DataFrame) :
  pk_is_index n d -> NoDup (map fst (rows d)).
Proof.
  intros Hpk. rewrite (pk_labels_positions n d Hpk), map_map.
  apply NoDup_map_inj_on; [|apply seq_NoDup].
  intros x y _ _ E. injection E. lia.
Qed.

(** Step 6 on a frame that enters it: the aggregation and the frame that
    is left. *)
Lemma step6_aggregates (n : nat) (d : DataFrame) :
  enters_step6 n d ->
  exists another_df,
    aggregates_of d another_df /\
    step6_frame d
    = Ok (step6_result (columns d)
            (map (step6_merged another_df (columns d)) (rows d))).
Proof.
  intros Hd.
  destruct (step6_another_df_spec n d Hd)
    as [another_df [Ha [Hac [Hand [Hak Harows]]]]].
  destruct (step6_frame_explicit n d Hd) as [another_df' [Ha' [_ HF]]].
  assert (another_df' = another_df) by congruence. subst another_df'.
  exists another_df. split; [|exact HF].
  split; [exact Ha|]. split; [exact Hac|].
  split; [unfold step6_another_df in Ha; apply (agg_false_labels _ _ _ _ Ha)|].
  split; [exact Hak|].
  apply (step6_another_df_not_na n d another_df Hd Harows).
Qed.

(** Where the rows of the result of step 6 come from: a row of the result
    is the row with some primary key [j] of the frame that entered, with
    the aggregates of the group number [j]. *)
Lemma step6_result_origin (n : nat) (d another_df : DataFrame) :
  enters_step6 n d -> aggregates_of d another_df ->
  nrows (step6_result (columns d)
           (map (step6_merged another_df (columns d)) (rows d)))
  = List.length (filter (complete_outside (columns d))
                        (firstn (List.length (group_keys [Date; Lkid] d))
                                (rows d))) /\
  forall r',
    In r' (map snd (rows (step6_result (columns d)
                            (map (step6_merged another_df (columns d)) (rows d))))) ->
    exists j lr a,
      nth_error (rows d) j = Some lr /\
      nth_error (rows another_df) j = Some a /\
      r' = snd (step6_merged another_df (columns d) lr) /\
      complete_row (columns d) (step6_merged another_df (columns d) lr) = true /\
      complete_outside (columns d) lr = true /\
      (forall c, In c step6_aggregated -> cell c r' = cell c (snd a)) /\
      (forall c, has_column c step6_aggregated = false -> c <> Index ->
                 cell c r' = cell c (snd lr)).
Proof.
  intros Hd [Ha [Hac [Hlab [Hak Hna]]]].
  pose proof Hd as [Hpk [Hidx [Hcols Hty]]].
  assert (Hg : List.length (rows another_df)
               = List.length (group_keys [Date; Lkid] d)).
  { rewrite <- Hak. symmetry. apply length_map. }
  split.
  - unfold nrows.
    rewrite <- (length_map snd),
      (Permutation_length (step6_result_rows _ _)), length_map.
    rewrite (step6_survivor_count n d another_df Hd Hac Hlab Hna (rows d) 0
               (fun lr H => H) (pk_labels_positions n d Hpk)).
    rewrite Nat.sub_0_r, Hg. reflexivity.
  - intros r' Hin.
    apply (Permutation_in _ (step6_result_rows _ _)) in Hin.
    apply in_map_iff in Hin. destruct Hin as [m [<- Hin]].
    apply filter_In in Hin. destruct Hin as [Hin Hc].
    apply in_map_iff in Hin. destruct Hin as [lr [<- Hin]].
    destruct (pk_label_nat n d lr Hpk Hin) as [j Hj].
    pose proof (step6_merged_row n d another_df Hd Hac Hlab Hna lr j Hin Hj)
      as Hrow.
    destruct (nth_error (rows another_df) j) as [a|] eqn:En; [|congruence].
    destruct Hrow as [H1 [H2 H3]].
    exists j, lr, a.
    destruct (nth_error_positions (rows d) 0 (pk_labels_positions n d Hpk)
                lr j Hin Hj) as [_ Hn].
    rewrite Nat.sub_0_r in Hn.
    split; [exact Hn|]. split; [exact En|]. split; [reflexivity|].
    split; [exact Hc|]. split; [congruence|]. split; assumption.
Qed.

Lemma step6_completes (w : world) (o : obj) (d' : DataFrame) :
  valid w o -> step6_frame (deref w o) = Ok d' ->
  step6_agg_daily o w = (Val o, set_obj w o d').
Proof.
  intros Hv H. pose proof (step6_run o w Hv) as L. rewrite H in L. exact L.
Qed.

(** X7. What step 6 returns on a frame that enters it with [g] groups of
    (date, lkid): it completes, and a row of the result is the row with
    some primary key [j < g] of the frame that entered, carrying the
    (date, lkid) of the group number [j] in the order of the group keys
    and, in the columns that are not aggregated, its own cells.  The rows
    that are left are the rows with a primary key below [g] that have no
    missing value outside the aggregated columns, so their number is the
    number of those rows. *)
Theorem step6_rows_by_ordinal :
  forall (n : nat) (w : world) (o : obj),
    valid w o ->
    enters_step6 n (deref w o) ->
    exists w',
      step6_agg_daily o w = (Val o, w') /\
      nrows (deref w' o)
      = List.length
          (filter (complete_outside (columns (deref w o)))
                  (firstn (List.length (group_keys [Date; Lkid] (deref w o)))
                          (rows (deref w o)))) /\
      forall lr', In lr' (rows (deref w' o)) ->
        exists j lr,
          nth_error (rows (deref w o)) j = Some lr /\
          nth_error (group_keys [Date; Lkid] (deref w o)) j
          = Some (key_of [Date; Lkid] (snd lr')) /\
          complete_outside (columns (deref w o)) lr = true /\
          forall c, has_column c step6_aggregated = false -> c <> Index ->
                    cell c (snd lr') = cell c (snd lr).
Proof.
  intros n w o Hv Hd.
  destruct (step6_aggregates n _ Hd) as [another_df [Hagg HF]].
  destruct (step6_result_origin n _ another_df Hd Hagg) as [Hcount Hrows].
  eexists. split; [apply (step6_completes w o _ Hv HF)|].
  rewrite (deref_set_obj_same w o _ Hv).
  split; [exact Hcount|].
  intros lr' Hin.
  destruct (Hrows (snd lr') (in_map snd _ _ Hin))
    as [j [lr [a [Hn [En [_ [_ [Hout [H1 H2]]]]]]]]].
  exists j, lr. split; [exact Hn|]. split; [|split; [exact Hout | exact H2]].
  destruct Hagg as [_ [_ [_ [Hak _]]]].
  rewrite <- Hak, nth_error_map, En. cbn [option_map key_of map].
  rewrite (H1 Date) by (unfold step6_aggregated; simpl; tauto).
  rewrite (H1 Lkid) by (unfold step6_aggregated; simpl; tauto).
  reflexivity.
Qed.

Lemma step6_rows_by_ordinal_witness :
  exists w',
    step6_agg_daily O (world_after 5 blotter_collision) = (Val O, w') /\
    nrows (deref w' O)
    = List.length
        (filter (complete_outside
                   (columns (deref (world_after 5 blotter_collision) O)))
                (firstn (List.length
                           (group_keys [Date; Lkid]
                              (deref (world_after 5 blotter_collision) O)))
                        (rows (deref (world_after 5 blotter_collision) O)))) /\
    forall lr', In lr' (rows (deref w' O)) ->
      exists j lr,
        nth_error (rows (deref (world_after 5 blotter_collision) O)) j = Some lr /\
        nth_error (group_keys [Date; Lkid]
                     (deref (world_after 5 blotter_collision) O)) j
        = Some (key_of [Date; Lkid] (snd lr')) /\
        complete_outside (columns (deref (world_after 5 blotter_collision) O)) lr
        = true /\
        forall c, has_column c step6_aggregated = false -> c <> Index ->
                  cell c (snd lr') = cell c (snd lr).
Proof.
  apply (step6_rows_by_ordinal 3 (world_after 5 blotter_collision) O).
  - unfold valid. vm_compute. lia.
  - unfold enters_step6, pk_is_index.
    split; [split; vm_compute; reflexivity|].
    split; [vm_compute; reflexivity|].
    split; [vm_compute; reflexivity|].
    intros lr Hin. vm_compute in Hin.
    destruct Hin as [<-|[<-|[<-|[]]]]; vm_compute; repeat split; reflexivity.
Defined.

Lemma step6_keys_NoDup (n : nat) (d another_df : DataFrame) :
  enters_step6 n d -> aggregates_of d another_df ->
  NoDup (map (fun lr => key_of [Lkid; Date] (snd lr))
             (rows (step6_result (columns d)
                      (map (step6_merged another_df (columns d)) (rows d))))).
Proof.
  intros Hd Hagg. pose proof Hagg as [Ha [Hac [Hlab [Hak Hna]]]].
  pose proof Hd as [Hpk _].
  rewrite <- (map_map snd (key_of [Lkid; Date])).
  apply (Permutation_NoDup
           (Permutation_sym (Permutation_map _ (step6_result_rows _ _)))).
  rewrite map_map. apply NoDup_map_inj_on.
  - intros x y Hx Hy E.
    apply filter_In in Hx. destruct Hx as [Hx Hcx].
    apply filter_In in Hy. destruct Hy as [Hy Hcy].
    apply in_map_iff in Hx. destruct Hx as [lr1 [<- Hin1]].
    apply in_map_iff in Hy. destruct Hy as [lr2 [<- Hin2]].
    destruct (pk_label_nat n d lr1 Hpk Hin1) as [j1 Hj1].
    destruct (pk_label_nat n d lr2 Hpk Hin2) as [j2 Hj2].
    pose proof (step6_merged_row n d another_df Hd Hac Hlab Hna lr1 j1 Hin1 Hj1)
      as R1.
    pose proof (step6_merged_row n d another_df Hd Hac Hlab Hna lr2 j2 Hin2 Hj2)
      as R2.
    destruct (nth_error (rows another_df) j1) as [a1|] eqn:E1; [|congruence].
    destruct (nth_error (rows another_df) j2) as [a2|] eqn:E2; [|congruence].
    destruct R1 as [C1 _]. destruct R2 as [C2 _].
    cbn [key_of map] in E.
    rewrite (C1 Lkid), (C1 Date), (C2 Lkid), (C2 Date) in E
      by (unfold step6_aggregated; simpl; tauto).
    injection E as EL ED.
    assert (Ej : j1 = j2).
    { pose proof (group_keys_NoDup [Date; Lkid] d) as Hnd.
      rewrite <- Hak in Hnd. rewrite NoDup_nth_error in Hnd.
      apply Hnd.
      - rewrite length_map. apply nth_error_Some. congruence.
      - rewrite !nth_error_map, E1, E2. cbn [option_map key_of map].
        rewrite EL, ED. reflexivity. }
    subst j2.
    assert (lr1 = lr2).
    { apply (same_label_same_row (rows d) lr1 lr2 (pk_labels_NoDup n d Hpk)
               Hin1 Hin2). congruence. }
    subst lr2. reflexivity.
  - apply NoDup_filter.
    apply (NoDup_map_inv fst). rewrite map_map. cbn [step6_merged fst].
    apply (pk_labels_NoDup n d Hpk).
Qed.

(** X8. Step 6 on a frame that enters it: it completes; the frame it
    leaves has the default index and the columns [lkid], [date] followed
    by the other columns of the frame that entered; no two of its rows
    have the same (lkid, date); it has at most as many rows as there are
    groups of (date, lkid); and none of its cells is missing. *)
Theorem step6_unique_complete :
  forall (n : nat) (w : world) (o : obj),
    valid w o ->
    enters_step6 n (deref w o) ->
    exists w',
      step6_agg_daily o w = (Val o, w') /\
      index_names (deref w' o) = [] /\
      columns (deref w' o)
      = Lkid :: Date :: remove_columns [Lkid; Date] (columns (deref w o)) /\
      map fst (rows (deref w' o))
      = map (fun i => [VInt i]) (positions (nrows (deref w' o))) /\
      NoDup (map (fun lr => key_of [Lkid; Date] (snd lr)) (rows (deref w' o))) /\
      (nrows (deref w' o)
       <= List.length (group_keys [Date; Lkid] (deref w o)))%nat /\
      forall lr' c, In lr' (rows (deref w' o)) -> In c (columns (deref w' o)) ->
                    isna (cell c (snd lr')) = false.
Proof.
  intros n w o Hv Hd.
  destruct (step6_aggregates n _ Hd) as [another_df [Hagg HF]].
  destruct (step6_result_origin n _ another_df Hd Hagg) as [Hcount Hrows].
  eexists. split; [apply (step6_completes w o _ Hv HF)|].
  rewrite (deref_set_obj_same w o _ Hv).
  split; [reflexivity|]. split; [reflexivity|].
  split.
  { unfold nrows, step6_result. cbn [rows]. change 0 with (Z.of_nat 0).
    rewrite range_index_labels, range_index_length. reflexivity. }
  split; [apply (step6_keys_NoDup n _ another_df Hd Hagg)|].
  split.
  { rewrite Hcount.
    eapply Nat.le_trans; [apply filter_length_le|].
    rewrite length_firstn. apply Nat.le_min_l. }
  intros lr' c Hin Hc.
  destruct (Hrows (snd lr') (in_map snd _ _ Hin))
    as [j [lr [a [_ [_ [E [Hcr _]]]]]]].
  unfold complete_row in Hcr. rewrite forallb_forall in Hcr.
  rewrite E. apply negb_true_iff. apply Hcr.
  destruct Hd as [_ [_ [Hcols _]]].
  unfold step6_result in Hc. cbn [columns app] in Hc.
  destruct Hc as [<-|[<-|Hc]].
  - apply has_column_In. apply (all_columns_in_In _ _ _ Hcols). simpl. tauto.
  - apply has_column_In. apply (all_columns_in_In _ _ _ Hcols). simpl. tauto.
  - unfold remove_columns in Hc. apply filter_In in Hc. tauto.
Qed.

Lemma step6_unique_complete_witness :
  exists w',
    step6_agg_daily O (world_after 5 blotter_two_days) = (Val O, w') /\
    index_names (deref w' O) = [] /\
    columns (deref w' O)
    = Lkid :: Date
      :: remove_columns [Lkid; Date]
           (columns (deref (world_after 5 blotter_two_days) O)) /\
    map fst (rows (deref w' O))
    = map (fun i => [VInt i]) (positions (nrows (deref w' O))) /\
    NoDup (map (fun lr => key_of [Lkid; Date] (snd lr)) (rows (deref w' O))) /\
    (nrows (deref w' O)
     <= List.length (group_keys [Date; Lkid]
                       (deref (world_after 5 blotter_two_days) O)))%nat /\
    forall lr' c, In lr' (rows (deref w' O)) -> In c (columns (deref w' O)) ->
                  isna (cell c (snd lr')) = false.
Proof.
  apply (step6_unique_complete 2 (world_after 5 blotter_two_days) O).
  - unfold valid. vm_compute. lia.
  - unfold enters_step6, pk_is_index.
    split; [split; vm_compute; reflexivity|].
    split; [vm_compute; reflexivity|].
    split; [vm_compute; reflexivity|].
    intros lr Hin. vm_compute in Hin.
    destruct Hin as [<-|[<-|[]]]; vm_compute; repeat split; reflexivity.
Defined.

(** ** Sorting *)

Section SortedFacts.
Variable A : Type.
Variable leb : A -> A -> bool.

Lemma insert_sorted_Sorted (x : A) (l : list A) :
  (forall y, In y l -> leb x y = true \/ leb y x = true) ->
  Sorted (fun a b => leb a b = true) l ->
  Sorted (fun a b => leb a b = true) (insert_sorted leb x l).
Proof.
  induction l as [|y tl IH]; intros Htot Hs; cbn [insert_sorted].
  - repeat constructor.
  - destruct (leb x y) eqn:E.
    + constructor; [exact Hs | constructor; exact E].
    + assert (Hyx : leb y x = true).
      { destruct (Htot y (or_introl eq_refl)) as [H|H]; [congruence | exact H]. }
      inversion Hs as [|? ? Hs' Hhd]; subst.
      constructor.
      * apply IH; [|exact Hs']. intros z Hz. apply Htot. right; exact Hz.
      * destruct tl as [|z tl']; cbn [insert_sorted].
        -- constructor. exact Hyx.
        -- destruct (leb x z); constructor; [exact Hyx|].
           inversion Hhd; assumption.
Qed.

Lemma isort_Sorted (l : list A) :
  (forall x y, In x l -> In y l -> leb x y = true \/ leb y x = true) ->
  Sorted (fun a b => leb a b = true) (isort leb l).
Proof.
  induction l as [|x l IH]; intros Htot; [constructor|].
  cbn [isort fold_right]. apply insert_sorted_Sorted.
  - intros y Hy. apply Htot; [left; reflexivity|]. right.
    apply (Permutation_in _ (Permutation_sym (isort_Permutation leb l))).
    exact Hy.
  - apply IH. intros a b Ha Hb. apply Htot; right; assumption.
Qed.
End SortedFacts.

Lemma Sorted_map_on {A B} (R : A -> A -> Prop) (Q : B -> B -> Prop)
  (f : A -> B) (l : list A) :
  (forall x y, R x y -> Q (f x) (f y)) ->
  Sorted R l -> Sorted Q (map f l).
Proof.
  intros H. induction 1 as [|a l Hs IH Hhd]; cbn [map]; constructor.
  - exact IH.
  - destruct Hhd; cbn [map]; constructor. apply H. assumption.
Qed.

Lemma Sorted_range_index {A} (Q : A -> A -> Prop) (l : list A) :
  Sorted Q l ->
  forall s, Sorted (fun a b : label * A => Q (snd a) (snd b)) (range_index s l).
Proof.
  induction 1 as [|a l Hs IH Hhd]; intros s; cbn [range_index]; constructor.
  - apply IH.
  - destruct Hhd; cbn [range_index]; constructor. exact H.
Qed.

Lemma value_eqb_sym (a b : value) : value_eqb a b = value_eqb b a.
Proof.
  apply Bool.eq_iff_eq_true. rewrite !value_eqb_eq. split; congruence.
Qed.

Lemma label_leb_total_keys (a b a' b' : value) :
  is_str a = true -> is_str a' = true ->
  is_date b = true -> is_date b' = true ->
  label_leb [a; b] [a'; b'] = true \/ label_leb [a'; b'] [a; b] = true.
Proof.
  intros Ha Ha' Hb Hb'. cbn [label_leb].
  rewrite (value_eqb_sym a' a), (value_eqb_sym b' b).
  destruct (value_eqb a a').
  - destruct (value_eqb b b'); [left; reflexivity|].
    destruct b, b'; try discriminate. cbn [value_leb].
    rewrite !Z.leb_le. lia.
  - apply value_leb_str_total; assumption.
Qed.

Lemma Sorted_weaken_in {A} (R Q : A -> A -> Prop) (l : list A) :
  (forall x y, In x l -> In y l -> R x y -> Q x y) ->
  Sorted R l -> Sorted Q l.
Proof.
  intros H Hs. induction Hs as [|a l Hs IH Hhd]; constructor.
  - apply IH. intros x y Hx Hy. apply H; right; assumption.
  - destruct Hhd; constructor. apply H; [left; reflexivity | right; left; reflexivity | assumption].
Qed.

(** X9. When, moreover, every [lkid] of the frame that enters step 6 is
    a string and every [date] a date, the rows that step 6 leaves are in
    ascending order of (lkid, date). *)
Theorem step6_sorted :
  forall (n : nat) (w : world) (o : obj),
    valid w o ->
    enters_step6 n (deref w o) ->
    (forall lr, In lr (rows (deref w o)) ->
                is_str (cell Lkid (snd lr)) = true /\
                is_date (cell Date (snd lr)) = true) ->
    exists w',
      step6_agg_daily o w = (Val o, w') /\
      Sorted (fun a b : label * row =>
                label_leb (key_of [Lkid; Date] (snd a))
                          (key_of [Lkid; Date] (snd b)) = true)
             (rows (deref w' o)).
Proof.
  intros n w o Hv Hd Hkeys.
  destruct (step6_aggregates n _ Hd) as [another_df [Hagg HF]].
  eexists. split; [apply (step6_completes w o _ Hv HF)|].
  rewrite (deref_set_obj_same w o _ Hv).
  set (d := deref w o) in *.
  set (M := map (step6_merged another_df (columns d)) (rows d)).
  set (L := map (fun lr : label * row =>
                   ([cell Lkid (snd lr); cell Date (snd lr)],
                    clear_cells [Lkid; Date] (snd lr)))
                (filter (complete_row (columns d)) M)).
  assert (HL : forall x, In x L ->
             key_of [Lkid; Date] (set_cells [Lkid; Date] (fst x) (snd x)) = fst x /\
             exists a b, fst x = [a; b] /\ is_str a = true /\ is_date b = true).
  { intros x Hx. unfold L in Hx. apply in_map_iff in Hx.
    destruct Hx as [m [<- Hm]]. cbn [fst snd].
    rewrite restore_cleared_key. split; [reflexivity|].
    apply filter_In in Hm. destruct Hm as [Hm Hc].
    unfold M in Hm. apply in_map_iff in Hm. destruct Hm as [lr [<- Hin]].
    pose proof Hagg as [_ [Hac [Hlab [Hak Hna]]]].
    pose proof Hd as [Hpk _].
    destruct (pk_label_nat n d lr Hpk Hin) as [j Hj].
    pose proof (step6_merged_row n d another_df Hd Hac Hlab Hna lr j Hin Hj)
      as Hrow.
    destruct (nth_error (rows another_df) j) as [a|] eqn:En; [|congruence].
    destruct Hrow as [H1 _].
    rewrite (H1 Lkid), (H1 Date) by (unfold step6_aggregated; simpl; tauto).
    do 2 eexists. split; [reflexivity|].
    assert (Hk : In (key_of [Date; Lkid] (snd a)) (group_keys [Date; Lkid] d)).
    { rewrite <- Hak. apply in_map_iff. exists a. split; [reflexivity|].
      eapply nth_error_In; exact En. }
    apply group_keys_In in Hk. destruct Hk as [_ [lr0 [Hin0 Hk0]]].
    cbn [key_of map] in Hk0. injection Hk0 as ED EL.
    rewrite <- EL, <- ED. destruct (Hkeys lr0 Hin0). split; assumption. }
  unfold step6_result. cbn [rows]. fold M. fold L.
  apply Sorted_range_index with
    (Q := fun r r' : row =>
            label_leb (key_of [Lkid; Date] r) (key_of [Lkid; Date] r') = true).
  assert (Hs : Sorted (fun x y : label * row => label_leb (fst x) (fst y) = true)
                      (isort (fun x y : label * row => label_leb (fst x) (fst y)) L)).
  { apply isort_Sorted. intros x y Hx Hy. cbv beta.
    destruct (HL x Hx) as [_ [a [b [Ex [Ha Hb]]]]].
    destruct (HL y Hy) as [_ [a' [b' [Ey [Ha' Hb']]]]].
    destruct x as [lx rx], y as [ly ry]. cbn [fst] in *. subst lx ly.
    apply label_leb_total_keys; assumption. }
  assert (Hin : forall x,
             In x (isort (fun x y : label * row => label_leb (fst x) (fst y)) L) ->
             In x L).
  { intros x Hx.
    apply (Permutation_in _
             (Permutation_sym
                (isort_Permutation
                   (fun x y : label * row => label_leb (fst x) (fst y)) L))).
    exact Hx. }
  apply (Sorted_weaken_in _
           (fun x y : label * row =>
              label_leb (key_of [Lkid; Date] (set_cells [Lkid; Date] (fst x) (snd x)))
                        (key_of [Lkid; Date] (set_cells [Lkid; Date] (fst y) (snd y)))
              = true)) in Hs.
  - apply (Sorted_map_on
             (fun x y : label * row =>
                label_leb (key_of [Lkid; Date] (set_cells [Lkid; Date] (fst x) (snd x)))
                          (key_of [Lkid; Date] (set_cells [Lkid; Date] (fst y) (snd y)))
                = true)
             (fun r r' : row =>
                label_leb (key_of [Lkid; Date] r) (key_of [Lkid; Date] r') = true)
             (fun lr : label * row => set_cells [Lkid; Date] (fst lr) (snd lr))
             _ (fun x y H => H) Hs).
  - intros x y Hx Hy Hxy. cbv beta in *.
    pose proof (proj1 (HL x (Hin x Hx))) as Ex.
    pose proof (proj1 (HL y (Hin y Hy))) as Ey.
    destruct x as [lx rx], y as [ly ry]. cbn [fst snd] in *.
    rewrite Ex, Ey. exact Hxy.
Qed.

Lemma step6_sorted_witness :
  exists w',
    step6_agg_daily O (world_after 5 blotter_two_days) = (Val O, w') /\
    Sorted (fun a b : label * row =>
              label_leb (key_of [Lkid; Date] (snd a))
                        (key_of [Lkid; Date] (snd b)) = true)
           (rows (deref w' O)).
Proof.
  apply (step6_sorted 2 (world_after 5 blotter_two_days) O).
  - unfold valid. vm_compute. lia.
  - unfold enters_step6, pk_is_index.
    split; [split; vm_compute; reflexivity|].
    split; [vm_compute; reflexivity|].
    split; [vm_compute; reflexivity|].
    intros lr Hin. vm_compute in Hin.
    destruct Hin as [<-|[<-|[]]]; vm_compute; repeat split; reflexivity.
  - intros lr Hin. vm_compute in Hin.
    destruct Hin as [<-|[<-|[]]]; vm_compute; split; reflexivity.
Defined.

(* ================================================================== *)
(** * The columns of the frame through the stages *)
(* ================================================================== *)

Lemma has_column_added (x c : column) (cols : list column) :
  has_column x (if has_column c cols then cols else cols ++ [c])
  = has_column x cols || column_eqb x c.
Proof.
  destruct (column_eqb x c) eqn:E.
  - apply column_eqb_eq in E. subst x. rewrite has_column_setitem_columns.
    rewrite orb_true_r. reflexivity.
  - rewrite has_column_setitem_other by (intros ->; rewrite column_eqb_refl in E; discriminate).
    rewrite orb_false_r. reflexivity.
Qed.

Lemma assign_rowwise_columns (c : column) (f : row -> result value)
  (d d' : DataFrame) :
  assign_rowwise c f d = Ok d' ->
  columns d' = (if has_column c (columns d) then columns d else (columns d ++ [c])%list)
  /\ index_names d' = index_names d.
Proof.
  unfold assign_rowwise. destruct (rmap _ (rows d)); cbn [rbind]; [|discriminate].
  intros H. injection H as <-. split; reflexivity.
Qed.

Lemma apply_column_columns (c : column) (f : value -> result value)
  (d d' : DataFrame) :
  apply_column c f d = Ok d' ->
  columns d' = columns d /\ index_names d' = index_names d.
Proof.
  unfold apply_column, getitem.
  destruct (has_column c (columns d)) eqn:E; cbn [rbind]; [|discriminate].
  intros H. apply assign_rowwise_columns in H. rewrite E in H. exact H.
Qed.

Lemma step2_frame_columns (to_datetime : string -> result Z) (d d' : DataFrame) :
  step2_frame to_datetime d = Ok d' ->
  columns d' = columns d /\ index_names d' = index_names d.
Proof.
  unfold step2_frame.
  destruct (astype_ordered_category Sector d) as [d1|] eqn:E1; cbn [rbind];
    [|discriminate].
  destruct (rename_categories Sector rename_sector d1) as [d2|] eqn:E2;
    cbn [rbind]; [|discriminate].
  destruct (apply_column Pal Decimal_of_value d2) as [d3|] eqn:E3;
    cbn [rbind]; [|discriminate].
  destruct (apply_column Exposure Decimal_of_value d3) as [d4|] eqn:E4;
    cbn [rbind]; [|discriminate].
  intros E5.
  apply apply_column_columns in E3, E4, E5.
  assert (H1 : columns d1 = columns d /\ index_names d1 = index_names d).
  { unfold astype_ordered_category in E1.
    destruct (getitem Sector d); cbn [rbind] in E1; [|discriminate].
    destruct (rmap _ (rows d)); cbn [rbind] in E1; [|discriminate].
    injection E1 as <-. split; reflexivity. }
  assert (H2 : columns d2 = columns d1 /\ index_names d2 = index_names d1).
  { unfold rename_categories in E2.
    destruct (getitem Sector d1); cbn [rbind] in E2; [|discriminate].
    destruct (nodup_strings _); [|discriminate].
    injection E2 as <-. split; reflexivity. }
  destruct H1, H2, E3, E4, E5. split; congruence.
Qed.

Lemma step3_frame_columns (d d' : DataFrame) :
  step3_frame d = Ok d' ->
  columns d' = (if has_column Ticker (columns d) then columns d
                else (columns d ++ [Ticker])%list)
  /\ index_names d' = index_names d.
Proof.
  unfold step3_frame. destruct (has_column Ticker (columns d)) eqn:E; cbn [negb].
  - intros H. injection H as <-. split; reflexivity.
  - intros H. apply assign_rowwise_columns in H. rewrite E in H. exact H.
Qed.

Lemma step4_frame_columns (d d' : DataFrame) :
  step4_frame d = Ok d' ->
  columns d' = (if has_column OpenLiq (columns d) then columns d
                else (columns d ++ [OpenLiq])%list)
  /\ index_names d' = index_names d.
Proof.
  unfold step4_frame. cbv zeta.
  destruct (groupby [Lkid; Ticker] (setitem OpenLiq VNone d)) as [gs|];
    cbn [rbind]; [|discriminate].
  intros H. destruct (merge_partitions_shape _ _ _ _ H) as [Hc [Hi _]].
  split; [exact Hc | exact Hi].
Qed.

Lemma step5_frame_columns (d d' : DataFrame) :
  step5_frame d = Ok d' ->
  columns d' = step5_columns (columns d) /\ index_names d' = [Index].
Proof.
  unfold step5_frame. cbv zeta.
  destruct (set_index [Index] d) as [d1|] eqn:E1; cbn [rbind]; [|discriminate].
  destruct (step5_prefix_frame _ _ E1) as [_ Hd2]. rewrite Hd2.
  destruct (groupby [Date] _) as [gs|]; cbn [rbind]; [|discriminate].
  intros H. destruct (merge_partitions_shape _ _ _ _ H) as [Hc [Hi _]].
  split; [exact Hc | exact Hi].
Qed.

Lemma step6_frame_columns (d d' : DataFrame) :
  index_names d = [Index] ->
  step6_frame d = Ok d' ->
  exists rest,
    columns d' = Lkid :: Date :: rest /\
    forall x, has_column x rest
              = (has_column x (columns d) || has_column x [Pal; Exposure; Return])
                && negb (has_column x [Index; Lkid; Date]).
Proof.
  intros Hi. unfold step6_frame.
  destruct (reset_index d) as [d1|] eqn:E1; cbn [rbind]; [|discriminate].
  assert (H1 : columns d1 = Index :: columns d /\ index_names d1 = []).
  { unfold reset_index in E1. rewrite Hi in E1.
    destruct (_ || _); [discriminate|]. injection E1 as <-.
    split; reflexivity. }
  destruct H1 as [Hc1 Hi1].
  destruct (step6_another_df d1) as [another_df|]; cbn [rbind]; [|discriminate].
  destruct (set_index [Index] _) as [d3|] eqn:E3; cbn [rbind]; [|discriminate].
  destruct (update d3 another_df) as [d4|] eqn:E4; cbn [rbind]; [|discriminate].
  destruct (set_index [Lkid; Date] (dropna d4)) as [d5|] eqn:E5; cbn [rbind];
    [|discriminate].
  intros E6.
  apply set_index_columns in E3. destruct E3 as [Hc3 _].
  apply update_columns in E4. destruct E4 as [Hc4 _].
  apply set_index_columns in E5. destruct E5 as [Hc5 [Hi5 _]].
  unfold reset_index in E6. cbn [sort_index with_rows index_names columns] in E6.
  rewrite Hi5 in E6. destruct (_ || _); [discriminate|]. injection E6 as <-.
  cbn [columns app]. eexists. split; [reflexivity|].
  intros x. rewrite Hc5. cbn [dropna with_rows columns]. rewrite Hc4, Hc3.
  cbn [setitem columns]. rewrite !has_column_remove_columns, !has_column_added.
  rewrite Hc1. cbn [has_column existsb].
  destruct x; cbn [column_eqb orb andb negb];
    rewrite ?orb_false_r, ?orb_true_r, ?andb_true_r, ?andb_false_r; reflexivity.
Qed.

Lemma step1_frame_columns (n : nat) (d d' : DataFrame) :
  csv_frame n d -> step1_frame d = Ok d' ->
  columns d' = Index :: columns d /\ index_names d' = [].
Proof.
  intros [cols [rs [-> [Hc _]]]]. unfold step1_frame, reset_index, frame_of_rows.
  cbn [index_names columns rows existsb]. rewrite Hc.
  cbn [existsb nodup_columns has_column orb negb andb]. rewrite Hc. cbn [orb].
  intros H. injection H as <-. split; reflexivity.
Qed.

Lemma blottercli_frames (to_datetime : string -> result Z) (eager : bool)
  (n : nat) (input d : DataFrame) (w : world) :
  csv_frame n input ->
  blottercli to_datetime eager input = (Val d, w) ->
  frames (PIPELINE_FRAMES to_datetime) input = Ok d.
Proof.
  intros Hin H. unfold blottercli in H.
  pose proof (run_prefix_frame to_datetime eager n 6 input ltac:(lia) Hin) as R.
  change (firstn 6 (PIPELINE_STEPS to_datetime))
    with (PIPELINE_STEPS to_datetime) in R.
  change (firstn 6 (PIPELINE_FRAMES to_datetime))
    with (PIPELINE_FRAMES to_datetime) in R.
  destruct (frames (PIPELINE_FRAMES to_datetime) input) as [d'|e].
  - destruct R as [e' [w' [R [Hd _]]]]. rewrite R in H.
    injection H as <- _. rewrite Hd. reflexivity.
  - destruct R as [w' R]. rewrite R in H. discriminate.
Qed.

(** X10. The columns of the frame that a completed run leaves, in either
    mode, on an input with the default index and the columns [date],
    [lkid], [pal] and [exposure]: [lkid] and [date] come first; the
    columns are those of the input together with [ticker], [open_liq] and
    [return], and without ["index"]; so, when the input has [analyst] and
    [sector] as well, every column that [to_csv] is asked to write is
    there. *)
Theorem pipeline_output_columns :
  forall (to_datetime : string -> result Z) (eager : bool) (n : nat)
         (input d : DataFrame) (w : world),
    csv_frame n input ->
    all_columns_in [Date; Lkid; Pal; Exposure] (columns input) = true ->
    blottercli to_datetime eager input = (Val d, w) ->
    (exists rest, columns d = Lkid :: Date :: rest) /\
    (forall x, has_column x (columns d)
               = (has_column x (columns input)
                  || has_column x [Ticker; OpenLiq; Return])
                 && negb (column_eqb x Index)) /\
    (all_columns_in [Analyst; Sector] (columns input) = true ->
     all_columns_in OUTPUT_COLUMNS (columns d) = true).
Proof.
  intros to_datetime eager n input d w Hin Hcols H.
  pose proof (blottercli_frames to_datetime eager n input d w Hin H) as HF.
  unfold PIPELINE_FRAMES in HF. cbn [frames] in HF.
  destruct (step1_frame input) as [d1|] eqn:E1; cbn [rbind] in HF; [|discriminate].
  destruct (step2_frame to_datetime d1) as [d2|] eqn:E2; cbn [rbind] in HF;
    [|discriminate].
  destruct (step3_frame d2) as [d3|] eqn:E3; cbn [rbind] in HF; [|discriminate].
  destruct (step4_frame d3) as [d4|] eqn:E4; cbn [rbind] in HF; [|discriminate].
  destruct (step5_frame d4) as [d5|] eqn:E5; cbn [rbind] in HF; [|discriminate].
  destruct (step6_frame d5) as [d6|] eqn:E6; cbn [rbind] in HF; [|discriminate].
  injection HF as <-.
  destruct (step1_frame_columns n _ _ Hin E1) as [C1 _].
  destruct (step2_frame_columns _ _ _ E2) as [C2 _].
  destruct (step3_frame_columns _ _ E3) as [C3 _].
  destruct (step4_frame_columns _ _ E4) as [C4 _].
  destruct (step5_frame_columns _ _ E5) as [C5 I5].
  destruct (step6_frame_columns _ _ I5 E6) as [rest [C6 Hrest]].
  assert (Hin0 : has_column Index (columns input) = false).
  { destruct Hin as [cols [rs [-> [Hc _]]]]. exact Hc. }
  assert (HD : has_column Date (columns input) = true)
    by (apply (all_columns_in_In _ _ _ Hcols); simpl; tauto).
  assert (HL : has_column Lkid (columns input) = true)
    by (apply (all_columns_in_In _ _ _ Hcols); simpl; tauto).
  assert (HP : has_column Pal (columns input) = true)
    by (apply (all_columns_in_In _ _ _ Hcols); simpl; tauto).
  assert (HE : has_column Exposure (columns input) = true)
    by (apply (all_columns_in_In _ _ _ Hcols); simpl; tauto).
  assert (Hall : forall x, has_column x (columns d6)
               = (has_column x (columns input)
                  || has_column x [Ticker; OpenLiq; Return])
                 && negb (column_eqb x Index)).
  { intros x. rewrite C6.
    change (has_column x (Lkid :: Date :: rest))
      with (column_eqb x Lkid || (column_eqb x Date || has_column x rest)).
    rewrite Hrest, C5, has_column_step5_columns, C4, has_column_added, C3,
      has_column_added, C2, C1.
    change (has_column x (Index :: columns input))
      with (column_eqb x Index || has_column x (columns input)).
    cbn [has_column existsb].
    destruct x; cbn [column_eqb orb andb negb];
      rewrite ?Hin0, ?HD, ?HL, ?HP, ?HE;
      rewrite ?orb_false_r, ?orb_true_r, ?andb_true_r, ?andb_false_r;
      reflexivity. }
  split; [exists rest; exact C6|]. split; [exact Hall|].
  intros HAS.
  assert (HA : has_column Analyst (columns input) = true)
    by (apply (all_columns_in_In _ _ _ HAS); simpl; tauto).
  assert (HS : has_column Sector (columns input) = true)
    by (apply (all_columns_in_In _ _ _ HAS); simpl; tauto).
  unfold OUTPUT_COLUMNS, all_columns_in. cbn [forallb].
  rewrite !Hall, HD, HL, HP, HE, HA, HS.
  cbn [has_column existsb column_eqb orb andb negb].
  rewrite orb_true_r. reflexivity.
Qed.

Lemma pipeline_output_columns_witness :
  (exists rest,
      columns (deref (snd (blottercli iso_date true blotter_two_days)) O)
      = Lkid :: Date :: rest) /\
  (forall x,
      has_column x (columns (deref (snd (blottercli iso_date true blotter_two_days)) O))
      = (has_column x (columns blotter_two_days)
         || has_column x [Ticker; OpenLiq; Return])
        && negb (column_eqb x Index)) /\
  (all_columns_in [Analyst; Sector] (columns blotter_two_days) = true ->
   all_columns_in OUTPUT_COLUMNS
     (columns (deref (snd (blottercli iso_date true blotter_two_days)) O)) = true).
Proof.
  apply (pipeline_output_columns iso_date true 2 blotter_two_days
           (deref (snd (blottercli iso_date true blotter_two_days)) O)
           (snd (blottercli iso_date true blotter_two_days))).
  - unfold csv_frame, blotter_two_days. do 2 eexists.
    split; [reflexivity|]. split; reflexivity.
  - reflexivity.
  - vm_compute. reflexivity.
Defined.

(* ================================================================== *)
(** * Step 4 on the whole frame *)
(* ================================================================== *)

Lemma value_sub_not_na (a b v : value) : value_sub a b = Ok v -> isna v = false.
Proof.
  destruct a, b; cbn [value_sub]; intros H; try discriminate;
    injection H as <-; reflexivity.
Qed.

Lemma step4_imputed_row (rc r' : row) (v : value) :
  (let r0 := set_cell OpenLiq v rc in
   if isna (cell OpenLiq r0)
   then impute_first_day_open_liq r0 = Ok r'
   else r' = r0) ->
  (forall c, c <> OpenLiq -> cell c r' = cell c rc) /\
  isna (cell OpenLiq r') = false.
Proof.
  cbv zeta. rewrite cell_set_cell_same. destruct (isna v) eqn:Ev.
  - intros H. apply impute_first_day_open_liq_inv in H.
    destruct H as [v' [Hv' ->]]. split.
    + intros c Hc. rewrite !cell_set_cell_other by exact Hc. reflexivity.
    + rewrite cell_set_cell_same. apply (value_sub_not_na _ _ _ Hv').
  - intros ->. split.
    + intros c Hc. apply cell_set_cell_other. exact Hc.
    + rewrite cell_set_cell_same. exact Ev.
Qed.

Lemma step4_open_liq_columns (g p : DataFrame) :
  step4_open_liq g = Ok p ->
  columns p = [Index; Analyst; Sector; Pal; Exposure; OpenLiq].
Proof.
  unfold step4_open_liq.
  destruct (step4_collapse g) as [c|] eqn:Ec; cbn [rbind]; [|discriminate].
  unfold step4_collapse in Ec. apply agg_true_rows in Ec.
  destruct Ec as [_ [Hc _]]. cbn [map fst] in Hc.
  destruct (getitem Exposure c) as [ex|]; cbn [rbind]; [|discriminate].
  destruct (shift_days (-1) ex) as [sh|]; cbn [rbind]; [|discriminate].
  unfold setitem_series. destruct (nodup_labels (map fst sh)); cbn [rbind];
    [|discriminate].
  unfold apply_rows_where. cbn [rows columns].
  destruct (rmap _ _); cbn [rbind]; [|discriminate].
  intros H. injection H as <-. cbn [with_rows columns]. rewrite Hc. reflexivity.
Qed.

Lemma Forall2_map_map {A B C D} (R : A -> B -> Prop) (Q : C -> D -> Prop)
  (h : A -> C) (f : B -> D) (l : list A) (l' : list B) :
  Forall2 R l l' ->
  (forall a b, In a l -> R a b -> Q (h a) (f b)) ->
  Forall2 Q (map h l) (map f l').
Proof.
  induction 1 as [|a b l l' Hab _ IH]; intros H; cbn [map]; constructor.
  - apply H; [left; reflexivity | exact Hab].
  - apply IH. intros x y Hx. apply H. right; exact Hx.
Qed.

(** The frame that step 4 merges back for one (lkid, ticker) group: one
    row per date of the group, labelled with the least ["index"] of the
    rows of that date. *)
Lemma step4_partition_rows (g p : DataFrame) :
  all_columns_in [Index; Analyst; Sector; Pal; Exposure] (columns g) = true ->
  step4_partition g = Ok p ->
  columns p = [Analyst; Sector; Pal; Exposure; OpenLiq] /\
  Forall2 (fun x lr' =>
             fst lr' = [series_min (series_of Index (group_rows [Date] x g))] /\
             cell Analyst (snd lr')
             = series_min (series_of Analyst (group_rows [Date] x g)) /\
             cell Sector (snd lr')
             = series_min (series_of Sector (group_rows [Date] x g)) /\
             agg_sum (series_of Pal (group_rows [Date] x g))
             = Ok (cell Pal (snd lr')) /\
             agg_sum (series_of Exposure (group_rows [Date] x g))
             = Ok (cell Exposure (snd lr')) /\
             isna (cell OpenLiq (snd lr')) = false)
          (group_keys [Date] g) (rows p).
Proof.
  intros Hcols. unfold step4_partition.
  destruct (step4_open_liq g) as [imp|] eqn:Ei; cbn [rbind]; [|discriminate].
  intros Hp. apply set_index_columns in Hp. destruct Hp as [Hc [_ Hr]].
  rewrite (step4_open_liq_columns _ _ Ei) in Hc.
  split; [exact Hc|].
  destruct (step4_open_liq_inv _ _ Ei) as [c [sh [Hcl [_ [_ [_ HF]]]]]].
  destruct (step4_collapse_rows _ _ Hcols Hcl) as [Hkeys Hrows].
  rewrite Hr, <- Hkeys.
  apply (Forall2_map_map _ _ _ _ _ _ HF).
  intros [k rc] b Hin [Hl Hb]. cbn [fst snd] in *.
  destruct (step4_imputed_row _ _ _ Hb) as [Hsame Hna].
  destruct (Hrows k rc Hin) as [vp [ve [Hvp [Hve Hrc]]]].
  cbn [map].
  rewrite !clear_cells_other by reflexivity.
  rewrite !Hsame by discriminate. rewrite Hrc.
  repeat split; try reflexivity; assumption.
Qed.

Lemma is_int_not_na (v : value) : is_int v = true -> isna v = false.
Proof. destruct v; try discriminate; reflexivity. Qed.

Lemma value_leb_int_total (a b : value) :
  is_int a = true -> is_int b = true ->
  value_leb a b = true \/ value_leb b a = true.
Proof.
  destruct a, b; try discriminate. intros _ _. cbn [value_leb].
  rewrite !Z.leb_le. lia.
Qed.

Lemma value_leb_int_trans (a b c : value) :
  is_int a = true -> is_int b = true -> is_int c = true ->
  value_leb a b = true -> value_leb b c = true -> value_leb a c = true.
Proof.
  destruct a, b, c; try discriminate. intros _ _ _. cbn [value_leb].
  rewrite !Z.leb_le. lia.
Qed.

Lemma series_min_index_in (S : list (label * row)) :
  S <> [] ->
  (forall lr, In lr S -> is_int (cell Index (snd lr)) = true) ->
  exists lr, In lr S /\ cell Index (snd lr) = series_min (series_of Index S).
Proof.
  intros Hne Hint.
  destruct (series_min_least is_int is_int_not_na value_leb_int_total
              value_leb_int_trans (series_of Index S)) as [_ [Hin _]].
  - destruct S; [congruence | discriminate].
  - intros lv Hlv. apply in_map_iff in Hlv. destruct Hlv as [lr [<- Hlr]].
    cbn [snd]. apply Hint. exact Hlr.
  - rewrite map_snd_series_of in Hin. unfold values_of in Hin.
    apply in_map_iff in Hin. destruct Hin as [lr [E Hlr]]. exists lr. auto.
Qed.

Lemma filter_filter_and {A} (f g : A -> bool) (l : list A) :
  filter f (filter g l) = filter (fun x => g x && f x) l.
Proof.
  induction l as [|x l IH]; [reflexivity|]. cbn [filter].
  destruct (g x); cbn [filter andb]; [destruct (f x)|]; rewrite IH; reflexivity.
Qed.

(** The rows of one date inside a (lkid, ticker) group are a collision
    group of the frame. *)
Lemma group_rows_nested (D : DataFrame) (a b c : value) :
  group_rows [Date] [c] (with_rows D (group_rows [Lkid; Ticker] [a; b] D))
  = group_rows [Lkid; Ticker; Date] [a; b; c] D.
Proof.
  unfold group_rows, with_rows. cbn [rows]. rewrite filter_filter_and.
  apply filter_ext_in_eq. intros lr _. cbn [key_of map label_eqb].
  rewrite !andb_true_r. rewrite andb_assoc. reflexivity.
Qed.

Lemma pk_ok_int (n : nat) (d : DataFrame) (lr : label * row) :
  pk_ok n d -> In lr (rows d) -> is_int (cell Index (snd lr)) = true.
Proof.
  intros Hpk Hin. unfold pk_ok in Hpk.
  assert (H : In (fst lr, cell Index (snd lr))
                 (map (fun lr => (fst lr, cell Index (snd lr))) (rows d)))
    by (apply in_map_iff; exists lr; auto).
  rewrite Hpk in H. apply in_map_iff in H. destruct H as [i [E _]].
  injection E as _ <-. reflexivity.
Qed.

Lemma pk_ok_labels_NoDup (n : nat) (d : DataFrame) :
  pk_ok n d -> NoDup (map fst (rows d)).
Proof.
  intros Hpk. pose proof (pk_ok_index_NoDup n d Hpk) as H.
  erewrite map_ext_in; [exact H|].
  intros lr Hin. apply (pk_ok_labelled n d Hpk lr Hin).
Qed.

Lemma collision_group_setitem (d : DataFrame) (k : label) :
  group_rows [Lkid; Ticker; Date] k (setitem OpenLiq VNone d)
  = map (fun lr => (fst lr, set_cell OpenLiq VNone (snd lr)))
        (group_rows [Lkid; Ticker; Date] k d).
Proof.
  destruct d as [i cs rs]. unfold setitem. cbn [rows columns index_names].
  apply (group_rows_mapped [Lkid; Ticker; Date]
           (fun lr : label * row => (fst lr, set_cell OpenLiq VNone (snd lr)))).
  intros lr. cbn [snd]. apply key_of_set_cell. reflexivity.
Qed.

Lemma series_of_setitem (c : column) (rs : list (label * row)) :
  c <> OpenLiq ->
  series_of c (map (fun lr => (fst lr, set_cell OpenLiq VNone (snd lr))) rs)
  = series_of c rs.
Proof.
  intros Hc. unfold series_of. rewrite map_map. apply map_ext.
  intros lr. cbn [fst snd]. rewrite cell_set_cell_other by exact Hc.
  reflexivity.
Qed.

(** The label of a row of a partition of step 4 is the label of a row of
    the group, the one with the least ["index"] of its date. *)
Lemma step4_partition_label (G p : DataFrame) (lr' : label * row) :
  (forall lr, In lr (rows G) ->
              fst lr = [cell Index (snd lr)] /\
              is_int (cell Index (snd lr)) = true) ->
  all_columns_in [Index; Analyst; Sector; Pal; Exposure] (columns G) = true ->
  step4_partition G = Ok p -> In lr' (rows p) ->
  exists x m,
    In x (group_keys [Date] G) /\ In m (group_rows [Date] x G) /\
    fst lr' = fst m /\
    cell Index (snd m) = series_min (series_of Index (group_rows [Date] x G)).
Proof.
  intros Hlab Hcols Hp Hin.
  destruct (step4_partition_rows _ _ Hcols Hp) as [_ HR].
  destruct (Forall2_In_r _ _ _ _ HR Hin) as [x [Hx [Hf _]]].
  assert (Hne : group_rows [Date] x G <> []).
  { pose proof Hx as Hx'. apply group_keys_In in Hx'.
    destruct Hx' as [_ [lr [Hlr Hk]]].
    assert (H0 : In lr (group_rows [Date] x G))
      by (apply group_rows_In; auto).
    intros E. rewrite E in H0. destruct H0. }
  destruct (series_min_index_in (group_rows [Date] x G) Hne) as [m [Hm Em]].
  - intros lr Hlr. apply group_rows_In in Hlr. apply Hlab. apply Hlr.
  - exists x, m. split; [exact Hx|]. split; [exact Hm|]. split; [|exact Em].
    pose proof Hm as HmG. apply group_rows_In in HmG.
    destruct (Hlab m (proj1 HmG)) as [E1 _]. rewrite E1, Em. exact Hf.
Qed.

Lemma Forall2_conj {A B} (P Q : A -> B -> Prop) (l : list A) (l' : list B) :
  Forall2 P l l' -> Forall2 Q l l' -> Forall2 (fun a b => P a b /\ Q a b) l l'.
Proof.
  induction 1 as [|a b l l' Hab _ IH]; intros H; inversion H; subst;
    constructor; auto.
Qed.

(** The [open_liq] of the frame that step 4 merges back for one
    (lkid, ticker) group: the exposure of the next day when the group has
    rows of that day, [exposure - pal] of the day itself when it has
    none. *)
Lemma step4_partition_open_liq (g p : DataFrame) :
  all_columns_in [Index; Analyst; Sector; Pal; Exposure] (columns g) = true ->
  step4_partition g = Ok p ->
  Forall2 (fun x lr' =>
             forall z, x = [VDate z] ->
               (In [VDate (z + 1)] (group_keys [Date] g) ->
                agg_sum (series_of Exposure
                           (group_rows [Date] [VDate (z + 1)] g))
                = Ok (cell OpenLiq (snd lr'))) /\
               (~ In [VDate (z + 1)] (group_keys [Date] g) ->
                value_sub (cell Exposure (snd lr')) (cell Pal (snd lr'))
                = Ok (cell OpenLiq (snd lr'))))
          (group_keys [Date] g) (rows p).
Proof.
  intros Hcols. unfold step4_partition.
  destruct (step4_open_liq g) as [imp|] eqn:Ei; cbn [rbind]; [|discriminate].
  intros Hp. apply set_index_columns in Hp. destruct Hp as [_ [_ Hr]].
  destruct (step4_open_liq_rule g imp Hcols Ei) as [Hkeys [_ [Hsums Hrule]]].
  rewrite Hr, <- Hkeys. apply Forall2_map_both.
  intros [k r] Hin z Hz. cbn [fst snd] in *. subst k.
  destruct (Hrule z r Hin) as [H1 H2].
  rewrite !clear_cells_other by reflexivity. split.
  - intros Hk. apply in_map_iff in Hk.
    destruct Hk as [[l' r'] [El Hin']]. cbn [fst] in El. subst l'.
    rewrite (H1 r' Hin'). apply (Hsums _ _ Hin').
  - intros Hk. apply H2. intros r' Hin'. apply Hk.
    apply in_map_iff. exists ([VDate (z + 1)], r'). auto.
Qed.

(** Step 4 as a function of frames, row by row. *)
Lemma step4_frame_rows (n : nat) (d d' : DataFrame) :
  pk_ok n d ->
  all_columns_in [Index; Analyst; Sector; Pal; Exposure] (columns d) = true ->
  step4_frame d = Ok d' ->
  Forall2 (fun lr lr' =>
             fst lr' = fst lr /\
             (forall c, has_column c step4_written = false ->
                        cell c (snd lr') = cell c (snd lr)) /\
             if is_representative d (snd lr)
             then cell Analyst (snd lr')
                  = coalesce (series_min (series_of Analyst
                                            (collision_group d (snd lr))))
                             (cell Analyst (snd lr)) /\
                  cell Sector (snd lr')
                  = coalesce (series_min (series_of Sector
                                            (collision_group d (snd lr))))
                             (cell Sector (snd lr)) /\
                  agg_sum (series_of Pal (collision_group d (snd lr)))
                  = Ok (cell Pal (snd lr')) /\
                  agg_sum (series_of Exposure (collision_group d (snd lr)))
                  = Ok (cell Exposure (snd lr')) /\
                  isna (cell OpenLiq (snd lr')) = false /\
                  forall z, cell Date (snd lr) = VDate z ->
                    (next_day_group d (snd lr) z <> [] ->
                     agg_sum (series_of Exposure (next_day_group d (snd lr) z))
                     = Ok (cell OpenLiq (snd lr'))) /\
                    (next_day_group d (snd lr) z = [] ->
                     value_sub (cell Exposure (snd lr')) (cell Pal (snd lr'))
                     = Ok (cell OpenLiq (snd lr')))
             else cell OpenLiq (snd lr') = VNone /\
                  forall c, c <> OpenLiq -> cell c (snd lr') = cell c (snd lr))
          (rows d) (rows d').
Proof.
  intros Hpk Hcols H. unfold step4_frame in H. cbv zeta in H.
  set (T := fun lr : label * row => (fst lr, set_cell OpenLiq VNone (snd lr))).
  set (D := setitem OpenLiq VNone d) in *.
  assert (HrD : rows D = map T (rows d)) by reflexivity.
  assert (HcD : all_columns_in [Index; Analyst; Sector; Pal; Exposure]
                               (columns D) = true).
  { unfold D, setitem. cbn [columns].
    rewrite all_columns_in_setitem; [exact Hcols | reflexivity]. }
  assert (HoD : has_column OpenLiq (columns D) = true).
  { unfold D, setitem. cbn [columns]. apply has_column_setitem_columns. }
  unfold groupby in H.
  destruct (all_columns_in [Lkid; Ticker] (columns D)); cbn [rbind] in H;
    [|discriminate].
  destruct (merge_partitions_rows _ _ _ _ H) as [ps [HF [Hnds [_ [_ Hr]]]]].
  rewrite Hr, HrD, map_map. apply Forall2_map_r_self. intros [l r] Hin.
  unfold T. cbn [fst snd].
  set (r1 := set_cell OpenLiq VNone r).
  assert (HinD : In (l, r1) (rows D)).
  { rewrite HrD. apply in_map_iff. exists (l, r). split; [reflexivity|exact Hin]. }
  assert (HndD : NoDup (map fst (rows D))).
  { rewrite HrD, map_map. unfold T. cbn [fst].
    apply (pk_ok_labels_NoDup n d Hpk). }
  assert (HlabD : forall lr, In lr (rows D) ->
            fst lr = [cell Index (snd lr)] /\
            is_int (cell Index (snd lr)) = true).
  { intros lr HlrD. rewrite HrD in HlrD. apply in_map_iff in HlrD.
    destruct HlrD as [lr0 [<- H0]]. unfold T. cbn [fst snd].
    rewrite cell_set_cell_other by discriminate.
    split; [apply (pk_ok_labelled n d Hpk lr0 H0) | apply (pk_ok_int n d lr0 Hpk H0)]. }
  assert (HlabG : forall k lr,
            In lr (rows (with_rows D (group_rows [Lkid; Ticker] k D))) ->
            fst lr = [cell Index (snd lr)] /\
            is_int (cell Index (snd lr)) = true).
  { intros k lr Hlr. cbn [rows with_rows] in Hlr. apply group_rows_In in Hlr.
    apply HlabD. apply Hlr. }
  assert (Hsub : forall k p, In k (group_keys [Lkid; Ticker] D) ->
            step4_partition (with_rows D (group_rows [Lkid; Ticker] k D)) = Ok p ->
            incl (labels p) (map fst (group_rows [Lkid; Ticker] k D))).
  { intros k p _ Hp l0 Hl0. unfold labels in Hl0. apply in_map_iff in Hl0.
    destruct Hl0 as [lr' [<- Hlr']].
    destruct (step4_partition_label _ _ lr' (HlabG k) HcD Hp Hlr')
      as [x [m [_ [Hm [Hfm _]]]]].
    apply group_rows_In in Hm. destruct Hm as [Hm _]. cbn [rows with_rows] in Hm.
    apply in_map_iff. exists m. split; [symmetry; exact Hfm | exact Hm]. }
  destruct (fold_apply_partition_groups [Lkid; Ticker] step4_partition D ps
              (columns D) HndD Hsub HF l r1 r1 HinD) as [Hna Hgrp].
  assert (Hk2 : key_of [Lkid; Ticker] r1 = [cell Lkid r; cell Ticker r]).
  { unfold r1. rewrite key_of_set_cell by reflexivity. reflexivity. }
  rewrite Hk2 in Hna, Hgrp.
  assert (Hsame : forall c, c <> OpenLiq -> cell c r1 = cell c r).
  { intros c Hc. unfold r1. apply cell_set_cell_other. exact Hc. }
  assert (Hout : forall c, has_column c step4_written = false -> c <> OpenLiq).
  { intros c Hc ->. discriminate. }
  assert (Hopen : cell OpenLiq r1 = VNone) by apply cell_set_cell_same.
  assert (Hl : l = [cell Index r]) by apply (pk_ok_labelled n d Hpk (l, r) Hin).
  split; [reflexivity|].
  unfold is_representative, collision_group, next_day_group. cbn [key_of map].
  set (a := cell Lkid r) in *. set (b := cell Ticker r) in *.
  set (c := cell Date r) in *.
  assert (Hk3 : existsb isna [a; b; c] = existsb isna [a; b] || isna c).
  { cbn [existsb]. rewrite !orb_false_r, orb_assoc. reflexivity. }
  destruct (existsb isna [a; b]) eqn:HA.
  { (* no (lkid, ticker) group *)
    rewrite (Hna eq_refl), Hk3. cbn [orb negb andb]. split.
    - intros c0 Hc0. apply Hsame. apply Hout. exact Hc0.
    - split; [exact Hopen | exact Hsame]. }
  destruct (Hgrp eq_refl) as [p [Hp [HP ->]]]. clear Hna Hgrp.
  set (G := with_rows D (group_rows [Lkid; Ticker] [a; b] D)) in *.
  destruct (step4_partition_rows G p HcD HP) as [Hcp HR].
  pose proof (step4_partition_open_liq G p HcD HP) as HR2.
  assert (HNest : forall x,
            group_rows [Date] [x] G
            = map T (group_rows [Lkid; Ticker; Date] [a; b; x] d)).
  { intros x. unfold G. rewrite group_rows_nested. unfold D.
    apply collision_group_setitem. }
  assert (HinG : In (l, r1) (rows G)).
  { unfold G. cbn [rows with_rows]. apply group_rows_In. split; [exact HinD|].
    cbn [snd]. exact Hk2. }
  assert (Hdate : cell Date r1 = c) by (apply Hsame; discriminate).
  assert (Hidx : cell Index r1 = cell Index r) by (apply Hsame; discriminate).
  assert (Hrep : forall that, lookup_label l (rows p) = Some that ->
            isna c = false /\
            cell Index r
            = series_min (series_of Index
                            (group_rows [Lkid; Ticker; Date] [a; b; c] d))).
  { intros that El. apply lookup_label_In in El.
    destruct (step4_partition_label _ _ (l, that) (HlabG [a; b]) HcD HP El)
      as [x [m [Hx [Hm [Hfm Emin]]]]]. cbn [fst] in Hfm.
    pose proof Hm as Hm'. apply group_rows_In in Hm'. destruct Hm' as [HmG Hkm].
    assert (HmD : In m (rows D)).
    { unfold G in HmG. cbn [rows with_rows] in HmG.
      apply group_rows_In in HmG. apply HmG. }
    assert (Em : (l, r1) = m).
    { apply (same_label_same_row (rows D)); assumption. }
    subst m. cbn [snd key_of map] in Hkm, Emin. rewrite Hdate in Hkm. subst x.
    apply group_keys_In in Hx. destruct Hx as [Hx _].
    cbn [existsb] in Hx. rewrite orb_false_r in Hx. split; [exact Hx|].
    rewrite HNest in Emin. unfold T in Emin.
    rewrite series_of_setitem in Emin by discriminate.
    rewrite <- Hidx. exact Emin. }
  unfold apply_partition.
  destruct (negb (existsb isna [a; b; c])
            && value_eqb (cell Index r)
                 (series_min (series_of Index
                    (group_rows [Lkid; Ticker; Date] [a; b; c] d)))) eqn:Erep.
  - (* the representative of its collision group *)
    apply andb_true_iff in Erep. destruct Erep as [Ena Emin].
    apply negb_true_iff in Ena. rewrite Hk3 in Ena. cbn [orb] in Ena.
    apply value_eqb_eq in Emin.
    assert (Hx : In [c] (group_keys [Date] G)).
    { apply group_keys_In. split.
      - cbn [existsb]. rewrite Ena. reflexivity.
      - exists (l, r1). split; [exact HinG|]. cbn [snd key_of map].
        rewrite Hdate. reflexivity. }
    destruct (Forall2_In_l _ _ _ _ (Forall2_conj _ _ _ _ HR HR2) Hx)
      as [[l' that] [Hin' [[Hf [HAn [HSe [HPal [HExp HOL]]]]] Hrule]]].
    cbn [fst snd] in Hf, HAn, HSe, HPal, HExp, HOL, Hrule.
    rewrite HNest in Hf, HAn, HSe, HPal, HExp.
    unfold T in Hf, HAn, HSe, HPal, HExp.
    rewrite series_of_setitem in Hf, HAn, HSe, HPal, HExp by discriminate.
    rewrite <- Emin, <- Hl in Hf. subst l'.
    assert (Hlook : lookup_label l (rows p) = Some that).
    { apply lookup_label_NoDup; [|exact Hin'].
      rewrite Forall_forall in Hnds. apply (Hnds p Hp). }
    rewrite Hlook.
    assert (Hin5 : forall c0, In c0 [Index; Analyst; Sector; Pal; Exposure] ->
              has_column c0 (columns D) = true)
      by (intros c0; apply all_columns_in_In; exact HcD).
    split.
    + intros c0 Hc0. rewrite update_row_other.
      * apply Hsame. apply Hout. exact Hc0.
      * rewrite has_column_filter, Hcp. fold step4_written. rewrite Hc0.
        apply andb_false_r.
    + assert (EPal : cell Pal (update_row
                         (filter (fun c0 => has_column c0 (columns p)) (columns D))
                         that r1) = cell Pal that).
      { apply update_row_same.
        - rewrite has_column_filter, Hcp.
          rewrite (Hin5 Pal) by (cbn; tauto). reflexivity.
        - apply (group_sum_not_na _ _ HPal). }
      assert (EExp : cell Exposure (update_row
                         (filter (fun c0 => has_column c0 (columns p)) (columns D))
                         that r1) = cell Exposure that).
      { apply update_row_same.
        - rewrite has_column_filter, Hcp.
          rewrite (Hin5 Exposure) by (cbn; tauto). reflexivity.
        - apply (group_sum_not_na _ _ HExp). }
      assert (EOL : cell OpenLiq (update_row
                         (filter (fun c0 => has_column c0 (columns p)) (columns D))
                         that r1) = cell OpenLiq that).
      { apply update_row_same; [|exact HOL].
        rewrite has_column_filter, Hcp, HoD. reflexivity. }
      assert (ECo : forall c0, In c0 [Index; Analyst; Sector; Pal; Exposure] ->
                has_column c0 [Analyst; Sector; Pal; Exposure; OpenLiq] = true ->
                cell c0 (update_row
                           (filter (fun c1 => has_column c1 (columns p)) (columns D))
                           that r1)
                = coalesce (cell c0 that) (cell c0 r)).
      { intros c0 Hc0 Hc1. rewrite update_row_cell, has_column_filter, Hcp.
        rewrite (Hin5 c0 Hc0), Hc1. cbn [andb]. unfold coalesce.
        destruct (isna (cell c0 that)); cbn [negb]; [|reflexivity].
        apply Hsame. intros ->. cbn [In] in Hc0. intuition discriminate. }
      rewrite (ECo Analyst) by (cbn; tauto).
      rewrite (ECo Sector) by (cbn; tauto).
      rewrite EPal, EExp, EOL, HAn, HSe.
      split; [reflexivity|]. split; [reflexivity|].
      split; [exact HPal|]. split; [exact HExp|]. split; [exact HOL|].
      intros z Hz. destruct (Hrule z (f_equal (fun v => [v]) Hz)) as [Hnext Hlast].
      rewrite HNest in Hnext. unfold T in Hnext.
      rewrite series_of_setitem in Hnext by discriminate.
      split.
      * intros Hne. apply Hnext. apply group_keys_In. split; [reflexivity|].
        destruct (group_rows [Lkid; Ticker; Date] [a; b; VDate (z + 1)] d)
          as [|m rest] eqn:Em; [congruence|].
        assert (Hm : In (T m) (group_rows [Date] [VDate (z + 1)] G)).
        { rewrite HNest, Em. left; reflexivity. }
        apply group_rows_In in Hm. exists (T m). exact Hm.
      * intros Hnil. apply Hlast. intros Hk. apply group_keys_In in Hk.
        destruct Hk as [_ [m [Hm Hkm]]].
        assert (Hm' : In m (group_rows [Date] [VDate (z + 1)] G))
          by (apply group_rows_In; auto).
        rewrite HNest, Hnil in Hm'. destruct Hm'.
  - (* another row of a collision group, or a row without a date *)
    destruct (lookup_label l (rows p)) as [that|] eqn:El.
    + exfalso. destruct (Hrep that eq_refl) as [Hc Emin].
      rewrite Hk3, Hc in Erep. cbn [orb negb andb] in Erep.
      rewrite <- Emin in Erep.
      assert (E : value_eqb (cell Index r) (cell Index r) = true)
        by (apply value_eqb_eq; reflexivity).
      congruence.
    + split.
      * intros c0 Hc0. apply Hsame. apply Hout. exact Hc0.
      * split; [exact Hopen | exact Hsame].
Qed.

(** X11. Step 4 on the whole frame, in either mode: when it completes
    on a frame that carries the primary key of step 1 and has the columns
    it aggregates, every row keeps its label and its cells outside
    [analyst], [sector], [pal], [exposure] and [open_liq].  Among the rows
    that share an lkid, a ticker and a date, none of them missing, the one
    with the least ["index"] receives the sums of [pal] and of [exposure]
    over these rows, the least [analyst] and the least [sector] among
    them (its own where they are all missing), and an [open_liq] that is
    not missing.  Every other row is left as it was, with an empty
    [open_liq]. *)
Theorem step4_writes_representatives :
  forall (n : nat) (w w' : world) (o : obj) (executor : Executor),
    call_of_df_task w o executor ->
    pk_ok n (deref w o) ->
    all_columns_in [Index; Analyst; Sector; Pal; Exposure]
                   (columns (deref w o)) = true ->
    step4_compute_open_liq o executor w = (Val o, w') ->
    Forall2 (fun lr lr' =>
               fst lr' = fst lr /\
               (forall c, has_column c step4_written = false ->
                          cell c (snd lr') = cell c (snd lr)) /\
               if is_representative (deref w o) (snd lr)
               then cell Analyst (snd lr')
                    = coalesce (series_min
                                  (series_of Analyst
                                     (collision_group (deref w o) (snd lr))))
                               (cell Analyst (snd lr)) /\
                    cell Sector (snd lr')
                    = coalesce (series_min
                                  (series_of Sector
                                     (collision_group (deref w o) (snd lr))))
                               (cell Sector (snd lr)) /\
                    agg_sum (series_of Pal (collision_group (deref w o) (snd lr)))
                    = Ok (cell Pal (snd lr')) /\
                    agg_sum (series_of Exposure
                               (collision_group (deref w o) (snd lr)))
                    = Ok (cell Exposure (snd lr')) /\
                    isna (cell OpenLiq (snd lr')) = false
               else cell OpenLiq (snd lr') = VNone /\
                    forall c, c <> OpenLiq ->
                              cell c (snd lr') = cell c (snd lr))
            (rows (deref w o)) (rows (deref w' o)).
Proof.
  intros n w w' o executor Hcall Hpk Hcols H.
  pose proof (step4_run o executor w Hcall) as L.
  destruct (step4_frame (deref w o)) as [d'|e] eqn:E; unfold leaves in L.
  - rewrite L in H. injection H as <-.
    rewrite (deref_set_obj_same w o d' (call_valid w o executor Hcall)).
    eapply Forall2_impl; [|apply (step4_frame_rows n _ _ Hpk Hcols E)].
    cbv beta. intros lr lr' [H1 [H2 H3]].
    split; [exact H1|]. split; [exact H2|].
    destruct (is_representative (deref w o) (snd lr)); [|exact H3].
    destruct H3 as [Ha [Hs [Hp [He [Ho _]]]]].
    split; [exact Ha|]. split; [exact Hs|]. split; [exact Hp|].
    split; [exact He | exact Ho].
  - destruct L as [w1 L]. rewrite L in H. discriminate.
Qed.

Lemma step4_writes_representatives_witness :
  Forall2 (fun lr lr' =>
             fst lr' = fst lr /\
             (forall c, has_column c step4_written = false ->
                        cell c (snd lr') = cell c (snd lr)) /\
             if is_representative (deref (world_after 3 blotter_collision) O)
                                  (snd lr)
             then cell Analyst (snd lr')
                  = coalesce (series_min
                                (series_of Analyst
                                   (collision_group
                                      (deref (world_after 3 blotter_collision) O)
                                      (snd lr))))
                             (cell Analyst (snd lr)) /\
                  cell Sector (snd lr')
                  = coalesce (series_min
                                (series_of Sector
                                   (collision_group
                                      (deref (world_after 3 blotter_collision) O)
                                      (snd lr))))
                             (cell Sector (snd lr)) /\
                  agg_sum (series_of Pal
                             (collision_group
                                (deref (world_after 3 blotter_collision) O)
                                (snd lr)))
                  = Ok (cell Pal (snd lr')) /\
                  agg_sum (series_of Exposure
                             (collision_group
                                (deref (world_after 3 blotter_collision) O)
                                (snd lr)))
                  = Ok (cell Exposure (snd lr')) /\
                  isna (cell OpenLiq (snd lr')) = false
             else cell OpenLiq (snd lr') = VNone /\
                  forall c, c <> OpenLiq ->
                            cell c (snd lr') = cell c (snd lr))
          (rows (deref (world_after 3 blotter_collision) O))
          (rows (deref (snd (step4_compute_open_liq O (mkExecutor O true)
                               (world_after 3 blotter_collision))) O)).
Proof.
  apply (step4_writes_representatives 3 (world_after 3 blotter_collision)
           (snd (step4_compute_open_liq O (mkExecutor O true)
                   (world_after 3 blotter_collision)))
           O (mkExecutor O true)).
  - unfold call_of_df_task, valid. cbn [_df].
    split; [vm_compute; lia|]. split; [vm_compute; lia|]. left; reflexivity.
  - vm_compute. reflexivity.
  - vm_compute. reflexivity.
  - vm_compute. reflexivity.
Defined.

(* ================================================================== *)
(** * Step 6 on a blotter in the order of its groups *)
(* ================================================================== *)

Lemma isort_sorted_id {A} (leb : A -> A -> bool) (l : list A) :
  Sorted (fun x y => leb x y = true) l -> isort leb l = l.
Proof.
  induction l as [|x l IH]; intros H; [reflexivity|].
  inversion H as [|? ? Hs Hh]; subst. unfold isort. cbn [fold_right].
  fold (isort leb l). rewrite (IH Hs).
  destruct Hh as [|y tl Hxy]; [reflexivity|].
  cbn [insert_sorted]. rewrite Hxy. reflexivity.
Qed.

Lemma dedup_NoDup_id (l : list label) : NoDup l -> dedup l = l.
Proof.
  induction l as [|x l IH]; intros H; [reflexivity|].
  inversion H as [|? ? Hni Hnd]; subst. cbn [dedup]. rewrite (IH Hnd).
  destruct (existsb (label_eqb x) l) eqn:E; [|reflexivity].
  apply existsb_label_In in E. contradiction.
Qed.

(** The group keys of a frame whose rows come in ascending order of
    their keys, no two with the same key and none with a missing one,
    are the keys of its rows. *)
Lemma group_keys_sorted (keys : list column) (d : DataFrame) :
  (forall lr, In lr (rows d) -> existsb isna (key_of keys (snd lr)) = false) ->
  NoDup (map (fun lr => key_of keys (snd lr)) (rows d)) ->
  Sorted (fun x y => label_leb x y = true)
         (map (fun lr => key_of keys (snd lr)) (rows d)) ->
  group_keys keys d = map (fun lr => key_of keys (snd lr)) (rows d).
Proof.
  intros Hna Hnd Hs. unfold group_keys.
  rewrite filter_all_true.
  - rewrite (dedup_NoDup_id _ Hnd). apply isort_sorted_id. exact Hs.
  - intros k Hk. apply in_map_iff in Hk. destruct Hk as [lr [<- Hlr]].
    rewrite (Hna lr Hlr). reflexivity.
Qed.

Lemma filter_none {A} (p : A -> bool) (l : list A) :
  (forall x, In x l -> p x = false) -> filter p l = [].
Proof.
  induction l as [|x l IH]; intros H; [reflexivity|]. cbn [filter].
  rewrite (H x (or_introl eq_refl)). apply IH. intros y Hy. apply H.
  right; exact Hy.
Qed.

Lemma group_rows_unique (keys : list column) (d : DataFrame) (lr : label * row) :
  NoDup (map (fun lr => key_of keys (snd lr)) (rows d)) ->
  In lr (rows d) ->
  group_rows keys (key_of keys (snd lr)) d = [lr].
Proof.
  unfold group_rows. induction (rows d) as [|x l IH]; intros Hnd Hin;
    [destruct Hin|].
  cbn [map] in Hnd. inversion Hnd as [|? ? Hni Hnd']; subst. cbn [filter].
  destruct Hin as [->|Hin].
  - rewrite label_eqb_refl. f_equal.
    apply filter_none.
    intros y Hy. apply label_eqb_neq. intros E. apply Hni. rewrite <- E.
    apply in_map_iff. exists y. auto.
  - assert (E : label_eqb (key_of keys (snd x)) (key_of keys (snd lr)) = false).
    { apply label_eqb_neq. intros E. apply Hni. rewrite E.
      apply in_map_iff. exists lr. auto. }
    rewrite E. apply (IH Hnd' Hin).
Qed.

Lemma series_min_single (c : column) (lr : label * row) :
  isna (cell c (snd lr)) = false ->
  series_min (series_of c [lr]) = cell c (snd lr).
Proof.
  intros H. unfold series_min, series_of. cbn [map fold_left snd].
  rewrite H. reflexivity.
Qed.

Lemma agg_sum_single (c : column) (lr : label * row) :
  isna (cell c (snd lr)) = false ->
  agg_sum (series_of c [lr]) = Ok (cell c (snd lr)).
Proof.
  intros H. unfold agg_sum, series_of. cbn [map snd group_sum].
  rewrite H. reflexivity.
Qed.

Lemma step6_frame_sorted_input (n : nat) (d : DataFrame) :
  enters_step6 n d ->
  (forall lr, In lr (rows d) -> complete_row (columns d) lr = true) ->
  NoDup (map (fun lr => key_of [Date; Lkid] (snd lr)) (rows d)) ->
  Sorted (fun x y => label_leb x y = true)
         (map (fun lr => key_of [Date; Lkid] (snd lr)) (rows d)) ->
  exists d',
    step6_frame d = Ok d' /\
    nrows d' = n /\
    forall lr, In lr (rows d) ->
      exists lr', In lr' (rows d') /\
                  forall c, c <> Index -> cell c (snd lr') = cell c (snd lr).
Proof.
  intros Hd Hcomp Hnd Hs. pose proof Hd as [Hpk [Hidx [Hcols Hty]]].
  destruct (step6_another_df_spec n d Hd)
    as [another_df [Ha [Hac [_ [Hak Harows]]]]].
  destruct (step6_aggregates n d Hd) as [another_df' [Hagg HF]].
  assert (another_df' = another_df) by (destruct Hagg as [Ha' _]; congruence).
  subst another_df'.
  pose proof Hagg as [_ [_ [Hlab [_ Hna]]]].
  assert (Hfull : forall lr c, In lr (rows d) -> has_column c (columns d) = true ->
            isna (cell c (snd lr)) = false).
  { intros lr c Hlr Hc. pose proof (Hcomp lr Hlr) as H. unfold complete_row in H.
    rewrite forallb_forall in H. apply negb_true_iff. apply H.
    apply has_column_In. exact Hc. }
  assert (Hin7 : forall c, In c step6_aggregated -> has_column c (columns d) = true).
  { intros c Hc. apply (all_columns_in_In _ _ _ Hcols).
    unfold step6_aggregated in Hc. exact Hc. }
  assert (Hgk : group_keys [Date; Lkid] d
                = map (fun lr => key_of [Date; Lkid] (snd lr)) (rows d)).
  { apply group_keys_sorted; [|exact Hnd|exact Hs].
    intros lr Hlr. cbn [key_of map existsb].
    rewrite (Hfull lr Date Hlr), (Hfull lr Lkid Hlr);
      [reflexivity | apply Hin7 | apply Hin7];
      unfold step6_aggregated; simpl; tauto. }
  assert (Hlen : List.length (rows another_df) = List.length (rows d)).
  { apply (f_equal (@List.length label)) in Hak.
    rewrite Hgk, !length_map in Hak. exact Hak. }
  assert (Hmerged : forall lr, In lr (rows d) ->
            complete_row (columns d) (step6_merged another_df (columns d) lr) = true /\
            forall c, c <> Index ->
              cell c (snd (step6_merged another_df (columns d) lr))
              = cell c (snd lr)).
  { intros lr Hlr.
    destruct (pk_label_nat n d lr Hpk Hlr) as [j Hj].
    destruct (nth_error_positions (rows d) 0 (pk_labels_positions n d Hpk)
                lr j Hlr Hj) as [_ Hnth].
    rewrite Nat.sub_0_r in Hnth.
    pose proof (step6_merged_row n d another_df Hd Hac Hlab Hna lr j Hlr Hj) as HM.
    destruct (nth_error (rows another_df) j) as [a|] eqn:En.
    2:{ exfalso. apply nth_error_None in En.
        assert (Hlt : (j < List.length (rows d))%nat)
          by (apply nth_error_Some; congruence).
        lia. }
    destruct HM as [H1 [H2 H3]].
    assert (Hina : In a (rows another_df)) by (eapply nth_error_In; exact En).
    assert (Hkey : key_of [Date; Lkid] (snd a) = key_of [Date; Lkid] (snd lr)).
    { rewrite Hgk in Hak.
      apply (f_equal (fun l => nth_error l j)) in Hak.
      rewrite !nth_error_map, En, Hnth in Hak. cbn [option_map] in Hak.
      congruence. }
    destruct (Harows a Hina)
      as [g0 [rest [Hg [_ [_ [HAn [HSe [HPa [HEx HRe]]]]]]]]].
    rewrite Hkey, (group_rows_unique [Date; Lkid] d lr Hnd Hlr) in Hg.
    injection Hg as <- <-.
    cbn [key_of map] in Hkey. injection Hkey as HDa HLk.
    split.
    - rewrite H3. unfold complete_outside.
      pose proof (Hcomp lr Hlr) as H. unfold complete_row in H.
      rewrite forallb_forall in H. apply forallb_forall. intros c Hc.
      rewrite (H c Hc). apply orb_true_r.
    - intros c Hc.
      destruct (has_column c step6_aggregated) eqn:E7; [|apply H2; assumption].
      apply has_column_In in E7. rewrite (H1 c E7).
      pose proof (Hfull lr c Hlr (Hin7 c E7)) as Hc0.
      unfold step6_aggregated in E7. cbn [In] in E7.
      destruct E7 as [<-|[<-|[<-|[<-|[<-|[<-|[<-|[]]]]]]]].
      + exact HDa.
      + exact HLk.
      + rewrite HAn. apply series_min_single. exact Hc0.
      + rewrite HSe. apply series_min_single. exact Hc0.
      + rewrite (agg_sum_single Pal lr Hc0) in HPa. congruence.
      + rewrite (agg_sum_single Exposure lr Hc0) in HEx. congruence.
      + rewrite (agg_sum_single Return lr Hc0) in HRe. congruence. }
  destruct (step6_result_origin n d another_df Hd Hagg) as [Hcount _].
  eexists. split; [exact HF|]. split.
  - rewrite Hcount, Hgk, length_map, firstn_all, filter_all_true.
    + apply (pk_is_index_nrows n d Hpk).
    + intros lr Hlr. pose proof (Hcomp lr Hlr) as H. unfold complete_row in H.
      unfold complete_outside. rewrite forallb_forall in H.
      apply forallb_forall. intros c Hc. rewrite (H c Hc). apply orb_true_r.
  - intros lr Hlr. destruct (Hmerged lr Hlr) as [Hc Hcells].
    assert (Hin : In (snd (step6_merged another_df (columns d) lr))
                     (map snd (rows (step6_result (columns d)
                        (map (step6_merged another_df (columns d)) (rows d)))))).
    { apply (Permutation_in _ (Permutation_sym (step6_result_rows _ _))).
      apply in_map. apply filter_In. split; [|exact Hc].
      apply in_map. exact Hlr. }
    apply in_map_iff in Hin. destruct Hin as [lr' [E Hlr']].
    exists lr'. split; [exact Hlr'|]. intros c Hc0. rewrite E.
    apply Hcells. exact Hc0.
Qed.

(** X12. Step 6 on a blotter in the order of its groups: when the rows
    that enter step 6 have no missing value, no two of them share a
    (date, lkid), and they come in ascending order of (date, lkid), step 6
    completes and loses nothing: the result has as many rows as the frame
    that entered, and every row that entered is found in it with all its
    cells other than ["index"]. *)
Theorem step6_keeps_ordered_blotter :
  forall (n : nat) (w : world) (o : obj),
    valid w o ->
    enters_step6 n (deref w o) ->
    (forall lr, In lr (rows (deref w o)) ->
                complete_row (columns (deref w o)) lr = true) ->
    NoDup (map (fun lr => key_of [Date; Lkid] (snd lr)) (rows (deref w o))) ->
    Sorted (fun x y => label_leb x y = true)
           (map (fun lr => key_of [Date; Lkid] (snd lr)) (rows (deref w o))) ->
    exists w',
      step6_agg_daily o w = (Val o, w') /\
      nrows (deref w' o) = n /\
      forall lr, In lr (rows (deref w o)) ->
        exists lr', In lr' (rows (deref w' o)) /\
                    forall c, c <> Index ->
                              cell c (snd lr') = cell c (snd lr).
Proof.
  intros n w o Hv Hd Hcomp Hnd Hs.
  destruct (step6_frame_sorted_input n _ Hd Hcomp Hnd Hs)
    as [d' [HF [Hn Hrows]]].
  exists (set_obj w o d'). split; [apply (step6_completes w o d' Hv HF)|].
  rewrite (deref_set_obj_same w o d' Hv). split; [exact Hn | exact Hrows].
Qed.

Lemma step6_keeps_ordered_blotter_witness :
  exists w',
    step6_agg_daily O (world_after 5 blotter_two_days) = (Val O, w') /\
    nrows (deref w' O) = 2%nat /\
    forall lr, In lr (rows (deref (world_after 5 blotter_two_days) O)) ->
      exists lr', In lr' (rows (deref w' O)) /\
                  forall c, c <> Index ->
                            cell c (snd lr') = cell c (snd lr).
Proof.
  apply (step6_keeps_ordered_blotter 2 (world_after 5 blotter_two_days) O).
  - unfold valid. vm_compute. lia.
  - unfold enters_step6, pk_is_index.
    split; [split; vm_compute; reflexivity|].
    split; [vm_compute; reflexivity|].
    split; [vm_compute; reflexivity|].
    intros lr Hin. vm_compute in Hin.
    destruct Hin as [<-|[<-|[]]]; vm_compute; repeat split; reflexivity.
  - intros lr Hin. vm_compute in Hin.
    destruct Hin as [<-|[<-|[]]]; vm_compute; reflexivity.
  - vm_compute. repeat constructor; simpl; intuition discriminate.
  - vm_compute. repeat constructor.
Defined.

(** X13. The [open_liq] that step 4 leaves in the whole frame, in either
    mode: when step 4 completes on a frame that carries the primary key of
    step 1 and has the columns it aggregates, the row that stands for the
    rows of its lkid, ticker and date [z] holds, as [open_liq], the sum of
    the exposures of the rows of the same lkid and ticker dated [z + 1]
    when there are such rows, and its own [exposure - pal] (both already
    summed over its date) when there are none. *)
Theorem step4_open_liq_of_representatives :
  forall (n : nat) (w w' : world) (o : obj) (executor : Executor),
    call_of_df_task w o executor ->
    pk_ok n (deref w o) ->
    all_columns_in [Index; Analyst; Sector; Pal; Exposure]
                   (columns (deref w o)) = true ->
    step4_compute_open_liq o executor w = (Val o, w') ->
    Forall2 (fun lr lr' =>
               is_representative (deref w o) (snd lr) = true ->
               forall z, cell Date (snd lr) = VDate z ->
                 (next_day_group (deref w o) (snd lr) z <> [] ->
                  agg_sum (series_of Exposure
                             (next_day_group (deref w o) (snd lr) z))
                  = Ok (cell OpenLiq (snd lr'))) /\
                 (next_day_group (deref w o) (snd lr) z = [] ->
                  value_sub (cell Exposure (snd lr')) (cell Pal (snd lr'))
                  = Ok (cell OpenLiq (snd lr'))))
            (rows (deref w o)) (rows (deref w' o)).
Proof.
  intros n w w' o executor Hcall Hpk Hcols H.
  pose proof (step4_run o executor w Hcall) as L.
  destruct (step4_frame (deref w o)) as [d'|e] eqn:E; unfold leaves in L.
  - rewrite L in H. injection H as <-.
    rewrite (deref_set_obj_same w o d' (call_valid w o executor Hcall)).
    eapply Forall2_impl; [|apply (step4_frame_rows n _ _ Hpk Hcols E)].
    cbv beta. intros lr lr' [_ [_ H3]] Hrep. rewrite Hrep in H3.
    destruct H3 as [_ [_ [_ [_ [_ Hrule]]]]]. exact Hrule.
  - destruct L as [w1 L]. rewrite L in H. discriminate.
Qed.

Lemma step4_open_liq_of_representatives_witness :
  Forall2 (fun lr lr' =>
             is_representative (deref (world_after 3 blotter_collision) O)
                               (snd lr) = true ->
             forall z, cell Date (snd lr) = VDate z ->
               (next_day_group (deref (world_after 3 blotter_collision) O)
                               (snd lr) z <> [] ->
                agg_sum (series_of Exposure
                           (next_day_group
                              (deref (world_after 3 blotter_collision) O)
                              (snd lr) z))
                = Ok (cell OpenLiq (snd lr'))) /\
               (next_day_group (deref (world_after 3 blotter_collision) O)
                               (snd lr) z = [] ->
                value_sub (cell Exposure (snd lr')) (cell Pal (snd lr'))
                = Ok (cell OpenLiq (snd lr'))))
          (rows (deref (world_after 3 blotter_collision) O))
          (rows (deref (snd (step4_compute_open_liq O (mkExecutor O true)
                               (world_after 3 blotter_collision))) O)).
Proof.
  apply (step4_open_liq_of_representatives 3
           (world_after 3 blotter_collision)
           (snd (step4_compute_open_liq O (mkExecutor O true)
                   (world_after 3 blotter_collision)))
           O (mkExecutor O true)).
  - unfold call_of_df_task, valid. cbn [_df].
    split; [vm_compute; lia|]. split; [vm_compute; lia|]. left; reflexivity.
  - vm_compute. reflexivity.
  - vm_compute. reflexivity.
  - vm_compute. reflexivity.
Defined.

(* ================================================================== *)
(** * The frame that steps 1 to 5 deliver *)
(* ================================================================== *)

Lemma rowwise_In (R : row -> row -> Prop) (d d' : DataFrame) (lr' : label * row) :
  rowwise R d d' -> In lr' (rows d') ->
  exists lr, In lr (rows d) /\ R (snd lr) (snd lr').
Proof.
  intros H Hin. destruct (Forall2_In_r _ _ _ _ H Hin) as [lr [Hlr [_ HR]]].
  exists lr. auto.
Qed.

Lemma step1_frame_cells (n : nat) (d d' : DataFrame) (lr' : label * row) :
  csv_frame n d -> step1_frame d = Ok d' -> In lr' (rows d') ->
  exists lr, In lr (rows d) /\
             forall c, c <> Index -> cell c (snd lr') = cell c (snd lr).
Proof.
  intros [cols [rs [-> [Hc _]]]] H Hin.
  unfold step1_frame, reset_index, frame_of_rows in H.
  cbn [index_names columns rows] in H. rewrite Hc in H.
  cbn [existsb nodup_columns has_column negb andb orb] in H. rewrite Hc in H.
  cbn [orb] in H. injection H as <-. cbn [rows] in Hin.
  apply range_index_In in Hin. apply in_map_iff in Hin.
  destruct Hin as [lr [E Hlr]]. exists lr. split; [exact Hlr|].
  intros c Hc0. rewrite <- E. destruct (fst lr) as [|v l]; cbn [set_cells];
    [reflexivity|].
  destruct l; apply cell_set_cell_other; exact Hc0.
Qed.

Lemma Decimal_of_value_dec (v v' : value) :
  isna v = false -> Decimal_of_value v = Ok v' -> is_dec v' = true.
Proof.
  destruct v; cbn [Decimal_of_value isna]; try discriminate; intros _.
  - intros H; injection H as <-; reflexivity.
  - destruct (Decimal s); cbn [rbind]; [|discriminate].
    intros H; injection H as <-; reflexivity.
  - intros H; injection H as <-; reflexivity.
  - intros H; injection H as <-; reflexivity.
Qed.

(** Step 2 types the rows: a sector that is a string becomes a category,
    a [pal] and an [exposure] that are not missing become decimals, the
    analyst is not touched. *)
Lemma step2_frame_typed (to_datetime : string -> result Z) (d d' : DataFrame) :
  step2_frame to_datetime d = Ok d' ->
  rowwise (fun r r' =>
             is_str (cell Sector r) = true ->
             isna (cell Pal r) = false -> isna (cell Exposure r) = false ->
             cell Analyst r' = cell Analyst r /\
             is_cat (cell Sector r') = true /\
             is_dec (cell Pal r') = true /\ is_dec (cell Exposure r') = true)
          d d'.
Proof.
  unfold step2_frame. intros H.
  destruct (astype_ordered_category Sector d) as [d1|] eqn:E1; cbn [rbind] in H;
    [|discriminate].
  destruct (rename_categories Sector rename_sector d1) as [d2|] eqn:E2;
    cbn [rbind] in H; [|discriminate].
  destruct (apply_column Pal Decimal_of_value d2) as [d3|] eqn:E3;
    cbn [rbind] in H; [|discriminate].
  destruct (apply_column Exposure Decimal_of_value d3) as [d4|] eqn:E4;
    cbn [rbind] in H; [|discriminate].
  apply astype_ordered_category_rowwise in E1.
  apply rename_categories_rowwise in E2.
  apply apply_column_rowwise in E3, E4, H.
  pose proof (rowwise_trans _ _ _ _ _
                (rowwise_trans _ _ _ _ _
                   (rowwise_trans _ _ _ _ _
                      (rowwise_trans _ _ _ _ _ E1 E2) E3) E4) H) as HR.
  eapply rowwise_weaken; [|exact HR]. cbv beta.
  intros r r' [r4 [[r3 [[r2 [[r1 [H1 H2]] H3]] H4]] H5]] Hs Hp He.
  destruct (cell Sector r) as [| | s | | | |] eqn:Es; try discriminate.
  destruct H1 as [i ->]. rewrite cell_set_cell_same in H2. subst r2.
  destruct H3 as [vp [Hvp ->]]. destruct H4 as [ve [Hve ->]].
  destruct H5 as [vd [_ ->]].
  repeat rewrite cell_set_cell_other in Hvp by discriminate.
  repeat rewrite cell_set_cell_other in Hve by discriminate.
  repeat (rewrite cell_set_cell_same
          || rewrite cell_set_cell_other by discriminate).
  split; [reflexivity|]. split; [reflexivity|].
  split; [apply (Decimal_of_value_dec _ _ Hp Hvp)
         | apply (Decimal_of_value_dec _ _ He Hve)].
Qed.

Lemma step3_frame_cells (d d' : DataFrame) :
  step3_frame d = Ok d' ->
  rowwise (fun r r' => forall c, c <> Ticker -> cell c r' = cell c r) d d'.
Proof.
  unfold step3_frame. destruct (negb (has_column Ticker (columns d))).
  - intros H. apply assign_rowwise_rowwise in H.
    eapply rowwise_weaken; [|exact H]. cbv beta.
    intros r r' [v [_ ->]] c Hc. apply cell_set_cell_other. exact Hc.
  - intros H. injection H as <-. unfold rowwise.
    rewrite <- (map_id (rows d)) at 2. apply Forall2_map_r_self.
    intros lr _. split; reflexivity.
Qed.

Lemma value_div_summable (a t v : value) :
  value_div a t = Ok v -> summable v = true.
Proof.
  destruct a, t; cbn [value_div]; try discriminate;
    try (intros H; injection H as <-; reflexivity);
    destruct (Dec.div _ _); cbn [rbind]; try discriminate;
    intros H; injection H as <-; reflexivity.
Qed.

(** Step 4 keeps the rows of a frame typed. *)
Lemma step4_frame_typed (n : nat) (d d' : DataFrame) :
  pk_ok n d ->
  all_columns_in [Index; Analyst; Sector; Pal; Exposure] (columns d) = true ->
  (forall lr, In lr (rows d) -> typed_row (snd lr)) ->
  step4_frame d = Ok d' ->
  forall lr', In lr' (rows d') -> typed_row (snd lr').
Proof.
  intros Hpk Hcols Hty H lr' Hin'.
  destruct (Forall2_In_r _ _ _ _ (step4_frame_rows n d d' Hpk Hcols H) Hin')
    as [lr [Hin [_ [_ HR]]]].
  destruct (Hty lr Hin) as [TA [TS [TP TE]]].
  destruct (is_representative d (snd lr)) eqn:Erep.
  - destruct HR as [HA [HS [HP [HE _]]]].
    unfold is_representative in Erep. apply andb_true_iff in Erep.
    destruct Erep as [Ena _].
    set (S := collision_group d (snd lr)) in *.
    assert (HinS : In lr S).
    { unfold S, collision_group. apply group_rows_In. auto. }
    assert (Hne : forall c, series_of c S <> []).
    { intros c E. unfold series_of in E. apply map_eq_nil in E.
      rewrite E in HinS. destruct HinS. }
    assert (HtyS : forall x, In x S -> typed_row (snd x)).
    { intros x Hx. apply Hty. unfold S, collision_group in Hx.
      apply group_rows_In in Hx. apply Hx. }
    assert (Hcol : forall (P : value -> bool) c,
              (forall x, In x S -> P (cell c (snd x)) = true) ->
              forall lv, In lv (series_of c S) -> P (snd lv) = true).
    { intros P c HPc lv Hlv. unfold series_of in Hlv. apply in_map_iff in Hlv.
      destruct Hlv as [x [<- Hx]]. cbn [snd]. apply HPc. exact Hx. }
    assert (MA : is_str (series_min (series_of Analyst S)) = true).
    { apply (series_min_least is_str is_str_not_na value_leb_str_total
               value_leb_str_trans); [apply Hne|].
      apply Hcol. intros x Hx. apply (HtyS x Hx). }
    assert (MS : is_cat (series_min (series_of Sector S)) = true).
    { apply (series_min_least is_cat is_cat_not_na value_leb_cat_total
               value_leb_cat_trans); [apply Hne|].
      apply Hcol. intros x Hx. apply (HtyS x Hx). }
    assert (Hsum : forall c v,
              (forall x, In x S -> is_dec (cell c (snd x)) = true) ->
              agg_sum (series_of c S) = Ok v -> is_dec v = true).
    { intros c v Hc Hv. unfold agg_sum in Hv.
      destruct (group_sum_dec (map snd (series_of c S))) as [z Hz].
      - intros E. apply map_eq_nil in E. apply (Hne c E).
      - apply Forall_forall. intros u Hu. apply in_map_iff in Hu.
        destruct Hu as [lv [<- Hlv]]. apply (Hcol is_dec c Hc lv Hlv).
      - rewrite Hz in Hv. injection Hv as <-. reflexivity. }
    unfold typed_row. rewrite HA, HS. unfold coalesce.
    rewrite (is_str_not_na _ MA), (is_cat_not_na _ MS).
    split; [exact MA|]. split; [exact MS|]. split.
    + apply (Hsum Pal _ (fun x Hx => proj1 (proj2 (proj2 (HtyS x Hx)))) HP).
    + apply (Hsum Exposure _ (fun x Hx => proj2 (proj2 (proj2 (HtyS x Hx)))) HE).
  - destruct HR as [_ Hsame]. unfold typed_row.
    rewrite !Hsame by discriminate. auto.
Qed.

(** The frame that the first five steps deliver is a frame as step 6
    expects it. *)
Lemma frames5_enters_step6 (to_datetime : string -> result Z) (n : nat)
  (input d5 : DataFrame) :
  csv_frame n input ->
  all_columns_in [Date; Lkid; Analyst; Sector; Pal; Exposure] (columns input)
  = true ->
  names_analyst_and_sector input ->
  has_pal_and_exposure input ->
  frames (firstn 5 (PIPELINE_FRAMES to_datetime)) input = Ok d5 ->
  enters_step6 n d5.
Proof.
  intros Hin Hcols Hnames Hpriced HF.
  unfold PIPELINE_FRAMES in HF. cbn [firstn frames] in HF.
  destruct (step1_frame input) as [d1|] eqn:E1; cbn [rbind] in HF; [|discriminate].
  destruct (step2_frame to_datetime d1) as [d2|] eqn:E2; cbn [rbind] in HF;
    [|discriminate].
  destruct (step3_frame d2) as [d3|] eqn:E3; cbn [rbind] in HF; [|discriminate].
  destruct (step4_frame d3) as [d4|] eqn:E4; cbn [rbind] in HF; [|discriminate].
  destruct (step5_frame d4) as [d5'|] eqn:E5; cbn [rbind] in HF; [|discriminate].
  injection HF as <-.
  pose proof (step1_frame_pk n _ _ Hin E1) as P1.
  pose proof (step2_frame_pk _ n _ _ P1 E2) as P2.
  pose proof (step3_frame_pk n _ _ P2 E3) as P3.
  pose proof (step4_frame_pk n _ _ P3 E4) as P4.
  pose proof (step5_frame_pk n _ _ P4 E5) as P5.
  destruct (step1_frame_columns n _ _ Hin E1) as [C1 _].
  destruct (step2_frame_columns _ _ _ E2) as [C2 _].
  destruct (step3_frame_columns _ _ E3) as [C3 _].
  destruct (step4_frame_columns _ _ E4) as [C4 _].
  destruct (step5_frame_columns _ _ E5) as [C5 _].
  assert (Hin6 : forall c, In c [Date; Lkid; Analyst; Sector; Pal; Exposure] ->
            has_column c (columns input) = true)
    by (intros c; apply all_columns_in_In; exact Hcols).
  assert (Hall3 : forall x, has_column x (columns d3)
                  = column_eqb x Index || has_column x (columns input)
                    || column_eqb x Ticker).
  { intros x. rewrite C3, has_column_added, C2, C1. reflexivity. }
  assert (Hall5 : forall x, has_column x (columns d5')
                  = ((column_eqb x Index || has_column x (columns input)
                      || column_eqb x Ticker || column_eqb x OpenLiq)
                     && negb (column_eqb x Index)) || column_eqb x Return).
  { intros x. rewrite C5, has_column_step5_columns, C4, has_column_added, Hall3.
    reflexivity. }
  (* the rows are typed from step 2 on *)
  assert (T1 : forall lr, In lr (rows d1) ->
            (is_str (cell Analyst (snd lr)) = true /\
             is_str (cell Sector (snd lr)) = true) /\
            (isna (cell Pal (snd lr)) = false /\
             isna (cell Exposure (snd lr)) = false)).
  { intros lr Hlr.
    destruct (step1_frame_cells n _ _ lr Hin E1 Hlr) as [lr0 [Hlr0 Hc]].
    rewrite !Hc by discriminate.
    split; [apply (Hnames lr0 Hlr0) | apply (Hpriced lr0 Hlr0)]. }
  assert (T2 : forall lr, In lr (rows d2) -> typed_row (snd lr)).
  { intros lr Hlr.
    destruct (rowwise_In _ _ _ lr (step2_frame_typed _ _ _ E2) Hlr)
      as [lr1 [Hlr1 HR]].
    destruct (T1 lr1 Hlr1) as [[TA TS] [NP NE]].
    destruct (HR TS NP NE) as [EA [HS [HP HE]]].
    unfold typed_row. rewrite EA. auto. }
  assert (T3 : forall lr, In lr (rows d3) -> typed_row (snd lr)).
  { intros lr Hlr.
    destruct (rowwise_In _ _ _ lr (step3_frame_cells _ _ E3) Hlr)
      as [lr2 [Hlr2 HR]].
    unfold typed_row. rewrite !HR by discriminate. apply (T2 lr2 Hlr2). }
  assert (Hcols3 : all_columns_in [Index; Analyst; Sector; Pal; Exposure]
                                  (columns d3) = true).
  { unfold all_columns_in. cbn [forallb]. rewrite !Hall3.
    rewrite (Hin6 Analyst), (Hin6 Sector), (Hin6 Pal), (Hin6 Exposure)
      by (cbn; tauto).
    reflexivity. }
  pose proof (step4_frame_typed n _ _ P3 Hcols3 T3 E4) as T4.
  split; [exact P5|]. split; [|split].
  - rewrite Hall5. reflexivity.
  - unfold all_columns_in. cbn [forallb]. rewrite !Hall5.
    rewrite (Hin6 Date), (Hin6 Lkid), (Hin6 Analyst), (Hin6 Sector),
      (Hin6 Pal), (Hin6 Exposure) by (cbn; tauto).
    cbn [column_eqb orb andb negb]. rewrite ?orb_true_r. reflexivity.
  - intros lr Hlr.
    destruct (Forall2_In_r _ _ _ _ (step5_frame_rows n _ _ P4 E5) Hlr)
      as [lr4 [Hlr4 [_ [Hsame HRet]]]].
    destruct (T4 lr4 Hlr4) as [TA [TS [TP TE]]].
    assert (E : forall c, c <> Return -> c <> Index ->
                          cell c (snd lr) = cell c (snd lr4)) by exact Hsame.
    rewrite (E Analyst), (E Sector), (E Pal), (E Exposure) by discriminate.
    split; [exact TA|]. split; [exact TS|].
    unfold summable at 1 2. rewrite TP, TE.
    split; [reflexivity|]. split; [reflexivity|].
    destruct (isna (cell Date (snd lr4))).
    + assert (E0 : cell Return (snd lr) = VNone) by exact HRet.
      rewrite E0. reflexivity.
    + destruct HRet as [t [_ Hv]]. apply (value_div_summable _ _ _ Hv).
Qed.

(** X14. Step 6 never raises in a run.  On an input as [read_csv]
    delivers it, with the columns [date], [lkid], [analyst], [sector],
    [pal] and [exposure], in which every row names an analyst and a
    sector and has a [pal] and an [exposure] (numbers, or their numerals):
    when the first five stages complete, in either mode, the frame
    they deliver is a frame as step 6 expects it (the primary key is its
    index; analysts are strings, sectors categories, [pal], [exposure] and
    [return] decimals or missing), and the whole run completes. *)
Theorem run_reaches_step6 :
  forall (to_datetime : string -> result Z) (eager : bool) (n : nat)
         (input : DataFrame) (e' : Executor) (w' : world),
    csv_frame n input ->
    all_columns_in [Date; Lkid; Analyst; Sector; Pal; Exposure]
                   (columns input) = true ->
    names_analyst_and_sector input ->
    has_pal_and_exposure input ->
    run (firstn 5 (PIPELINE_STEPS to_datetime)) (mkExecutor O eager)
        (initial_world input) = (Val e', w') ->
    enters_step6 n (deref w' (df e')) /\
    exists d w, blottercli to_datetime eager input = (Val d, w).
Proof.
  intros to_datetime eager n input e' w' Hin Hcols Hnames Hpriced Hrun.
  pose proof (run_prefix_frame to_datetime eager n 5 input ltac:(lia) Hin) as R5.
  pose proof (run_prefix_frame to_datetime eager n 6 input ltac:(lia) Hin) as R6.
  pose proof (frames5_enters_step6 to_datetime n input) as HE.
  destruct (frames (firstn 5 (PIPELINE_FRAMES to_datetime)) input) as [d5|e] eqn:E5.
  2:{ destruct R5 as [w1 R5]. rewrite R5 in Hrun. discriminate. }
  destruct R5 as [e1 [w1 [R5 [Hd _]]]]. rewrite R5 in Hrun.
  injection Hrun as -> ->. rewrite Hd.
  specialize (HE d5 Hin Hcols Hnames Hpriced eq_refl).
  split; [exact HE|].
  destruct (step6_aggregates n d5 HE) as [another_df [_ H6]].
  assert (E6 : frames (firstn 6 (PIPELINE_FRAMES to_datetime)) input
               = step6_frame d5).
  { unfold PIPELINE_FRAMES in *. cbn [firstn frames] in *.
    destruct (step1_frame input) as [d1|]; cbn [rbind] in *; [|discriminate].
    destruct (step2_frame to_datetime d1) as [d2|]; cbn [rbind] in *;
      [|discriminate].
    destruct (step3_frame d2) as [d3|]; cbn [rbind] in *; [|discriminate].
    destruct (step4_frame d3) as [d4|]; cbn [rbind] in *; [|discriminate].
    destruct (step5_frame d4) as [d5'|]; cbn [rbind] in *; [|discriminate].
    injection E5 as ->. destruct (step6_frame d5); reflexivity. }
  rewrite E6, H6 in R6. destruct R6 as [e6 [w6 [R6 _]]].
  change (firstn 6 (PIPELINE_STEPS to_datetime))
    with (PIPELINE_STEPS to_datetime) in R6.
  unfold blottercli. rewrite R6. eauto.
Qed.

Lemma run_reaches_step6_witness :
  enters_step6 2 (deref (world_after 5 blotter_two_days) (df (mkExecutor O true))) /\
  exists d w, blottercli iso_date true blotter_two_days = (Val d, w).
Proof.
  apply (run_reaches_step6 iso_date true 2 blotter_two_days
           (mkExecutor O true) (world_after 5 blotter_two_days)).
  - unfold csv_frame, blotter_two_days. do 2 eexists.
    split; [reflexivity|]. split; reflexivity.
  - vm_compute. reflexivity.
  - intros lr Hlr. vm_compute in Hlr.
    destruct Hlr as [<-|[<-|[]]]; vm_compute; split; reflexivity.
  - intros lr Hlr. vm_compute in Hlr.
    destruct Hlr as [<-|[<-|[]]]; vm_compute; split; reflexivity.
  - vm_compute. reflexivity.
Defined.
